(* ===== verification/_CoqProject ===== *)
-Q . S2P
Prelude.v
Chain.v
Bytes.v
Descriptor.v
State.v
Inject.v
Concrete.v
Memory.v
RdmaWrite.v
Pools.v
Pkt.v
Rdma.v
ConnList.v
Connect.v
Transfer.v
Bcast.v
RecFifo.v
Receive.v
Msg.v
Lock.v
Kernel.v
Reset.v
Cleanup.v
Activate.v
LinkReset.v
Personality.v
Init.v
Start.v
StartStop.v
VerbsMem.v
Verbs.v
VerbsConn.v
VerbsQp.v
VerbsConcrete.v
VerbsLog.v
VerbsRecv.v
VerbsSend.v
VerbsCm.v
VerbsCep.v
VerbsAttr.v
