(* ===== verification/Prelude.v ===== *)
(** * Verification of the BG/Q data mover (bgmudm) and its verbs driver (bgvrnic)

    bgmudm is the Linux driver with which an I/O node of a BG/Q system moves
    data over the torus: it owns one injection FIFO per I/O link and one
    reception FIFO of the message unit (MU), keeps connections to compute
    nodes, sends packets and direct puts, tracks RDMA transfers by hardware
    counters, and takes part in collectives.  Its parts and how they meet:

    - the injection FIFO is the only way out: every operation that sends
      ends in a descriptor written into it;
    - packet buffers and RDMA objects are pooled; a sending operation takes
      one, and a polling routine recognises by the descriptor count of the
      MU (packets) or a counter in memory (RDMA) that it is free again and
      reports the request to the user;
    - a connection block names the link, the pools and the template
      descriptors an operation on that connection uses;
    - the reception FIFO feeds [mudm_recv_packet], which hands packets to the
      connection protocol, the broadcast protocol, the injection FIFO (direct
      puts and remote gets sent as packets) or the user.

    The user in the repository is bgvrnic, which offers OFED verbs on top:
    queue pairs with send, receive and completion queues, registered memory,
    and a connection manager.  It calls bgmudm to send and to connect, and
    bgmudm calls it back when data, a status or a connection message
    arrives; [mu_status_cb] may post the next request from inside a poll.

    ** How the code is modelled

    A C function is a function in the monad [M] of this file over the state
    [world] (State.v): [Ok a s] is a return, [Fault] an invalid dereference
    or a failed assertion, [Hang] a loop that ran out of fuel.  [wp m Q s]
    says that [m] run from [s] {b returns}, and in a state that satisfies
    [Q], so every theorem stated with [wp] includes termination and the
    absence of faults.  [world] is [struct my_context] with the heaps of
    connection blocks, packet descriptors and RDMA objects, the locks held,
    the hardware ([hw]) and the trace of what left the driver (descriptors
    injected, callbacks called, regions freed).  Integers are [Z] with
    the width of the member written out ([u16], [u32], [u64]).  Packed
    structures that the code casts are byte lists (Bytes.v).  What is not in
    the source is the record [platform]: the step of the MU, the callbacks
    of the user, the memory allocator, the wakeup wait.  [MuLive] states
    what is documented of the MU: its free space and its descriptor count
    catch up in a bounded number of observations.

    The Linux kernel around bgvrnic is the interface [Kernel]: [kmalloc n]
    answers the [n]th request for memory with an unused address or refuses
    it ([KernelLaws] is all that most theorems ask of it, [CmKernelLaws]
    gives the size of a message on the stack).  Theorems about one
    successful scenario (the handshake, one packet, one send) ask that
    memory is granted ([KernelRoomy]).  A status callback of bgmudm is any
    that keeps to [PostingStatus]: it may take free nodes, post them and
    inject, but not undo what a poll has detached; for flushing, when the
    link is down, it is one that does not call the driver ([QuietStatus]).

    ** Files

    - Prelude: record updates, machine integers, the monad and its [wp].
    - Chain: lists threaded through an array ([next], [prev] members) as
      abstract sequences; the interface [Linked].
    - Bytes: members of packed big-endian structures.
    - Descriptor: mudm_descriptor.c, and the network and MU headers under
      include/hwi it fills in.
    - State: common.h, mudm_lock.h (one thread), [platform], [world].
    - Inject: include/spi/include/mu/InjFifo.h and common_inlines.h.
    - Concrete: a platform and a state for the witnesses.
    - Memory: the allocation half of mudm_cleanup.c.
    - RdmaWrite: [mudm_rdma_write] of mudm.c.
    - Pools: the list surgery shared by the two kinds of pool, against the
      interface [Pool]; Pkt: mudm_pkt.c, mudm_pkt.h; Rdma: rdma_object.c,
      rdma_object.h.
    - ConnList, Connect: mudm_connect.c, its lists and its protocol.
    - Transfer: the other operations of mudm.c on a connection
      ([mudm_send_pkt], [mudm_send_message_remote], [mudm_rdma_read]).
    - Bcast: mudm_bcast.c, mudm_poll_bcast.c.
    - RecFifo: RecFifo.h and Fifo.h of the SPI and [fifo_poll] of mudm.c;
      Receive: [mudm_recv_packet] and the polling loops of mudm.c.
    - Msg: mudm_msg.c, mudm_atomic.c, mudm_ip.c.
    - Lock: mudm_lock.c, mudm_lock.h as an interleaving of threads.
    - Kernel: include/MU_impl.h and the end of spi/include/kernel/MU.h, the
      allocation of FIFOs and base address table entries.
    - Reset: spi/include/mu/Reset.h, the reset sequence over the registers
      of the message unit and the network ([chip]).
    - Cleanup: the other half of mudm_cleanup.c and the routines of
      mudm_init.c that give FIFOs back, over the state [node] that joins the
      driver, the registers and the subgroup of each link.
    - Activate: the routines of mudm_init.c that take FIFOs and base
      addresses; LinkReset: [mudm_resetIOlink], which composes Pools,
      ConnList, Reset and Activate.
    - Personality: mudm_personality.c.
    - Init: [mudm_init] with [alloc_pkt_list_object] of mudm_pkt.c,
      [rdma_init] of rdma_object.c and [bcast_init]; Start: what each of its
      steps builds; StartStop: the whole of it, and followed by termination.
    - Verbs, VerbsMem, VerbsQp: bgvrnic_verbs.c, bgvrnic.h and the callbacks
      of bgvrnic_main.c over the state [vnic] (queue pairs, entries,
      completion queues, regions, and the state of the data mover below);
      VerbsConn: bgvrnic_cm.c.  They see the data mover through the
      interfaces [DataMover] and [ConnMover]; VerbsConcrete instantiates
      both with the bgmudm of the files above and, for the witnesses, with
      one that answers from a list.
    - VerbsLog, VerbsRecv, VerbsSend, VerbsCm, VerbsCep, VerbsAttr: the
      theorems about them.

    ** Theorems

    - RDMA write (RdmaWrite): what a scatter list describes ends at the
      address 0 or the length 0 (mudm.h).  For lists without empty pieces
      the puts sent are, byte for byte, an initial part of the pairing of
      what the two lists describe, with the result and the error put that
      follow.  The code goes on behind an empty piece, which a theorem of
      its own states; transfers of 4 GB and more never succeed.  RDMA read
      (Transfer): the same for the remote-get packets and the tracking
      object.
    - Pools (Pkt, Rdma, Pools): one poll sorts the active list into
      finished and pending nodes, reports every finished request once, in
      order, in batches of eight, and loses no node, whatever the status
      callback posts meanwhile ([PostingStatus], [PostingRdma]); flushing
      cancels everything; layout of the compare area.
    - Connections (ConnList, Connect): the list operations refine moves
      between abstract lists; the disconnect protocol; the layout of the
      connection packets read back; both ends choose the same route.
    - Broadcast (Bcast): lengths of reduces, the announcement, one vote per
      node and one report per broadcast.
    - Reception (RecFifo, Receive): polling ends with an empty FIFO and every
      packet, wrapped ones included, is handed on once and in order; packets
      of direct puts are executed as the sender wrote them; refused packets
      are answered.
    - Messages (Msg: the way a message takes is that of a table of the
      options), locks (Lock: mutual exclusion over all interleavings,
      and progress of a thread that runs undisturbed), MU resources (Kernel:
      allocation is exclusive and undone by deallocation).
    - Start and stop (Reset, Cleanup, LinkReset): the reset sequence ends and
      touches exactly the registers of its subgroup and link; termination
      and link reset cancel every open request once, tell every user of an
      active connection, free every region once, or leave the link ready on
      the same memory.
    - Initialisation (Personality, Start, StartStop): [mudm_init] leaves the
      state from which the other theorems start (links active, pools and
      connection blocks free, the identity of the personality), termination
      takes exactly that down again, and a second start fails.  The allocator
      is any that finds room ([RoomyAlloc]); what the compiler lays out
      ([layout]) and what memory holds before it is written ([unwritten])
      are parameters.
    - Queue pairs (VerbsLog): in any run receives complete in order and
      sends at most once; a request is missing only for a refused call of
      [kmalloc], and none is when no call is refused.  VerbsRecv, VerbsSend:
      what one packet stores and what one send hands down, byte for byte.
      VerbsMem: translation of scatter-gather lists and page mapping.
    - Connections of queue pairs (VerbsCm, VerbsCep, VerbsAttr): connecting,
      the handshake of two nodes, the list of endpoints in any run, what
      modify stores and query reads, and the uses of freed memory that
      destroying a queue pair leads to.
    - Theorems about behaviour that differs from what the code or its
      documentation intends say so in their comments.

    ** Bounds and fuel

    Loops over lists are structural or have the length of the list as fuel.
    The loops that wait for the MU take [spin_fuel]; [MuLive] gives a rank
    that every observation decreases and that is below [spin_fuel], so the
    theorems prove that this fuel is enough.  Polling the reception FIFO
    also takes [spin_fuel], and its theorems ask that it covers the packets
    that are there and those that still arrive meanwhile; the walk over one
    stretch of packets has the number of 32-byte chunks in it as fuel.  The
    doubling loop of the compare area has fuel 52, the number of doublings
    from 2048 bytes to the width of the size.  Reset takes at most ten
    sequence numbers, and [run_reset] has fuel 11; the wait for the
    receiving engines inside it has a fuel of its own, and [ResetLive] states
    that the engines come to rest within it once they are disabled.  [mudm_start_poll] is meant to
    run until the driver terminates: the wakeup wait of the platform sets
    that state.

    ** Not modelled

    - The wakeup unit (mudm_wu.c): device registers; on Linux [mudm_init]
      switches it off.
    - Flight recorder, RAS events, dumps (mudm_trace.c, mudm_ras.c,
      mudm_utils.c, flightlog.h): logging without effect on the driver.
    - bgmudm_main.c (module entry points), roq_db (45 lines).
    - Of bgvrnic: the module entry and the polling thread, the network
      device (bgvrnic_eth.c), creating and registering objects apart from
      the mapping of pages, the answers about devices, ports and protection
      domains, the verbs that are not supported, and the spin locks (one
      thread).  The Linux RDMA core it is called by is not under src/.
    - The register definitions of include/hwi: generated; constants are
      modelled where the driver uses them.
    - Memory reuse: a region that was freed and is still reachable is not
      tracked in bgmudm, and the contents of user memory are not modelled
      there (a put is identified by its addresses and length); bgvrnic has
      both: freed objects fault, and packets are stored into memory. *)

From Stdlib Require Export ZArith Lia.
From stdpp Require Export base list gmap option functions tactics.

#[export] Set Default Goal Selector "!".
Global Open Scope Z_scope.

(** ** Record field update: [r <| f := v |>] *)

Class FieldsOf (R : Type) := rebuild : R -> R.

Class Upd {R T : Type} (f : R -> T) := upd_field : (T -> T) -> R -> R.

Ltac derive_upd f :=
  lazymatch type of f with
  | ?R -> ?T =>
      let inst := constr:(_ : FieldsOf R) in
      let body := eval cbv [rebuild] in (@rebuild R inst) in
      let body := eval hnf in body in
      let abs := eval pattern f in body in
      lazymatch abs with
      | ?g f => let res := eval cbv beta in
                  (fun (u : T -> T) (r : R) => g (fun s : R => u (f s)) r) in
                exact res
      end
  end.

#[export] Hint Extern 1 (Upd ?f) => derive_upd f : typeclass_instances.

Declare Scope mudm_scope.
Delimit Scope mudm_scope with mudm.
Global Open Scope mudm_scope.

Notation "r <| f := v |>" := (@upd_field _ _ f _ (fun _ => v) r)
  (at level 1, left associativity, f at next level, v at level 200,
   format "r  <| f  :=  v |>") : mudm_scope.
Notation "r <| f ::= u |>" := (@upd_field _ _ f _ u r)
  (at level 1, left associativity, f at next level, u at level 200,
   format "r  <| f  ::=  u |>") : mudm_scope.

(** ** Machine integers: a w-bit unsigned word is a [Z] below [2^w] *)

Definition u8 (x : Z) : Z := x mod 2 ^ 8.
Definition u16 (x : Z) : Z := x mod 2 ^ 16.
Definition u32 (x : Z) : Z := x mod 2 ^ 32.
Definition u64 (x : Z) : Z := x mod 2 ^ 64.
(** A 32-bit [int]. *)
Definition s32 (x : Z) : Z := let x := u32 x in if x <? 2 ^ 31 then x else x - 2 ^ 32.

(** The all-ones 64-bit word, [(uint64_t)-1]. *)
Definition u64_max : Z := 2 ^ 64 - 1.

(** ** Error codes (include/asm-generic/errno of the kernel the modules
    are built for) *)

Definition EPERM := 1.
Definition E2BIG := 7.
Definition EAGAIN := 11.
Definition ENOMEM := 12.
Definition EFAULT := 14.
Definition EBUSY := 16.
Definition EINVAL := 22.
Definition ENOSYS := 38.
Definition EXFULL := 54.
Definition EBADRQC := 56.
Definition EPROTO := 71.
Definition EILSEQ := 84.
Definition ECONNRESET := 104.
Definition ENOTCONN := 107.
Definition EINPROGRESS := 115.
Definition ECANCELED := 125.

(** ** Stateful computations

    [Ok a s] is a normal return; [Fault] is a dereference of NULL or of
    memory outside the allocated object; [Hang] is a wait whose
    condition did not become true within the given number of polls. *)

Inductive outcome (S A : Type) : Type :=
| Ok (a : A) (s : S)
| Fault
| Hang.
Arguments Ok {S A} _ _.
Arguments Fault {S A}.
Arguments Hang {S A}.

Definition M (S A : Type) : Type := S -> outcome S A.

Definition ret {S A} (a : A) : M S A := fun s => Ok a s.
Definition bind {S A B} (m : M S A) (k : A -> M S B) : M S B := fun s =>
  match m s with
  | Ok a s' => k a s'
  | Fault => Fault
  | Hang => Hang
  end.
Definition get {S} : M S S := fun s => Ok s s.
Definition put {S} (s : S) : M S unit := fun _ => Ok tt s.
Definition gets {S A} (f : S -> A) : M S A := fun s => Ok (f s) s.
Definition modify {S} (f : S -> S) : M S unit := fun s => Ok tt (f s).
Definition fault {S A} : M S A := fun _ => Fault.
Definition hang {S A} : M S A := fun _ => Hang.

(** A NULL check that faults, as the hardware does on [p->field]. *)
Definition deref {S A} (o : option A) : M S A :=
  match o with Some a => ret a | None => fault end.

Definition when {S} (b : bool) (m : M S unit) : M S unit :=
  if b then m else ret tt.

Notation "x <- m ;; k" := (bind m (fun x => k))
  (at level 100, m at next level, k at level 200, right associativity) : mudm_scope.
Notation "m ;;; k" := (bind m (fun _ => k))
  (at level 100, k at level 200, right associativity) : mudm_scope.

(** Total correctness: [m] returns, and the result satisfies [Q]. *)
Definition wp {S A} (m : M S A) (Q : A -> S -> Prop) (s : S) : Prop :=
  match m s with Ok a s' => Q a s' | _ => False end.

Section wp_rules.
Context {S A B : Type}.

Lemma wp_ret (a : A) (Q : A -> S -> Prop) s : Q a s -> wp (ret a) Q s.
Proof. done. Qed.

Lemma wp_bind (m : M S A) (k : A -> M S B) Q s :
  wp m (fun a s' => wp (k a) Q s') s -> wp (bind m k) Q s.
Proof. unfold wp, bind. by destruct (m s). Qed.

Lemma wp_bind_inv (m : M S A) (k : A -> M S B) Q s :
  wp (bind m k) Q s -> wp m (fun a s' => wp (k a) Q s') s.
Proof. unfold wp, bind. by destruct (m s). Qed.

Lemma wp_mono (m : M S A) (Q Q' : A -> S -> Prop) s :
  wp m Q s -> (forall a s', Q a s' -> Q' a s') -> wp m Q' s.
Proof. unfold wp. destruct (m s); naive_solver. Qed.

Lemma wp_modify (f : S -> S) (Q : unit -> S -> Prop) s :
  Q tt (f s) -> wp (modify f) Q s.
Proof. done. Qed.

Lemma wp_gets (f : S -> A) (Q : A -> S -> Prop) s : Q (f s) s -> wp (gets f) Q s.
Proof. done. Qed.

Lemma wp_deref (o : option A) a (Q : A -> S -> Prop) s :
  o = Some a -> Q a s -> wp (deref o) Q s.
Proof. by intros ->. Qed.

Lemma wp_ok (m : M S A) Q s : wp m Q s -> exists a s', m s = Ok a s' /\ Q a s'.
Proof. unfold wp. destruct (m s); naive_solver. Qed.

Lemma wp_intro (m : M S A) (Q : A -> S -> Prop) s a s' :
  m s = Ok a s' -> Q a s' -> wp m Q s.
Proof. unfold wp. by intros ->. Qed.

Lemma bind_ok (m : M S A) (k : A -> M S B) s a s' :
  m s = Ok a s' -> bind m k s = k a s'.
Proof. unfold bind. by intros ->. Qed.
End wp_rules.

(** One step of symbolic execution. *)
Ltac wp_step :=
  lazymatch goal with
  | |- wp (bind _ _) _ _ => apply wp_bind
  | |- wp (ret _) _ _ => apply wp_ret
  | |- wp (modify _) _ _ => apply wp_modify
  | |- wp (gets _) _ _ => apply wp_gets
  | |- wp (when true _) _ _ => cbn [when]
  | |- wp (when false _) _ _ => cbn [when]; apply wp_ret
  end.
Ltac wp_steps := repeat (wp_step; cbn beta iota).

(** Case analysis on a guard, and partial correctness. *)
Lemma wp_if {S A} (b : bool) (m1 m2 : M S A) Q s :
  (b = true -> wp m1 Q s) -> (b = false -> wp m2 Q s) -> wp (if b then m1 else m2) Q s.
Proof. destruct b; auto. Qed.

(** Partial correctness: if [m] returns, the result satisfies [Q]. *)
Definition returns {S A} (m : M S A) (Q : A -> Prop) : Prop :=
  forall w a w', m w = Ok a w' -> Q a.

Lemma returns_ret {S A} (a : A) (Q : A -> Prop) : Q a -> returns (S := S) (ret a) Q.
Proof. by intros ? w ? w' [= <- <-]. Qed.
Lemma returns_bind {S A B} (m : M S A) (k : A -> M S B) Q :
  (forall a, returns (k a) Q) -> returns (bind m k) Q.
Proof. intros H w b w'. unfold bind. destruct (m w) as [a w1| |] eqn:E; [apply H|done..]. Qed.
Lemma returns_bind2 {S A B} (m : M S A) (k : A -> M S B) R Q :
  returns m R -> (forall a, R a -> returns (k a) Q) -> returns (bind m k) Q.
Proof.
  intros Hm H w b w'. unfold bind.
  destruct (m w) as [a w1| |] eqn:E; [apply H; by eapply Hm|done..].
Qed.
Lemma returns_if {S A} (b : bool) (m1 m2 : M S A) Q :
  (b = true -> returns m1 Q) -> (b = false -> returns m2 Q) -> returns (if b then m1 else m2) Q.
Proof. destruct b; auto. Qed.

Ltac returns_tac :=
  repeat first [apply returns_if; intros ?|apply returns_ret|apply returns_bind; intros ?].

(** ** Hint database of the development *)

Create HintDb mudm discriminated.
Create Rewrite HintDb mudm.

Lemma u64_range x : 0 <= u64 x < 2 ^ 64.
Proof. apply Z.mod_pos_bound. lia. Qed.
Lemma u32_range x : 0 <= u32 x < 2 ^ 32.
Proof. apply Z.mod_pos_bound. lia. Qed.
Lemma u16_range x : 0 <= u16 x < 2 ^ 16.
Proof. apply Z.mod_pos_bound. lia. Qed.
Lemma u8_range x : 0 <= u8 x < 2 ^ 8.
Proof. apply Z.mod_pos_bound. lia. Qed.
Lemma u64_small x : 0 <= x < 2 ^ 64 -> u64 x = x.
Proof. intros ?. by apply Z.mod_small. Qed.
Lemma u32_small x : 0 <= x < 2 ^ 32 -> u32 x = x.
Proof. intros ?. by apply Z.mod_small. Qed.
Lemma u16_small x : 0 <= x < 2 ^ 16 -> u16 x = x.
Proof. intros ?. by apply Z.mod_small. Qed.
Lemma u8_small x : 0 <= x < 2 ^ 8 -> u8 x = x.
Proof. intros ?. by apply Z.mod_small. Qed.
#[export] Hint Resolve u64_range u32_range u16_range u8_range : mudm.
#[export] Hint Rewrite u64_small u32_small u16_small u8_small using lia : mudm.
