(* ===== verification/Chain.v ===== *)
(** * Intrusive linked lists

    The driver keeps its connection blocks, packet descriptors and RDMA
    objects in arrays and threads them on NULL-terminated lists through
    [next]/[prev] members.  A heap is a [gmap] from array index to node;
    [chain h p l] says that following [next] from [p] visits exactly the
    indices [l].  [Linked] is the interface a node type offers. *)

From S2P Require Import Prelude.

Class Linked (N : Type) := {
  nx : N -> option nat;
  set_nx : option nat -> N -> N;
  pv : N -> option nat;
  set_pv : option nat -> N -> N;
  nx_set_nx : forall p n, nx (set_nx p n) = p;
  nx_set_pv : forall p n, nx (set_pv p n) = nx n;
  pv_set_pv : forall p n, pv (set_pv p n) = p;
  pv_set_nx : forall p n, pv (set_nx p n) = pv n;
}.

Section chain.
Context {N : Type} `{!Linked N}.
Implicit Types (h : gmap nat N) (p : option nat) (l : list nat).

Fixpoint chain h p l : Prop :=
  match l with
  | [] => p = None
  | i :: l' => p = Some i /\ exists n, h !! i = Some n /\ chain h (nx n) l'
  end.

(** Following the list with a bound on the number of hops. *)
Fixpoint walk (fuel : nat) h p : option (list nat) :=
  match p, fuel with
  | None, _ => Some []
  | Some i, S fuel => n ← h !! i; l ← walk fuel h (nx n); Some (i :: l)
  | Some _, O => None
  end.

Lemma chain_None h l : chain h None l -> l = [].
Proof. destruct l; naive_solver. Qed.

Lemma chain_Some h i l :
  chain h (Some i) l -> exists n l', l = i :: l' /\ h !! i = Some n /\ chain h (nx n) l'.
Proof. destruct l; naive_solver. Qed.

Lemma chain_det h p l1 l2 : chain h p l1 -> chain h p l2 -> l1 = l2.
Proof.
  revert p l2; induction l1 as [|i l1 IH]; intros p [|j l2]; [done|naive_solver..|].
  intros [-> (n & Hn & H1)] [Hp (n' & Hn' & H2)]. simplify_eq. f_equal. eauto.
Qed.

Lemma chain_app h p l1 l2 :
  chain h p (l1 ++ l2) -> exists q, chain h q l2 /\
    (forall l2', chain h q l2' -> chain h p (l1 ++ l2')).
Proof.
  revert p; induction l1 as [|i l1 IH]; intros p; cbn; [by eauto|].
  intros [-> (n & Hn & H)]. destruct (IH _ H) as (q & ? & ?). eauto 10.
Qed.

Lemma chain_is_Some h p l i : chain h p l -> i ∈ l -> is_Some (h !! i).
Proof.
  revert p; induction l as [|j l IH]; intros p; [by intros _ ?%elem_of_nil|].
  intros [-> (n & Hn & H)] [->|?]%elem_of_cons; [by eauto|]. eauto.
Qed.

Lemma chain_head_in h i l : chain h (Some i) l -> i ∈ l.
Proof. intros (n & l' & -> & _)%chain_Some. apply elem_of_cons; auto. Qed.

Lemma chain_NoDup h p l : chain h p l -> NoDup l.
Proof.
  revert p; induction l as [|i l IH]; intros p; [by constructor|].
  intros [-> (n & Hn & H)]. constructor; [|by eauto].
  intros (l1 & l2 & ->)%list_elem_of_split.
  destruct (chain_app _ _ _ _ H) as (q & Hq & _).
  pose proof Hq as [-> _].
  assert (Hi : chain h (Some i) (i :: l1 ++ i :: l2)) by (cbn; eauto).
  pose proof (chain_det _ _ _ _ Hi Hq) as E.
  apply (f_equal length) in E. cbn in E. rewrite length_app in E. cbn in E. lia.
Qed.

(** Writes to nodes off the list do not disturb it. *)
Lemma chain_frame h h' p l :
  chain h p l -> (forall i, i ∈ l -> h' !! i = h !! i) -> chain h' p l.
Proof.
  revert p; induction l as [|i l IH]; intros p; [done|].
  intros [-> (n & Hn & H)] Hf. split; [done|]. exists n. split.
  { rewrite Hf; [done|]. apply elem_of_cons; auto. }
  apply IH; [done|]. intros j Hj. apply Hf. apply elem_of_cons; auto.
Qed.

(** ... nor do writes that leave [next] alone. *)
Lemma chain_alter_data h p l f j :
  (forall n, nx (f n) = nx n) -> chain h p l -> chain (alter f j h) p l.
Proof.
  intros Hf. revert p; induction l as [|i l IH]; intros p; [done|].
  intros [-> (n & Hn & H)]. split; [done|]. destruct (decide (j = i)) as [->|Hne].
  - exists (f n). rewrite lookup_alter_eq, Hn. rewrite Hf. eauto.
  - exists n. rewrite lookup_alter_ne by done. eauto.
Qed.

Lemma chain_alter_off h p l f j :
  j ∉ l -> chain h p l -> chain (alter f j h) p l.
Proof.
  intros Hj Hc. eapply chain_frame; [done|].
  intros i Hi. apply lookup_alter_ne. congruence.
Qed.

(** Pushing a node: [n->next = head]. *)
Lemma chain_push h p l i n :
  h !! i = Some n -> i ∉ l -> chain h p l ->
  chain (alter (set_nx p) i h) (Some i) (i :: l).
Proof.
  intros Hn Hi Hc. split; [done|]. exists (set_nx p n).
  rewrite lookup_alter_eq, Hn. split; [done|].
  rewrite nx_set_nx. by apply chain_alter_off.
Qed.

(** Appending a whole chain after the last node: [last->next = q]. *)
Lemma chain_splice h p l t q l2 :
  chain h p (l ++ [t]) -> chain h q l2 -> t ∉ l2 ->
  chain (alter (set_nx q) t h) p (l ++ t :: l2).
Proof.
  intros H Hq Ht. pose proof (chain_NoDup _ _ _ H) as Hnd.
  apply list.NoDup_app in Hnd as (_ & Hnd & _).
  revert p H; induction l as [|i l IH]; intros p.
  - intros [-> (n & Hn & _)]. by eapply chain_push.
  - intros [-> (n & Hn & H)]. split; [done|]. exists n.
    rewrite lookup_alter_ne; [|by intros ->; eapply Hnd; [apply elem_of_cons; by left|apply elem_of_cons; by left; done]].
    split; [done|]. apply IH; [|done].
    intros x Hx. apply Hnd. apply elem_of_cons; auto.
Qed.

Lemma chain_cut h p l t l2 :
  chain h p (l ++ t :: l2) -> chain (alter (set_nx None) t h) p (l ++ [t]).
Proof.
  intros H. pose proof (chain_NoDup _ _ _ H) as Hnd.
  apply list.NoDup_app in Hnd as (_ & Hnd & _).
  revert p H; induction l as [|i l IH]; intros p.
  - intros [-> (n & Hn & _)]. eapply chain_push; [done|apply not_elem_of_nil|done].
  - intros [-> (n & Hn & H)]. split; [done|]. exists n.
    rewrite lookup_alter_ne; [|by intros ->; eapply Hnd; [apply elem_of_cons; by left|apply elem_of_cons; by left]].
    split; [done|]. apply IH; [|done].
    intros x Hx. apply Hnd. apply elem_of_cons; auto.
Qed.

Lemma walk_chain fuel h p l :
  chain h p l -> (length l <= fuel)%nat -> walk fuel h p = Some l.
Proof.
  revert p l; induction fuel as [|fuel IH]; intros p [|i l]; cbn;
    [by intros ->|lia|by intros ->|].
  intros [-> (n & Hn & H)] Hl. rewrite Hn. cbn.
  rewrite (IH _ l); [done|done|lia].
Qed.

Lemma walk_sound fuel h p l : walk fuel h p = Some l -> chain h p l.
Proof.
  revert p l; induction fuel as [|fuel IH]; intros [i|] l; cbn; try naive_solver.
  destruct (h !! i) as [n|] eqn:Hn; cbn; [|done].
  destruct (walk fuel h (nx n)) as [l'|] eqn:Hl; cbn; [|done].
  intros [= <-]. cbn. eauto 10.
Qed.

Lemma chain_length h p l : chain h p l -> (length l <= size h)%nat.
Proof.
  intros H. rewrite <- (size_list_to_set (C := gset nat) l) by by eapply chain_NoDup.
  rewrite <- size_dom. apply subseteq_size. intros i Hi%elem_of_list_to_set.
  apply elem_of_dom. by eapply chain_is_Some.
Qed.

(** Doubly linked: [prev] of each node is its predecessor. *)
Fixpoint dchain h (pr : option nat) p l : Prop :=
  match l with
  | [] => p = None
  | i :: l' => p = Some i /\ exists n, h !! i = Some n /\ pv n = pr /\
                 dchain h (Some i) (nx n) l'
  end.

Lemma dchain_chain h pr p l : dchain h pr p l -> chain h p l.
Proof.
  revert pr p; induction l as [|i l IH]; intros pr p; [done|].
  intros [-> (n & Hn & _ & H)]. cbn. eauto.
Qed.

Lemma dchain_frame h h' pr p l :
  dchain h pr p l -> (forall i, i ∈ l -> h' !! i = h !! i) -> dchain h' pr p l.
Proof.
  revert pr p; induction l as [|i l IH]; intros pr p; [done|].
  intros [-> (n & Hn & Hp & H)] Hf. split; [done|]. exists n. split.
  { rewrite Hf; [done|]. apply elem_of_cons; auto. }
  split; [done|]. apply IH; [done|]. intros j Hj. apply Hf. apply elem_of_cons; auto.
Qed.

Lemma dchain_alter_off h pr p l f j :
  j ∉ l -> dchain h pr p l -> dchain (alter f j h) pr p l.
Proof.
  intros Hj Hc. eapply dchain_frame; [done|].
  intros i Hi. apply lookup_alter_ne. congruence.
Qed.

Lemma dchain_alter_data h pr p l f j :
  (forall n, nx (f n) = nx n) -> (forall n, pv (f n) = pv n) ->
  dchain h pr p l -> dchain (alter f j h) pr p l.
Proof.
  intros Hf Hg. revert pr p; induction l as [|i l IH]; intros pr p; [done|].
  intros [-> (n & Hn & Hp & H)]. split; [done|]. destruct (decide (j = i)) as [->|Hne].
  - exists (f n). rewrite lookup_alter_eq, Hn, Hf, Hg. eauto.
  - exists n. rewrite lookup_alter_ne by done. eauto.
Qed.

Lemma dchain_Some h pr i l :
  dchain h pr (Some i) l -> exists n l', l = i :: l' /\ h !! i = Some n /\ pv n = pr /\
    dchain h (Some i) (nx n) l'.
Proof. destruct l; naive_solver. Qed.

Lemma dchain_None h pr l : dchain h pr None l -> l = [].
Proof. destruct l; naive_solver. Qed.

(** [head->prev] is rewritten when the head changes. *)
Lemma dchain_set_head_prev h pr pr' i l :
  dchain h pr (Some i) l -> dchain (alter (set_pv pr') i h) pr' (Some i) l.
Proof.
  intros H. pose proof (chain_NoDup _ _ _ (dchain_chain _ _ _ _ H)) as Hnd.
  apply dchain_Some in H as (n & l' & -> & Hn & _ & H).
  apply list.NoDup_cons in Hnd as [Hi _].
  split; [done|]. exists (set_pv pr' n). rewrite lookup_alter_eq, Hn.
  split; [done|]. rewrite pv_set_pv, nx_set_pv. split; [done|].
  by apply dchain_alter_off.
Qed.

(** [if (p != NULL) p->field = v] *)
Definition oalter (p : option nat) (f : N -> N) h : gmap nat N :=
  match p with Some j => alter f j h | None => h end.

Lemma oalter_off p f h k : p <> Some k -> oalter p f h !! k = h !! k.
Proof. destruct p; cbn; [|done]. intros. rewrite lookup_alter_ne; congruence. Qed.

Lemma dchain_oalter_off h pr q l p f :
  (forall j, p = Some j -> j ∉ l) -> dchain h pr q l -> dchain (oalter p f h) pr q l.
Proof. destruct p; cbn; [|done]. intros Hp. apply dchain_alter_off. by apply Hp. Qed.

Lemma dchain_head h pr p l : dchain h pr p l -> p = head l.
Proof. destruct l; naive_solver. Qed.

Lemma dchain_NoDup h pr p l : dchain h pr p l -> NoDup l.
Proof. intros H. by eapply chain_NoDup, dchain_chain. Qed.

(** Pushing a node in front of the list. *)
Lemma dchain_push h p l i n (u : N -> N) :
  h !! i = Some n -> i ∉ l -> (forall n, nx (u n) = p) -> (forall n, pv (u n) = None) ->
  dchain h None p l ->
  dchain (alter u i (oalter p (set_pv (Some i)) h)) None (Some i) (i :: l).
Proof.
  intros Hn Hi Hu Hu' Hd. pose proof (dchain_head _ _ _ _ Hd) as Hp.
  assert (Hpi : p <> Some i) by (subst p; destruct l as [|j l]; [done|]; intros [= ->]; apply Hi; left).
  split; [done|]. eexists. rewrite lookup_alter_eq, oalter_off, Hn by done.
  split; [done|]. rewrite Hu, Hu'. split; [done|]. apply dchain_alter_off; [done|].
  destruct p as [j|]; cbn; [by eapply dchain_set_head_prev|].
  apply dchain_None in Hd as ->. done.
Qed.

(** Taking a node out of the list: its neighbours are linked together. *)
Definition unlink_heap (n : N) h : gmap nat N :=
  oalter (pv n) (set_nx (nx n)) (oalter (nx n) (set_pv (pv n)) h).

Lemma unlink_heap_off n h k : pv n <> Some k -> nx n <> Some k -> unlink_heap n h !! k = h !! k.
Proof. intros. unfold unlink_heap. by rewrite !oalter_off. Qed.

Lemma dchain_at h pr p l1 i l2 n :
  dchain h pr p (l1 ++ i :: l2) -> h !! i = Some n ->
  nx n = head l2 /\ pv n = (match list.last l1 with Some k => Some k | None => pr end).
Proof.
  revert pr p; induction l1 as [|x l1 IH]; intros pr p.
  - intros [-> (n' & Hn' & Hp & Hd)] Hn. simplify_eq. split; [exact (dchain_head _ _ _ _ Hd)|done].
  - intros [-> (n' & Hn' & Hp & Hd)] Hn. destruct (IH _ _ Hd Hn) as [-> ->].
    split; [done|]. destruct l1 as [|y l1]; [done|].
    change (list.last (x :: y :: l1)) with (list.last (y :: l1)).
    destruct (list.last (y :: l1)) eqn:E; [done|by apply last_None in E].
Qed.

Lemma last_in (l : list nat) k : list.last l = Some k -> k ∈ l.
Proof. intros (l' & ->)%last_Some. apply elem_of_app. right. left. Qed.

Lemma dchain_unlink h pr p l1 i l2 n :
  dchain h pr p (l1 ++ i :: l2) -> h !! i = Some n ->
  (forall k, pr = Some k -> k ∉ l1 ++ i :: l2) ->
  dchain (unlink_heap n h) pr (match l1 with [] => nx n | _ => p end) (l1 ++ l2).
Proof.
  revert pr p; induction l1 as [|x l1 IH]; intros pr p Hd Hn Hpr;
    pose proof (dchain_NoDup _ _ _ _ Hd) as Hnd; destruct (dchain_at _ _ _ _ _ _ _ Hd Hn) as [En Ep].
  - destruct Hd as [-> (n' & Hn' & Hp & Hd)]. simplify_eq. unfold unlink_heap. cbn [app].
    apply dchain_oalter_off.
    { intros j Hj Hin. apply (Hpr j Hj). by right. }
    destruct (nx n') as [j|] eqn:Ej; cbn; [by eapply dchain_set_head_prev|].
    apply dchain_None in Hd as ->. done.
  - destruct Hd as [-> (n' & Hn' & Hp & Hd)]. cbn [app] in *.
    apply list.NoDup_cons in Hnd as [Hx Hnd].
    split; [done|].
    specialize (IH (Some x) _ Hd Hn ltac:(by intros k [= <-])).
    destruct (dchain_at _ _ _ _ _ _ _ Hd Hn) as [En' Ep'].
    assert (Hnx : nx n <> Some x).
    { rewrite En. intros (l2' & ->)%head_Some. apply Hx, elem_of_app. right. right. left. }
    destruct l1 as [|y l1].
    + cbn in Ep'. exists (set_nx (nx n) n'). unfold unlink_heap at 1. rewrite Ep'. cbn [oalter].
      rewrite lookup_alter_eq, oalter_off, Hn' by done. rewrite nx_set_nx, pv_set_nx. done.
    + exists n'. rewrite unlink_heap_off; [done| |done].
      rewrite Ep'. destruct (list.last (y :: l1)) as [k|] eqn:El; [|by apply last_None in El].
      intros [= ->]. apply Hx, elem_of_app. left. by apply last_in.
Qed.

(** An array of [n] nodes linked in order, the last one to NULL. *)
Definition array_list (g : nat -> N) (n : nat) : gmap nat N :=
  alter (set_nx None) (n - 1)%nat (list_to_map (map (fun i => (i, g i)) (seq 0 n))).

Lemma array_lookup (g : nat -> N) n k :
  (list_to_map (map (fun i => (i, g i)) (seq 0 n)) : gmap nat N) !! k
  = if decide (k < n)%nat then Some (g k) else None.
Proof.
  assert (Hf : (map (fun i => (i, g i)) (seq 0 n)).*1 = seq 0 n).
  { rewrite <- list_fmap_compose. rewrite <- (list_fmap_id (seq 0 n)) at 2.
    by apply list_fmap_ext. }
  case_decide as Hk.
  - apply elem_of_list_to_map; [rewrite Hf; apply NoDup_seq|].
    apply list_elem_of_fmap. exists k. split; [done|]. apply elem_of_seq. lia.
  - apply not_elem_of_list_to_map. rewrite Hf, elem_of_seq. lia.
Qed.

Lemma chain_array g n :
  (forall i, nx (g i) = Some (S i)) -> (0 < n)%nat ->
  chain (array_list g n) (Some 0%nat) (seq 0 n).
Proof.
  intros Hg Hn. assert (H : forall k m, (m + k = n)%nat ->
    chain (array_list g n) (if decide (k = 0)%nat then None else Some m) (seq m k)).
  { induction k as [|k IH]; intros m Hm; [done|]. rewrite decide_False by done.
    cbn [seq]. split; [done|]. unfold array_list at 1. destruct k as [|k].
    - exists (set_nx None (g m)). replace (n - 1)%nat with m by lia.
      rewrite lookup_alter_eq, array_lookup, decide_True by lia.
      split; [done|]. by rewrite nx_set_nx.
    - exists (g m). rewrite lookup_alter_ne, array_lookup, decide_True by lia. split; [done|].
      rewrite Hg. specialize (IH (S m) ltac:(lia)). by rewrite decide_False in IH. }
  specialize (H n 0%nat ltac:(lia)). by rewrite decide_False in H by lia.
Qed.
End chain.

Arguments chain : simpl nomatch.
Arguments dchain : simpl nomatch.
#[export] Hint Resolve chain_alter_off dchain_alter_off : mudm.
