(* ===== verification/Bytes.v ===== *)
(** * Packed big-endian structures over byte lists

    Packet headers are unions of packed structures that the driver
    reinterprets by casting: the 18 software bytes of a packet are an
    [ionet_header], an [ionet_pkt_header], a [mudm_disconnect_hdr] or a
    [broadcast_pkt_header] depending on the reader.  They are modelled as
    the list of their bytes, a member being an offset and a width; the
    node is big-endian. *)

From S2P Require Import Prelude.

Fixpoint be_split (n : nat) (v : Z) : list Z :=
  match n with
  | O => []
  | S n => be_split n (v / 256) ++ [v mod 256]
  end.

Definition be_comb (bs : list Z) : Z := foldl (fun acc b => acc * 256 + b) 0 bs.

Lemma length_be_split n v : length (be_split n v) = n.
Proof.
  revert v; induction n as [|n IH]; intros v; [done|].
  cbn. rewrite length_app, IH. cbn. lia.
Qed.

Lemma be_comb_snoc bs b : be_comb (bs ++ [b]) = be_comb bs * 256 + b.
Proof. unfold be_comb. by rewrite foldl_app. Qed.

Lemma be_comb_split n v : be_comb (be_split n v) = v mod 2 ^ (8 * Z.of_nat n).
Proof.
  revert v; induction n as [|n IH]; intros v; [by rewrite Z.mod_1_r|].
  cbn [be_split]. rewrite be_comb_snoc, IH.
  replace (8 * Z.of_nat (S n)) with (8 + 8 * Z.of_nat n) by lia.
  rewrite Z.pow_add_r by lia. change (2 ^ 8) with 256.
  rewrite Z.rem_mul_r by lia. lia.
Qed.

(** ** memcpy and members *)

Definition blit (off : nat) (src dst : list Z) : list Z :=
  take off dst ++ src ++ drop (off + length src) dst.

Definition slice (off len : nat) (bs : list Z) : list Z := take len (drop off bs).

Record field := Field { f_off : nat; f_len : nat }.

Definition rd (f : field) (bs : list Z) : Z := be_comb (slice (f_off f) (f_len f) bs).
Definition wr (f : field) (v : Z) (bs : list Z) : list Z :=
  blit (f_off f) (be_split (f_len f) v) bs.

Definition f_end (f : field) : nat := (f_off f + f_len f)%nat.
Definition disjoint_fields (f g : field) : Prop :=
  (f_end f <= f_off g)%nat \/ (f_end g <= f_off f)%nat.

Lemma length_blit off src dst :
  (off + length src <= length dst)%nat -> length (blit off src dst) = length dst.
Proof.
  intros. unfold blit. rewrite !length_app, length_take, length_drop. lia.
Qed.

Lemma length_wr f v bs : (f_end f <= length bs)%nat -> length (wr f v bs) = length bs.
Proof. intros. apply length_blit. by rewrite length_be_split. Qed.

Lemma slice_blit_same off src dst :
  (off <= length dst)%nat -> slice off (length src) (blit off src dst) = src.
Proof.
  intros. unfold slice, blit.
  rewrite drop_app_length' by (rewrite length_take; lia). by rewrite take_app_length.
Qed.

Lemma slice_blit_before o n off src dst :
  (o + n <= off)%nat -> (off <= length dst)%nat ->
  slice o n (blit off src dst) = slice o n dst.
Proof.
  intros. unfold slice, blit. rewrite drop_app_le by (rewrite length_take; lia).
  rewrite take_app_le by (rewrite length_drop, length_take; lia).
  rewrite !take_drop_commute, take_take. do 2 f_equal. lia.
Qed.

Lemma slice_blit_after o n off src dst :
  (off + length src <= o)%nat -> (off + length src <= length dst)%nat ->
  slice o n (blit off src dst) = slice o n dst.
Proof.
  intros. unfold slice, blit. rewrite app_assoc.
  rewrite drop_app_ge; rewrite length_app, length_take; [|lia].
  rewrite drop_drop. do 2 f_equal. lia.
Qed.

Lemma rd_wr_same f v bs :
  (f_end f <= length bs)%nat -> rd f (wr f v bs) = v mod 2 ^ (8 * Z.of_nat (f_len f)).
Proof.
  intros. unfold rd, wr. rewrite <- be_comb_split. f_equal.
  rewrite <- (length_be_split (f_len f) v) at 1. apply slice_blit_same.
  unfold f_end in *. lia.
Qed.

Lemma rd_wr_other f g v bs :
  disjoint_fields f g -> (f_end g <= length bs)%nat -> rd f (wr g v bs) = rd f bs.
Proof.
  unfold disjoint_fields, f_end. intros [?|?] ?; unfold rd, wr; f_equal.
  - apply slice_blit_before; lia.
  - apply slice_blit_after; rewrite length_be_split; lia.
Qed.

Lemma rd_blit_other f off src bs :
  (f_end f <= off \/ off + length src <= f_off f)%nat ->
  (off + length src <= length bs)%nat -> rd f (blit off src bs) = rd f bs.
Proof.
  unfold f_end. intros [?|?] ?; unfold rd; f_equal.
  - apply slice_blit_before; lia.
  - apply slice_blit_after; lia.
Qed.

Lemma be_comb_range n bs :
  Forall (fun b => 0 <= b < 256) bs -> (length bs <= n)%nat ->
  0 <= be_comb bs < 2 ^ (8 * Z.of_nat n).
Proof.
  revert n. induction bs as [|b bs IH] using rev_ind; intros n Hf Hn.
  { change (be_comb []) with 0.
    assert (0 < 2 ^ (8 * Z.of_nat n)) by (apply Z.pow_pos_nonneg; lia). lia. }
  apply list.Forall_app in Hf as [Hf [Hb _]%list.Forall_cons].
  rewrite length_app in Hn. cbn in Hn, Hb. rewrite be_comb_snoc.
  destruct n as [|n]; [lia|]. specialize (IH n Hf ltac:(lia)).
  replace (8 * Z.of_nat (S n)) with (8 * Z.of_nat n + 8) by lia.
  rewrite Z.pow_add_r by lia. change (2 ^ 8) with 256. lia.
Qed.

Lemma rd_range f bs :
  Forall (fun b => 0 <= b < 256) bs -> 0 <= rd f bs < 2 ^ (8 * Z.of_nat (f_len f)).
Proof.
  intros Hb. apply be_comb_range.
  - by apply Forall_take, Forall_drop.
  - unfold slice. rewrite length_take. lia.
Qed.

(** ** Bit-fields of a word: [len] bits starting at bit [lo] *)

Definition bf_get (lo len w : Z) : Z := (w / 2 ^ lo) mod 2 ^ len.
Definition bf_set (lo len v w : Z) : Z :=
  w - bf_get lo len w * 2 ^ lo + (v mod 2 ^ len) * 2 ^ lo.

Lemma bf_get_set lo len v w :
  0 <= lo -> 0 <= len -> bf_get lo len (bf_set lo len v w) = v mod 2 ^ len.
Proof.
  intros Hlo Hlen. unfold bf_set.
  assert (0 < 2 ^ lo) by (apply Z.pow_pos_nonneg; lia).
  assert (0 < 2 ^ len) by (apply Z.pow_pos_nonneg; lia).
  replace (w - bf_get lo len w * 2 ^ lo + v mod 2 ^ len * 2 ^ lo)
    with (w + (v mod 2 ^ len - bf_get lo len w) * 2 ^ lo) by lia.
  unfold bf_get. rewrite Z.div_add by lia.
  pose proof (Z.div_mod (w / 2 ^ lo) (2 ^ len) ltac:(lia)) as E.
  replace (w / 2 ^ lo + (v mod 2 ^ len - (w / 2 ^ lo) mod 2 ^ len))
    with (v mod 2 ^ len + w / 2 ^ lo / 2 ^ len * 2 ^ len) by lia.
  by rewrite Z.mod_add, Zmod_mod by lia.
Qed.

(** Lengths of, and members in, a byte list written member by member. *)
Ltac wr_len :=
  repeat (rewrite length_wr; [|wr_len]);
  repeat (rewrite length_blit; [|rewrite ?length_blit; try (cbn in *; lia)]);
  try (cbn in *; lia).
Ltac rd_step := first
  [ rewrite rd_wr_same by wr_len
  | rewrite rd_wr_other; [|cbv; lia|wr_len] ].
