(* ===== verification/Descriptor.v ===== *)
(** * Message-unit descriptors and packet headers

    A descriptor is the 64-byte [MUHWI_Descriptor_t]; its last 32 bytes
    are the packet header, kept as the list of its bytes because the
    driver views them through several overlapping structures. *)

From S2P Require Import Prelude Bytes.

(** ** Constants (include/hwi/include/bqc/MU_*.h, bgmudm/common.h) *)

Definition MUHWI_PT2PT_DATA_PACKET_TYPE := 0x55.
Definition MUHWI_COLLECTIVE_DATA_PACKET_TYPE := 0x5a.
Definition MUHWI_PACKET_TYPE_FIFO := 0x00.
Definition MUHWI_PACKET_TYPE_PUT := 0x40.
Definition MUHWI_PACKET_HINT_E_NONE := 0x00.
Definition MUHWI_PACKET_ROUTE_TO_IO_NODE := 0x20.
Definition MUHWI_PACKET_DO_NOT_ROUTE_TO_IO_NODE := 0x00.
Definition MUHWI_PACKET_RETURN_FROM_IO_NODE_USING_TORUS_PORT_6 := 0x08.
Definition MUHWI_PACKET_RETURN_FROM_IO_NODE_USING_TORUS_PORT_7 := 0x10.
Definition MUHWI_PACKET_RETURN_FROM_IO_NODE_USING_IO_PORT := 0x18.
Definition MUHWI_PACKET_USE_DETERMINISTIC_ROUTING := 0x00.
Definition MUHWI_PACKET_DO_NOT_DEPOSIT := 0x00.
Definition MUHWI_PACKET_VIRTUAL_CHANNEL_SYSTEM := 0x60.
Definition MUHWI_PACKET_VIRTUAL_CHANNEL_SYSTEM_COLLECTIVE := 0xc0.
Definition MUHWI_PACKET_INTERRUPT_ON_PACKET_ARRIVAL := 0x01.
Definition MUHWI_DESCRIPTOR_INTERRUPT_ON_PACKET_ARRIVAL := 1.
Definition MUHWI_DESCRIPTOR_PRE_FETCH_ONLY_NO := 0.
Definition MUHWI_DESCRIPTOR_TORUS_FIFO_MAP_SYSTEM := 0x4.
Definition MUHWI_DESCRIPTOR_TORUS_FIFO_MAP_CSYSTEM := 0x1.
Definition MUHWI_DESCRIPTOR_TORUS_FIFO_MAP_DM := 0x200.
Definition MUHWI_DESCRIPTOR_TORUS_FIFO_MAP_DP := 0x100.
Definition MUHWI_PACKET_DIRECT_PUT_IS_NOT_PACED := 0.
Definition MUHWI_ATOMIC_ADDRESS_INDICATOR := 0x1000000000.
Definition MUHWI_ATOMIC_OPCODE_STORE_ADD_COHERENCE_ON_ZERO := 3.
Definition MUHWI_ATOMIC_OPCODE_LOAD_INCREMENT := 2.
Definition MUHWI_COLLECTIVE_OP_CODE_UNSIGNED_ADD := 0x40.
Definition MUHWI_COLLECTIVE_OP_CODE_UNSIGNED_MAX := 0x60.
Definition MUHWI_COLLECTIVE_TYPE_ALLREDUCE := 0x10.
Definition MUHWI_COLLECTIVE_TYPE_REDUCE := 0x18.

Definition BGQ_MU_DESCRIPTOR_SIZE_IN_BYTES := 64.
Definition TORUS_MAX_PAYLOAD_SIZE := 512.
Definition NUM_IO_LINKS := 2%nat.
Definition BGQ_MU_NUM_DATA_COUNTERS_PER_SUBGROUP := 8.
Definition SYS_BATID := 528.
Definition MCONTEXT_INDEX := BGQ_MU_NUM_DATA_COUNTERS_PER_SUBGROUP - 1.
Definition RDMA_COUNTER_INDEX := MCONTEXT_INDEX - 1.
Definition SYS_BATID_BCAST_CTR := SYS_BATID + RDMA_COUNTER_INDEX.

(** Directions (bgmudm/common.h). *)
Definition IONODE2CN := 0.
Definition CN2IONODE := 1.
Definition CN2CN := 2.
Definition ION2ION := 3.
Definition NODE_LOOPBACK := 4.
Definition NODE2NODE := 5.

(** ** Members of the 18 software bytes *)

Definition sb_sequence_number := Field 0 2.
Definition sb_torus_source_node := Field 2 4.
Definition sb_torus_dest_node := Field 6 4.
Definition sb_payload_length := Field 10 2.
Definition sb_type := Field 12 2.
Definition sb_source_qpn := Field 14 2.
Definition sb_dest_qpn := Field 16 2.
(** [ionet_pkt_header] *)
Definition sb_options := Field 14 1.
Definition sb_port_info := Field 15 1.
Definition sb_reserved := Field 16 2.
(** [mudm_disconnect_hdr] *)
Definition sb_dest_context_index := Field 0 2.
Definition sb_lowbytes_timestamp := Field 10 2.

Definition SoftwareBytes_t : Type := list Z.

(** ** Members of the 32-byte packet header *)

Definition h_Data_Packet_Type := Field 0 1.
Definition h_Byte1 := Field 1 1.
Definition h_Byte2 := Field 2 1.
Definition h_Byte3 := Field 3 1.
Definition h_Destination := Field 4 4.
Definition h_Byte8 := Field 8 1.
Definition h_Skip := Field 11 1.
(** First half-word of the message unit header: [Rec_FIFO_Id] in bits
    6..14 (or [Rec_Payload_Base_Address_Id] in bits 6..15), [Unused1] or
    [Pacing] in bit 5, [Put_Offset_MSB] in bits 0..4. *)
Definition h_MU_Half := Field 12 2.
Definition h_Put_Offset_LSB := Field 14 4.
Definition h_Rec_Counter_Half := Field 18 2.
Definition h_Counter_Offset := Field 24 8.

Definition SW_OFF : nat := 14.
Definition SW_LEN : nat := 18.
Definition addressSoftwareBytes (hdr : list Z) : SoftwareBytes_t := slice SW_OFF SW_LEN hdr.
(** A member of the software bytes, as a member of the packet header. *)
Definition in_hdr (f : field) : field := Field (SW_OFF + f_off f) (f_len f).

Definition bf_update (f : field) (lo len v : Z) (hdr : list Z) : list Z :=
  wr f (bf_set lo len v (rd f hdr)) hdr.

Definition h_set_Size (v : Z) := bf_update h_Byte8 0 5 v.
Definition h_Size (hdr : list Z) : Z := bf_get 0 5 (rd h_Byte8 hdr).
Definition h_set_Interrupt (v : Z) := bf_update h_Byte2 0 1 v.
Definition h_Interrupt (hdr : list Z) : Z := bf_get 0 1 (rd h_Byte2 hdr).
Definition h_set_Class_Route (v : Z) := bf_update h_Byte2 4 4 v.
Definition h_set_Rec_FIFO_Id (v : Z) := bf_update h_MU_Half 6 9 v.
Definition h_Rec_FIFO_Id (hdr : list Z) : Z := bf_get 6 9 (rd h_MU_Half hdr).
Definition h_set_Unused1 (v : Z) := bf_update h_MU_Half 5 1 v.
Definition h_set_Rec_Payload_BAT (v : Z) := bf_update h_MU_Half 6 10 v.
Definition h_set_Pacing (v : Z) := bf_update h_MU_Half 5 1 v.
Definition h_set_Put_Offset_MSB (v : Z) := bf_update h_MU_Half 0 5 v.
Definition h_Put_Offset_MSB (hdr : list Z) : Z := bf_get 0 5 (rd h_MU_Half hdr).
Definition h_set_Rec_Counter_BAT (v : Z) := bf_update h_Rec_Counter_Half 0 10 v.

Record MUHWI_Descriptor := mkDesc {
  Half_Word0 : Z;
  Half_Word1 : Z;
  Pa_Payload : Z;
  Message_Length : Z;
  Torus_FIFO_Map : Z;
  PacketHeader : list Z
}.
#[export] Instance FieldsOf_desc : FieldsOf MUHWI_Descriptor := fun d =>
  mkDesc (Half_Word0 d) (Half_Word1 d) (Pa_Payload d) (Message_Length d)
         (Torus_FIFO_Map d) (PacketHeader d).

Definition MUSPI_DescriptorZeroOut (d : MUHWI_Descriptor) : MUHWI_Descriptor :=
  mkDesc 0 0 0 0 0 (replicate 32 0).
Definition zero_desc : MUHWI_Descriptor := mkDesc 0 0 0 0 0 (replicate 32 0).

Definition set_hdr (f : field) (v : Z) (d : MUHWI_Descriptor) : MUHWI_Descriptor :=
  d <| PacketHeader ::= wr f v |>.
Definition upd_hdr (u : list Z -> list Z) (d : MUHWI_Descriptor) : MUHWI_Descriptor :=
  d <| PacketHeader ::= u |>.

Definition MUSPI_SetDataPacketType (type : Z) (d : MUHWI_Descriptor) :=
  set_hdr h_Data_Packet_Type type d.
Definition MUSPI_SetMessageUnitPacketType (type : Z) (d : MUHWI_Descriptor) :=
  let byte8 := Z.land (rd h_Byte8 (PacketHeader d)) 0x3F in
  set_hdr h_Byte8 (Z.lor byte8 (Z.land type 0xC0)) d.

(** ** Descriptor constructors (bgmudm/mudm_descriptor.c) *)

Definition Update_memfifo_payload (payload_phys_addr payload_length : Z)
    (d : MUHWI_Descriptor) : MUHWI_Descriptor :=
  set_hdr (in_hdr sb_payload_length) payload_length
    (d <| Pa_Payload := payload_phys_addr |> <| Message_Length := u64 payload_length |>).

(** [Byte2] of the network header and the torus FIFO, per direction.
    Both constructors refuse an I/O port other than 6, 7 and 10 through
    [MUSPI_assert], which is [BUG_ON]. *)
Definition direction_byte2 (direction io_port : Z) : Z :=
  if direction =? CN2IONODE then
    Z.lor (Z.lor (Z.lor MUHWI_PACKET_HINT_E_NONE MUHWI_PACKET_ROUTE_TO_IO_NODE)
                 MUHWI_PACKET_USE_DETERMINISTIC_ROUTING) MUHWI_PACKET_DO_NOT_DEPOSIT
  else if direction =? IONODE2CN then
    Z.lor (Z.lor (Z.lor (Z.lor MUHWI_PACKET_HINT_E_NONE MUHWI_PACKET_DO_NOT_ROUTE_TO_IO_NODE)
                        io_port) MUHWI_PACKET_USE_DETERMINISTIC_ROUTING) MUHWI_PACKET_DO_NOT_DEPOSIT
  else MUHWI_PACKET_DO_NOT_DEPOSIT.

Definition direction_fifo_map (direction io_port : Z) : Z :=
  if direction =? IONODE2CN then
    if io_port =? MUHWI_PACKET_RETURN_FROM_IO_NODE_USING_TORUS_PORT_6
    then MUHWI_DESCRIPTOR_TORUS_FIFO_MAP_DM
    else if io_port =? MUHWI_PACKET_RETURN_FROM_IO_NODE_USING_TORUS_PORT_7
    then MUHWI_DESCRIPTOR_TORUS_FIFO_MAP_DP
    else MUHWI_DESCRIPTOR_TORUS_FIFO_MAP_SYSTEM
  else MUHWI_DESCRIPTOR_TORUS_FIFO_MAP_SYSTEM.

Definition io_port_ok (io_port : Z) : bool :=
  (io_port =? MUHWI_PACKET_RETURN_FROM_IO_NODE_USING_IO_PORT)
  || (io_port =? MUHWI_PACKET_RETURN_FROM_IO_NODE_USING_TORUS_PORT_6)
  || (io_port =? MUHWI_PACKET_RETURN_FROM_IO_NODE_USING_TORUS_PORT_7).

(** The part the two point-to-point constructors share. *)
Definition pt2pt_base (mu_type payload_phys_addr payload_length dest direction io_port : Z)
    : MUHWI_Descriptor :=
  let d := MUSPI_DescriptorZeroOut zero_desc in
  let d := MUSPI_SetDataPacketType MUHWI_PT2PT_DATA_PACKET_TYPE d in
  let d := MUSPI_SetMessageUnitPacketType mu_type d in
  let d := d <| Half_Word0 := MUHWI_DESCRIPTOR_PRE_FETCH_ONLY_NO |>
             <| Pa_Payload := payload_phys_addr |>
             <| Message_Length := payload_length |> in
  let d := upd_hdr (h_set_Size 16) d in
  let d := set_hdr h_Destination dest d in
  let d := set_hdr h_Byte1 0 d in
  let d := set_hdr h_Byte3 MUHWI_PACKET_VIRTUAL_CHANNEL_SYSTEM d in
  let d := set_hdr h_Skip 0 d in
  let d := set_hdr h_Byte2 (direction_byte2 direction io_port) d in
  d <| Torus_FIFO_Map := direction_fifo_map direction io_port |>.

Definition InitPt2PtMemoryFIFODescriptor (SoftwareBytes : SoftwareBytes_t)
    (payload_phys_addr payload_length dest direction io_port rec_FIFO_Id : Z)
    : option MUHWI_Descriptor :=
  if (direction =? IONODE2CN) && negb (io_port_ok io_port) then None else
  let d := pt2pt_base MUHWI_PACKET_TYPE_FIFO payload_phys_addr payload_length
                      dest direction io_port in
  let d := upd_hdr (h_set_Interrupt 1) d in
  let d := upd_hdr (h_set_Rec_FIFO_Id rec_FIFO_Id) d in
  let d := upd_hdr (h_set_Unused1 0) d in
  let d := upd_hdr (h_set_Put_Offset_MSB 0) d in
  let d := upd_hdr (blit SW_OFF (take SW_LEN SoftwareBytes)) d in
  Some (d <| Half_Word1 := MUHWI_PACKET_INTERRUPT_ON_PACKET_ARRIVAL |>).

Definition counter_word (Rec_Counter_Offset : Z) : Z :=
  Z.lor (Z.lor Rec_Counter_Offset MUHWI_ATOMIC_ADDRESS_INDICATOR)
        MUHWI_ATOMIC_OPCODE_STORE_ADD_COHERENCE_ON_ZERO.

Definition set_put_offset (offset : Z) (d : MUHWI_Descriptor) : MUHWI_Descriptor :=
  set_hdr h_Put_Offset_LSB (Z.land offset 0xFFFFFFFF)
    (upd_hdr (h_set_Put_Offset_MSB (Z.land (Z.shiftr offset 32) 0x1f)) d).

Definition initPt2PtDirectPutDescriptor
    (payload_phys_addr payload_length dest direction io_port
     Rec_Counter_Offset Rec_Payload_Offset : Z) : option MUHWI_Descriptor :=
  if (direction =? IONODE2CN) && negb (io_port_ok io_port) then None else
  if negb (Z.land Rec_Counter_Offset 0x7 =? 0) then None else
  let d := pt2pt_base MUHWI_PACKET_TYPE_PUT payload_phys_addr payload_length
                      dest direction io_port in
  let d := upd_hdr (h_set_Pacing MUHWI_PACKET_DIRECT_PUT_IS_NOT_PACED) d in
  let d := upd_hdr (h_set_Rec_Payload_BAT SYS_BATID) d in
  let d := set_put_offset Rec_Payload_Offset d in
  let d := upd_hdr (h_set_Rec_Counter_BAT SYS_BATID) d in
  Some (set_hdr h_Counter_Offset (counter_word Rec_Counter_Offset) d).

Definition InitCollectiveMemoryFIFODescriptor (source_torus_addr rec_FIFO_Id : Z)
    : MUHWI_Descriptor :=
  let d := MUSPI_DescriptorZeroOut zero_desc in
  let d := d <| Half_Word1 := MUHWI_DESCRIPTOR_INTERRUPT_ON_PACKET_ARRIVAL |>
             <| Torus_FIFO_Map := MUHWI_DESCRIPTOR_TORUS_FIFO_MAP_CSYSTEM |> in
  let d := MUSPI_SetDataPacketType MUHWI_COLLECTIVE_DATA_PACKET_TYPE d in
  let d := upd_hdr (h_set_Interrupt 1) d in
  let d := set_hdr h_Byte3 MUHWI_PACKET_VIRTUAL_CHANNEL_SYSTEM_COLLECTIVE d in
  let d := upd_hdr (h_set_Size 16) d in
  let d := upd_hdr (h_set_Rec_FIFO_Id rec_FIFO_Id) d in
  set_hdr (in_hdr sb_torus_source_node) source_torus_addr d.

Definition InitBroadcastDirectPut (Rec_Counter_Offset Rec_Payload_Offset : Z)
    : option MUHWI_Descriptor :=
  let d := MUSPI_DescriptorZeroOut zero_desc in
  let d := d <| Torus_FIFO_Map := MUHWI_DESCRIPTOR_TORUS_FIFO_MAP_CSYSTEM |> in
  let d := MUSPI_SetDataPacketType MUHWI_COLLECTIVE_DATA_PACKET_TYPE d in
  let d := upd_hdr (h_set_Size 16) d in
  let d := set_hdr h_Byte3 MUHWI_PACKET_VIRTUAL_CHANNEL_SYSTEM_COLLECTIVE d in
  let d := MUSPI_SetMessageUnitPacketType MUHWI_PACKET_TYPE_PUT d in
  let d := upd_hdr (h_set_Rec_Payload_BAT SYS_BATID) d in
  let d := upd_hdr (h_set_Rec_Counter_BAT SYS_BATID_BCAST_CTR) d in
  if negb (Z.land Rec_Counter_Offset 0x7 =? 0) then None else
  let d := set_hdr h_Counter_Offset (counter_word Rec_Counter_Offset) d in
  Some (set_put_offset Rec_Payload_Offset d).

(** ** Editing a descriptor in place (bgmudm/common_inlines.h) *)

Definition set_dma_directput (bytes source_physaddr dest_physaddr : Z)
    (d : MUHWI_Descriptor) : MUHWI_Descriptor :=
  set_put_offset dest_physaddr
    (d <| Pa_Payload := source_physaddr |> <| Message_Length := bytes |>).

Definition set_counter_directput (Rec_Counter_Offset : Z) (d : MUHWI_Descriptor)
    : option MUHWI_Descriptor :=
  if negb (Z.land Rec_Counter_Offset 0x7 =? 0) then None else
  Some (set_hdr h_Counter_Offset (counter_word Rec_Counter_Offset) d).

(** The 37-bit put offset and the counter word the message unit reads. *)
Definition put_offset (d : MUHWI_Descriptor) : Z :=
  h_Put_Offset_MSB (PacketHeader d) * 2 ^ 32 + rd h_Put_Offset_LSB (PacketHeader d).
Definition put_counter (d : MUHWI_Descriptor) : Z := rd h_Counter_Offset (PacketHeader d).

(** ** Header algebra *)

Lemma length_bf_update f lo len v hdr :
  (f_end f <= length hdr)%nat -> length (bf_update f lo len v hdr) = length hdr.
Proof. apply length_wr. Qed.

Lemma rd_bf_update_other f g lo len v hdr :
  disjoint_fields f g -> (f_end g <= length hdr)%nat ->
  rd f (bf_update g lo len v hdr) = rd f hdr.
Proof. apply rd_wr_other. Qed.

Lemma bf_get_range lo len w : 0 <= len -> 0 <= bf_get lo len w < 2 ^ len.
Proof. intros. apply Z.mod_pos_bound, Z.pow_pos_nonneg; lia. Qed.

(** Bits above and below an updated bit-field keep their value. *)
Lemma bf_get_set_above lo len lo' len' v w :
  0 <= lo -> 0 <= len -> lo + len <= lo' -> 0 <= len' ->
  bf_get lo' len' (bf_set lo len v w) = bf_get lo' len' w.
Proof.
  intros Hlo Hlen Hle Hlen'. unfold bf_set.
  assert (Hp : forall k, 0 <= k -> 0 < 2 ^ k) by (intros; apply Z.pow_pos_nonneg; lia).
  pose proof (Hp lo Hlo). pose proof (Hp len Hlen).
  unfold bf_get. f_equal.
  replace lo' with ((lo + len) + (lo' - lo - len)) by lia.
  rewrite Z.pow_add_r, <- !Z.div_div by (try apply Z.pow_nonzero; try apply Hp; lia).
  f_equal. rewrite Z.pow_add_r, <- !Z.div_div by lia.
  replace (w - (w / 2 ^ lo) mod 2 ^ len * 2 ^ lo + v mod 2 ^ len * 2 ^ lo)
    with (w + (v mod 2 ^ len - (w / 2 ^ lo) mod 2 ^ len) * 2 ^ lo) by lia.
  rewrite Z.div_add by lia.
  pose proof (Z.div_mod (w / 2 ^ lo) (2 ^ len) ltac:(lia)).
  replace (w / 2 ^ lo + (v mod 2 ^ len - (w / 2 ^ lo) mod 2 ^ len))
    with (v mod 2 ^ len + w / 2 ^ lo / 2 ^ len * 2 ^ len) by lia.
  rewrite Z.div_add by lia. rewrite (Z.div_small (v mod 2 ^ len)); [lia|].
  apply Z.mod_pos_bound. lia.
Qed.

Lemma bf_get_set_below lo len lo' len' v w :
  0 <= lo' -> 0 <= len' -> lo' + len' <= lo -> 0 <= len ->
  bf_get lo' len' (bf_set lo len v w) = bf_get lo' len' w.
Proof.
  intros Hlo Hlen Hle Hlen'. unfold bf_set.
  assert (Hp : forall k, 0 <= k -> 0 < 2 ^ k) by (intros; apply Z.pow_pos_nonneg; lia).
  pose proof (Hp lo' Hlo). pose proof (Hp len' Hlen).
  set (c := v mod 2 ^ len - bf_get lo len w).
  replace (w - bf_get lo len w * 2 ^ lo + v mod 2 ^ len * 2 ^ lo)
    with (w + (c * 2 ^ (lo - lo' - len') * 2 ^ len') * 2 ^ lo').
  - unfold bf_get. rewrite Z.div_add, Z.mod_add by lia. done.
  - rewrite <- !Z.mul_assoc, <- !Z.pow_add_r by lia.
    replace (lo - lo' - len' + (len' + lo')) with lo by lia. subst c. lia.
Qed.

Lemma bf_set_range w' lo len v w :
  0 <= lo -> 0 <= len -> lo + len <= w' -> 0 <= w < 2 ^ w' -> 0 <= bf_set lo len v w < 2 ^ w'.
Proof.
  intros Hlo Hlen Hle Hw.
  assert (Hp : forall k, 0 <= k -> 0 < 2 ^ k) by (intros; apply Z.pow_pos_nonneg; lia).
  pose proof (Hp lo Hlo). pose proof (Hp len Hlen). pose proof (Hp (w' - lo - len) ltac:(lia)).
  unfold bf_set, bf_get.
  pose proof (Z.div_mod w (2 ^ lo) ltac:(lia)) as E1.
  pose proof (Z.mod_pos_bound w (2 ^ lo) ltac:(lia)).
  pose proof (Z.div_mod (w / 2 ^ lo) (2 ^ len) ltac:(lia)) as E2.
  pose proof (Z.mod_pos_bound v (2 ^ len) ltac:(lia)).
  assert (Hq : 0 <= w / 2 ^ lo / 2 ^ len < 2 ^ (w' - lo - len)).
  { rewrite Z.div_div by lia. split; [apply Z.div_pos; nia|].
    apply Z.div_lt_upper_bound; [nia|]. rewrite <- !Z.pow_add_r by lia.
    replace (lo + len + (w' - lo - len)) with w' by lia. lia. }
  assert (E3 : 2 ^ w' = 2 ^ lo * (2 ^ len * 2 ^ (w' - lo - len))).
  { rewrite <- !Z.pow_add_r by lia. f_equal. lia. }
  set (a := 2 ^ lo) in *. set (b := 2 ^ len) in *. set (c := 2 ^ (w' - lo - len)) in *.
  set (q := w / a / b) in *. set (r := (w / a) mod b) in *. set (s := v mod b) in *.
  set (t := w mod a) in *. rewrite E3. 
  replace (w - r * a + s * a) with (a * (b * q + s) + t) by (rewrite E1, E2; lia).
  assert (b * q + s <= b * (c - 1) + (b - 1)) by nia. nia.
Qed.

Lemma rd_bf_update_same f lo len v hdr :
  (f_end f <= length hdr)%nat -> 0 <= lo -> 0 <= len ->
  lo + len <= 8 * Z.of_nat (f_len f) ->
  0 <= rd f hdr < 2 ^ (8 * Z.of_nat (f_len f)) ->
  rd f (bf_update f lo len v hdr) = bf_set lo len v (rd f hdr).
Proof.
  intros. unfold bf_update. rewrite rd_wr_same by done.
  apply Z.mod_small. by apply bf_set_range.
Qed.

Lemma lor_disjoint a b : Z.land a b = 0 -> Z.lor a b = a + b.
Proof.
  intros H. rewrite Z.add_nocarry_lxor by done. symmetry. by apply Z.lxor_lor.
Qed.

Lemma counter_word_spec c :
  0 <= c < 2 ^ 36 -> Z.land c 7 = 0 -> counter_word c = c + 2 ^ 36 + 3.
Proof.
  intros Hc H7. unfold counter_word, MUHWI_ATOMIC_ADDRESS_INDICATOR,
    MUHWI_ATOMIC_OPCODE_STORE_ADD_COHERENCE_ON_ZERO.
  assert (Hd : Z.land c (2 ^ 36) = 0).
  { apply Z.bits_inj'. intros n Hn. rewrite Z.land_spec, Z.bits_0, Z.pow2_bits_eqb by lia.
    destruct (Z.eqb_spec 36 n) as [<-|]; [|apply andb_false_r].
    destruct (decide (c = 0)) as [->|]; [done|].
    rewrite Z.bits_above_log2; [done|lia|]. apply Z.log2_lt_pow2; lia. }
  change 0x1000000000 with (2 ^ 36). rewrite (lor_disjoint c) by done.
  rewrite lor_disjoint; [done|].
  rewrite <- (lor_disjoint c) by done.
  rewrite Z.land_lor_distr_l. change (Z.land (2 ^ 36) 3) with 0. rewrite Z.lor_0_r.
  change 3 with (Z.land 7 3). by rewrite Z.land_assoc, H7.
Qed.

Lemma land_ones_mod a n : 0 <= n -> Z.land a (2 ^ n - 1) = a mod 2 ^ n.
Proof. intros. rewrite <- Z.land_ones, Z.ones_equiv by done. f_equal. Qed.

Lemma put_offset_recompose a :
  Z.land (Z.shiftr a 32) 0x1f * 2 ^ 32 + Z.land a 0xFFFFFFFF = a mod 2 ^ 37.
Proof.
  change 0x1f with (2 ^ 5 - 1). change 0xFFFFFFFF with (2 ^ 32 - 1).
  rewrite !land_ones_mod, Z.shiftr_div_pow2 by lia.
  change (2 ^ 37) with (2 ^ 32 * 2 ^ 5). rewrite Z.rem_mul_r by lia. lia.
Qed.

Lemma bf_get_mod lo len k w :
  0 <= lo -> 0 <= len -> lo + len <= k -> bf_get lo len (w mod 2 ^ k) = bf_get lo len w.
Proof.
  intros Hlo Hlen Hle. unfold bf_get.
  assert (Hp : forall k, 0 <= k -> 0 < 2 ^ k) by (intros; apply Z.pow_pos_nonneg; lia).
  pose proof (Hp lo Hlo). pose proof (Hp len Hlen). pose proof (Hp (k - lo - len) ltac:(lia)).
  assert (E : 2 ^ k = 2 ^ (k - lo - len) * 2 ^ len * 2 ^ lo).
  { rewrite <- !Z.pow_add_r by lia. f_equal. lia. }
  pose proof (Z.div_mod w (2 ^ k) ltac:(nia)) as D.
  set (q := w / 2 ^ k) in *. set (r := w mod 2 ^ k) in *. clearbody q r. subst w.
  replace (2 ^ k * q + r) with (r + (q * 2 ^ (k - lo - len) * 2 ^ len) * 2 ^ lo)
    by (rewrite E; lia).
  by rewrite Z.div_add, Z.mod_add by lia.
Qed.

Section bit_fields.
Context (f : field) (lo len v : Z) (hdr : list Z).
Context (Hf : (f_end f <= length hdr)%nat) (Hlo : 0 <= lo) (Hlen : 0 <= len)
        (Hfit : lo + len <= 8 * Z.of_nat (f_len f)).

Lemma bf_read_same : bf_get lo len (rd f (bf_update f lo len v hdr)) = v mod 2 ^ len.
Proof.
  unfold bf_update. rewrite rd_wr_same, bf_get_mod by done. by apply bf_get_set.
Qed.

Lemma bf_read_above lo' len' :
  lo + len <= lo' -> 0 <= len' -> lo' + len' <= 8 * Z.of_nat (f_len f) ->
  bf_get lo' len' (rd f (bf_update f lo len v hdr)) = bf_get lo' len' (rd f hdr).
Proof.
  intros. unfold bf_update. rewrite rd_wr_same, bf_get_mod by (done || lia).
  by apply bf_get_set_above.
Qed.

Lemma bf_read_below lo' len' :
  0 <= lo' -> 0 <= len' -> lo' + len' <= lo ->
  bf_get lo' len' (rd f (bf_update f lo len v hdr)) = bf_get lo' len' (rd f hdr).
Proof.
  intros. unfold bf_update. rewrite rd_wr_same, bf_get_mod by (done || lia).
  by apply bf_get_set_below.
Qed.
End bit_fields.

(** Every constructor keeps the header at 32 bytes. *)
Definition hdr_ok (d : MUHWI_Descriptor) : Prop := length (PacketHeader d) = 32%nat.

Ltac field_lia := unfold f_end, disjoint_fields; cbn; lia.

Lemma hdr_ok_set_hdr f v d :
  (f_end f <= 32)%nat -> hdr_ok d -> hdr_ok (set_hdr f v d).
Proof. unfold hdr_ok. cbn. intros ? H. by rewrite length_wr; rewrite H. Qed.

Lemma hdr_ok_bf f lo len v d :
  (f_end f <= 32)%nat -> hdr_ok d -> hdr_ok (upd_hdr (bf_update f lo len v) d).
Proof. unfold hdr_ok. cbn. intros ? H. by rewrite length_bf_update; rewrite H. Qed.

Lemma hdr_ok_set_put_offset a d : hdr_ok d -> hdr_ok (set_put_offset a d).
Proof.
  intros. apply hdr_ok_set_hdr; [field_lia|]. apply hdr_ok_bf; [field_lia|done].
Qed.
#[export] Hint Resolve hdr_ok_set_put_offset : mudm.

Lemma put_offset_set a d : hdr_ok d -> put_offset (set_put_offset a d) = a mod 2 ^ 37.
Proof.
  unfold hdr_ok. intros H. rewrite <- put_offset_recompose.
  unfold put_offset, set_put_offset, set_hdr, upd_hdr, h_Put_Offset_MSB, h_set_Put_Offset_MSB.
  cbn [PacketHeader upd_field].
  assert (Hl : forall lo len v, length (bf_update h_MU_Half lo len v (PacketHeader d)) = 32%nat).
  { intros. rewrite length_bf_update; [done|]. rewrite H. field_lia. }
  rewrite rd_wr_other by (rewrite ?Hl; field_lia).
  rewrite bf_read_same by (rewrite ?H; field_lia).
  rewrite rd_wr_same by (rewrite Hl; field_lia). f_equal; [f_equal|].
  - change 0x1f with (2 ^ 5 - 1). by rewrite land_ones_mod, Zmod_mod by lia.
  - change 0xFFFFFFFF with (2 ^ 32 - 1). rewrite land_ones_mod by lia. 
    by rewrite Z.mod_mod by lia.
Qed.

Lemma put_offset_set_other f v d :
  hdr_ok d -> disjoint_fields h_MU_Half f -> disjoint_fields h_Put_Offset_LSB f ->
  (f_end f <= 32)%nat -> put_offset (set_hdr f v d) = put_offset d.
Proof.
  unfold hdr_ok. intros H ???. unfold put_offset, h_Put_Offset_MSB. cbn [set_hdr PacketHeader upd_field].
  by rewrite !rd_wr_other by (rewrite ?H; done).
Qed.

Lemma put_counter_set c d :
  hdr_ok d -> put_counter (set_hdr h_Counter_Offset c d) = c mod 2 ^ 64.
Proof.
  unfold hdr_ok, put_counter. intros H. cbn [set_hdr PacketHeader upd_field].
  by rewrite rd_wr_same by (rewrite H; field_lia).
Qed.

Lemma put_counter_set_put_offset a d :
  hdr_ok d -> put_counter (set_put_offset a d) = put_counter d.
Proof.
  unfold hdr_ok, put_counter, set_put_offset, set_hdr, upd_hdr, h_set_Put_Offset_MSB.
  cbn [PacketHeader upd_field]. intros H.
  rewrite rd_wr_other; [|field_lia|rewrite length_bf_update by (rewrite H; field_lia); rewrite H; field_lia].
  by rewrite rd_bf_update_other by (rewrite ?H; field_lia).
Qed.

(** What the message unit does with a direct put: [Message_Length] bytes
    from [Pa_Payload] to the put offset, then the counter update. *)
Record put_view := mkPut { pt_src : Z; pt_dst : Z; pt_len : Z; pt_counter : Z }.
Definition view_put (d : MUHWI_Descriptor) : put_view :=
  mkPut (Pa_Payload d) (put_offset d) (Message_Length d) (put_counter d).

Lemma view_directput bytes src dst c d d' :
  hdr_ok d -> 0 <= dst < 2 ^ 37 -> 0 <= c < 2 ^ 36 ->
  set_counter_directput c (set_dma_directput bytes src dst d) = Some d' ->
  view_put d' = mkPut src dst bytes (c + 2 ^ 36 + 3) /\ hdr_ok d'.
Proof.
  unfold set_counter_directput, set_dma_directput. intros H Hdst Hc E.
  destruct (Z.land c 7 =? 0) eqn:H7; cbn [negb] in E; [|done]. injection E as <-.
  apply Z.eqb_eq in H7. rewrite counter_word_spec by done.
  set (d0 := d <| Pa_Payload := src |> <| Message_Length := bytes |>).
  assert (H0 : hdr_ok d0) by done.
  pose proof (hdr_ok_set_put_offset dst d0 H0) as H1.
  split; [|apply hdr_ok_set_hdr; [field_lia|done]].
  unfold view_put. rewrite put_counter_set by done.
  rewrite put_offset_set_other by (done || field_lia). rewrite put_offset_set by done.
  rewrite !Z.mod_small by lia. done.
Qed.

Lemma set_counter_directput_Some c d :
  Z.land c 7 = 0 -> exists d', set_counter_directput c d = Some d'.
Proof. intros H. unfold set_counter_directput. rewrite H. cbn. eauto. Qed.

(** ** The packets the constructors describe *)

(** Reading one member through the edits of the others. *)
Ltac hdr_len :=
  repeat match goal with
  | |- length (wr ?f ?v ?x) = _ =>
      let H := fresh in assert (H : length x = 32%nat) by hdr_len;
      rewrite (length_wr f v x) by (rewrite H; field_lia); clear H
  | |- length (blit ?o ?s ?x) = _ =>
      let H := fresh in assert (H : length x = 32%nat) by hdr_len;
      rewrite (length_blit o s x) by (rewrite H; unfold SW_OFF, SW_LEN in *; lia); clear H
  end; assumption.
Ltac hdr_step :=
  match goal with
  | |- context [rd ?f (wr ?f ?v ?x)] =>
      let H := fresh in assert (H : length x = 32%nat) by hdr_len;
      rewrite (rd_wr_same f v x) by (rewrite H; field_lia); clear H
  | |- context [rd ?f (wr ?g ?v ?x)] =>
      let H := fresh in assert (H : length x = 32%nat) by hdr_len;
      rewrite (rd_wr_other f g v x); [|field_lia|rewrite H; field_lia]; clear H
  end.

Lemma length_set_byte8 type d : hdr_ok d -> hdr_ok (MUSPI_SetMessageUnitPacketType type d).
Proof. intros H. apply hdr_ok_set_hdr; [field_lia|done]. Qed.

Lemma pt2pt_base_ok mu_type pa len dest direction io_port :
  let d := pt2pt_base mu_type pa len dest direction io_port in
  hdr_ok d /\ Pa_Payload d = pa /\ Message_Length d = len /\
  rd h_Destination (PacketHeader d) = dest mod 2 ^ 32 /\
  rd h_Data_Packet_Type (PacketHeader d) = MUHWI_PT2PT_DATA_PACKET_TYPE /\
  h_Size (PacketHeader d) = 16.
Proof.
  cbv zeta. unfold pt2pt_base, MUSPI_DescriptorZeroOut, MUSPI_SetDataPacketType, hdr_ok, h_set_Size, h_Size.
  set (d0 := MUSPI_SetMessageUnitPacketType _ _).
  assert (H0 : length (PacketHeader d0) = 32%nat) by (apply length_set_byte8; done).
  assert (E0 : rd h_Data_Packet_Type (PacketHeader d0) = MUHWI_PT2PT_DATA_PACKET_TYPE).
  { unfold d0, MUSPI_SetMessageUnitPacketType. cbn [set_hdr PacketHeader upd_field].
    rewrite rd_wr_other; [done|field_lia|cbn; lia]. }
  clearbody d0. unfold set_hdr, upd_hdr, bf_update. cbn [PacketHeader upd_field Pa_Payload Message_Length].
  split_and!; [hdr_len|done|done| | |]; repeat hdr_step; try done.
  rewrite bf_get_mod by (cbn; lia). by rewrite bf_get_set by lia.
Qed.

Lemma memfifo_descriptor_ok sb pa len dest direction io_port fifo :
  length sb = SW_LEN ->
  (InitPt2PtMemoryFIFODescriptor sb pa len dest direction io_port fifo = None <->
     direction = IONODE2CN /\ io_port_ok io_port = false) /\
  (forall d, InitPt2PtMemoryFIFODescriptor sb pa len dest direction io_port fifo = Some d ->
     hdr_ok d /\ Pa_Payload d = pa /\ Message_Length d = len /\
     addressSoftwareBytes (PacketHeader d) = sb /\
     rd h_Destination (PacketHeader d) = dest mod 2 ^ 32 /\
     rd h_Data_Packet_Type (PacketHeader d) = MUHWI_PT2PT_DATA_PACKET_TYPE /\
     h_Rec_FIFO_Id (PacketHeader d) = fifo mod 2 ^ 9 /\
     h_Interrupt (PacketHeader d) = 1 /\ h_Size (PacketHeader d) = 16).
Proof.
  intros Hsb. unfold InitPt2PtMemoryFIFODescriptor.
  destruct (Z.eqb_spec direction IONODE2CN) as [Ed|Ed], (io_port_ok io_port); cbn [andb negb].
  2: by split; [|done].
  all: split; [by split; [done|intros []]|]; intros d [= <-];
    match goal with |- context [pt2pt_base ?a ?b ?c ?e ?f ?g] =>
      destruct (pt2pt_base_ok a b c e f g) as (H0 & H1 & H2 & H3 & H4 & H5);
      set (d0 := pt2pt_base a b c e f g) in * end; clearbody d0; unfold hdr_ok in *;
    rewrite (take_ge sb) by (rewrite Hsb; done).
  all: assert (Hh : forall f X, length X = 32%nat -> (f_end f <= SW_OFF)%nat ->
      rd f (blit SW_OFF sb X) = rd f X)
    by (intros f X HX Hf; apply rd_blit_other; [by left|rewrite HX, Hsb; unfold SW_OFF, SW_LEN; lia]).
  all: unfold set_hdr, upd_hdr, h_set_Interrupt, h_set_Rec_FIFO_Id, h_set_Unused1, h_set_Put_Offset_MSB,
      h_Rec_FIFO_Id, h_Interrupt, h_Size, addressSoftwareBytes, bf_update in *;
    cbn [PacketHeader upd_field Pa_Payload Message_Length] in *.
  all: split_and!; [hdr_len|done|done| |rewrite Hh by (hdr_len || (unfold SW_OFF; field_lia)); repeat hdr_step..]; try done.
  all: try (rewrite <- Hsb at 1; apply slice_blit_same;
    match goal with |- (_ <= ?n)%nat => assert (n = 32%nat) as -> by hdr_len; unfold SW_OFF; lia end).
  all: rewrite ?bf_get_mod by (cbn; lia); rewrite ?bf_get_set_above by lia;
    rewrite ?bf_get_mod by (cbn; lia); rewrite ?bf_get_set_above by lia; rewrite ?bf_get_mod by (cbn; lia);
    by rewrite ?bf_get_set by lia.
Qed.

(** Which way it sends the packet: [Byte2] of the network header and the
    torus FIFO. *)
Lemma memfifo_descriptor_route sb pa len dest direction io_port fifo d :
  length sb = SW_LEN -> InitPt2PtMemoryFIFODescriptor sb pa len dest direction io_port fifo = Some d ->
  rd h_Byte2 (PacketHeader d) = bf_set 0 1 1 (direction_byte2 direction io_port mod 2 ^ 8) mod 2 ^ 8 /\
  Torus_FIFO_Map d = direction_fifo_map direction io_port.
Proof.
  intros Hsb. unfold InitPt2PtMemoryFIFODescriptor. destruct (_ && _); [done|]. intros [= <-]. split; [|done].
  unfold pt2pt_base, MUSPI_DescriptorZeroOut, MUSPI_SetDataPacketType, h_set_Size, h_set_Interrupt, h_set_Rec_FIFO_Id, h_set_Unused1, h_set_Put_Offset_MSB.
  set (d0 := MUSPI_SetMessageUnitPacketType _ _).
  assert (H0 : length (PacketHeader d0) = 32%nat) by (apply length_set_byte8; done).
  clearbody d0. unfold set_hdr, upd_hdr, bf_update. cbn [PacketHeader upd_field]. rewrite (take_ge sb) by (rewrite Hsb; done).
  rewrite rd_blit_other; [|left; unfold SW_OFF; field_lia|unfold SW_LEN in Hsb; rewrite Hsb; unfold SW_OFF; match goal with |- (_ <= ?n)%nat => assert (n = 32%nat) as -> by hdr_len end; lia].
  repeat hdr_step. done.
Qed.

(** C37: [InitPt2PtMemoryFIFODescriptor] refuses a bad I/O port only; what
    it returns is a well-formed descriptor for the payload and the
    destination, whose packets carry the software bytes as they are given,
    interrupt on arrival and go to the reception FIFO that is named. *)
Theorem memfifo_descriptor_correct sb pa len dest direction io_port fifo :
  length sb = SW_LEN ->
  (InitPt2PtMemoryFIFODescriptor sb pa len dest direction io_port fifo = None <->
     direction = IONODE2CN /\ io_port_ok io_port = false) /\
  (forall d, InitPt2PtMemoryFIFODescriptor sb pa len dest direction io_port fifo = Some d ->
     hdr_ok d /\ Pa_Payload d = pa /\ Message_Length d = len /\
     addressSoftwareBytes (PacketHeader d) = sb /\
     rd h_Destination (PacketHeader d) = dest mod 2 ^ 32 /\
     rd h_Data_Packet_Type (PacketHeader d) = MUHWI_PT2PT_DATA_PACKET_TYPE /\
     h_Rec_FIFO_Id (PacketHeader d) = fifo mod 2 ^ 9 /\
     h_Interrupt (PacketHeader d) = 1 /\ h_Size (PacketHeader d) = 16).
Proof. apply memfifo_descriptor_ok. Qed.

Lemma memfifo_descriptor_correct_witness :
  exists d, InitPt2PtMemoryFIFODescriptor (replicate 18 7) 0x100 64 0x1234 CN2IONODE 0 264 = Some d /\
    addressSoftwareBytes (PacketHeader d) = replicate 18 7 /\ h_Rec_FIFO_Id (PacketHeader d) = 264.
Proof.
  eexists. split; [reflexivity|].
  destruct (memfifo_descriptor_correct (replicate 18 7) 0x100 64 0x1234 CN2IONODE 0 264 eq_refl) as [_ H].
  destruct (H _ eq_refl) as (_ & _ & _ & A & _ & _ & B & _). by split.
Defined.

(** The direct put a descriptor from [initPt2PtDirectPutDescriptor] asks
    for. *)
Lemma upd_hdr_bf f lo len v d :
  upd_hdr (bf_update f lo len v) d = set_hdr f (bf_set lo len v (rd f (PacketHeader d))) d.
Proof. done. Qed.

Lemma bf_keeps f lo len v d : (f_end f <= 32)%nat -> hdr_ok d ->
  let d' := upd_hdr (bf_update f lo len v) d in
  hdr_ok d' /\ Pa_Payload d' = Pa_Payload d /\ Message_Length d' = Message_Length d /\
  (forall g, disjoint_fields g f -> rd g (PacketHeader d') = rd g (PacketHeader d)).
Proof.
  intros Hf H. split_and!; [by apply hdr_ok_bf|done|done|]. intros g Hg.
  apply rd_bf_update_other; [done|]. by rewrite H.
Qed.

Lemma put_offset_bf f lo len v d : (f_end f <= 32)%nat -> hdr_ok d ->
  disjoint_fields h_MU_Half f -> disjoint_fields h_Put_Offset_LSB f ->
  put_offset (upd_hdr (bf_update f lo len v) d) = put_offset d.
Proof. intros. rewrite upd_hdr_bf. by apply put_offset_set_other. Qed.

Lemma set_put_offset_keeps off d : hdr_ok d ->
  hdr_ok (set_put_offset off d) /\ Pa_Payload (set_put_offset off d) = Pa_Payload d /\
  Message_Length (set_put_offset off d) = Message_Length d /\
  rd h_Destination (PacketHeader (set_put_offset off d)) = rd h_Destination (PacketHeader d).
Proof.
  intros H. split_and!; [by apply hdr_ok_set_put_offset|done|done|].
  unfold set_put_offset, upd_hdr, set_hdr, h_set_Put_Offset_MSB, bf_update, hdr_ok in *.
  cbn [PacketHeader upd_field]. by repeat hdr_step.
Qed.

Lemma put_descriptor_ok src len dest direction io_port ctr off :
  direction <> IONODE2CN \/ io_port_ok io_port = true -> Z.land ctr 7 = 0 ->
  0 <= ctr < 2 ^ 36 -> 0 <= off < 2 ^ 37 ->
  exists d, initPt2PtDirectPutDescriptor src len dest direction io_port ctr off = Some d /\
    view_put d = mkPut src off len (ctr + 2 ^ 36 + 3) /\ hdr_ok d /\
    rd h_Destination (PacketHeader d) = dest mod 2 ^ 32.
Proof.
  intros Hp Hc Hr Ho. unfold initPt2PtDirectPutDescriptor.
  assert (E1 : (direction =? IONODE2CN) && negb (io_port_ok io_port) = false).
  { destruct Hp as [Hd%Z.eqb_neq| ->]; [by rewrite Hd|apply andb_false_r]. }
  assert (E2 : negb (Z.land ctr 7 =? 0) = false) by (by rewrite Hc).
  rewrite E1, E2, counter_word_spec by done.
  destruct (pt2pt_base_ok MUHWI_PACKET_TYPE_PUT src len dest direction io_port) as (H0 & H1 & H2 & H3 & _ & _).
  generalize dependent (pt2pt_base MUHWI_PACKET_TYPE_PUT src len dest direction io_port). intros d0 H0 H1 H2 H3.
  destruct (bf_keeps h_MU_Half 5 1 MUHWI_PACKET_DIRECT_PUT_IS_NOT_PACED d0 ltac:(field_lia) H0) as (A0 & A1 & A2 & A3).
  unfold h_set_Pacing. generalize dependent (upd_hdr (bf_update h_MU_Half 5 1 MUHWI_PACKET_DIRECT_PUT_IS_NOT_PACED) d0).
  intros d1 A0 A1 A2 A3.
  destruct (bf_keeps h_MU_Half 6 10 SYS_BATID d1 ltac:(field_lia) A0) as (B0 & B1 & B2 & B3).
  unfold h_set_Rec_Payload_BAT. generalize dependent (upd_hdr (bf_update h_MU_Half 6 10 SYS_BATID) d1).
  intros d2 B0 B1 B2 B3.
  destruct (set_put_offset_keeps off d2 B0) as (C0 & C1 & C2 & C3).
  pose proof (put_offset_set off d2 B0) as C4. rewrite Z.mod_small in C4 by lia.
  generalize dependent (set_put_offset off d2). intros d3 C0 C1 C2 C3 C4.
  destruct (bf_keeps h_Rec_Counter_Half 0 10 SYS_BATID d3 ltac:(field_lia) C0) as (D0 & D1 & D2 & D3).
  pose proof (put_offset_bf h_Rec_Counter_Half 0 10 SYS_BATID d3 ltac:(field_lia) C0
    ltac:(field_lia) ltac:(field_lia)) as D4.
  unfold h_set_Rec_Counter_BAT. generalize dependent (upd_hdr (bf_update h_Rec_Counter_Half 0 10 SYS_BATID) d3).
  intros d4 D0 D1 D2 D3 D4.
  exists (set_hdr h_Counter_Offset (ctr + 2 ^ 36 + 3) d4). split; [done|]. split_and!.
  - unfold view_put. rewrite put_counter_set by done.
    rewrite put_offset_set_other by (done || field_lia). rewrite D4, C4.
    change (Pa_Payload (set_hdr h_Counter_Offset _ d4)) with (Pa_Payload d4).
    change (Message_Length (set_hdr h_Counter_Offset _ d4)) with (Message_Length d4).
    rewrite D1, C1, B1, A1, H1, D2, C2, B2, A2, H2. f_equal. apply Z.mod_small. lia.
  - apply hdr_ok_set_hdr; [field_lia|done].
  - change (PacketHeader (set_hdr h_Counter_Offset (ctr + 2 ^ 36 + 3) d4)) with
      (wr h_Counter_Offset (ctr + 2 ^ 36 + 3) (PacketHeader d4)).
    rewrite rd_wr_other; [|field_lia|rewrite D0; field_lia].
    by rewrite D3, C3, B3, A3 by field_lia.
Qed.
