(* ===== verification/State.v ===== *)
(** * State of the data mover

    The structures of bgmudm/common.h, mudm_pkt.h, rdma_object.h and the
    FIFO shadows of include/spi/include/mu, gathered in one [world].
    Pointers into an array of structures are array indices, NULL is
    [None].  What the message unit itself changes between two polls is
    the separate record [hw_state]. *)

From S2P Require Import Prelude Chain Bytes Descriptor.

(** ** Scatter-gather lists and packet buffers *)

(** [struct mudm_sgl]: 36-bit physical address, 28-bit length. *)
Record mudm_sgl := mkSgl { physicalAddr : Z; memlength : Z }.

Record ionet_send_remote_payload := mkRemote {
  rp_RequestID : Z; rp_remote_vaddr : Z; rp_rkey : Z; rp_sgl_num : Z;
  rp_data_length : Z; rp_immediate_data : Z; rp_flags : Z;
  rp_rdma_object : Z; rp_SGE : list mudm_sgl }.
#[export] Instance FieldsOf_remote : FieldsOf ionet_send_remote_payload := fun p =>
  mkRemote (rp_RequestID p) (rp_remote_vaddr p) (rp_rkey p) (rp_sgl_num p)
    (rp_data_length p) (rp_immediate_data p) (rp_flags p) (rp_rdma_object p) (rp_SGE p).

(** [struct mudm_rdma_bcast] and [struct rdma_bcast_set_counter]. *)
Record mudm_rdma_bcast := mkMrb {
  mrb_requestID : Z; mrb_source_payload_paddr : Z; mrb_dest_payload_paddr : Z;
  mrb_payload_length : Z; mrb_num_in_class_route : Z; mrb_class_route : Z;
  mrb_status_mem : Z; mrb_status_val : Z }.
#[export] Instance FieldsOf_mrb : FieldsOf mudm_rdma_bcast := fun m =>
  mkMrb (mrb_requestID m) (mrb_source_payload_paddr m) (mrb_dest_payload_paddr m)
    (mrb_payload_length m) (mrb_num_in_class_route m) (mrb_class_route m)
    (mrb_status_mem m) (mrb_status_val m).
Record rdma_bcast_set_counter := mkRbsc {
  rbsc_mrb : mudm_rdma_bcast; rbsc_mu_counter_offset : Z; rbsc_origination_node : Z }.
#[export] Instance FieldsOf_rbsc : FieldsOf rdma_bcast_set_counter := fun r =>
  mkRbsc (rbsc_mrb r) (rbsc_mu_counter_offset r) (rbsc_origination_node r).

(** What a packet buffer holds, under the type its last writer gave it. *)
Inductive packet_data :=
| DataBytes (bs : list Z)
| DataDescs (ds : list MUHWI_Descriptor)
| DataRemote (p : ionet_send_remote_payload)
| DataBcast (r : rdma_bcast_set_counter).

(** ** Hardware *)

(** [struct mu_element]: a reception counter and its error word. *)
Record mu_element := mkMue { mu_counter : Z; mu_error : Z }.
#[export] Instance FieldsOf_mue : FieldsOf mu_element := fun m =>
  mkMue (mu_counter m) (mu_error m).

Record hw_state := mkHw {
  hw_freeSpace : nat -> Z;           (* injection FIFO of an I/O link *)
  hw_descCount : nat -> Z;
  hw_timebase : Z;
  hw_mue : nat -> nat -> mu_element; (* compare area of an I/O link *)
  hw_rec_tail : nat -> Z;            (* reception FIFO: pa_tail *)
  hw_rec_mem : nat -> Z -> Z         (* reception FIFO: byte at offset *)
}.
#[export] Instance FieldsOf_hw : FieldsOf hw_state := fun h =>
  mkHw (hw_freeSpace h) (hw_descCount h) (hw_timebase h) (hw_mue h) (hw_rec_tail h)
       (hw_rec_mem h).

(** ** FIFO shadows (include/spi/include/mu/{Fifo,InjFifo,RecFifo}.h) *)

Record MUSPI_InjFifo := mkInj {
  if_pa_start : Z; if_va_start : Z; if_va_end : Z; if_va_tail : Z;
  if_pa_tail : Z;                    (* hardware tail register *)
  if_descCount : Z; if_freeSpace : Z; if_numInjected : Z;
  if_ring : gmap Z MUHWI_Descriptor  (* the FIFO memory, by address *)
}.
#[export] Instance FieldsOf_inj : FieldsOf MUSPI_InjFifo := fun f =>
  mkInj (if_pa_start f) (if_va_start f) (if_va_end f) (if_va_tail f) (if_pa_tail f)
        (if_descCount f) (if_freeSpace f) (if_numInjected f) (if_ring f).

Record MUSPI_RecFifo := mkRec {
  rf_pa_start : Z; rf_va_start : Z; rf_va_end : Z; rf_va_head : Z; rf_va_tail : Z;
  rf_pa_head : Z                     (* hardware head register *)
}.
#[export] Instance FieldsOf_rec : FieldsOf MUSPI_RecFifo := fun f =>
  mkRec (rf_pa_start f) (rf_va_start f) (rf_va_end f) (rf_va_head f) (rf_va_tail f)
        (rf_pa_head f).

(** ** Packet descriptors (bgmudm/mudm_pkt.h) *)

Record pkt_descriptor := mkPktd {
  pk_next : option nat; pk_prev : option nat;
  desc_cnt : Z; req_id : Z; error_val : Z;
  message_pa : Z; pk_timestamp : Z; pk_ccontext : option nat }.
#[export] Instance FieldsOf_pktd : FieldsOf pkt_descriptor := fun d =>
  mkPktd (pk_next d) (pk_prev d) (desc_cnt d) (req_id d) (error_val d)
         (message_pa d) (pk_timestamp d) (pk_ccontext d).

#[export, program] Instance Linked_pktd : Linked pkt_descriptor := {
  nx := pk_next; set_nx p d := d <| pk_next := p |>;
  pv := pk_prev; set_pv p d := d <| pk_prev := p |> }.
Solve All Obligations with done.

Inductive pool_id := PacketControls (link : nat) | SmallpaObjCtls (link : nat).
#[export] Instance pool_id_eq : EqDecision pool_id.
Proof. solve_decision. Defined.
Definition pool_link (p : pool_id) : nat :=
  match p with PacketControls l | SmallpaObjCtls l => l end.

Record pkt_controls := mkPc {
  num_pkts : Z; packet_size : Z; pkt_list_base_pa : Z;
  pkt_desc_list : gmap nat pkt_descriptor;
  pkt_free_list : option nat; pkt_reqid_list : option nat;
  IdToInjFifo : nat }.
#[export] Instance FieldsOf_pc : FieldsOf pkt_controls := fun c =>
  mkPc (num_pkts c) (packet_size c) (pkt_list_base_pa c) (pkt_desc_list c)
       (pkt_free_list c) (pkt_reqid_list c) (IdToInjFifo c).

(** ** RDMA objects (bgmudm/rdma_object.h) *)

Record mudm_rdma_object := mkRo {
  remote_rdma_obj_pa : Z; ro_mue : nat; rdma_object_pa : Z; local_request_id : Z;
  local_connect : option nat; ro_next : option nat; ro_prev : option nat }.
#[export] Instance FieldsOf_ro : FieldsOf mudm_rdma_object := fun r =>
  mkRo (remote_rdma_obj_pa r) (ro_mue r) (rdma_object_pa r) (local_request_id r)
       (local_connect r) (ro_next r) (ro_prev r).

#[export, program] Instance Linked_ro : Linked mudm_rdma_object := {
  nx := ro_next; set_nx p d := d <| ro_next := p |>;
  pv := ro_prev; set_pv p d := d <| ro_prev := p |> }.
Solve All Obligations with done.

Record rdma_obj_controls := mkRoc {
  num_obj : Z; rdma_freed_count : Z; rdma_allocated_count : Z;
  roc_base_pa : Z; compare_area_size : Z;
  rdma_obj_list : gmap nat mudm_rdma_object;
  rdma_free_list : option nat; counter_list : option nat;
  rdma_bcast_controls : nat; rdma_bcast_controls_offset : Z }.
#[export] Instance FieldsOf_roc : FieldsOf rdma_obj_controls := fun r =>
  mkRoc (num_obj r) (rdma_freed_count r) (rdma_allocated_count r) (roc_base_pa r)
    (compare_area_size r) (rdma_obj_list r) (rdma_free_list r) (counter_list r)
    (rdma_bcast_controls r) (rdma_bcast_controls_offset r).

(** ** Connections (bgmudm/common.h) *)

Definition CONN_MAGIC := 0xC0C0CCCC01010101.
Definition CONN_FREE := 0.
Definition CONN_PENDING := 1.
Definition CONN_ACTIVE := 2.
Definition CONN_DISCONNECTING := -1.
Definition CONN_ABORTED := -2.
Definition CONN_ORPHANED := -3.

Record mudm_connection := mkConn {
  mu_iMemoryFifoDescriptor : MUHWI_Descriptor;
  mu_iDirectPutDescriptor : MUHWI_Descriptor;
  mu_iDirectPutDescriptor4rget : MUHWI_Descriptor;
  c_magic : Z; c_state : Z; my_index : Z;
  remote_rec_FIFO_Id : Z; local_rec_FIFO_Id : Z; c_remote_BlockID : Z;
  c_destination : Z; reverse_destination : Z; remote_bridgingCNnode : Z;
  dest_conn_index : Z; io_port : Z; reverse_io_port : Z;
  c_direction : Z; reverse_direction : Z; lowbit_timestamp : Z;
  injfifo_ctls : nat;
  nextconn : option nat; prevconn : option nat;
  c_activelist : option nat; c_pendlist : option nat; c_abortlist : option nat;
  remote_timestamp : Z; my_timestamp : Z;
  memfifo_sent : Z; c_rget_memfifo_sent : Z;
  c_packetcontrols : nat; c_smallpa_obj_ctls : nat; c_rdma_obj_ctls : nat }.
#[export] Instance FieldsOf_conn : FieldsOf mudm_connection := fun c =>
  mkConn (mu_iMemoryFifoDescriptor c) (mu_iDirectPutDescriptor c)
    (mu_iDirectPutDescriptor4rget c) (c_magic c) (c_state c) (my_index c)
    (remote_rec_FIFO_Id c) (local_rec_FIFO_Id c) (c_remote_BlockID c) (c_destination c)
    (reverse_destination c) (remote_bridgingCNnode c) (dest_conn_index c) (io_port c)
    (reverse_io_port c) (c_direction c) (reverse_direction c) (lowbit_timestamp c)
    (injfifo_ctls c) (nextconn c) (prevconn c) (c_activelist c) (c_pendlist c)
    (c_abortlist c) (remote_timestamp c) (my_timestamp c) (memfifo_sent c)
    (c_rget_memfifo_sent c) (c_packetcontrols c) (c_smallpa_obj_ctls c) (c_rdma_obj_ctls c).

#[export, program] Instance Linked_conn : Linked mudm_connection := {
  nx := nextconn; set_nx p d := d <| nextconn := p |>;
  pv := prevconn; set_pv p d := d <| prevconn := p |> }.
Solve All Obligations with done.

(** ** RDMA broadcast (bgmudm/common.h) *)

Definition BCAST_INACTIVE := 0.
Definition BCAST_SETUP := 1.
Definition BCAST_RECEIVER := 2.
Definition BCAST_WAIT4CLEAR := 6.

Record bcast_rdma_object := mkBro {
  b_state : Z; b_counter_info : rdma_bcast_set_counter;
  b_iDirectPutDescriptor : MUHWI_Descriptor;
  b_mu_counter_bcast_addr : nat;      (* index in the compare area of link 0 *)
  b_rdma_object_pa : Z;
  b_local_status_address : Z; b_local_status_value : Z;
  b_num_compute_nodes_in_class_route : Z;
  b_origin_bcast_node : Z; b_class_route4bcast : Z }.
#[export] Instance FieldsOf_bro : FieldsOf bcast_rdma_object := fun b =>
  mkBro (b_state b) (b_counter_info b) (b_iDirectPutDescriptor b)
    (b_mu_counter_bcast_addr b) (b_rdma_object_pa b) (b_local_status_address b)
    (b_local_status_value b) (b_num_compute_nodes_in_class_route b)
    (b_origin_bcast_node b) (b_class_route4bcast b).

Record mudm_bcast := mkMb {
  mb_iMemoryFifoDescriptor : MUHWI_Descriptor;
  RDMA_bcast_control : bcast_rdma_object;
  mb_IdToInjFifo : nat; mb_memfifo_sent : Z; mb_send_count : Z }.
#[export] Instance FieldsOf_mb : FieldsOf mudm_bcast := fun b =>
  mkMb (mb_iMemoryFifoDescriptor b) (RDMA_bcast_control b) (mb_IdToInjFifo b)
    (mb_memfifo_sent b) (mb_send_count b).

(** ** Locks, cleanup table and the observable events *)

Inductive lock_id := ConnLock | InjLock (l : nat) | PktLock (p : pool_id) | RdmaLock (l : nat).
#[export] Instance lock_id_eq : EqDecision lock_id.
Proof. solve_decision. Defined.

(** A memory region registered for cleanup, with its cleanup function. *)
Inductive cleanup_fn := FreeMem | FreeMuInjRegion (l : nat) | FreeMuSubgroupMem (l : nat)
  | FreeRecFifo (l : nat).
Record mudm_memory_region := mkRegion { mr_length : Z; mr_base_vaddr : Z; mr_base_paddr : Z }.
Record cleanup_entry := mkCe { ce_region : mudm_memory_region; ce_fn : option cleanup_fn; ce_status : Z }.

Inductive event :=
| EvInject (link : nat) (d : MUHWI_Descriptor) (payload : option packet_data)
| EvStatus (reqs : list (Z * Z))
| EvRecv (sw : SoftwareBytes_t) (payload : packet_data)
| EvRecvConn (conn : nat) (sw : SoftwareBytes_t)
| EvWakeup
| EvFree (r : mudm_memory_region)
| EvStatusMem (addr v : Z)            (* status word written for the user *)
| EvArm (link : nat)                  (* interrupts cleared, wakeup unit armed *)
| EvDisarm (link : nat).

(** ** [struct my_context] *)

Definition MUDM_MAGIC := 0xDDDDDDDD20202020.
Definition MUDM_ACTIVE := 1.
Definition MUDM_TERMINATING := 0.
Definition MUDM_VERSION := 4.

Record world := mkWorld {
  magic : Z; m_state : Z; mudm_context_phys_addr : Z;
  my_using_IO_port : Z; myTorusAddress : Z; mybridgingCNnode : Z;
  myUCI : Z; myBlockID : Z; max_connections : Z; poll_active : Z; wakeupActive : Z; StuckState : Z;
  m_iMemoryFifoDescriptor : MUHWI_Descriptor; rget_memfifo_sent : Z;
  conn_list : gmap nat mudm_connection; conn_freelist : option nat;
  conn_pendlist : nat -> option nat; conn_activelist : nat -> option nat;
  conn_abortlist : nat -> option nat;
  inj : nat -> MUSPI_InjFifo; inj_state : nat -> Z;
  pools : pool_id -> pkt_controls;
  rdma : nat -> rdma_obj_controls;
  recf : nat -> MUSPI_RecFifo;
  sys_rec_fifo_id : nat -> Z; remote_BlockID : nat -> Z; link4reset : nat -> Z;
  system_bcast : mudm_bcast;
  num_compute_nodes : Z; largest_node_corner : Z;
  clean_table : list cleanup_entry;
  mem : gmap Z packet_data;           (* packet buffers, by physical address *)
  held : list lock_id;
  trace : list event;
  hw : hw_state }.
#[export] Instance FieldsOf_world : FieldsOf world := fun w =>
  mkWorld (magic w) (m_state w) (mudm_context_phys_addr w) (my_using_IO_port w)
    (myTorusAddress w) (mybridgingCNnode w) (myUCI w) (myBlockID w) (max_connections w)
    (poll_active w) (wakeupActive w) (StuckState w) (m_iMemoryFifoDescriptor w) (rget_memfifo_sent w)
    (conn_list w) (conn_freelist w) (conn_pendlist w) (conn_activelist w)
    (conn_abortlist w) (inj w) (inj_state w) (pools w) (rdma w) (recf w)
    (sys_rec_fifo_id w) (remote_BlockID w) (link4reset w) (system_bcast w)
    (num_compute_nodes w) (largest_node_corner w) (clean_table w) (mem w) (held w)
    (trace w) (hw w).

Definition MW (A : Type) : Type := M world A.

(** ** The code around the driver

    The message unit, the callbacks registered with [mudm_init] and the
    kernel services are parameters.  [hw_step] is what the hardware does
    between two polls; a callback may call back into the driver, so it is
    a computation on the whole [world]. *)
Record platform := mkPlatform {
  hw_step : world -> hw_state;
  cb_recv : SoftwareBytes_t -> packet_data -> MW Z;
  cb_recv_conn : nat -> SoftwareBytes_t -> MW Z;
  cb_status : list (Z * Z) -> MW Z;
  cb_allocate : Z -> MW (option mudm_memory_region);
  cb_free : mudm_memory_region -> MW Z;
  wakeup_wait : MW unit;             (* the polling thread sleeps; others run *)
  cycles_per_usec : Z;               (* personality: Kernel_Config.FreqMHz *)
  off_dummy_counter : Z;             (* offsetof(struct my_context, dummy_counter) *)
  off_rgatc : Z;                     (* offsetof(struct my_context, rgatc) *)
  off_largest_node_corner : Z;
  off_num_compute_nodes : Z;
  buf_image : packet_data -> list Z;  (* a packet buffer as its bytes *)
  spin_fuel : nat }.

(** ** Primitive actions *)

Definition emit (e : event) : MW unit := modify (fun w => w <| trace ::= (fun t => t ++ [e]) |>).

Definition SPIN_LOCK (l : lock_id) : MW unit := fun w =>
  if decide (l ∈ held w) then Hang else Ok tt (w <| held ::= cons l |>).
Definition SPIN_UNLOCK (l : lock_id) : MW unit :=
  modify (fun w => w <| held ::= filter (fun x => x <> l) |>).

Definition GetTimeBase2 : MW Z := gets (fun w => hw_timebase (hw w)).
Definition wakeup : MW unit := emit EvWakeup.

Section with_platform.
Context (P : platform).

(** Re-evaluate [c] after each hardware step until it holds. *)
Fixpoint spin_until (fuel : nat) (c : world -> bool) : MW unit := fun w =>
  if c w then Ok tt w else
  match fuel with
  | O => Hang
  | S fuel => spin_until fuel c (w <| hw := hw_step P w |>)
  end.

Definition status_cb (reqs : list (Z * Z)) : MW Z :=
  emit (EvStatus reqs) ;;; cb_status P reqs.
Definition recv_cb (sw : SoftwareBytes_t) (p : packet_data) : MW Z :=
  emit (EvRecv sw p) ;;; cb_recv P sw p.
Definition recv_conn_cb (c : nat) (sw : SoftwareBytes_t) : MW Z :=
  emit (EvRecvConn c sw) ;;; cb_recv_conn P c sw.
End with_platform.

(** Members of received packets and of user structures: a read past the
    end is outside the model. *)
Definition peek (f : field) (pkt : list Z) : MW Z :=
  if decide (f_end f <= length pkt)%nat then ret (rd f pkt) else fault.
Definition peek_bytes (off len : nat) (bs : list Z) : MW (list Z) :=
  if decide (off + len <= length bs)%nat then ret (slice off len bs) else fault.

(** Reading and writing one element of a link-indexed member, and one
    node of a heap. *)
Definition at_link {A} (get : world -> nat -> A) (l : nat) : MW A := gets (fun w => get w l).

Definition get_conn (c : nat) : MW mudm_connection :=
  o <- gets (fun w => conn_list w !! c) ;; deref o.
Definition upd_conn (c : nat) (u : mudm_connection -> mudm_connection) : MW unit :=
  get_conn c ;;; modify (fun w => w <| conn_list ::= alter u c |>).

Definition upd_pool (p : pool_id) (u : pkt_controls -> pkt_controls) : MW unit :=
  modify (fun w => w <| pools ::= fun f => <[p := u (f p)]> f |>).
Definition upd_roc (l : nat) (u : rdma_obj_controls -> rdma_obj_controls) : MW unit :=
  modify (fun w => w <| rdma ::= fun f => <[l := u (f l)]> f |>).
Definition get_mue (l i : nat) : MW mu_element := gets (fun w => hw_mue (hw w) l i).
Definition upd_mue (l i : nat) (u : mu_element -> mu_element) : MW unit :=
  modify (fun w => w <| hw ::= fun h => h <| hw_mue ::= fun f =>
    <[l := <[i := u (f l i)]> (f l)]> f |> |>).

Definition upd_inj (l : nat) (u : MUSPI_InjFifo -> MUSPI_InjFifo) : MW unit :=
  modify (fun w => w <| inj ::= fun f => <[l := u (f l)]> f |>).

(** offsetof(struct my_context, rdma_EINVAL_source), rdma_GOOD_source and
    offsetof(struct mu_element, error). *)
Definition OFF_rdma_EINVAL_source := 56.
Definition OFF_rdma_GOOD_source := 64.
Definition OFF_mue_error := 8.

(** ** Reading through record updates *)

(** Reduce [p (w <| f := v |>)] for every projection [p] of [world]
    without unfolding the updated world anywhere else. *)
Ltac wsimp_in_term t :=
  let t' := eval cbn in t in change t with t'.
Ltac wsimp :=
  repeat match goal with
  | |- context [?p (@upd_field world ?T ?f ?i ?u ?w)] =>
      is_const p; wsimp_in_term (p (@upd_field world T f i u w)); cbn beta
  end.
Ltac wsimp_at H :=
  repeat match type of H with
  | context [?p (@upd_field world ?T ?f ?i ?u ?w)] =>
      is_const p; let t := constr:(p (@upd_field world T f i u w)) in
      let t' := eval cbn in t in change t with t' in H; cbn beta in H
  end.

(** A lock taken and released leaves the list of held locks as it was. *)
Lemma filter_unlock (l : lock_id) hs : l ∉ hs -> filter (fun x => x <> l) (l :: hs) = hs.
Proof.
  intros H. rewrite filter_cons, decide_False by naive_solver.
  induction hs as [|x hs IH]; [done|]. apply not_elem_of_cons in H as [H1 H2].
  rewrite filter_cons, decide_True by congruence. f_equal. auto.
Qed.

Lemma wp_lock l (Q : unit -> world -> Prop) w :
  l ∉ held w -> Q tt (w <| held ::= cons l |>) -> wp (SPIN_LOCK l) Q w.
Proof. intros H HQ. unfold wp, SPIN_LOCK. by rewrite decide_False. Qed.

Lemma wp_get_conn c cc (Q : mudm_connection -> world -> Prop) w :
  conn_list w !! c = Some cc -> Q cc w -> wp (get_conn c) Q w.
Proof. intros H HQ. unfold wp, get_conn, bind, gets. by rewrite H. Qed.

Lemma wp_upd_conn c cc u (Q : unit -> world -> Prop) w :
  conn_list w !! c = Some cc -> Q tt (w <| conn_list ::= alter u c |>) ->
  wp (upd_conn c u) Q w.
Proof. intros H HQ. apply wp_bind. by apply (wp_get_conn _ cc). Qed.

(** Consecutive updates of one block are one update. *)
Lemma wp_upd_upd {A} c f g (k : MW A) (Q : A -> world -> Prop) w :
  wp (upd_conn c (g ∘ f) ;;; k) Q w -> wp (upd_conn c f ;;; upd_conn c g ;;; k) Q w.
Proof.
  unfold upd_conn, get_conn, wp, bind, gets, modify, deref, ret.
  destruct (conn_list w !! c) as [cc|] eqn:E; [|done]. wsimp. rewrite lookup_alter_eq, E.
  change (f <$> Some cc) with (Some (f cc)). cbv beta iota.
  match goal with |- match k ?w1 with _ => _ end -> match k ?w2 with _ => _ end =>
    assert (H : w1 = w2); [|by rewrite H] end.
  destruct w. unfold upd_field. cbn. by rewrite alter_alter_eq.
Qed.

(** Only the locks changed, and they changed back. *)
Lemma held_restore w : w <| held := held w |> = w.
Proof. by destruct w. Qed.

Lemma unlock_eq l w w1 w2 :
  l ∉ held w ->
  w1 <| held ::= filter (fun x => x <> l) |>
    = w2 <| held := filter (fun x => x <> l) (l :: held w) |> ->
  w2 <| held := held w |> = w2 ->
  w1 <| held ::= filter (fun x => x <> l) |> = w2.
Proof. intros H -> E. by rewrite filter_unlock. Qed.

(** A status callback that does not call back into the driver: it may take
    time, nothing else.  It is only ever called with no lock held. *)
Class QuietStatus (P : platform) : Prop := quiet_status :
  forall reqs w, held w = [] ->
    wp (cb_status P reqs) (fun _ w' => exists h,
      w' = w <| hw := h |> /\ hw_mue h = hw_mue (hw w)) w.

Lemma wp_status_cb P `{!QuietStatus P} reqs (Q : Z -> world -> Prop) w :
  held w = [] ->
  (forall r h, hw_mue h = hw_mue (hw w) -> Q r (w <| trace ::= fun t => t ++ [EvStatus reqs] |> <| hw := h |>)) ->
  wp (status_cb P reqs) Q w.
Proof.
  intros Hh HQ. apply wp_bind, wp_modify. eapply wp_mono; [by apply quiet_status; wsimp|].
  intros r w' (h & -> & Hm). by apply HQ.
Qed.

(** What walking the pools may change: of the driver only the pools [Pk] and
    the RDMA objects [Rd], besides the trace and the hardware. *)
Definition touches (Pk : pool_id -> Prop) (Rd : nat -> Prop) (w w' : world) : Prop :=
  w' = w <| pools := pools w' |> <| rdma := rdma w' |> <| trace := trace w' |> <| hw := hw w' |> /\
  (forall p, ~ Pk p -> pools w' p = pools w p) /\ (forall l, ~ Rd l -> rdma w' l = rdma w l).

#[export] Instance touches_preorder Pk Rd : PreOrder (touches Pk Rd).
Proof.
  split.
  - intros w. split; [by destruct w|done].
  - intros w w1 w2 (E1 & P1 & R1) (E2 & P2 & R2). split_and!.
    + rewrite E2 at 1. rewrite E1 at 1. by destruct w.
    + intros p Hp. by rewrite P2, P1.
    + intros l Hl. by rewrite R2, R1.
Qed.

Lemma touches_weaken (Pk Pk' : pool_id -> Prop) (Rd Rd' : nat -> Prop) w w' :
  (forall p, Pk p -> Pk' p) -> (forall l, Rd l -> Rd' l) -> touches Pk Rd w w' -> touches Pk' Rd' w w'.
Proof. intros HP HR (E & P1 & R1). split_and!; [done|auto..]. Qed.

Lemma touches_trace Pk Rd u h w : touches Pk Rd w (w <| trace ::= u |> <| hw := h |>).
Proof. split; [by destruct w|done]. Qed.
Lemma touches_hw Pk Rd u w : touches Pk Rd w (w <| hw ::= u |>).
Proof. split; [by destruct w|done]. Qed.
