(* ===== verification/Inject.v ===== *)
(** * Injection FIFO

    [MUSPI_InjFifoNextDesc], [MUSPI_InjFifoAdvanceDesc] and
    [MUSPI_CheckDescComplete] of include/spi/include/mu/InjFifo.h, and the
    injection routines of bgmudm/common_inlines.h on top of them.  All
    the routines lock the FIFO, take the next free slot (polling the free
    space of the hardware while the FIFO is active and full), copy a
    template descriptor into the slot, edit it and advance the tail. *)

From S2P Require Import Prelude Chain Bytes Descriptor State.

(** ** The ring (include/spi/include/mu/InjFifo.h) *)

(** Next free slot: its descriptor number and address; the number is
    [(uint64_t)-1] and the address is not written when the FIFO is full. *)
Definition MUSPI_InjFifoNextDesc (l : nat) : MW (Z * option Z) :=
  f <- gets (fun w => inj w l) ;;
  (if if_freeSpace f =? 0 then
     free <- gets (fun w => hw_freeSpace (hw w) l) ;;
     upd_inj l (fun f => f <| if_freeSpace := free |>)
   else ret tt) ;;;
  f <- gets (fun w => inj w l) ;;
  if if_freeSpace f =? 0 then ret (u64_max, None)
  else ret (u64 (if_numInjected f + 1), Some (if_va_tail f)).

(** [MUSPI_setHwTail] and [MUSPI_setTailVa] assert the alignment of the
    tail and that its offset is below [size - 1]. *)
Definition adv_tail (f : MUSPI_InjFifo) : Z :=
  let tail_va := if_va_tail f + BGQ_MU_DESCRIPTOR_SIZE_IN_BYTES in
  if tail_va >=? if_va_end f then if_va_start f else tail_va.

Definition MUSPI_InjFifoAdvanceDesc (l : nat) : MW Z :=
  upd_inj l (fun f => f <| if_freeSpace ::= fun x => u64 (x - 1) |>
                        <| if_numInjected ::= fun x => u64 (x + 1) |>) ;;;
  f <- gets (fun w => inj w l) ;;
  let tail_va := adv_tail f in
  if negb (tail_va mod 32 =? 0) then fault else
  upd_inj l (fun f => f <| if_va_tail := tail_va |>) ;;;
  if negb (tail_va - if_va_start f <? if_va_end f - if_va_start f - 1) then fault else
  upd_inj l (fun f => f <| if_pa_tail := if_pa_start f + (tail_va - if_va_start f) |>) ;;;
  ret (if_numInjected f).

Definition MUSPI_CheckDescComplete (l : nat) (desc_count : Z) : MW Z :=
  f <- gets (fun w => inj w l) ;;
  if desc_count <=? if_descCount f then ret 1 else
  done <- gets (fun w => hw_descCount (hw w) l) ;;
  upd_inj l (fun f => f <| if_descCount := done |>) ;;;
  if desc_count <=? done then ret 1 else ret 0.

(** ** Send counters *)

(** The counter a caller passes as [send_count]. *)
Inductive count_loc :=
| ConnSent (c : nat)       (* &ccontext->memfifo_sent *)
| ConnRgetSent (c : nat)   (* &ccontext->rget_memfifo_sent *)
| CtxRgetSent              (* &mcontext->rget_memfifo_sent *)
| BcastSent.               (* &mcontext->system_bcast.send_count *)

Definition read_count (loc : count_loc) (w : world) : option Z :=
  match loc with
  | ConnSent c => memfifo_sent <$> conn_list w !! c
  | ConnRgetSent c => c_rget_memfifo_sent <$> conn_list w !! c
  | CtxRgetSent => Some (rget_memfifo_sent w)
  | BcastSent => Some (mb_send_count (system_bcast w))
  end.
Definition incr_count (loc : count_loc) (w : world) : world :=
  let incr x := u64 (x + 1) in
  match loc with
  | ConnSent c => w <| conn_list ::= alter (fun cc => cc <| memfifo_sent ::= incr |>) c |>
  | ConnRgetSent c => w <| conn_list ::= alter (fun cc => cc <| c_rget_memfifo_sent ::= incr |>) c |>
  | CtxRgetSent => w <| rget_memfifo_sent ::= incr |>
  | BcastSent => w <| system_bcast ::= fun b => b <| mb_send_count ::= incr |> |>
  end.

Section with_platform.
Context (P : platform).

(** ** Injection (bgmudm/common_inlines.h) *)

(** [MUDM_GET_NEXT_DESC]: [None] is the early [return (uint64_t)-1] of
    the macro, taken with the lock released when the FIFO is inactive. *)
Fixpoint next_desc_loop (fuel : nat) (l : nat) : MW (Z * option Z) :=
  r <- MUSPI_InjFifoNextDesc l ;;
  st <- gets (fun w => inj_state w l) ;;
  if (fst r =? u64_max) && negb (st =? 0) then
    match fuel with
    | O => hang
    | S fuel => modify (fun w => w <| hw := hw_step P w |>) ;;; next_desc_loop fuel l
    end
  else ret r.

Definition MUDM_GET_NEXT_DESC (l : nat) : MW (option (Z * option Z)) :=
  r <- next_desc_loop (spin_fuel P) l ;;
  st <- gets (fun w => inj_state w l) ;;
  if st =? 0 then SPIN_UNLOCK (InjLock l) ;;; ret None else ret (Some r).

(** Fill the slot and advance the tail; what the message unit will send
    is recorded with the payload it will read. *)
Definition fill_slot (l : nat) (slot : option Z) (d : MUHWI_Descriptor) : MW unit :=
  va <- deref slot ;;
  upd_inj l (fun f => f <| if_ring ::= <[va := d]> |>) ;;;
  payload <- gets (fun w => mem w !! Pa_Payload d) ;;
  MUSPI_InjFifoAdvanceDesc l ;;;
  emit (EvInject l d payload).

Definition InjFifoInject (l : nat) (desc : MUHWI_Descriptor) : MW Z :=
  SPIN_LOCK (InjLock l) ;;;
  o <- MUDM_GET_NEXT_DESC l ;;
  match o with
  | None => ret u64_max
  | Some (desc_count, slot) =>
      fill_slot l slot desc ;;;
      SPIN_UNLOCK (InjLock l) ;;;
      ret desc_count
  end.

(** The edits of [InjFifoInjectMemFifo]: payload, software bytes. *)
Definition edit_memfifo (type payload_phys_addr payload_length send_count : Z)
    (desc : MUHWI_Descriptor) : MUHWI_Descriptor :=
  let d := desc <| Pa_Payload := payload_phys_addr |> <| Message_Length := payload_length |> in
  let d := set_hdr (in_hdr sb_payload_length) payload_length d in
  let d := set_hdr (in_hdr sb_type) type d in
  set_hdr (in_hdr sb_sequence_number) send_count d.

Definition InjFifoInjectMemFifo (l : nat) (desc : MUHWI_Descriptor)
    (type payload_phys_addr payload_length : Z) (send_count : count_loc) : MW Z :=
  SPIN_LOCK (InjLock l) ;;;
  o <- MUDM_GET_NEXT_DESC l ;;
  match o with
  | None => ret u64_max
  | Some (desc_count, slot) =>
      c <- gets (read_count send_count) ;;
      n <- deref c ;;
      modify (incr_count send_count) ;;;
      fill_slot l slot (edit_memfifo type payload_phys_addr payload_length n desc) ;;;
      SPIN_UNLOCK (InjLock l) ;;;
      ret desc_count
  end.

Definition InjFifoInjectMemFifo_withDest (l : nat) (desc : MUHWI_Descriptor)
    (dest type payload_phys_addr payload_length : Z) (send_count : count_loc) : MW Z :=
  SPIN_LOCK (InjLock l) ;;;
  o <- MUDM_GET_NEXT_DESC l ;;
  match o with
  | None => ret u64_max
  | Some (desc_count, slot) =>
      c <- gets (read_count send_count) ;;
      n <- deref c ;;
      modify (incr_count send_count) ;;;
      fill_slot l slot (set_hdr h_Destination dest
        (edit_memfifo type payload_phys_addr payload_length n desc)) ;;;
      SPIN_UNLOCK (InjLock l) ;;;
      ret desc_count
  end.

Definition InjFifoInjectDirectPut (l : nat) (desc : MUHWI_Descriptor)
    (bytes source_physaddr dest_physaddr Rec_Counter_Offset : Z) : MW Z :=
  SPIN_LOCK (InjLock l) ;;;
  o <- MUDM_GET_NEXT_DESC l ;;
  match o with
  | None => ret u64_max
  | Some (desc_count, slot) =>
      d <- deref (set_counter_directput Rec_Counter_Offset
                    (set_dma_directput bytes source_physaddr dest_physaddr desc)) ;;
      fill_slot l slot d ;;;
      SPIN_UNLOCK (InjLock l) ;;;
      ret desc_count
  end.

Definition InjFifoInjectDirectPut_withDest (l : nat) (desc : MUHWI_Descriptor)
    (dest bytes source_physaddr dest_physaddr Rec_Counter_Offset : Z) : MW Z :=
  SPIN_LOCK (InjLock l) ;;;
  o <- MUDM_GET_NEXT_DESC l ;;
  match o with
  | None => ret u64_max
  | Some (desc_count, slot) =>
      d <- deref (set_counter_directput Rec_Counter_Offset
                    (set_dma_directput bytes source_physaddr dest_physaddr desc)) ;;
      fill_slot l slot (set_hdr h_Destination dest d) ;;;
      SPIN_UNLOCK (InjLock l) ;;;
      ret desc_count
  end.

(** Population count of a 64-bit word (include/kernel_impl.h), over the
    positions of its bits. *)
Definition bit_sum (v : Z) (l : list nat) : Z :=
  foldr (fun i acc => acc + Z.b2z (Z.testbit v (Z.of_nat i))) 0 l.
Definition popcnt64 (v : Z) : Z := bit_sum v (seq 0 64).

Definition edit_bcast (type payload_phys_addr payload_length class_route send_count : Z)
    (desc : MUHWI_Descriptor) : MUHWI_Descriptor :=
  let d := upd_hdr (h_set_Class_Route class_route) desc in
  let d := set_hdr (in_hdr sb_payload_length) payload_length d in
  let d := set_hdr (in_hdr sb_type) type d in
  let d := set_hdr (in_hdr sb_sequence_number) send_count d in
  d <| Pa_Payload := payload_phys_addr |> <| Message_Length := payload_length |>.

Definition InjFifoInjectMemFifoBcast (l : nat) (desc : MUHWI_Descriptor)
    (type payload_phys_addr payload_length class_route : Z) (send_count : count_loc) : MW Z :=
  SPIN_LOCK (InjLock l) ;;;
  o <- MUDM_GET_NEXT_DESC l ;;
  match o with
  | None => ret u64_max
  | Some (desc_count, slot) =>
      c <- gets (read_count send_count) ;;
      n <- deref c ;;
      modify (incr_count send_count) ;;;
      fill_slot l slot
        (edit_bcast type payload_phys_addr payload_length class_route n desc) ;;;
      SPIN_UNLOCK (InjLock l) ;;;
      ret desc_count
  end.

(** [InjFifoInjectReduce] polls for a free slot whatever the state of the
    FIFO. *)
Fixpoint reduce_desc_loop (fuel : nat) (l : nat) : MW (Z * option Z) :=
  r <- MUSPI_InjFifoNextDesc l ;;
  if fst r =? u64_max then
    match fuel with
    | O => hang
    | S fuel => modify (fun w => w <| hw := hw_step P w |>) ;;; reduce_desc_loop fuel l
    end
  else ret r.

(** The word length of the collective header: [numNonZeroBits - 2], in
    unsigned 32 bits, cut to three bits. *)
Definition length_field (payload_length : Z) : Z :=
  let numNonZeroBits := popcnt64 (u64 (payload_length - 1)) in
  Z.land (u32 (numNonZeroBits - 2)) 0x7.

Definition edit_reduce (type payload_phys_addr payload_length opCode dest reduce_value
    class_route send_count : Z) (desc : MUHWI_Descriptor) : MUHWI_Descriptor :=
  let d := set_hdr h_Destination dest desc in
  let d := set_hdr h_Byte3 (Z.lor (Z.land (rd h_Byte3 (PacketHeader d)) 0xE7) reduce_value) d in
  let d := set_hdr h_Byte1 (Z.lor (length_field payload_length) opCode) d in
  let d := set_hdr (in_hdr sb_payload_length) payload_length d in
  let d := set_hdr (in_hdr sb_type) type d in
  let d := set_hdr (in_hdr sb_sequence_number) send_count d in
  let d := d <| Pa_Payload := payload_phys_addr |> <| Message_Length := payload_length |> in
  upd_hdr (h_set_Class_Route class_route) d.

Definition InjFifoInjectReduce (l : nat) (desc : MUHWI_Descriptor)
    (type payload_phys_addr payload_length opCode dest reduce_value class_route : Z)
    (send_count : count_loc) : MW Z :=
  SPIN_LOCK (InjLock l) ;;;
  r <- reduce_desc_loop (spin_fuel P) l ;;
  c <- gets (read_count send_count) ;;
  n <- deref c ;;
  modify (incr_count send_count) ;;;
  fill_slot l (snd r) (edit_reduce type payload_phys_addr payload_length opCode dest
    reduce_value class_route n desc) ;;;
  SPIN_UNLOCK (InjLock l) ;;;
  ret (fst r).

(** [while( MUSPI_CheckDescComplete(...) == 0)] *)
Fixpoint wait_desc (fuel l : nat) (desc_count : Z) : MW unit :=
  done <- MUSPI_CheckDescComplete l desc_count ;;
  if negb (done =? 0) then ret tt else
  match fuel with
  | O => hang
  | S fuel => modify (fun w => w <| hw := hw_step P w |>) ;;; wait_desc fuel l desc_count
  end.

(** ** Injection on a connection *)

Definition conn_memfifo (c : nat) (type payload_phys_addr payload_length : Z) : MW Z :=
  cc <- get_conn c ;;
  InjFifoInjectMemFifo (injfifo_ctls cc) (mu_iMemoryFifoDescriptor cc) type
    payload_phys_addr payload_length (ConnSent c).

Definition dput_memfifo (c : nat) (type payload_phys_addr payload_length : Z)
    (send_count : count_loc) : MW Z :=
  cc <- get_conn c ;;
  InjFifoInjectMemFifo (injfifo_ctls cc) (mu_iMemoryFifoDescriptor cc) type
    payload_phys_addr payload_length send_count.

Definition direct_put (c : nat) (source_phys_addr target_phys_addr put_length counter : Z)
    : MW Z :=
  cc <- get_conn c ;;
  InjFifoInjectDirectPut (injfifo_ctls cc) (mu_iDirectPutDescriptor cc) put_length
    source_phys_addr target_phys_addr counter.
End with_platform.

(** ** Specification *)

(** The hardware frees a slot of a full FIFO, and completes an injected
    descriptor, within the number of polls the model allows: a distance
    to the event decreases with every step. *)
Class MuLive (P : platform) : Prop := {
  free_live : forall l : nat, exists rank : hw_state -> nat,
    (forall h, (rank h <= spin_fuel P)%nat) /\
    (forall w, hw_freeSpace (hw w) l = 0 -> (rank (hw_step P w) < rank (hw w))%nat);
  desc_live : forall (l : nat) (n : Z), exists rank : hw_state -> nat,
    (forall h, (rank h <= spin_fuel P)%nat) /\
    (forall w, n <= if_numInjected (inj w l) -> hw_descCount (hw w) l < n ->
               (rank (hw_step P w) < rank (hw w))%nat) }.

(** Geometry of the ring: 64-byte slots from a 64-byte aligned start, the
    tail on one of them. *)
Definition inj_geom (f : MUSPI_InjFifo) : Prop :=
  exists k n, 0 <= k < n /\ if_va_start f mod 64 = 0 /\
    if_va_tail f = if_va_start f + 64 * k /\ if_va_end f = if_va_start f + 64 * n.

(** [n] more descriptors can be numbered before the 64-bit descriptor
    number reaches the error value. *)
Definition inj_room (n : nat) (f : MUSPI_InjFifo) : Prop :=
  0 <= if_numInjected f /\ if_numInjected f + Z.of_nat n < u64_max.

Record inj_ready (l n : nat) (w : world) : Prop := mkReady {
  ready_lock : InjLock l ∉ held w;
  ready_state : inj_state w l <> 0;
  ready_geom : inj_geom (inj w l);
  ready_room : inj_room n (inj w l) }.

(** The FIFO after one injection of [d] that saw [fs] free slots. *)
Definition injected (d : MUHWI_Descriptor) (fs : Z) (f : MUSPI_InjFifo) : MUSPI_InjFifo :=
  f <| if_freeSpace := u64 (fs - 1) |>
    <| if_numInjected := if_numInjected f + 1 |>
    <| if_ring ::= <[if_va_tail f := d]> |>
    <| if_va_tail := adv_tail f |>
    <| if_pa_tail := if_pa_start f + (adv_tail f - if_va_start f) |>.

Lemma adv_tail_geom f :
  inj_geom f ->
  adv_tail f mod 32 = 0 /\ adv_tail f - if_va_start f < if_va_end f - if_va_start f - 1 /\
  exists k n, 0 <= k < n /\ adv_tail f = if_va_start f + 64 * k /\
              if_va_end f = if_va_start f + 64 * n.
Proof.
  intros (k & n & Hk & Hs & Ht & He). unfold adv_tail, BGQ_MU_DESCRIPTOR_SIZE_IN_BYTES.
  assert (Hs32 : if_va_start f mod 32 = 0).
  { pose proof (Z.div_mod (if_va_start f) 64 ltac:(lia)) as E. rewrite E, Hs, Z.add_0_r.
    replace (64 * (if_va_start f / 64)) with (2 * (if_va_start f / 64) * 32) by lia.
    apply Z_mod_mult. }
  destruct (Z.geb_spec (if_va_tail f + 64) (if_va_end f)).
  - split; [done|]. split; [lia|]. exists 0, n. lia.
  - split.
    { rewrite Ht. replace (if_va_start f + 64 * k + 64) with (if_va_start f + (2 * k + 2) * 32) by lia.
      by rewrite Z_mod_plus_full. }
    split; [lia|]. exists (k + 1), n. lia.
Qed.

Lemma injected_geom d fs f : inj_geom f -> inj_geom (injected d fs f).
Proof.
  intros Hg. destruct (adv_tail_geom f Hg) as (_ & _ & k & n & Hk & Ht & He).
  destruct Hg as (_ & _ & _ & Hs & _). exists k, n. eauto.
Qed.

(** The hardware moved on by itself: what every step preserves still holds. *)
Definition hw_evolves (P : platform) (h h' : hw_state) : Prop :=
  forall I : hw_state -> Prop, (forall w, I (hw w) -> I (hw_step P w)) -> I h -> I h'.

Lemma hw_evolves_refl P h : hw_evolves P h h.
Proof. by intros I _ H. Qed.
Lemma hw_evolves_trans P h1 h2 h3 : hw_evolves P h1 h2 -> hw_evolves P h2 h3 -> hw_evolves P h1 h3.
Proof. intros H1 H2 I HI H. by apply H2, H1. Qed.
Lemma hw_evolves_step P w : hw_evolves P (hw w) (hw_step P w).
Proof. intros I HI H. by apply HI. Qed.
#[export] Hint Resolve hw_evolves_refl : mudm.

(** What one injection on link [l] does to the world. *)
Definition inject1 (P : platform) (l : nat) (d : MUHWI_Descriptor) (w w' : world) : Prop :=
  exists i h fs, hw_evolves P (hw w) h /\
    w' = w <| inj := i |> <| hw := h |>
           <| trace := trace w ++ [EvInject l d (mem w !! Pa_Payload d)] |> /\
    i l = injected d fs (inj w l) /\ (forall l', l' <> l -> i l' = inj w l').


Lemma next_desc_step l w : exists i fs,
  MUSPI_InjFifoNextDesc l w =
    Ok (if fs =? 0 then (u64_max, None)
        else (u64 (if_numInjected (inj w l) + 1), Some (if_va_tail (inj w l))))
       (w <| inj := i |>) /\
  fs = (if if_freeSpace (inj w l) =? 0 then hw_freeSpace (hw w) l else if_freeSpace (inj w l)) /\
  i l = (inj w l) <| if_freeSpace := fs |> /\ (forall l', l' <> l -> i l' = inj w l').
Proof.
  unfold MUSPI_InjFifoNextDesc, upd_inj, bind, gets, modify, ret.
  destruct (if_freeSpace (inj w l) =? 0) eqn:E.
  - exists (<[l := (inj w l) <| if_freeSpace := hw_freeSpace (hw w) l |>]> (inj w)).
    eexists. split_and!; [|done|by rewrite fn_lookup_insert|by intros; rewrite fn_lookup_insert_ne].
    wsimp. rewrite fn_lookup_insert. cbn [if_freeSpace if_numInjected if_va_tail upd_field].
    by destruct (hw_freeSpace (hw w) l =? 0).
  - exists (inj w), (if_freeSpace (inj w l)). rewrite E.
    split_and!; [by destruct w, (if_freeSpace _ =? 0)|done|by destruct (inj w l)|done].
Qed.

Section inject_spec.
Context (P : platform) `{!MuLive P}.

Lemma next_desc_loop_ok fuel l w rank :
  (rank (hw w) <= fuel)%nat ->
  (forall w, hw_freeSpace (hw w) l = 0 -> (rank (hw_step P w) < rank (hw w))%nat) ->
  inj_state w l <> 0 -> inj_room 1 (inj w l) ->
  exists i h fs, hw_evolves P (hw w) h /\
    next_desc_loop P fuel l w =
      Ok (if_numInjected (inj w l) + 1, Some (if_va_tail (inj w l)))
         (w <| inj := i |> <| hw := h |>) /\
    i l = (inj w l) <| if_freeSpace := fs |> /\ (forall l', l' <> l -> i l' = inj w l').
Proof.
  revert w; induction fuel as [|fuel IH]; intros w Hf Hr Hst Hroom.
  all: pose proof Hroom as [Hr1 Hr2]; unfold u64_max in Hr2; cbn [next_desc_loop].
  all: destruct (next_desc_step l w) as (i & fs & E & Hfs & Hi & Hi').
  all: unfold bind at 1; rewrite E; unfold bind at 1, gets; wsimp.
  all: rewrite (proj2 (Z.eqb_neq _ _) Hst).
  all: destruct (Z.eqb_spec fs 0) as [H0|H0]; cbn [fst andb negb].
  2, 4: rewrite u64_small by lia; rewrite (proj2 (Z.eqb_neq _ u64_max)) by (unfold u64_max; lia);
        cbn [andb]; exists i, (hw w), fs; split_and!; [auto with mudm|by destruct w|done..].
  all: assert (H1 : hw_freeSpace (hw w) l = 0) by (destruct (Z.eqb_spec (if_freeSpace (inj w l)) 0); lia).
  all: pose proof (Hr (w <| inj := i |>)) as H3; wsimp_at H3; specialize (H3 H1).
  - lia.
  - rewrite Z.eqb_refl. cbn [andb]. unfold bind, modify.
    match goal with |- context [next_desc_loop P fuel l ?w2] =>
      destruct (IH w2) as (i2 & h & fs2 & Hev & E2 & Hi2 & Hi2') end; [|done|done| |].
    { wsimp. lia. }
    { wsimp. by rewrite Hi. }
    rewrite E2. revert Hi2 Hi2'. wsimp. rewrite Hi. cbn. intros Hi2 Hi2'.
    exists i2, h, fs2. split_and!; [|by destruct w|done|].
    { exact (hw_evolves_trans P _ _ _ (hw_evolves_step P (w <| inj := i |>)) Hev). }
    intros l' Hl. rewrite Hi2' by done. by apply Hi'.
Qed.

(** The common prologue: lock and next slot. *)
Lemma wp_get_slot {A} (k : option (Z * option Z) -> MW A) (Q : A -> world -> Prop) l n w :
  inj_ready l (S n) w ->
  (forall i h fs, hw_evolves P (hw w) h ->
    i l = (inj w l) <| if_freeSpace := fs |> -> (forall l', l' <> l -> i l' = inj w l') ->
    wp (k (Some (if_numInjected (inj w l) + 1, Some (if_va_tail (inj w l))))) Q
       (w <| held ::= cons (InjLock l) |> <| inj := i |> <| hw := h |>)) ->
  wp (SPIN_LOCK (InjLock l) ;;; o <- MUDM_GET_NEXT_DESC P l ;; k o) Q w.
Proof.
  intros [Hl Hs Hg [Hr1 Hr2]] HQ. apply wp_bind, wp_lock; [done|].
  destruct (free_live l) as (rank & Hr & Hdec).
  unfold MUDM_GET_NEXT_DESC. do 2 apply wp_bind.
  destruct (next_desc_loop_ok (spin_fuel P) l (w <| held ::= cons (InjLock l) |>) rank)
    as (i & h & fs & Hev & E & Hi & Hi'); [done|done|by wsimp|split; wsimp; lia|].
  wsimp_at Hi. revert Hev E Hi'. wsimp. intros Hev E Hi'.
  eapply wp_intro; [exact E|]. apply wp_bind, wp_gets. wsimp.
  rewrite (proj2 (Z.eqb_neq _ _) Hs). apply wp_ret. by apply (HQ i h fs).
Qed.

(** The common epilogue: write the slot, advance, record. *)
Lemma wp_fill_slot (Q : unit -> world -> Prop) l d fs f w :
  inj_geom f -> inj_room 1 f -> inj w l = f <| if_freeSpace := fs |> ->
  (forall i, i l = injected d fs f -> (forall l', l' <> l -> i l' = inj w l') ->
    Q tt (w <| inj := i |> <| trace ::= fun t => t ++ [EvInject l d (mem w !! Pa_Payload d)] |>)) ->
  wp (fill_slot l (Some (if_va_tail f)) d) Q w.
Proof.
  intros Hg [Hr1 Hr2] Hf HQ. destruct (adv_tail_geom f Hg) as (Ha & Hb & _).
  unfold fill_slot, deref. apply wp_bind, wp_ret. unfold upd_inj at 1.
  apply wp_bind, wp_modify, wp_bind, wp_gets. wsimp.
  unfold MUSPI_InjFifoAdvanceDesc, upd_inj, emit. do 2 apply wp_bind. apply wp_modify.
  apply wp_bind, wp_gets. wsimp. rewrite !fn_lookup_insert, Hf. cbn -[u64 adv_tail Z.modulo].
  change (adv_tail _) with (adv_tail f). rewrite Ha. cbn [Z.eqb negb].
  apply wp_bind, wp_modify. rewrite (proj2 (Z.ltb_lt _ _) Hb). cbn [negb].
  apply wp_bind, wp_modify, wp_ret, wp_modify.
  match goal with |- Q tt (?w' <| trace ::= _ |>) => set (w1 := w') end.
  assert (Ew : w1 = w <| inj := inj w1 |>) by (by destruct w).
  rewrite Ew. apply HQ; subst w1; wsimp.
  - rewrite !fn_lookup_insert, Hf. unfold injected.
    assert (E : u64 (if_numInjected f + 1) = if_numInjected f + 1)
      by (apply u64_small; unfold u64_max in *; lia).
    by rewrite <- E.
  - intros l' Hl. by rewrite !fn_lookup_insert_ne.
Qed.

Lemma wp_fill_unlock (Q : Z -> world -> Prop) l n w d i h fs cnt :
  inj_ready l (S n) w -> hw_evolves P (hw w) h ->
  i l = (inj w l) <| if_freeSpace := fs |> -> (forall l', l' <> l -> i l' = inj w l') ->
  (forall w', inject1 P l d w w' -> Q cnt w') ->
  wp (fill_slot l (Some (if_va_tail (inj w l))) d ;;; SPIN_UNLOCK (InjLock l) ;;; ret cnt) Q
     (w <| held ::= cons (InjLock l) |> <| inj := i |> <| hw := h |>).
Proof.
  intros [Hl Hs Hg [Hr1 Hr2]] Hev Hi Hi' HQ. apply wp_bind.
  apply wp_fill_slot with (fs := fs); [done|split; lia|by wsimp|].
  intros i2 H2 H2'. apply wp_bind, wp_modify, wp_ret, HQ.
  exists i2, h, fs. split_and!; [done| |done|].
  - apply (unlock_eq (InjLock l) w); [done|by destruct w..].
  - intros l' Hl'. rewrite H2' by done. by apply Hi'.
Qed.

Lemma incr_count_comm loc u i h w :
  incr_count loc (w <| held ::= u |> <| inj := i |> <| hw := h |>)
  = (incr_count loc w) <| held ::= u |> <| inj := i |> <| hw := h |>.
Proof. by destruct loc, w. Qed.

Lemma incr_count_ready loc l n w : inj_ready l n w -> inj_ready l n (incr_count loc w).
Proof. by destruct loc, 1, w. Qed.

Lemma read_count_comm loc u i h w :
  read_count loc (w <| held ::= u |> <| inj := i |> <| hw := h |>) = read_count loc w.
Proof. by destruct loc, w. Qed.

Lemma wp_InjFifoInject (Q : Z -> world -> Prop) l n d w :
  inj_ready l (S n) w ->
  (forall w', inject1 P l d w w' -> Q (if_numInjected (inj w l) + 1) w') ->
  wp (InjFifoInject P l d) Q w.
Proof.
  intros Hr HQ. apply (wp_get_slot _ _ _ n); [done|]. intros i h fs Hev Hi Hi'.
  by eapply wp_fill_unlock.
Qed.

Lemma wp_count_fill_unlock (Q : Z -> world -> Prop) l n w (e : Z -> MUHWI_Descriptor)
    loc i h fs cnt sent :
  inj_ready l (S n) w -> read_count loc w = Some sent -> hw_evolves P (hw w) h ->
  i l = (inj w l) <| if_freeSpace := fs |> -> (forall l', l' <> l -> i l' = inj w l') ->
  (forall w', inject1 P l (e sent) (incr_count loc w) w' -> Q cnt w') ->
  wp (c <- gets (read_count loc) ;; n <- deref c ;; modify (incr_count loc) ;;;
      fill_slot l (Some (if_va_tail (inj w l))) (e n) ;;;
      SPIN_UNLOCK (InjLock l) ;;; ret cnt) Q
     (w <| held ::= cons (InjLock l) |> <| inj := i |> <| hw := h |>).
Proof.
  intros Hr Hc Hev Hi Hi' HQ. apply wp_bind, wp_gets. rewrite read_count_comm, Hc.
  apply wp_bind, wp_ret, wp_bind, wp_modify. rewrite incr_count_comm.
  assert (E : inj (incr_count loc w) = inj w) by (by destruct loc, w).
  assert (E' : hw (incr_count loc w) = hw w) by (by destruct loc, w).
  rewrite <- E. eapply wp_fill_unlock;
    [by apply incr_count_ready|by rewrite E'|by rewrite E|by rewrite E|done].
Qed.

Lemma wp_InjFifoInjectMemFifo (Q : Z -> world -> Prop) l n d type pa len loc sent w :
  inj_ready l (S n) w -> read_count loc w = Some sent ->
  (forall w', inject1 P l (edit_memfifo type pa len sent d) (incr_count loc w) w' ->
              Q (if_numInjected (inj w l) + 1) w') ->
  wp (InjFifoInjectMemFifo P l d type pa len loc) Q w.
Proof.
  intros Hr Hc HQ. apply (wp_get_slot _ _ _ n); [done|]. intros i h fs Hev Hi Hi'.
  by eapply (wp_count_fill_unlock _ _ _ _ (fun k => edit_memfifo type pa len k d)).
Qed.

Lemma wp_InjFifoInjectMemFifo_withDest (Q : Z -> world -> Prop) l n d dest type pa len loc sent w :
  inj_ready l (S n) w -> read_count loc w = Some sent ->
  (forall w', inject1 P l (set_hdr h_Destination dest (edit_memfifo type pa len sent d))
                      (incr_count loc w) w' -> Q (if_numInjected (inj w l) + 1) w') ->
  wp (InjFifoInjectMemFifo_withDest P l d dest type pa len loc) Q w.
Proof.
  intros Hr Hc HQ. apply (wp_get_slot _ _ _ n); [done|]. intros i h fs Hev Hi Hi'.
  by eapply (wp_count_fill_unlock _ _ _ _ (fun k => set_hdr h_Destination dest _)).
Qed.

Lemma wp_InjFifoInjectMemFifoBcast (Q : Z -> world -> Prop) l n d type pa len cr loc sent w :
  inj_ready l (S n) w -> read_count loc w = Some sent ->
  (forall w', inject1 P l (edit_bcast type pa len cr sent d) (incr_count loc w) w' ->
              Q (if_numInjected (inj w l) + 1) w') ->
  wp (InjFifoInjectMemFifoBcast P l d type pa len cr loc) Q w.
Proof.
  intros Hr Hc HQ. apply (wp_get_slot _ _ _ n); [done|]. intros i h fs Hev Hi Hi'.
  by eapply (wp_count_fill_unlock _ _ _ _ (fun k => edit_bcast type pa len cr k d)).
Qed.

Lemma wp_InjFifoInjectDirectPut (Q : Z -> world -> Prop) l n d d' bytes src dst ctr w :
  inj_ready l (S n) w ->
  set_counter_directput ctr (set_dma_directput bytes src dst d) = Some d' ->
  (forall w', inject1 P l d' w w' -> Q (if_numInjected (inj w l) + 1) w') ->
  wp (InjFifoInjectDirectPut P l d bytes src dst ctr) Q w.
Proof.
  intros Hr Hd HQ. apply (wp_get_slot _ _ _ n); [done|]. intros i h fs Hev Hi Hi'.
  rewrite Hd. apply wp_bind, wp_ret. by eapply wp_fill_unlock.
Qed.

(** On an inactive FIFO every routine returns [(uint64_t)-1] with the
    lock released and nothing sent. *)
Lemma next_desc_loop_inactive fuel l w :
  inj_state w l = 0 -> exists r i, next_desc_loop P fuel l w = Ok r (w <| inj := i |>).
Proof.
  intros Hs. destruct (next_desc_step l w) as (i & fs & E & _).
  destruct fuel; cbn [next_desc_loop]; unfold bind; rewrite E; unfold gets; wsimp;
    rewrite Hs, andb_false_r; unfold ret; by eauto.
Qed.

Lemma wp_get_slot_inactive (k : Z * option Z -> MW Z) (Q : Z -> world -> Prop) l w :
  InjLock l ∉ held w -> inj_state w l = 0 ->
  (forall i, Q u64_max (w <| inj := i |>)) ->
  wp (SPIN_LOCK (InjLock l) ;;; o <- MUDM_GET_NEXT_DESC P l ;;
      match o with None => ret u64_max | Some r => k r end) Q w.
Proof.
  intros Hl Hs HQ. apply wp_bind, wp_lock; [done|]. unfold MUDM_GET_NEXT_DESC.
  do 2 apply wp_bind.
  destruct (next_desc_loop_inactive (spin_fuel P) l (w <| held ::= cons (InjLock l) |>))
    as (r & i & E); [by wsimp|].
  eapply wp_intro; [exact E|]. apply wp_bind, wp_gets. wsimp. rewrite Hs. cbn [Z.eqb].
  apply wp_bind, wp_modify, wp_ret, wp_ret.
  rewrite (unlock_eq (InjLock l) w _ (w <| inj := i |>)); [done|done|by destruct w..].
Qed.
End inject_spec.

Lemma inject1_ready P l n d w w' : inj_ready l (S n) w -> inject1 P l d w w' -> inj_ready l n w'.
Proof.
  intros [Hl Hs Hg [Hr1 Hr2]] (i & h & fs & _ & -> & Hi & _). split; wsimp; [done|done| |].
  - rewrite Hi. by apply injected_geom.
  - rewrite Hi. split; cbn; lia.
Qed.

(** Readiness depends on the locks and the FIFO only. *)
Lemma inj_ready_ext l n w w' :
  held w' = held w -> inj_state w' = inj_state w -> inj w' = inj w ->
  inj_ready l n w -> inj_ready l n w'.
Proof. intros E1 E2 E3 [A B C D]. split; by rewrite ?E1, ?E2, ?E3. Qed.
(** ** Runs of injections *)

(** The world after sending descriptors [ds] on link [l]: the FIFO shadow,
    the hardware and the trace changed, nothing else. *)
Definition sends (P : platform) (l : nat) (ds : list MUHWI_Descriptor) (w w' : world) : Prop :=
  exists i h, hw_evolves P (hw w) h /\
    w' = w <| inj := i |> <| hw := h |>
      <| trace := trace w ++ map (fun d => EvInject l d (mem w !! Pa_Payload d)) ds |> /\
    (forall l', l' <> l -> i l' = inj w l').

Lemma sends_nil P l w : sends P l [] w w.
Proof. exists (inj w), (hw w). cbn. rewrite app_nil_r. split_and!; [auto with mudm|by destruct w|done]. Qed.

Lemma inject1_sends P l d w w' : inject1 P l d w w' -> sends P l [d] w w'.
Proof. intros (i & h & fs & He & -> & _ & H). by exists i, h. Qed.

Lemma sends_app P l ds1 ds2 w1 w2 w3 :
  sends P l ds1 w1 w2 -> sends P l ds2 w2 w3 -> sends P l (ds1 ++ ds2) w1 w3.
Proof.
  intros (i & h & He & -> & Hi) (i' & h' & He' & -> & Hi'). exists i', h'.
  revert He'. wsimp. intros He'. split_and!; [by eapply hw_evolves_trans| |].
  - wsimp. rewrite map_app, app_assoc. by destruct w1.
  - intros l' Hl. rewrite Hi' by done. wsimp. by apply Hi.
Qed.

Lemma sends_cons P l d ds w1 w2 w3 :
  inject1 P l d w1 w2 -> sends P l ds w2 w3 -> sends P l (d :: ds) w1 w3.
Proof. intros H1 H2. apply (sends_app P l [d] ds _ w2); [by apply inject1_sends|done]. Qed.

Lemma sends_conn P l ds w w' : sends P l ds w w' -> conn_list w' = conn_list w.
Proof. by intros (i & h & _ & -> & _). Qed.
#[export] Hint Resolve sends_nil inject1_sends sends_cons sends_app : mudm.

(** ** Polling a descriptor *)

Lemma check_desc l n w : exists i d,
  MUSPI_CheckDescComplete l n w = Ok (if n <=? d then 1 else 0) (w <| inj := i |>) /\
  i l = (inj w l) <| if_descCount := d |> /\ (forall l', l' <> l -> i l' = inj w l') /\
  (d < n -> hw_descCount (hw w) l < n) /\ (if_descCount (inj w l) < n -> d = hw_descCount (hw w) l).
Proof.
  unfold MUSPI_CheckDescComplete, upd_inj, bind, gets, modify, ret.
  destruct (Z.leb_spec n (if_descCount (inj w l))) as [E|E].
  - exists (inj w), (if_descCount (inj w l)). rewrite (proj2 (Z.leb_le _ _) E).
    split_and!; [by destruct w|by destruct (inj w l)|done|lia|lia].
  - exists (<[l := (inj w l) <| if_descCount := hw_descCount (hw w) l |>]> (inj w)), (hw_descCount (hw w) l).
    split_and!; [by destruct (n <=? _), w|by rewrite fn_lookup_insert| |done|done].
    intros. by rewrite fn_lookup_insert_ne.
Qed.

(** Polling changes the shadow of the descriptor count and the hardware. *)
Definition polled (P : platform) (l : nat) (w w' : world) : Prop :=
  exists i h d, hw_evolves P (hw w) h /\ w' = w <| inj := i |> <| hw := h |> /\
    i l = (inj w l) <| if_descCount := d |> /\ (forall l', l' <> l -> i l' = inj w l').

Lemma polled_ready P l n w w' : polled P l w w' -> inj_ready l n w -> inj_ready l n w'.
Proof.
  intros (i & h & d & _ & -> & Hi & _) [A B C D]. split; wsimp; [done|done|by rewrite Hi..].
Qed.

Lemma check_desc_polled P l n w : exists r w',
  MUSPI_CheckDescComplete l n w = Ok r w' /\ (r = 0 \/ r = 1) /\ polled P l w w'.
Proof.
  destruct (check_desc l n w) as (i & d & E & Hi & Ho & _ & _). eexists _, _. split; [exact E|].
  split; [destruct (n <=? d); auto|].
  exists i, (hw w), d. split_and!; [auto with mudm|by destruct w|done|done].
Qed.

Section waiting.
Context (P : platform) `{!MuLive P}.

Lemma wait_desc_ok fuel l n w rank :
  (rank (hw w) <= fuel)%nat ->
  (forall w, n <= if_numInjected (inj w l) -> hw_descCount (hw w) l < n ->
     (rank (hw_step P w) < rank (hw w))%nat) ->
  n <= if_numInjected (inj w l) ->
  wp (wait_desc P fuel l n) (fun _ w' => polled P l w w' /\ (if_descCount (inj w l) < n -> n <= hw_descCount (hw w') l)) w.
Proof.
  revert w. induction fuel as [|fuel IH]; intros w Hf Hr Hn; cbn [wait_desc]; apply wp_bind.
  all: destruct (check_desc l n w) as (i & d & E & Hi & Ho & Hd & Hs); eapply wp_intro; [exact E|].
  all: destruct (Z.leb_spec n d) as [Hle|Hgt]; cbn [Z.eqb negb].
  1, 3: apply wp_ret; split; [exists i, (hw w), d; split_and!; [auto with mudm|by destruct w|done|done]|];
    intros H; specialize (Hs H); wsimp; lia.
  all: pose proof (Hr (w <| inj := i |>)) as Hstep; revert Hstep; wsimp; rewrite Hi;
    intros Hstep; specialize (Hstep Hn (Hd Hgt)).
  - lia.
  - apply wp_bind, wp_modify. eapply wp_mono; [apply IH; wsimp; [lia|done|by rewrite Hi]|].
    intros [] w' [(i' & h & d' & Hev & -> & Hi' & Ho') Hn']. revert Hev Hi' Ho' Hn'. wsimp. intros Hev Hi' Ho' Hn'.
    split; [|intros _; apply Hn'; rewrite Hi; exact Hgt]. exists i', h, d'. split_and!; [|by destruct w|by rewrite Hi', Hi|].
    + exact (hw_evolves_trans P _ _ _ (hw_evolves_step P (w <| inj := i |>)) Hev).
    + intros l' Hl. rewrite Ho' by done. by apply Ho.
Qed.

Lemma wp_wait_desc l n w (Q : unit -> world -> Prop) :
  n <= if_numInjected (inj w l) -> (forall w', polled P l w w' -> Q tt w') ->
  wp (wait_desc P (spin_fuel P) l n) Q w.
Proof.
  intros Hn HQ. destruct (desc_live l n) as (rank & Hr & Hs).
  eapply wp_mono; [by eapply wait_desc_ok|]. intros [] w' [H _]. by apply HQ.
Qed.
(** The hardware count has reached a descriptor the shadow did not count
    before. *)
Lemma wp_wait_desc_done l n w (Q : unit -> world -> Prop) :
  n <= if_numInjected (inj w l) -> if_descCount (inj w l) < n ->
  (forall w', polled P l w w' -> n <= hw_descCount (hw w') l -> Q tt w') ->
  wp (wait_desc P (spin_fuel P) l n) Q w.
Proof.
  intros Hn Hd HQ. destruct (desc_live l n) as (rank & Hr & Hs).
  eapply wp_mono; [by eapply wait_desc_ok|]. intros [] w' [H H']. by apply HQ, H'.
Qed.
End waiting.
