(* ===== verification/Concrete.v ===== *)
(** * A concrete node

    A message unit that empties its injection FIFOs at every step,
    callbacks that accept everything, and the state of a driver with two
    connections, small packet pools and a few RDMA objects on each link.
    The theorems of the other files are instantiated on it. *)

From S2P Require Import Prelude Chain Bytes Descriptor State Inject.

Definition demo_platform : platform := {|
  hw_step w := (hw w) <| hw_freeSpace := fun _ => 7 |>
                    <| hw_descCount := fun l => if_numInjected (inj w l) |>
                    <| hw_timebase ::= Z.succ |>;
  cb_recv _ _ := ret 0;
  cb_recv_conn _ _ := ret 0;
  cb_status _ := ret 0;
  cb_allocate n := ret (Some (mkRegion n 0x100000 0x200000));
  cb_free _ := ret 0;
  wakeup_wait := modify (fun w => w <| m_state := MUDM_TERMINATING |>);
  cycles_per_usec := 1600;
  off_dummy_counter := 4096; off_rgatc := 4160;
  off_largest_node_corner := 4224; off_num_compute_nodes := 8;
  buf_image _ := replicate 512 0;
  spin_fuel := 4 |}.

#[export] Instance demo_live : MuLive demo_platform.
Proof.
  split.
  - intros l. exists (fun h => if hw_freeSpace h l =? 0 then 1%nat else 0%nat). split.
    + intros h. destruct (_ =? 0); cbn; lia.
    + intros w ->. cbn. lia.
  - intros l n. exists (fun h => if hw_descCount h l <? n then 1%nat else 0%nat). split.
    + intros h. destruct (_ <? n); cbn; lia.
    + intros w Hn Hd. cbn.
      rewrite (proj2 (Z.ltb_lt _ _) Hd), (proj2 (Z.ltb_ge _ _) Hn). lia.
Qed.

Definition demo_fifo : MUSPI_InjFifo := mkInj 0x8000 0x1000 0x1200 0x1000 0x8000 0 7 0 ∅.

Definition demo_memfifo_desc : MUHWI_Descriptor :=
  default zero_desc (InitPt2PtMemoryFIFODescriptor (replicate 18 0) 0 0 0x1234 CN2IONODE 0 3).
Definition demo_put_desc : MUHWI_Descriptor :=
  default zero_desc (initPt2PtDirectPutDescriptor 0 0 0x1234 CN2IONODE 0 0 0).

Definition demo_conn (i : nat) (state : Z) (next prev : option nat) : mudm_connection :=
  mkConn demo_memfifo_desc demo_put_desc demo_put_desc CONN_MAGIC state (Z.of_nat i)
    3 3 7 0x1234 0x4321 0 1 0 0 CN2IONODE IONODE2CN 0 0 next prev
    (Some 0%nat) (Some 0%nat) (Some 0%nat) 0 (100 + Z.of_nat i) 0 0 0 0 0.

Definition demo_pktd (next : option nat) (pa : Z) : pkt_descriptor :=
  mkPktd next None 0 0 0 pa 0 None.
(** A pool of three packet buffers, all free. *)
Definition demo_pool (base : Z) (l : nat) : pkt_controls :=
  mkPc 3 512 base
    (list_to_map [(0%nat, demo_pktd (Some 1%nat) base);
                  (1%nat, demo_pktd (Some 2%nat) (base + 512));
                  (2%nat, demo_pktd None (base + 1024))]) (Some 0%nat) None l.

Definition demo_ro (i : nat) (next : option nat) : mudm_rdma_object :=
  mkRo 0 i (0x10000 + 16 * Z.of_nat i) 0 None next None.
Definition demo_rdma : rdma_obj_controls :=
  mkRoc 2 0 0 0x10000 48 (list_to_map [(0%nat, demo_ro 0 (Some 1%nat)); (1%nat, demo_ro 1 None)])
    (Some 0%nat) None 2 32.

Definition demo_hw : hw_state :=
  mkHw (fun _ => 7) (fun _ => 0) 1000 (fun _ _ => mkMue 0 0) (fun _ => 0) (fun _ _ => 0).

Definition demo_bro : bcast_rdma_object :=
  mkBro BCAST_INACTIVE (mkRbsc (mkMrb 0 0 0 0 0 0 0 0) 0 0) zero_desc 2 0x10020 0 0 0 0 0.

Definition demo_world : world := {|
  magic := MUDM_MAGIC; m_state := MUDM_ACTIVE; mudm_context_phys_addr := 0x40000;
  my_using_IO_port := 0; myTorusAddress := 0x4321; mybridgingCNnode := 0x55;
  myUCI := 0; myBlockID := 7; max_connections := 2; poll_active := 0; wakeupActive := 0; StuckState := 0;
  m_iMemoryFifoDescriptor := demo_memfifo_desc; rget_memfifo_sent := 0;
  conn_list := list_to_map [(0%nat, demo_conn 0 CONN_ACTIVE None None);
                            (1%nat, demo_conn 1 CONN_FREE None None)];
  conn_freelist := Some 1%nat; conn_pendlist := fun _ => None;
  conn_activelist := fun l => match l with O => Some 0%nat | _ => None end;
  conn_abortlist := fun _ => None;
  inj := fun _ => demo_fifo; inj_state := fun _ => 1;
  pools := fun p => match p with
                    | PacketControls l => demo_pool 0x50000 l
                    | SmallpaObjCtls l => demo_pool 0x60000 l
                    end;
  rdma := fun _ => demo_rdma;
  recf := fun _ => mkRec 0 0x2000 0x2200 0x2000 0x2000 0;
  sys_rec_fifo_id := fun l => 3 + Z.of_nat l; remote_BlockID := fun _ => 0;
  link4reset := fun _ => 0;
  system_bcast := mkMb zero_desc demo_bro 0 0 0;
  num_compute_nodes := 0; largest_node_corner := 0;
  clean_table := []; mem := ∅; held := []; trace := []; hw := demo_hw |}.

(** Its active connection. *)
Definition demo_cc : mudm_connection := demo_conn 0 CONN_ACTIVE None None.

Lemma demo_fifo_geom : inj_geom demo_fifo.
Proof. exists 0, 8. by vm_compute. Qed.

Lemma demo_inj_ready l n : Z.of_nat n < 2 ^ 63 -> inj_ready l n demo_world.
Proof.
  intros Hn. split; cbn; [by apply not_elem_of_nil|done|apply demo_fifo_geom|].
  split; cbn; unfold u64_max; lia.
Qed.

#[export] Instance demo_quiet : QuietStatus demo_platform.
Proof. intros reqs w _. cbn. exists (hw w). split; [by destruct w|done]. Qed.
