(* ===== verification/Memory.v ===== *)
(** * Memory regions and the cleanup table

    [alloc_object], [add_object] and [process_cleanup_table] of
    bgmudm/mudm_cleanup.c.  Every region the driver allocates is noted in
    a table of at most 25 entries, which termination walks backwards. *)

From S2P Require Import Prelude Chain Bytes Descriptor State Concrete.

Definition MAX_CLEANUP_ENTRIES : nat := 25.

Section with_platform.
Context (P : platform).

Definition free_mem (memregion : mudm_memory_region) : MW Z :=
  emit (EvFree memregion) ;;; cb_free P memregion.

(** The region and the status; [zero_memregion] clears memory that the
    model creates when it is first written. *)
Definition alloc_object (length_mem : Z) (fn : option cleanup_fn)
    : MW (Z * option mudm_memory_region) :=
  t <- gets clean_table ;;
  if decide (MAX_CLEANUP_ENTRIES <= length t)%nat then ret (- ENOMEM, None) else
  r <- cb_allocate P length_mem ;;
  match r with
  | None => ret (- ENOMEM, None)
  | Some region =>
      modify (fun w => w <| clean_table ::= fun t => t ++ [mkCe region fn 0] |>) ;;;
      ret (0, Some region)
  end.

Definition add_object (mregion : mudm_memory_region) (fn : option cleanup_fn) : MW Z :=
  t <- gets clean_table ;;
  if decide (MAX_CLEANUP_ENTRIES <= length t)%nat then ret (- ENOMEM) else
  modify (fun w => w <| clean_table ::= fun t => t ++ [mkCe mregion fn 0] |>) ;;; ret 0.
End with_platform.

(** An allocator that does not call back into the driver. *)
Class QuietAlloc (P : platform) : Prop := quiet_alloc :
  forall n w, wp (cb_allocate P n) (fun _ w' => w' = w) w.
#[export] Instance demo_quiet_alloc : QuietAlloc demo_platform.
Proof. by intros n w. Qed.

Lemma wp_alloc_object P `{!QuietAlloc P} n fn (Q : Z * option mudm_memory_region -> world -> Prop) w :
  Q (- ENOMEM, None) w ->
  (forall region, (length (clean_table w) < MAX_CLEANUP_ENTRIES)%nat ->
     Q (0, Some region) (w <| clean_table := clean_table w ++ [mkCe region fn 0] |>)) ->
  wp (alloc_object P n fn) Q w.
Proof.
  intros H0 H1. apply wp_bind, wp_gets. case_decide; [by apply wp_ret|].
  apply wp_bind. eapply wp_mono; [apply quiet_alloc|]. intros [region|] w' ->; [|by apply wp_ret].
  apply wp_bind, wp_modify, wp_ret, H1. lia.
Qed.
