(* ===== verification/RdmaWrite.v ===== *)
(** * mudm_rdma_write

    The driver side of an RDMA write (bgmudm/mudm.c): two scatter-gather
    lists are walked in step and every pair of overlapping pieces becomes
    one direct put.  The reference is byte-wise: an SGL denotes the list
    of addresses of its bytes, and a transfer of [n] bytes is the first
    [n] pairs of the two lists.  mudm.h lets an address or a length of 0 end
    a list; the loop only looks at the address, so the theorems ask for
    lists without empty pieces, and one of them says what happens to the
    others. *)

From S2P Require Import Prelude Chain Bytes Descriptor State Inject Concrete.

(** ** The code *)

Section with_platform.
Context (P : platform).

(** [sgl++; cur_pa = sgl->physicalAddr; cur_memlength = sgl->memlength] *)
Definition sgl_next (sgl : list mudm_sgl) : MW (mudm_sgl * list mudm_sgl) :=
  let sgl := tail sgl in
  s <- deref (head sgl) ;; ret (s, sgl).

(** The loop; [None] is [goto BADRDMA].  Every iteration that does not
    leave the loop advances one of the two lists, so their lengths bound
    the iterations. *)
Fixpoint rdma_write_loop (fuel c : nat) (rdma_object bytes_xfer : Z)
    (cur_local_pa cur_local_memlength cur_remote_pa cur_remote_memlength : Z)
    (local_sgl remote_sgl : list mudm_sgl) (totalbytes : Z) : MW (option Z) :=
  if (cur_local_pa =? 0) || (cur_remote_pa =? 0) then ret (Some totalbytes) else
  match fuel with
  | O => hang
  | S fuel =>
      if cur_local_memlength =? cur_remote_memlength then
        let totalbytes := u32 (totalbytes + cur_local_memlength) in
        if totalbytes >? bytes_xfer then ret None else
        desc_count <- direct_put P c cur_local_pa cur_remote_pa cur_remote_memlength rdma_object ;;
        if totalbytes >=? bytes_xfer then ret (Some totalbytes) else
        loc <- sgl_next local_sgl ;;
        rem <- sgl_next remote_sgl ;;
        rdma_write_loop fuel c rdma_object bytes_xfer
          (physicalAddr (fst loc)) (memlength (fst loc))
          (physicalAddr (fst rem)) (memlength (fst rem)) (snd loc) (snd rem) totalbytes
      else if cur_local_memlength <? cur_remote_memlength then
        let totalbytes := u32 (totalbytes + cur_local_memlength) in
        if totalbytes >? bytes_xfer then ret None else
        desc_count <- direct_put P c cur_local_pa cur_remote_pa cur_local_memlength rdma_object ;;
        if totalbytes >=? bytes_xfer then ret (Some totalbytes) else
        loc <- sgl_next local_sgl ;;
        rdma_write_loop fuel c rdma_object bytes_xfer
          (physicalAddr (fst loc)) (memlength (fst loc))
          (u64 (cur_remote_pa + cur_local_memlength))
          (u64 (cur_remote_memlength - cur_local_memlength))
          (snd loc) remote_sgl totalbytes
      else
        let totalbytes := u32 (totalbytes + cur_remote_memlength) in
        if totalbytes >? bytes_xfer then ret None else
        desc_count <- direct_put P c cur_local_pa cur_remote_pa cur_remote_memlength rdma_object ;;
        if totalbytes >=? bytes_xfer then ret (Some totalbytes) else
        rem <- sgl_next remote_sgl ;;
        rdma_write_loop fuel c rdma_object bytes_xfer
          (u64 (cur_local_pa + cur_remote_memlength))
          (u64 (cur_local_memlength - cur_remote_memlength))
          (physicalAddr (fst rem)) (memlength (fst rem))
          local_sgl (snd rem) totalbytes
  end.

(** [None] for an SGL is the NULL pointer. *)
Definition mudm_rdma_write (c : nat) (rdma_object bytes_xfer : Z)
    (local_sgl remote_sgl : option (list mudm_sgl)) : MW Z :=
  cc <- get_conn c ;;
  match local_sgl, remote_sgl with
  | None, _ | _, None => ret (- EINVAL)
  | Some local_sgl, Some remote_sgl =>
    if bytes_xfer =? 0 then ret (- EINVAL) else
    if negb (c_magic cc =? CONN_MAGIC) then ret (- EFAULT) else
    loc <- deref (head local_sgl) ;;
    rem <- deref (head remote_sgl) ;;
    r <- rdma_write_loop (length local_sgl + length remote_sgl) c rdma_object bytes_xfer
           (physicalAddr loc) (memlength loc) (physicalAddr rem) (memlength rem)
           local_sgl remote_sgl 0 ;;
    if match r with Some totalbytes => totalbytes =? bytes_xfer | None => false end
    then ret 0
    else
      pa <- gets mudm_context_phys_addr ;;
      desc_count <- direct_put P c (pa + OFF_rdma_EINVAL_source)
                      (rdma_object + OFF_mue_error) 8 rdma_object ;;
      ret (- EINVAL)
  end.
End with_platform.

(** ** Reference: transfers byte by byte *)

(** The bytes an SGL describes: any zero length or null address ends it. *)
Fixpoint sgl_described (l : list mudm_sgl) : list Z :=
  match l with
  | [] => []
  | s :: l => if (physicalAddr s =? 0) || (memlength s =? 0) then [] else
              seqZ (physicalAddr s) (memlength s) ++ sgl_described l
  end.
(** No piece before the null address is empty. *)
Fixpoint no_empty (l : list mudm_sgl) : bool :=
  match l with
  | [] => true
  | s :: l => (physicalAddr s =? 0) || negb (memlength s =? 0) && no_empty l
  end.

(** The bytes the loop takes an SGL for, up to the entry whose address is
    0. *)
Fixpoint sgl_bytes (l : list mudm_sgl) : list Z :=
  match l with
  | [] => []
  | s :: l => if physicalAddr s =? 0 then [] else
              seqZ (physicalAddr s) (memlength s) ++ sgl_bytes l
  end.

Lemma sgl_described_bytes l : no_empty l = true -> sgl_described l = sgl_bytes l.
Proof.
  induction l as [|s l IH]; [done|]. cbn. destruct (physicalAddr s =? 0); [done|]. cbn.
  destruct (memlength s =? 0); [done|]. cbn. intros H. by rewrite IH.
Qed.
Lemma sgl_described_prefix l : sgl_described l `prefix_of` sgl_bytes l.
Proof.
  induction l as [|s l IH]; [done|]. cbn. destruct (physicalAddr s =? 0); [done|]. cbn.
  destruct (memlength s =? 0); [apply prefix_nil|by apply prefix_app].
Qed.
Lemma zip_prefix {A B} (l l' : list A) (k k' : list B) : l `prefix_of` l' -> k `prefix_of` k' -> zip l k `prefix_of` zip l' k'.
Proof.
  intros [x ->]. revert k k'. induction l as [|a l IH]; intros k k'; [intros _; apply prefix_nil|].
  intros [y ->]. destruct k as [|b k]; [apply prefix_nil|]. cbn. apply prefix_cons, IH. by exists y.
Qed.

(** The (source, destination) byte pairs a list of direct puts moves. *)
Definition put_bytes (v : put_view) : list (Z * Z) :=
  zip (seqZ (pt_src v) (pt_len v)) (seqZ (pt_dst v) (pt_len v)).
Definition moved (ds : list MUHWI_Descriptor) : list (Z * Z) :=
  ds ≫= fun d => put_bytes (view_put d).

Definition sge_ok (s : mudm_sgl) : Prop :=
  0 <= physicalAddr s < 2 ^ 36 /\ 0 <= memlength s < 2 ^ 28.
(** A list of 36-bit addresses and 28-bit lengths with a terminator. *)
Definition sgl_ok (l : list mudm_sgl) : Prop :=
  Forall sge_ok l /\ exists s, s ∈ l /\ physicalAddr s = 0.
(** What a connection needs for direct puts on its link. *)
Definition put_ready (c n : nat) (cc : mudm_connection) (w : world) : Prop :=
  conn_list w !! c = Some cc /\ hdr_ok (mu_iDirectPutDescriptor cc) /\
  inj_ready (injfifo_ctls cc) n w.
Definition ctr_ok (ctr : Z) : Prop := 0 <= ctr < 2 ^ 36 /\ Z.land ctr 7 = 0.
Definition put_word (ctr : Z) : Z := ctr + 2 ^ 36 + 3.

Lemma seqZ_app a n m : 0 <= n -> 0 <= m -> seqZ a (n + m) = seqZ a n ++ seqZ (a + n) m.
Proof. intros. by rewrite seqZ_app by lia. Qed.

Lemma moved_cons d ds : moved (d :: ds) = put_bytes (view_put d) ++ moved ds.
Proof. done. Qed.
Lemma moved_app ds1 ds2 : moved (ds1 ++ ds2) = moved ds1 ++ moved ds2.
Proof. unfold moved. by rewrite bind_app. Qed.

Lemma length_put_bytes v : 0 <= pt_len v -> length (put_bytes v) = Z.to_nat (pt_len v).
Proof. intros. unfold put_bytes. rewrite length_zip_with, !length_seqZ. lia. Qed.

Lemma put_ready_sends P c n cc ds w w' :
  put_ready c (S n) cc w -> inject1 P (injfifo_ctls cc) ds w w' -> put_ready c n cc w'.
Proof.
  intros (Hc & Hh & Hr) Hi. split_and!; [|done|by eapply inject1_ready].
  apply inject1_sends, sends_conn in Hi. by rewrite Hi.
Qed.

Lemma put_ready_ext c n cc w w' :
  conn_list w' = conn_list w -> held w' = held w -> inj_state w' = inj_state w -> inj w' = inj w ->
  put_ready c n cc w -> put_ready c n cc w'.
Proof.
  intros E0 E1 E2 E3 (A & B & C). split_and!; [by rewrite E0|done|by eapply inj_ready_ext].
Qed.

(** One direct put on a connection. *)
Lemma wp_direct_put P `{!MuLive P} c n cc src dst len ctr (Q : Z -> world -> Prop) w :
  put_ready c (S n) cc w -> ctr_ok ctr -> 0 <= dst < 2 ^ 37 ->
  (forall d w', view_put d = mkPut src dst len (put_word ctr) ->
     inject1 P (injfifo_ctls cc) d w w' -> put_ready c n cc w' ->
     Q (if_numInjected (inj w (injfifo_ctls cc)) + 1) w') ->
  wp (direct_put P c src dst len ctr) Q w.
Proof.
  intros Hp [Hc1 Hc2] Hd HQ. pose proof Hp as (Hc & Hh & Hr).
  apply wp_bind, (wp_get_conn _ cc); [done|].
  destruct (set_counter_directput_Some ctr
    (set_dma_directput len src dst (mu_iDirectPutDescriptor cc)) Hc2) as (d & E).
  destruct (view_directput _ _ _ _ _ _ Hh Hd Hc1 E) as [Hv _].
  apply (wp_InjFifoInjectDirectPut _ _ _ n _ d); [done|done|].
  intros w' Hi. eapply HQ; [done..|]. by eapply put_ready_sends.
Qed.

Lemma put_ready_mono c m n cc w : (n <= m)%nat -> put_ready c m cc w -> put_ready c n cc w.
Proof.
  intros Hle (Hc & Hh & [Hl Hs Hg [H1 H2]]). split_and!; [done|done|].
  split; [done|done|done|]. split; lia.
Qed.

(** ** The loop *)

(** The current piece of a list with the entries after it. *)
Definition cur_ok (pa len : Z) (rest : list mudm_sgl) : Prop :=
  0 <= pa /\ 0 <= len < 2 ^ 28 /\ pa + len < 2 ^ 36 + 2 ^ 28 /\
  Forall sge_ok rest /\ (pa = 0 \/ exists s, s ∈ rest /\ physicalAddr s = 0).
Definition cur_bytes (pa len : Z) (rest : list mudm_sgl) : list Z :=
  sgl_bytes (mkSgl pa len :: rest).

Lemma cur_ok_first s rest : sgl_ok (s :: rest) -> cur_ok (physicalAddr s) (memlength s) rest.
Proof.
  intros [[[Ha Hl] Hf]%list.Forall_cons (t & Ht & H0)].
  apply elem_of_cons in Ht as [->|Ht]; split_and!; eauto; lia.
Qed.

(** Advancing to the next entry. *)
Lemma cur_ok_next pa len rest :
  pa <> 0 -> cur_ok pa len rest -> exists s rest', rest = s :: rest' /\
    cur_ok (physicalAddr s) (memlength s) rest' /\
    cur_bytes pa len rest = seqZ pa len ++ cur_bytes (physicalAddr s) (memlength s) rest'.
Proof.
  intros Hpa (_ & _ & _ & Hf & [?|(t & Ht & H0)]); [done|].
  destruct rest as [|s rest']; [by apply elem_of_nil in Ht|].
  exists s, rest'. split_and!; [done|apply cur_ok_first; split; by eauto|].
  unfold cur_bytes at 1. cbn [sgl_bytes physicalAddr memlength].
  rewrite (proj2 (Z.eqb_neq _ _) Hpa). by destruct s.
Qed.

(** Consuming the first [k] bytes of the current piece. *)
Lemma cur_ok_consume pa len rest k :
  pa <> 0 -> 0 <= k <= len -> cur_ok pa len rest ->
  cur_ok (pa + k) (len - k) rest /\
  cur_bytes pa len rest = seqZ pa k ++ cur_bytes (pa + k) (len - k) rest.
Proof.
  intros Hpa Hk (H1 & H2 & H3 & Hf & [?|Ht]); [done|].
  split; [split_and!; auto; lia|]. unfold cur_bytes. cbn [sgl_bytes physicalAddr memlength].
  rewrite (proj2 (Z.eqb_neq _ _) Hpa), (proj2 (Z.eqb_neq (pa + k) 0)) by lia.
  rewrite app_assoc. f_equal. replace len with (k + (len - k)) at 1 by lia.
  apply seqZ_app; lia.
Qed.

Lemma cur_ok_bounds pa len rest :
  cur_ok pa len rest -> 0 <= pa < 2 ^ 37 /\ 0 <= len < 2 ^ 28 /\ pa + len < 2 ^ 37.
Proof. intros (H1 & H2 & H3 & _). lia. Qed.

Section loop.
Context (P : platform) `{!MuLive P} (c : nat) (cc : mudm_connection) (ctr bytes_xfer : Z).
Context (Hctr : ctr_ok ctr) (Hbytes : bytes_xfer < 2 ^ 32 - 2 ^ 28).

(** [ds] was sent; together with what was sent before ([tot] bytes) it
    is as much of the transfer as the outcome says. *)
Definition loop_post (n : nat) (tot : Z) (L R : list Z) (w : world)
    (r : option Z) (w' : world) : Prop :=
  exists ds, sends P (injfifo_ctls cc) ds w w' /\ put_ready c n cc w' /\
    Forall (fun d => pt_counter (view_put d) = put_word ctr) ds /\
    moved ds `prefix_of` zip L R /\
    match r with
    | Some t => t = tot + Z.of_nat (length (moved ds)) /\
                (t = bytes_xfer \/ t < bytes_xfer /\ moved ds = zip L R)
    | None => tot + Z.of_nat (length (moved ds)) < bytes_xfer < tot + Z.of_nat (length (zip L R))
    end.

Lemma loop_step (m n : nat) (K : Z -> MW (option Z)) tot lpa rpa k L' R' w :
  0 <= tot < bytes_xfer -> 0 <= k < 2 ^ 28 -> 0 <= rpa < 2 ^ 37 ->
  (n <= m)%nat -> put_ready c (S m) cc w ->
  (forall w1, put_ready c m cc w1 -> tot + k < bytes_xfer ->
     wp (K (tot + k)) (loop_post n (tot + k) L' R' w1) w1) ->
  wp (let totalbytes := u32 (tot + k) in
      if totalbytes >? bytes_xfer then ret None else
      desc_count <- direct_put P c lpa rpa k ctr ;;
      if totalbytes >=? bytes_xfer then ret (Some totalbytes) else K totalbytes)
     (loop_post n tot (seqZ lpa k ++ L') (seqZ rpa k ++ R') w) w.
Proof.
  intros Ht Hk Hr Hnm Hp HK. cbv zeta. rewrite u32_small by lia.
  assert (Hz : zip (seqZ lpa k ++ L') (seqZ rpa k ++ R')
               = zip (seqZ lpa k) (seqZ rpa k) ++ zip L' R')
    by (rewrite zip_with_app; [done|by rewrite !length_seqZ]).
  assert (Hlen : length (zip (seqZ lpa k) (seqZ rpa k)) = Z.to_nat k)
    by (rewrite length_zip_with, !length_seqZ; lia).
  destruct (Z.gtb_spec (tot + k) bytes_xfer) as [Hgt|Hle].
  { apply wp_ret. exists []. split_and!; [auto with mudm|by eapply put_ready_mono, Hp; lia|by constructor
      |apply prefix_nil|cbn; lia|]. rewrite Hz, length_app, Hlen. lia. }
  apply wp_bind, (wp_direct_put P c m cc); [done..|]. intros d w1 Hv Hi Hp1.
  assert (Hm : put_bytes (view_put d) = zip (seqZ lpa k) (seqZ rpa k)) by (by rewrite Hv).
  destruct (Z.geb_spec (tot + k) bytes_xfer) as [Hge|Hlt].
  { apply wp_ret. exists [d]. split_and!; [auto with mudm|by eapply put_ready_mono|
      by constructor; [rewrite Hv|]| | |left; lia]; rewrite moved_cons, Hm, app_nil_r.
    - rewrite Hz. by apply prefix_app_r.
    - rewrite Hlen. lia. }
  eapply wp_mono; [by apply HK; [|lia]|]. intros r w' (ds & Hs & Hp2 & Hc & Hpre & Hres).
  exists (d :: ds). rewrite moved_cons, Hm, Hz.
  split_and!; [by eapply sends_cons|done|by constructor; [rewrite Hv|]|by apply prefix_app|].
  rewrite !length_app, !Hlen. destruct r as [t|]; [|lia].
  destruct Hres as [-> [?|[? E]]]; (split; [lia|]); [left; lia|right; split; [lia|by rewrite E]].
Qed.

Lemma loop_post_nil n tot L R w :
  tot < bytes_xfer -> put_ready c n cc w -> zip L R = [] -> loop_post n tot L R w (Some tot) w.
Proof.
  intros Ht Hp Hz. exists []. rewrite Hz.
  split_and!; [auto with mudm|done|by constructor|done|cbn; lia|right; done].
Qed.

Lemma rdma_write_loop_ok fuel n lpa llen rpa rlen ls rs tot w :
  (length ls + length rs <= fuel)%nat ->
  cur_ok lpa llen (tail ls) -> cur_ok rpa rlen (tail rs) ->
  0 <= tot < bytes_xfer -> put_ready c (fuel + n) cc w ->
  wp (rdma_write_loop P fuel c ctr bytes_xfer lpa llen rpa rlen ls rs tot)
     (loop_post n tot (cur_bytes lpa llen (tail ls)) (cur_bytes rpa rlen (tail rs)) w) w.
Proof.
  revert lpa llen rpa rlen ls rs tot w.
  induction fuel as [|fuel IH]; intros lpa llen rpa rlen ls rs tot w Hf HL HR Ht Hp.
  all: cbn [rdma_write_loop]; destruct ((lpa =? 0) || (rpa =? 0)) eqn:E.
  1, 3: apply wp_ret, loop_post_nil; [lia|by eapply put_ready_mono, Hp; lia|];
        apply orb_true_iff in E as [->%Z.eqb_eq| ->%Z.eqb_eq]; [done|apply zip_with_nil_r].
  all: apply orb_false_iff in E as [Hl%Z.eqb_neq Hr%Z.eqb_neq].
  { destruct ls; [|cbn in Hf; lia]. destruct HL as (_&_&_&_&[?|(s & []%elem_of_nil & _)]). done. }
  pose proof (cur_ok_bounds _ _ _ HL) as HLb. pose proof (cur_ok_bounds _ _ _ HR) as HRb.
  destruct (cur_ok_next _ _ _ Hl HL) as (sl & ls' & El & HL' & BL).
  destruct (cur_ok_next _ _ _ Hr HR) as (sr & rs' & Er & HR' & BR).
  destruct ls as [|s0 ls]; [done|]. destruct rs as [|r0 rs]; [done|]. cbn [tail] in *. subst ls rs.
  cbn [length] in Hf.
  destruct (Z.eqb_spec llen rlen) as [Heq|Hne]; [|destruct (Z.ltb_spec llen rlen) as [Hlt|Hge]].
  - rewrite BL, BR, Heq. apply (loop_step (fuel + n) n); [lia..|done|].
    intros w1 Hp1 Hlt. do 4 (apply wp_bind || apply wp_ret). cbn.
    apply (IH _ _ _ _ (sl :: ls') (sr :: rs')); cbn; [lia|done|done|lia|done].
  - destruct (cur_ok_consume rpa rlen _ llen Hr ltac:(lia) HR) as [HRc BRc].
    rewrite BL, BRc. apply (loop_step (fuel + n) n); [lia..|done|].
    intros w1 Hp1 Hlt'. rewrite !u64_small by lia. do 2 (apply wp_bind || apply wp_ret). cbn.
    apply (IH _ _ _ _ (sl :: ls') (r0 :: sr :: rs')); cbn; [lia|done|done|lia|done].
  - destruct (cur_ok_consume lpa llen _ rlen Hl ltac:(lia) HL) as [HLc BLc].
    rewrite BR, BLc. apply (loop_step (fuel + n) n); [lia..|done|].
    intros w1 Hp1 Hlt'. rewrite !u64_small by lia. do 2 (apply wp_bind || apply wp_ret). cbn.
    apply (IH _ _ _ _ (s0 :: sl :: ls') (sr :: rs')); cbn; [lia|done|done|lia|done].
Qed.
End loop.

(** ** The whole operation *)

Definition error_put (w : world) (rdma_object : Z) (d : MUHWI_Descriptor) : Prop :=
  view_put d = mkPut (mudm_context_phys_addr w + OFF_rdma_EINVAL_source)
                     (rdma_object + OFF_mue_error) 8 (put_word rdma_object).

(** Outcome of a write of [bytes_xfer] bytes whose SGLs pair up as [pairs]. *)
Inductive write_outcome (w : world) (rdma_object bytes_xfer : Z) (pairs : list (Z * Z)) :
    Z -> list MUHWI_Descriptor -> Prop :=
| write_done ds :
    Forall (fun d => pt_counter (view_put d) = put_word rdma_object) ds ->
    moved ds `prefix_of` pairs -> Z.of_nat (length (moved ds)) = bytes_xfer ->
    write_outcome w rdma_object bytes_xfer pairs 0 ds
| write_failed ds e :
    Forall (fun d => pt_counter (view_put d) = put_word rdma_object) ds ->
    moved ds `prefix_of` pairs -> Z.of_nat (length (moved ds)) < bytes_xfer ->
    (moved ds = pairs \/ bytes_xfer < Z.of_nat (length pairs)) ->
    error_put w rdma_object e ->
    write_outcome w rdma_object bytes_xfer pairs (- EINVAL) (ds ++ [e]).

Section operation.
Context (P : platform) `{!MuLive P} (c : nat) (cc : mudm_connection)
        (rdma_object bytes_xfer : Z) (local remote : list mudm_sgl) (n : nat) (w : world).
Context (Hready : put_ready c (S (length local + length remote + n)) cc w)
        (Hmagic : c_magic cc = CONN_MAGIC) (Hctr : ctr_ok rdma_object)
        (Hlocal : sgl_ok local) (Hremote : sgl_ok remote)
        (Hbytes : 0 < bytes_xfer < 2 ^ 32 - 2 ^ 28).

Lemma rdma_write_ok :
  wp (mudm_rdma_write P c rdma_object bytes_xfer (Some local) (Some remote))
     (fun r w' => exists ds, sends P (injfifo_ctls cc) ds w w' /\ put_ready c n cc w' /\
        write_outcome w rdma_object bytes_xfer (zip (sgl_bytes local) (sgl_bytes remote)) r ds) w.
Proof.
  destruct local as [|s ls]; [by destruct Hlocal as (_ & ? & []%elem_of_nil & _)|].
  destruct remote as [|t rs]; [by destruct Hremote as (_ & ? & []%elem_of_nil & _)|].
  pose proof Hready as (Hc & _ & _). pose proof Hctr as [Hc1 Hc2].
  unfold mudm_rdma_write. apply wp_bind, (wp_get_conn _ cc); [done|].
  rewrite (proj2 (Z.eqb_neq bytes_xfer 0)) by lia. rewrite Hmagic. cbn [Z.eqb negb].
  rewrite Z.eqb_refl. cbn [negb head deref]. repeat wp_step.
  eapply wp_mono.
  { apply (rdma_write_loop_ok P c cc rdma_object bytes_xfer Hctr) with (n := S n);
      [lia|done|by apply cur_ok_first..|lia|].
    eapply put_ready_mono, Hready. lia. }
  intros r w1 (ds & Hs & Hp1 & Hcs & Hpre & Hres). cbn [tail] in *.
  assert (Es : cur_bytes (physicalAddr s) (memlength s) ls = sgl_bytes (s :: ls)) by by destruct s.
  assert (Et : cur_bytes (physicalAddr t) (memlength t) rs = sgl_bytes (t :: rs)) by by destruct t.
  rewrite Es, Et in *. pose proof Hs as (i & h & _ & Ew & _).
  destruct (match r with Some t => t =? bytes_xfer | None => false end) eqn:Er.
  - apply wp_ret. exists ds. split_and!; [done|eapply put_ready_mono, Hp1; lia|].
    destruct r as [t'|]; [|done]. apply Z.eqb_eq in Er. constructor; [done..|lia].
  - apply wp_bind, wp_gets, wp_bind, (wp_direct_put P c n cc); [done|done|unfold OFF_mue_error; lia|].
    intros e w2 He Hi Hp2. apply wp_ret. exists (ds ++ [e]).
    split_and!; [by eauto with mudm|done|].
    assert (Hm : mudm_context_phys_addr w1 = mudm_context_phys_addr w) by (rewrite Ew; by wsimp).
    constructor; [done|done|destruct r as [t'|]; [apply Z.eqb_neq in Er|]; lia| |
                  unfold error_put; by rewrite He, Hm].
    destruct r as [t'|]; [|right; lia]. apply Z.eqb_neq in Er. left. naive_solver.
Qed.
End operation.

(** ** Transfers of 4 GB and more

    The loop counts in 32 bits, so a byte count that does not fit in 32
    bits is never reached. *)

Lemma rdma_write_loop_32bit P fuel c ctr n lpa llen rpa rlen ls rs tot :
  0 <= tot < 2 ^ 32 ->
  returns (rdma_write_loop P fuel c ctr n lpa llen rpa rlen ls rs tot)
          (fun r => forall t, r = Some t -> t < 2 ^ 32).
Proof.
  revert lpa llen rpa rlen ls rs tot.
  induction fuel as [|fuel IH]; intros lpa llen rpa rlen ls rs tot Ht; cbn [rdma_write_loop].
  all: apply returns_if; intros _; [apply returns_ret; intros t [= <-]; lia|].
  { by intros ? ? ?. }
  all: returns_tac; [done| | |done| | |done| |].
  all: first [apply IH; apply u32_range|intros t [= <-]; apply u32_range].
Qed.

(** ** Properties *)

Section properties.
Context (P : platform) `{!MuLive P} (c : nat) (cc : mudm_connection)
        (rdma_object bytes_xfer : Z) (local remote : list mudm_sgl) (w : world).

(** The pairs of a transfer, as the lists describe it and as the loop takes
    it. *)
Definition described_pairs : list (Z * Z) := zip (sgl_described local) (sgl_described remote).
Definition walked_pairs : list (Z * Z) := zip (sgl_bytes local) (sgl_bytes remote).

(** When the two SGLs pair up as at most [bytes_xfer] bytes, every one of
    these is moved; the result is 0 and nothing else is sent when they are
    exactly [bytes_xfer], otherwise it is [-EINVAL] and one error put has
    told the tracking object. *)
Lemma rdma_write_all :
  put_ready c (S (length local + length remote)) cc w -> c_magic cc = CONN_MAGIC ->
  ctr_ok rdma_object -> sgl_ok local -> sgl_ok remote -> 0 < bytes_xfer < 2 ^ 32 - 2 ^ 28 ->
  Z.of_nat (length walked_pairs) <= bytes_xfer ->
  wp (mudm_rdma_write P c rdma_object bytes_xfer (Some local) (Some remote))
     (fun r w' => exists ds es, sends P (injfifo_ctls cc) (ds ++ es) w w' /\ moved ds = walked_pairs /\
        if decide (Z.of_nat (length walked_pairs) = bytes_xfer) then r = 0 /\ es = []
        else r = - EINVAL /\ exists e, es = [e] /\ error_put w rdma_object e) w.
Proof.
  intros Hp Hm Hc Hl Hr Hb Hle.
  eapply wp_mono; [apply (rdma_write_ok P c cc) with (n := O); try done; by rewrite Nat.add_0_r|].
  intros r w' (ds & Hs & _ & Ho). fold walked_pairs in Ho.
  inversion Ho as [ds' Hcs Hpre Hlen|ds' e Hcs Hpre Hlen Hor He]; subst.
  - exists ds, []. rewrite app_nil_r. pose proof (prefix_length _ _ Hpre) as Hpl.
    rewrite decide_True by lia. split_and!; [done| |done..].
    apply prefix_length_eq; [done|lia].
  - exists ds', [e]. destruct Hor as [<-|?]; [|lia].
    rewrite decide_False by lia. split_and!; [done..|]. by exists e.
Qed.

(** C5: on an active connection [mudm_rdma_write] returns.  For two SGLs
    without empty pieces the bytes its direct puts move are, pair by pair
    and in order, an initial part of the byte-wise pairing of what the two
    SGLs describe; when it returns 0 that part is exactly [bytes_xfer] bytes
    long, otherwise it is shorter, is all of the pairing unless that is
    longer than [bytes_xfer], and the last put reports the error to the
    remote object.  Nothing but the injection FIFO, the hardware and the
    trace changes. *)
Theorem rdma_write_outcome :
  put_ready c (S (length local + length remote)) cc w -> c_magic cc = CONN_MAGIC ->
  ctr_ok rdma_object -> sgl_ok local -> sgl_ok remote -> no_empty local = true -> no_empty remote = true ->
  0 < bytes_xfer < 2 ^ 32 - 2 ^ 28 ->
  wp (mudm_rdma_write P c rdma_object bytes_xfer (Some local) (Some remote))
     (fun r w' => exists ds, sends P (injfifo_ctls cc) ds w w' /\
        write_outcome w rdma_object bytes_xfer described_pairs r ds) w.
Proof.
  intros Hp Hm Hc Hl Hr El Er Hb. unfold described_pairs. rewrite !sgl_described_bytes by done.
  eapply wp_mono; [apply (rdma_write_ok P c cc) with (n := O); try done; by rewrite Nat.add_0_r|].
  naive_solver.
Qed.

(** C9: a piece of length 0 does not end the list it is in, against
    mudm.h:57.  When the lists describe fewer than [bytes_xfer] bytes, so
    that the operation should end early, but go on behind empty pieces for
    exactly [bytes_xfer], the write moves the bytes behind the end as well
    and reports success. *)
Theorem rdma_write_past_end :
  put_ready c (S (length local + length remote)) cc w -> c_magic cc = CONN_MAGIC ->
  ctr_ok rdma_object -> sgl_ok local -> sgl_ok remote -> 0 < bytes_xfer < 2 ^ 32 - 2 ^ 28 ->
  Z.of_nat (length described_pairs) < bytes_xfer -> Z.of_nat (length walked_pairs) = bytes_xfer ->
  wp (mudm_rdma_write P c rdma_object bytes_xfer (Some local) (Some remote))
     (fun r w' => r = 0 /\ exists ds, sends P (injfifo_ctls cc) ds w w' /\ moved ds = walked_pairs /\
        described_pairs `prefix_of` moved ds /\ (length described_pairs < length (moved ds))%nat) w.
Proof.
  intros Hp Hm Hc Hl Hr Hb Hd Hw. eapply wp_mono; [apply rdma_write_all; [done..|lia]|].
  intros r w' (ds & es & Hs & Hmv & H). rewrite decide_True in H by done. destruct H as [-> ->].
  rewrite app_nil_r in Hs. split; [done|]. exists ds. rewrite Hmv. split_and!; [done..| |lia].
  apply zip_prefix; apply sgl_described_prefix.
Qed.

(** C12: a write of 4 GB or more never succeeds, whatever the SGLs: the byte
    count is kept in 32 bits and is compared with the 64-bit request. *)
Theorem rdma_write_4GB_fails ls rs r w' :
  2 ^ 32 <= bytes_xfer ->
  mudm_rdma_write P c rdma_object bytes_xfer ls rs w = Ok r w' ->
  r = - EINVAL \/ r = - EFAULT.
Proof.
  intros Hb. revert w r w'. change (returns (mudm_rdma_write P c rdma_object bytes_xfer ls rs)
    (fun r => r = - EINVAL \/ r = - EFAULT)).
  apply returns_bind. intros cc'. destruct ls as [ls|], rs as [rs|]; [|apply returns_ret; auto..].
  do 2 (apply returns_if; intros _; [apply returns_ret; auto|]).
  do 2 (apply returns_bind; intros ?). eapply returns_bind2; [by apply rdma_write_loop_32bit|].
  intros [t|] Ht; returns_tac; [|auto..].
  match goal with H : _ = true |- _ => apply Z.eqb_eq in H end.
  specialize (Ht t eq_refl). lia.
Qed.

(** An absent SGL, an empty transfer and a connection block with a bad
    magic number are refused before anything is sent. *)
Theorem rdma_write_refuses ls rs :
  conn_list w !! c = Some cc ->
  ls = None \/ rs = None \/ bytes_xfer = 0 \/ c_magic cc <> CONN_MAGIC ->
  exists e, mudm_rdma_write P c rdma_object bytes_xfer ls rs w = Ok e w /\
            (e = - EINVAL \/ e = - EFAULT /\ c_magic cc <> CONN_MAGIC).
Proof.
  intros Hc H. unfold mudm_rdma_write, get_conn, bind, gets, deref, ret. rewrite Hc.
  destruct ls as [ls|]; [|eauto]. destruct rs as [rs|]; [|eauto].
  destruct (Z.eqb_spec bytes_xfer 0); [eauto|].
  destruct H as [?|[?|[?|Hm]]]; [done..|]. rewrite (proj2 (Z.eqb_neq _ _) Hm). cbn. eauto.
Qed.
End properties.

(** ** Witnesses: a 300-byte write from two pieces to two pieces *)

Definition demo_local : list mudm_sgl := [mkSgl 0x1000 100; mkSgl 0x3000 200; mkSgl 0 0].
Definition demo_remote : list mudm_sgl := [mkSgl 0x9000 250; mkSgl 0xA000 50; mkSgl 0 0].

Lemma demo_local_ok : sgl_ok demo_local.
Proof.
  split; [repeat constructor; cbn; lia|].
  exists (mkSgl 0 0). split; [|done]. unfold demo_local. rewrite !elem_of_cons. auto.
Qed.
Lemma demo_remote_ok : sgl_ok demo_remote.
Proof.
  split; [repeat constructor; cbn; lia|].
  exists (mkSgl 0 0). split; [|done]. unfold demo_remote. rewrite !elem_of_cons. auto.
Qed.

Lemma demo_put_ready n : Z.of_nat n < 2 ^ 63 -> put_ready 0 n demo_cc demo_world.
Proof. intros. split_and!; [done|done|by apply demo_inj_ready]. Qed.

Lemma rdma_write_outcome_witness :
  wp (mudm_rdma_write demo_platform 0 0x20000 300 (Some demo_local) (Some demo_remote))
     (fun r w' => exists ds, sends demo_platform 0 ds demo_world w' /\
        write_outcome demo_world 0x20000 300 (described_pairs demo_local demo_remote) r ds) demo_world.
Proof.
  apply (rdma_write_outcome demo_platform 0 demo_cc).
  - by apply demo_put_ready.
  - done.
  - by split.
  - apply demo_local_ok.
  - apply demo_remote_ok.
  - done.
  - done.
  - lia.
Defined.

(** The three puts of the write, computed. *)
Example demo_write_puts :
  match mudm_rdma_write demo_platform 0 0x20000 300 (Some demo_local) (Some demo_remote) demo_world with
  | Ok r w' => r = 0 /\ omap (fun e => match e with EvInject _ d _ => Some (view_put d) | _ => None end)
                          (trace w')
               = [mkPut 0x1000 0x9000 100 (put_word 0x20000);
                  mkPut 0x3000 0x9064 150 (put_word 0x20000);
                  mkPut 0x3096 0xA000 50 (put_word 0x20000)]
  | _ => False
  end.
Proof. by vm_compute. Qed.

(** A list that ends after 100 bytes by a piece of length 0. *)
Definition demo_ended : list mudm_sgl := [mkSgl 0x1000 100; mkSgl 0x2000 0; mkSgl 0x3000 200; mkSgl 0 0].
Lemma demo_ended_ok : sgl_ok demo_ended.
Proof.
  split; [repeat constructor; cbn; lia|].
  exists (mkSgl 0 0). split; [|done]. unfold demo_ended. rewrite !elem_of_cons. auto.
Qed.
Lemma rdma_write_past_end_witness : length (described_pairs demo_ended demo_remote) = 100%nat /\
  wp (mudm_rdma_write demo_platform 0 0x20000 300 (Some demo_ended) (Some demo_remote))
     (fun r w' => r = 0 /\ exists ds, sends demo_platform 0 ds demo_world w' /\
        moved ds = walked_pairs demo_ended demo_remote) demo_world.
Proof.
  split; [by vm_compute|]. eapply wp_mono.
  - apply (rdma_write_past_end demo_platform 0 demo_cc 0x20000 300 demo_ended demo_remote).
    + by apply demo_put_ready.
    + done.
    + by split.
    + apply demo_ended_ok.
    + apply demo_remote_ok.
    + lia.
    + by vm_compute.
    + by vm_compute.
  - intros r w' (-> & ds & Hs & Hm & _). split; [done|]. by exists ds.
Defined.

Lemma rdma_write_4GB_fails_witness :
  match mudm_rdma_write demo_platform 0 0x20000 (2 ^ 32) (Some demo_local) (Some demo_remote)
          demo_world with
  | Ok r _ => r = - EINVAL \/ r = - EFAULT
  | _ => False
  end.
Proof.
  destruct (mudm_rdma_write _ _ _ _ _ _ _) as [r w'| |] eqn:E; [|by vm_compute in E..].
  by apply (rdma_write_4GB_fails _ _ _ (2 ^ 32) demo_world _ _ r w' ltac:(done) E).
Defined.

Lemma rdma_write_refuses_witness : exists e,
  mudm_rdma_write demo_platform 0 0x20000 300 None (Some demo_remote) demo_world = Ok e demo_world /\
  (e = - EINVAL \/ e = - EFAULT /\ c_magic demo_cc <> CONN_MAGIC).
Proof. apply (rdma_write_refuses demo_platform 0 demo_cc 0x20000 300); [done|by left]. Defined.
