(* ===== verification/Pools.v ===== *)
(** * Pools of descriptors

    Packet descriptors (bgmudm/mudm_pkt.c) and RDMA objects
    (bgmudm/rdma_object.c) are kept the same way: an array of nodes, a
    free list, and a list of active nodes that polling empties, splits
    and puts back.  [Pool] is the interface a kind of pool offers; the list
    surgery both files repeat is defined and proved once against it, with
    status callbacks that may post into the pool being polled
    ([PostingStatus]). *)

From S2P Require Import Prelude Chain Bytes Descriptor State.

(** What a pool keeps: nodes, free list, active list. *)
Record pool_view (N : Type) := mkView {
  v_heap : gmap nat N; v_free : option nat; v_active : option nat }.
Arguments mkView {N} _ _ _.
Arguments v_heap {N} _.
Arguments v_free {N} _.
Arguments v_active {N} _.

Class Pool (N : Type) := {
  pl_get : world -> pool_view N;
  pl_put : pool_view N -> world -> world;
  pl_lock : lock_id;
  pl_get_put : forall v w, pl_get (pl_put v w) = v;
  pl_put_put : forall v v' w, pl_put v (pl_put v' w) = pl_put v w;
  pl_put_get : forall w, pl_put (pl_get w) w = w;
  pl_held_put : forall v w, held (pl_put v w) = held w;
  pl_trace_put : forall v w, trace (pl_put v w) = trace w;
  pl_hw_put : forall v w, hw (pl_put v w) = hw w;
  pl_put_held : forall v hs w, pl_put v (w <| held := hs |>) = (pl_put v w) <| held := hs |>;
  pl_get_held : forall u w, pl_get (w <| held ::= u |>) = pl_get w;
  pl_get_trace : forall u w, pl_get (w <| trace ::= u |>) = pl_get w;
  pl_get_hw : forall u w, pl_get (w <| hw ::= u |>) = pl_get w;
}.

Create Rewrite HintDb pool.
#[export] Hint Rewrite @pl_get_put @pl_put_put @pl_held_put @pl_trace_put @pl_hw_put
  @pl_get_held @pl_get_trace @pl_get_hw : pool.
Ltac psimp := repeat first [progress autorewrite with pool | progress wsimp];
  cbn [v_heap v_free v_active].

Section ops.
Context {N : Type} `{!Linked N} (O : Pool N).

Definition get_node (i : nat) : MW N := o <- gets (fun w => v_heap (pl_get w) !! i) ;; deref o.
Definition upd_view (u : pool_view N -> pool_view N) : MW unit :=
  modify (fun w => pl_put (u (pl_get w)) w).
Definition upd_node (i : nat) (u : N -> N) : MW unit :=
  get_node i ;;;
  upd_view (fun v => mkView (alter u i (v_heap v)) (v_free v) (v_active v)).
Definition get_free : MW (option nat) := gets (fun w => v_free (pl_get w)).
Definition set_free (p : option nat) : MW unit :=
  upd_view (fun v => mkView (v_heap v) p (v_active v)).
Definition get_active : MW (option nat) := gets (fun w => v_active (pl_get w)).
Definition set_active (p : option nat) : MW unit :=
  upd_view (fun v => mkView (v_heap v) (v_free v) p).

(** [n = free; if (n != NULL) free = n->next] *)
Definition take_free : MW (option nat) :=
  f <- get_free ;;
  match f with
  | Some i => n <- get_node i ;; set_free (nx n)
  | None => ret tt
  end ;;;
  ret f.

(** [n->next = free; free = n] *)
Definition push_free (i : nat) : MW unit :=
  f <- get_free ;;
  upd_node i (set_nx f) ;;;
  set_free (Some i).

(** [n->prev = NULL; n->next = active; if (active != NULL) active->prev = n;
    active = n] *)
Definition push_active (i : nat) : MW unit :=
  upd_node i (set_pv None) ;;;
  a <- get_active ;;
  upd_node i (set_nx a) ;;;
  match a with Some j => upd_node j (set_pv (Some i)) | None => ret tt end ;;;
  set_active (Some i).

(** Detach the whole active list. *)
Definition detach_active : MW (option nat) :=
  a <- get_active ;; set_active None ;;; ret a.

(** Move node [i] from the front of the list being walked to the end of the
    list [hd]..[last]; the result is the new list and the rest of the walk. *)
Definition append_node (hd last : option nat) (i : nat)
    : MW (option nat * option nat * option nat) :=
  match hd with
  | Some _ =>
      j <- deref last ;;
      upd_node j (set_nx (Some i)) ;;;
      upd_node i (set_pv last)
  | None => upd_node i (set_pv None)
  end ;;;
  n <- get_node i ;;
  upd_node i (set_nx None) ;;;
  ret (match hd with Some _ => hd | None => Some i end, Some i, nx n).

(** [last->next = free; free = hd] and the same on the active list. *)
Definition splice_free (hd last : option nat) : MW unit :=
  f <- get_free ;;
  j <- deref last ;;
  upd_node j (set_nx f) ;;;
  set_free hd.
Definition splice_active (hd last : option nat) : MW unit :=
  a <- get_active ;;
  j <- deref last ;;
  upd_node j (set_nx a) ;;;
  set_active hd.

(** Run [m] with the lock of the pool. *)
Definition with_lock {A} (m : MW A) : MW A :=
  SPIN_LOCK pl_lock ;;; r <- m ;; SPIN_UNLOCK pl_lock ;;; ret r.
End ops.

(** ** List surgery on a heap *)

Section surgery.
Context {N : Type} `{!Linked N}.
Implicit Types (h : gmap nat N) (i j : nat) (acc todo : list nat).

(** A list under construction: its head, its last node, its nodes; the
    last node is meaningless while the list is empty. *)
Definition seg h (hd lst : option nat) acc : Prop :=
  chain h hd acc /\ (hd <> None -> lst = list.last acc).

Definition append_heap (hd lst : option nat) i h : gmap nat N :=
  alter (set_nx None) i
    (match hd, lst with
     | Some _, Some j => alter (set_pv lst) i (alter (set_nx (Some i)) j h)
     | _, _ => alter (set_pv None) i h
     end).

Lemma seg_nil h lst : seg h None lst [].
Proof. done. Qed.

Lemma seg_None h lst acc : seg h None lst acc -> acc = [].
Proof. intros [H _]. by eapply chain_None. Qed.
Lemma seg_Some h i lst acc : seg h (Some i) lst acc -> exists j, lst = Some j /\ seg h (Some i) (Some j) acc.
Proof.
  intros [Hc Hl]. specialize (Hl ltac:(done)). destruct (list.last acc) as [j|] eqn:E.
  - exists j. split; [done|]. split; [done|]. by rewrite E.
  - apply last_None in E as ->. done.
Qed.

Lemma seg_frame h h' hd lst acc :
  seg h hd lst acc -> (forall k, k ∈ acc -> h' !! k = h !! k) -> seg h' hd lst acc.
Proof. intros [Hc Hl] Hf. split; [by eapply chain_frame|done]. Qed.

Lemma seg_snoc h hd lst acc :
  seg h hd lst acc -> hd = None /\ acc = [] \/ exists j acc', hd <> None /\ lst = Some j /\ acc = acc' ++ [j].
Proof.
  intros [Hc Hl]. destruct hd as [i|]; [right|left; split; [done|by eapply chain_None]].
  specialize (Hl ltac:(done)). destruct acc as [|j acc' _] using rev_ind; [done|].
  exists j, acc'. by rewrite Hl, list.last_snoc.
Qed.

(** The parts of a node other than its links. *)
Lemma lookup_alter_dat {B} (dat : N -> B) f j h k :
  (forall n, dat (f n) = dat n) -> dat <$> alter f j h !! k = dat <$> h !! k.
Proof.
  intros Hf. destruct (decide (j = k)) as [->|]; [|by rewrite lookup_alter_ne].
  rewrite lookup_alter_eq. destruct (h !! k); cbn; [by rewrite Hf|done].
Qed.

Lemma append_heap_dat {B} (dat : N -> B) hd lst i h k :
  (forall p n, dat (set_nx p n) = dat n) -> (forall p n, dat (set_pv p n) = dat n) ->
  dat <$> append_heap hd lst i h !! k = dat <$> h !! k.
Proof.
  intros H1 H2. unfold append_heap. rewrite lookup_alter_dat by auto.
  destruct hd, lst; by rewrite !lookup_alter_dat by auto.
Qed.

Lemma append_heap_off hd lst i h acc k :
  seg h hd lst acc -> k ∉ acc -> k <> i -> append_heap hd lst i h !! k = h !! k.
Proof.
  intros Hs Hk Hi. unfold append_heap. rewrite lookup_alter_ne by done.
  apply seg_snoc in Hs as [[-> ->]|(j & acc' & Hhd & -> & ->)]; [by destruct lst; rewrite lookup_alter_ne|].
  destruct hd as [hd|]; [|done]. rewrite !lookup_alter_ne; [done| |done].
  intros ->. apply Hk. apply elem_of_app. right. left.
Qed.

Lemma append_heap_seg hd lst i h n acc todo :
  seg h hd lst acc -> h !! i = Some n -> chain h (nx n) todo -> NoDup (acc ++ i :: todo) ->
  seg (append_heap hd lst i h) (match hd with Some _ => hd | None => Some i end) (Some i) (acc ++ [i]) /\
  chain (append_heap hd lst i h) (nx n) todo.
Proof.
  intros Hs Hn Ht (_ & Hd & Hnd)%list.NoDup_app.
  assert (Hia : i ∉ acc) by (intros H; apply (Hd i H); left).
  apply list.NoDup_cons in Hnd as [Hit _]. split.
  - split; [|intros _; by rewrite list.last_snoc]. pose proof Hs as Hs0. unfold append_heap.
    apply seg_snoc in Hs as [[-> ->]|(j & acc' & Hhd & -> & ->)].
    + cbn. split; [done|]. rewrite lookup_alter_eq, lookup_alter_eq, Hn. cbn.
      eexists. split; [done|]. by rewrite nx_set_nx.
    + destruct hd as [hd|]; [|done]. destruct Hs0 as [Hc _].
      rewrite <- app_assoc. cbn [app].
      assert (Hij : j <> i) by (intros ->; apply Hia; apply elem_of_app; right; left).
      rewrite (alter_alter_ne (set_pv _) _ _ i j), (alter_alter_ne (set_nx None) _ _ i j) by done.
      apply chain_splice; [by do 2 (apply chain_alter_off; [done|])| |].
      * cbn. split; [done|]. rewrite lookup_alter_eq, lookup_alter_eq, Hn. cbn.
        eexists. split; [done|]. by rewrite nx_set_nx.
      * by intros [->|[]%elem_of_nil]%elem_of_cons.
  - eapply chain_frame; [done|]. intros k Hk. eapply append_heap_off; [done| |by intros ->].
    intros Hka. apply (Hd k Hka). by right.
Qed.
End surgery.

(** ** Rules *)

Section rules.
Context {N : Type} `{!Linked N} (O : Pool N).
Implicit Types (w : world) (i j : nat).

Definition heap_of w : gmap nat N := v_heap (pl_get w).

Lemma wp_get_node i n (Q : N -> world -> Prop) w :
  heap_of w !! i = Some n -> Q n w -> wp (get_node O i) Q w.
Proof. intros H HQ. unfold wp, get_node, bind, gets. unfold heap_of in H. by rewrite H. Qed.

Lemma wp_upd_node i u (Q : unit -> world -> Prop) w :
  is_Some (heap_of w !! i) ->
  Q tt (pl_put (mkView (alter u i (heap_of w)) (v_free (pl_get w)) (v_active (pl_get w))) w) ->
  wp (upd_node O i u) Q w.
Proof. intros [n H] HQ. apply wp_bind. by eapply wp_get_node. Qed.

Lemma wp_with_lock {A} (m : MW A) (Q : A -> world -> Prop) w :
  held w = [] ->
  wp m (fun a w' => held w' = [pl_lock] /\ Q a (w' <| held := [] |>)) (w <| held := [pl_lock] |>) ->
  wp (with_lock O m) Q w.
Proof.
  intros Hh H. unfold with_lock. apply wp_bind, wp_lock; [rewrite Hh; apply not_elem_of_nil|].
  assert (E : w <| held ::= cons pl_lock |> = w <| held := [pl_lock] |>)
    by (destruct w; cbn in Hh; by subst).
  rewrite E. apply wp_bind. eapply wp_mono; [exact H|]. intros a w' [Hh' HQ].
  apply wp_bind, wp_modify, wp_ret.
  rewrite (unlock_eq pl_lock (w' <| held := [] |>) w' (w' <| held := [] |>));
    [done|apply not_elem_of_nil| |by destruct w'].
  destruct w'; cbn in Hh'; by subst.
Qed.
End rules.

Section op_rules.
Context {N : Type} `{!Linked N} (O : Pool N).
Implicit Types (w : world) (i j : nat) (acc todo : list nat).

(** [put h f a w]: the world with the pool replaced. *)
Definition put (h : gmap nat N) (f a : option nat) w : world := pl_put (mkView h f a) w.

Lemma put_heap h f a w : heap_of O (put h f a w) = h.
Proof. unfold heap_of, put. by rewrite pl_get_put. Qed.
Lemma put_free h f a w : v_free (pl_get (put h f a w)) = f.
Proof. unfold put. by rewrite pl_get_put. Qed.
Lemma put_active h f a w : v_active (pl_get (put h f a w)) = a.
Proof. unfold put. by rewrite pl_get_put. Qed.
Lemma put_put h f a h' f' a' w : put h f a (put h' f' a' w) = put h f a w.
Proof. apply pl_put_put. Qed.
Lemma put_id w : put (heap_of O w) (v_free (pl_get w)) (v_active (pl_get w)) w = w.
Proof.
  transitivity (pl_put (pl_get w) w); [|apply pl_put_get]. unfold put, heap_of. by destruct (pl_get w).
Qed.

(** The pool of a world, as one hypothesis. *)
Definition has w (h : gmap nat N) (f a : option nat) : Prop := pl_get w = mkView h f a.

Lemma has_put w h f a : has (put h f a w) h f a.
Proof. apply pl_get_put. Qed.

Lemma wp_upd_node' i u n h f a (Q : unit -> world -> Prop) w :
  has w h f a -> h !! i = Some n -> Q tt (put (alter u i h) f a w) -> wp (upd_node O i u) Q w.
Proof.
  intros Hw Hn HQ. apply wp_upd_node; unfold heap_of; rewrite Hw; [by eauto|done].
Qed.

Lemma wp_append_node h f a hd lst i n acc todo (Q : _ -> world -> Prop) w :
  has w h f a -> seg h hd lst acc -> h !! i = Some n -> chain h (nx n) todo ->
  NoDup (acc ++ i :: todo) ->
  Q (match hd with Some _ => hd | None => Some i end, Some i, nx n)
    (put (append_heap hd lst i h) f a w) ->
  wp (append_node O hd lst i) Q w.
Proof.
  intros Hw Hs Hn Ht Hnd HQ. unfold append_node, append_heap in *. apply wp_bind.
  pose proof Hs as Hs0. apply list.NoDup_app in Hnd as (_ & Hd & _).
  apply seg_snoc in Hs0 as [[-> ->]|(j & acc' & Hhd & -> & ->)].
  - apply (wp_upd_node' _ _ n h f a); [done..|]. apply wp_bind.
    eapply wp_get_node; [by rewrite put_heap, lookup_alter_eq, Hn|]. cbn.
    apply wp_bind. eapply (wp_upd_node' _ _ _ _ _ _ _ _ (has_put _ _ _ _));
      [by rewrite lookup_alter_eq, Hn|].
    apply wp_ret. rewrite put_put, nx_set_pv. exact HQ.
  - destruct hd as [hd|]; [|done].
    assert (Hij : j <> i) by (intros ->; apply (Hd i); [apply elem_of_app; right; left|left]).
    destruct (chain_is_Some h (Some hd) (acc' ++ [j]) j) as [nj Hnj];
      [by destruct Hs|apply elem_of_app; right; left|].
    apply wp_bind, wp_ret, wp_bind, (wp_upd_node' _ _ nj h f a); [done..|].
    eapply (wp_upd_node' _ _ n _ _ _ _ _ (has_put _ _ _ _)); [by rewrite lookup_alter_ne|].
    rewrite put_put. apply wp_bind.
    eapply wp_get_node; [rewrite put_heap, lookup_alter_eq, lookup_alter_ne, Hn by done; reflexivity|].
    apply wp_bind. eapply (wp_upd_node' _ _ _ _ _ _ _ _ (has_put _ _ _ _));
      [rewrite lookup_alter_eq, lookup_alter_ne, Hn by done; reflexivity|].
    apply wp_ret. rewrite put_put, nx_set_pv. exact HQ.
Qed.

Lemma wp_splice_free h f a hd j acc l (Q : unit -> world -> Prop) w :
  has w h f a -> seg h (Some hd) (Some j) acc -> chain h f l -> NoDup (acc ++ l) ->
  (chain (alter (set_nx f) j h) (Some hd) (acc ++ l) ->
   Q tt (put (alter (set_nx f) j h) (Some hd) a w)) ->
  wp (splice_free O (Some hd) (Some j)) Q w.
Proof.
  intros Hw [Hc Hl] Hf Hnd HQ. unfold splice_free.
  apply wp_bind. unfold get_free. apply wp_gets. rewrite Hw. cbn [v_free].
  apply wp_bind, wp_ret, wp_bind.
  destruct acc as [|j' acc' _] using rev_ind; [done|].
  specialize (Hl ltac:(done)). rewrite list.last_snoc in Hl. injection Hl as <-.
  destruct (chain_is_Some _ _ _ j Hc) as [n Hn]; [apply elem_of_app; right; left|].
  eapply wp_upd_node'; [done..|]. unfold set_free, upd_view. apply wp_modify.
  rewrite has_put. cbn [v_heap v_active]. fold (put (alter (set_nx f) j h) (Some hd) a (put (alter (set_nx f) j h) f a w)).
  rewrite put_put. apply HQ. rewrite <- app_assoc. apply chain_splice; [done..|].
  rewrite <- app_assoc in Hnd. apply list.NoDup_app in Hnd as (_ & _ & Hnd).
  by apply list.NoDup_cons in Hnd as [? _].
Qed.

Lemma wp_splice_active h f a hd j acc l (Q : unit -> world -> Prop) w :
  has w h f a -> seg h (Some hd) (Some j) acc -> chain h a l -> NoDup (acc ++ l) ->
  (chain (alter (set_nx a) j h) (Some hd) (acc ++ l) ->
   Q tt (put (alter (set_nx a) j h) f (Some hd) w)) ->
  wp (splice_active O (Some hd) (Some j)) Q w.
Proof.
  intros Hw [Hc Hl] Hf Hnd HQ. unfold splice_active.
  apply wp_bind. unfold get_active. apply wp_gets. rewrite Hw. cbn [v_active].
  apply wp_bind, wp_ret, wp_bind.
  destruct acc as [|j' acc' _] using rev_ind; [done|].
  specialize (Hl ltac:(done)). rewrite list.last_snoc in Hl. injection Hl as <-.
  destruct (chain_is_Some _ _ _ j Hc) as [n Hn]; [apply elem_of_app; right; left|].
  eapply wp_upd_node'; [done..|]. unfold set_active, upd_view. apply wp_modify.
  rewrite has_put. cbn [v_heap v_free]. fold (put (alter (set_nx a) j h) f (Some hd) (put (alter (set_nx a) j h) f a w)).
  rewrite put_put. apply HQ. rewrite <- app_assoc. apply chain_splice; [done..|].
  rewrite <- app_assoc in Hnd. apply list.NoDup_app in Hnd as (_ & _ & Hnd).
  by apply list.NoDup_cons in Hnd as [? _].
Qed.

(** Allocation takes the first free node. *)
Lemma wp_take_free h f a l (Q : option nat -> world -> Prop) w :
  has w h f a -> chain h f l ->
  (l = [] -> f = None -> Q None w) ->
  (forall i l', l = i :: l' -> forall n, h !! i = Some n -> chain h (nx n) l' ->
     Q (Some i) (put h (nx n) a w)) ->
  wp (take_free O) Q w.
Proof.
  intros Hw Hc H0 H1. unfold take_free. apply wp_bind. unfold get_free. apply wp_gets.
  rewrite Hw. cbn [v_free]. destruct f as [i|].
  - destruct (chain_Some _ _ _ Hc) as (n & l' & -> & Hn & Hl').
    do 2 apply wp_bind. apply (wp_get_node O i n); [unfold heap_of; by rewrite Hw|].
    unfold set_free, upd_view. apply wp_modify, wp_ret. rewrite Hw. cbn. by eapply H1.
  - apply chain_None in Hc as ->. apply wp_bind, wp_ret, wp_ret. auto.
Qed.

Lemma wp_push_free h f a i n (Q : unit -> world -> Prop) w :
  has w h f a -> h !! i = Some n -> Q tt (put (alter (set_nx f) i h) (Some i) a w) ->
  wp (push_free O i) Q w.
Proof.
  intros Hw Hn HQ. unfold push_free. apply wp_bind. unfold get_free. apply wp_gets.
  rewrite Hw. apply wp_bind. eapply wp_upd_node'; [done..|]. cbn [v_free].
  unfold set_free, upd_view. apply wp_modify. rewrite has_put. cbn.
  fold (put (alter (set_nx f) i h) (Some i) a (put (alter (set_nx f) i h) f a w)).
  by rewrite put_put.
Qed.

(** Posting a node that is on neither list. *)
Definition push_heap (a : option nat) i (h : gmap nat N) : gmap nat N :=
  let h := alter (set_nx a) i (alter (set_pv None) i h) in
  match a with Some j => alter (set_pv (Some i)) j h | None => h end.

Lemma wp_push_active h f a i n l (Q : unit -> world -> Prop) w :
  has w h f a -> h !! i = Some n -> chain h a l -> i ∉ l ->
  Q tt (put (push_heap a i h) f (Some i) w) -> wp (push_active O i) Q w.
Proof.
  intros Hw Hn Hc Hi HQ. unfold push_active. apply wp_bind.
  eapply wp_upd_node'; [done..|]. apply wp_bind. unfold get_active. apply wp_gets.
  rewrite has_put. cbn [v_active]. apply wp_bind.
  eapply (wp_upd_node' _ _ _ _ _ _ _ _ (has_put _ _ _ _)); [by rewrite lookup_alter_eq, Hn|].
  rewrite put_put. apply wp_bind.
  destruct a as [j|].
  - destruct (chain_Some _ _ _ Hc) as (nj & l' & -> & Hnj & _).
    assert (Hij : j <> i) by (intros ->; apply Hi; left).
    eapply (wp_upd_node' _ _ nj _ _ _ _ _ (has_put _ _ _ _)); [by rewrite !lookup_alter_ne|].
    unfold set_active, upd_view. apply wp_modify. rewrite has_put, put_put. cbn.
    match goal with |- Q tt (pl_put ?v ?w') =>
      change (pl_put v w') with (put (v_heap v) (v_free v) (v_active v) w') end.
    by rewrite put_put.
  - apply wp_ret. unfold set_active, upd_view. apply wp_modify. rewrite has_put. cbn.
    match goal with |- Q tt (pl_put ?v ?w') =>
      change (pl_put v w') with (put (v_heap v) (v_free v) (v_active v) w') end.
    by rewrite put_put.
Qed.

Lemma push_heap_chain h a i n l :
  h !! i = Some n -> chain h a l -> i ∉ l -> chain (push_heap a i h) (Some i) (i :: l).
Proof.
  intros Hn Hc Hi. unfold push_heap.
  assert (H : chain (alter (set_nx a) i (alter (set_pv None) i h)) (Some i) (i :: l)).
  { eapply chain_push; [by rewrite lookup_alter_eq, Hn|done|]. by apply chain_alter_off. }
  destruct a as [j|]; [|done]. apply chain_alter_data; [|done]. intros. apply nx_set_pv.
Qed.

Lemma push_heap_off h a i l k :
  chain h a l -> k ∉ l -> k <> i -> push_heap a i h !! k = h !! k.
Proof.
  intros Hc Hk Hi. unfold push_heap. destruct a as [j|].
  - rewrite lookup_alter_ne; [by rewrite !lookup_alter_ne|]. intros ->.
    apply chain_head_in in Hc. done.
  - by rewrite !lookup_alter_ne.
Qed.
End op_rules.

(** ** Splitting a list in two while a third stays free *)

Section split.
Context {N : Type} `{!Linked N}.
Implicit Types (h : gmap nat N).

(** Free list [fl], two lists under construction, and the rest of the walk. *)
Record parts h (f : option nat) fl hd1 lst1 acc1 hd2 lst2 acc2 (p : option nat) todo : Prop := mkParts {
  parts_free : chain h f fl;
  parts_1 : seg h hd1 lst1 acc1;
  parts_2 : seg h hd2 lst2 acc2;
  parts_todo : chain h p todo;
  parts_nodup : NoDup (fl ++ acc1 ++ acc2 ++ todo) }.

Lemma parts_frame h h' f fl hd1 lst1 acc1 hd2 lst2 acc2 p todo :
  parts h f fl hd1 lst1 acc1 hd2 lst2 acc2 p todo ->
  (forall k n, h !! k = Some n -> exists n', h' !! k = Some n' /\ nx n' = nx n) ->
  parts h' f fl hd1 lst1 acc1 hd2 lst2 acc2 p todo.
Proof.
  intros [Hf [H1 L1] [H2 L2] Ht Hn] Hh.
  assert (Hc : forall q l, chain h q l -> chain h' q l).
  { intros q l; revert q. induction l as [|i l IH]; intros q; [done|].
    intros [-> (n & Hi & Hl)]. destruct (Hh _ _ Hi) as (n' & Hi' & E).
    split; [done|]. exists n'. rewrite E. auto. }
  split; [auto|split; auto|split; auto|auto|done].
Qed.

Lemma parts_alter h f fl hd1 lst1 acc1 hd2 lst2 acc2 p todo i u :
  (forall n, nx (u n) = nx n) ->
  parts h f fl hd1 lst1 acc1 hd2 lst2 acc2 p todo ->
  parts (alter u i h) f fl hd1 lst1 acc1 hd2 lst2 acc2 p todo.
Proof.
  intros Hu Hp. eapply parts_frame; [done|]. intros k n Hk.
  destruct (decide (i = k)) as [->|].
  - rewrite lookup_alter_eq, Hk. cbn. eauto.
  - rewrite lookup_alter_ne by done. eauto.
Qed.

Lemma parts_swap h f fl hd1 lst1 acc1 hd2 lst2 acc2 p todo :
  parts h f fl hd1 lst1 acc1 hd2 lst2 acc2 p todo ->
  parts h f fl hd2 lst2 acc2 hd1 lst1 acc1 p todo.
Proof.
  intros [Hf H1 H2 Ht Hn]. split; try done.
  rewrite (app_assoc acc2), (Permutation_app_comm acc2), <- app_assoc. done.
Qed.

Lemma parts_head h f fl hd1 lst1 acc1 hd2 lst2 acc2 i todo :
  parts h f fl hd1 lst1 acc1 hd2 lst2 acc2 (Some i) todo ->
  exists n todo', todo = i :: todo' /\ h !! i = Some n /\ chain h (nx n) todo'.
Proof. intros [_ _ _ Ht _]. destruct (chain_Some _ _ _ Ht) as (n & l & ? & ? & ?). eauto. Qed.

Lemma parts_nodup_acc h f fl hd1 lst1 acc1 hd2 lst2 acc2 p todo :
  parts h f fl hd1 lst1 acc1 hd2 lst2 acc2 p todo -> NoDup (acc1 ++ todo).
Proof.
  intros [_ _ _ _ (_ & _ & (H1 & Hd & (_ & _ & H2)%list.NoDup_app)%list.NoDup_app)%list.NoDup_app].
  apply list.NoDup_app. split_and!; [done| |done].
  intros x Hx Ht. apply (Hd x Hx). apply elem_of_app. by right.
Qed.

Lemma parts_append h f fl hd1 lst1 acc1 hd2 lst2 acc2 i n todo :
  parts h f fl hd1 lst1 acc1 hd2 lst2 acc2 (Some i) (i :: todo) -> h !! i = Some n ->
  parts (append_heap hd1 lst1 i h) f fl (match hd1 with Some _ => hd1 | None => Some i end)
        (Some i) (acc1 ++ [i]) hd2 lst2 acc2 (nx n) todo.
Proof.
  intros Hp Hn. pose proof (parts_nodup_acc _ _ _ _ _ _ _ _ _ _ _ Hp) as Hnd1.
  destruct Hp as [Hf H1 H2 [_ (n' & Hn' & Ht)] Hnd]. assert (n' = n) as -> by congruence.
  destruct (append_heap_seg _ _ _ _ _ _ _ H1 Hn Ht Hnd1) as [Hs Hc].
  apply list.NoDup_app in Hnd as (N1 & D1 & (N2 & D2 & (N3 & D3 & N4)%list.NoDup_app)%list.NoDup_app).
  assert (Hoff : forall k, k ∉ acc1 -> k <> i -> append_heap hd1 lst1 i h !! k = h !! k)
    by (intros; by eapply append_heap_off).
  split; [|done| |done|].
  - eapply chain_frame; [done|]. intros k Hk. apply Hoff.
    + intros Ha. apply (D1 k Hk). apply elem_of_app. by left.
    + intros ->. apply (D1 i Hk). rewrite !elem_of_app. right. right. left.
  - eapply seg_frame; [done|]. intros k Hk. apply Hoff.
    + intros Ha. apply (D2 k Ha). apply elem_of_app. by left.
    + intros ->. apply (D3 i Hk). left.
  - assert (E : fl ++ (acc1 ++ [i]) ++ acc2 ++ todo ≡ₚ fl ++ acc1 ++ acc2 ++ i :: todo).
    { rewrite <- (app_assoc acc1). do 2 apply Permutation_app_head. cbn [app]. apply Permutation_middle. }
    rewrite E. apply list.NoDup_app. split_and!; [done|done|].
    apply list.NoDup_app. split_and!; [done|done|]. apply list.NoDup_app. by split_and!.
Qed.

(** Giving the first list back to the free list. *)
Lemma parts_give_free h f fl i j acc1 hd2 lst2 acc2 p todo :
  parts h f fl (Some i) (Some j) acc1 hd2 lst2 acc2 p todo ->
  parts (alter (set_nx f) j h) (Some i) (acc1 ++ fl) None (Some j) [] hd2 lst2 acc2 p todo.
Proof.
  intros [Hf [H1 L1] H2 Ht Hnd]. specialize (L1 ltac:(done)).
  destruct acc1 as [|j' acc1 _] using rev_ind; [done|].
  rewrite list.last_snoc in L1. injection L1 as <-.
  assert (E : ((acc1 ++ [j]) ++ fl) ++ [] ++ acc2 ++ todo ≡ₚ fl ++ (acc1 ++ [j]) ++ acc2 ++ todo).
  { rewrite (Permutation_app_comm (acc1 ++ [j]) fl). by rewrite <- app_assoc. }
  pose proof Hnd as Hnd'.
  apply list.NoDup_app in Hnd' as (N1 & D1 & (N2 & D2 & N3)%list.NoDup_app).
  assert (Hj : j ∈ acc1 ++ [j]) by (apply elem_of_app; right; left).
  split; [|apply seg_nil| | |by rewrite E].
  - rewrite <- app_assoc. cbn. apply chain_splice; [done..|].
    intros Hj'. apply (D1 j Hj'). apply elem_of_app. by left.
  - eapply seg_frame; [done|]. intros k Hk. apply lookup_alter_ne. intros ->.
    apply (D2 _ Hj). apply elem_of_app. by left.
  - apply chain_alter_off; [|done]. intros Hj'. apply (D2 _ Hj). apply elem_of_app. by right.
Qed.
End split.

(** ** Well-formed pools *)

Section wf.
Context {N : Type} `{!Linked N} (O : Pool N).

(** Free nodes [fl], active nodes [al], no lock held. *)
Record pool_wf (w : world) (fl al : list nat) : Prop := mkWf {
  wf_free : chain (heap_of O w) (v_free (pl_get w)) fl;
  wf_active : chain (heap_of O w) (v_active (pl_get w)) al;
  wf_nodup : NoDup (fl ++ al);
  wf_held : held w = [] }.

Lemma pool_wf_has w fl al : pool_wf w fl al ->
  exists h f a, has O w h f a /\ heap_of O w = h /\ chain h f fl /\ chain h a al /\ NoDup (fl ++ al) /\
    held w = [] /\ put O h f a w = w.
Proof.
  intros [H1 H2 H3 H4]. exists (heap_of O w), (v_free (pl_get w)), (v_active (pl_get w)).
  split_and!; [|done..|apply put_id]. unfold has, heap_of. by destruct (pl_get w).
Qed.

Lemma pool_wf_put h f a w fl al :
  chain h f fl -> chain h a al -> NoDup (fl ++ al) -> held w = [] -> pool_wf (put O h f a w) fl al.
Proof.
  intros. split; [by rewrite put_heap, put_free|by rewrite put_heap, put_active|done|].
  unfold put. by rewrite pl_held_put.
Qed.

Lemma pool_wf_ext w w' fl al :
  pl_get (Pool := O) w' = pl_get (Pool := O) w -> held w' = held w ->
  pool_wf w fl al -> pool_wf w' fl al.
Proof. intros E1 E2 [A B C D]. split; unfold heap_of; rewrite ?E1, ?E2; done. Qed.

(** What the pool operations leave alone: the link-free part [dat] of every
    node but those in [l], and everything outside the pool. *)
Definition pool_frame {B} (dat : N -> B) (l : list nat) (w w' : world) : Prop :=
  (exists v, w' = pl_put v w) /\
  forall k, k ∉ l -> dat <$> heap_of O w' !! k = dat <$> heap_of O w !! k.

Lemma locked_put h f a w : held w = [] ->
  (put O h f a (w <| held := [pl_lock] |>)) <| held := [] |> = put O h f a w.
Proof.
  intros H. rewrite <- H. unfold put. rewrite pl_put_held.
  rewrite <- (pl_held_put (mkView h f a) w). by destruct (pl_put _ w).
Qed.

Lemma has_locked w h f a hs : has O w h f a -> has O (w <| held := hs |>) h f a.
Proof. intros H. unfold has. by rewrite pl_get_held. Qed.

(** A section under the lock of the pool, when it changes only the pool. *)
Lemma wp_lock_pool {A} (m : MW A) (Q : A -> world -> Prop) w :
  held w = [] ->
  (forall R, (forall a h f act, Q a (put O h f act w) -> R a (put O h f act (w <| held := [pl_lock] |>))) ->
     (forall a, Q a w -> R a (w <| held := [pl_lock] |>)) ->
     wp m R (w <| held := [pl_lock] |>)) ->
  wp (with_lock O m) Q w.
Proof.
  intros Hh Hm. apply wp_with_lock; [done|]. apply Hm.
  - intros a h f act HQ. split; [by unfold put; rewrite pl_held_put|]. by rewrite locked_put.
  - intros a HQ. split; [done|]. rewrite <- Hh. by destruct w.
Qed.
End wf.

Section detach.
Context {N : Type} `{!Linked N} (O : Pool N).

Lemma wp_detach_active h f a (Q : option nat -> world -> Prop) w :
  has O w h f a -> Q a (put O h f None w) -> wp (detach_active O) Q w.
Proof.
  intros Hw HQ. unfold detach_active. apply wp_bind. unfold get_active. apply wp_gets.
  rewrite Hw. cbn [v_active]. apply wp_bind. unfold set_active, upd_view. apply wp_modify.
  apply wp_ret. by rewrite Hw.
Qed.
End detach.

(** ** Flushing a pool

    [loop n first last] walks the detached list from [first], ends every
    request on it and returns the last node; the whole list then goes in
    front of the free list. *)

Section flush.
Context {N : Type} `{!Linked N} (O : Pool N).
Context (loop : nat -> option nat -> option nat -> MW (option nat)).

Definition flush_with : MW Z :=
  a <- get_active O ;;
  match a with
  | None => ret 0
  | Some _ =>
    m <- with_lock O (detach_active O) ;;
    match m with
    | None => ret 0
    | Some first =>
      n <- gets (fun w => size (heap_of O w)) ;;
      last <- loop n m None ;;
      with_lock O (splice_free O (Some first) last) ;;;
      ret 0
    end
  end.

Lemma flush_with_ok (F : world -> world -> Prop) `{!PreOrder F} (g : nat -> list event) w fl al :
  (forall h f a w, F w (put O h f a w)) ->
  pool_wf O w fl al ->
  (forall h f i, heap_of O w = h -> chain h f fl -> chain h (Some i) al -> let w0 := put O h f None w in
     wp (loop (size h) (Some i) None) (fun lst w' => exists h', has O w' h' f None /\ held w' = [] /\
       (forall q l, chain h q l -> chain h' q l) /\ lst = list.last al /\
       trace w' = trace w0 ++ (al ≫= g) /\ F w0 w') w0) ->
  wp flush_with (fun r w' => r = 0 /\ pool_wf O w' (al ++ fl) [] /\
    trace w' = trace w ++ (al ≫= g) /\ F w w') w.
Proof.
  intros HF Hw Hloop. destruct (pool_wf_has O _ _ _ Hw) as (h & f & a & Hh & Eh & Hf & Ha & Hnd & Hl & E).
  unfold flush_with. apply wp_bind, wp_gets. rewrite Hh. cbn [v_active].
  destruct a as [i|].
  2: { apply chain_None in Ha as ->. apply wp_ret. cbn. rewrite app_nil_r. by split_and!. }
  apply wp_bind, (wp_lock_pool O); [done|]. intros R HR _.
  eapply wp_detach_active; [by apply has_locked|]. apply HR. clear R HR.
  apply wp_bind, wp_gets, wp_bind. rewrite put_heap.
  eapply wp_mono; [by apply (Hloop h f i)|].
  intros lst w1 (h1 & A & B & C & -> & T & To). apply wp_bind.
  pose proof (C _ _ Ha) as Ha1. pose proof (C _ _ Hf) as Hf1.
  destruct (chain_Some _ _ _ Ha) as (n & l' & -> & _).
  destruct (list.last (i :: l')) as [j|] eqn:Ej; [|by apply last_None in Ej].
  apply (wp_lock_pool O); [done|]. intros R HR _.
  eapply wp_splice_free; [by apply has_locked|by split|exact Hf1| |].
  { by rewrite Permutation_app_comm. }
  intros Hc. apply HR, wp_ret. split_and!; [done| | |].
  - apply pool_wf_put; [done|done| |done]. by rewrite app_nil_r, Permutation_app_comm.
  - unfold put at 1. rewrite pl_trace_put, T. unfold put. by rewrite pl_trace_put.
  - etrans; [|apply HF]. etrans; [apply HF|exact To].
Qed.
End flush.

(** ** Reports, and callbacks that post *)

(** The reports of a trace. *)
Definition statuses (t : list event) : list (list (Z * Z)) :=
  omap (fun e => match e with EvStatus reqs => Some reqs | _ => None end) t.

Lemma statuses_app t1 t2 : statuses (t1 ++ t2) = statuses t1 ++ statuses t2.
Proof. apply omap_app. Qed.
Lemma statuses_reports bs : statuses (map EvStatus bs) = bs.
Proof. induction bs as [|b bs IH]; [done|]. cbn. by f_equal. Qed.

(** [answered own t]: the trace [t] is the driver's own events [own] with,
    after each report, what the callback made of it; that is no report. *)
Inductive answered : list event -> list event -> Prop :=
| answered_nil : answered [] []
| answered_report reqs more own t : statuses more = [] -> answered own t ->
    answered (EvStatus reqs :: own) (EvStatus reqs :: more ++ t)
| answered_own e own t : answered own t -> answered (e :: own) (e :: t).

Lemma answered_app own1 own2 t1 t2 :
  answered own1 t1 -> answered own2 t2 -> answered (own1 ++ own2) (t1 ++ t2).
Proof.
  intros H1 H2. induction H1 as [|reqs more own t Hm _ IH|e own t _ IH]; [done| |by constructor].
  cbn. rewrite <- app_assoc. by constructor.
Qed.

Lemma answered_refl own : answered own own.
Proof. induction own as [|e own IH]; by constructor. Qed.

Lemma answered_one reqs more : statuses more = [] -> answered [EvStatus reqs] (EvStatus reqs :: more).
Proof. intros H. rewrite <- (app_nil_r more). constructor; [done|constructor]. Qed.

Lemma answered_statuses own t : answered own t -> statuses t = statuses own.
Proof.
  induction 1 as [|reqs more own t Hm _ IH|e own t _ IH]; [done| |].
  - change (EvStatus reqs :: more ++ t) with ([EvStatus reqs] ++ more ++ t).
    rewrite !statuses_app, Hm, IH. done.
  - change (e :: t) with ([e] ++ t). change (e :: own) with ([e] ++ own). by rewrite !statuses_app, IH.
Qed.

(** The link-free parts of a node that matter are [dat]. *)
Class LinkFree {N} `{!Linked N} {B} (dat : N -> B) : Prop := {
  dat_nx : forall p n, dat (set_nx p n) = dat n;
  dat_pv : forall p n, dat (set_pv p n) = dat n }.

(** What polling a pool needs of the status callback.  The callback may call
    the driver: it may take free nodes and post them in front of the
    active ones, inject descriptors, log events.  It leaves alone the nodes
    the poll has detached, keeps the data of the active ones and reports
    nothing itself.  [Env n] is what the callback itself needs to be called
    [n] times; polling does not spoil it. *)
Class PostingStatus (P : platform) {N} `{!Linked N} (O : Pool N) {B} (dat : N -> B)
    (Env : nat -> world -> Prop) : Prop := {
  env_less : forall n w, Env (S n) w -> Env n w;
  env_put : forall n v w, Env n w -> Env n (pl_put (Pool := O) v w);
  env_stuck : forall n w, Env n w -> Env n (w <| StuckState := 1 |>);
  env_trace : forall n u w, Env n w -> Env n (w <| trace ::= u |>);
  status_posts : forall reqs n w fl act, pool_wf O w fl act -> Env (S n) w ->
    wp (cb_status P reqs) (fun _ w' => exists fl' new more,
      pool_wf O w' fl' (new ++ act) /\ fl ≡ₚ new ++ fl' /\
      (forall k, k ∉ fl ++ act -> heap_of O w' !! k = heap_of O w !! k) /\
      (forall k, k ∈ act -> dat <$> heap_of O w' !! k = dat <$> heap_of O w !! k) /\
      trace w' = trace w ++ more /\ statuses more = [] /\ Env n w') w }.

Arguments env_less P {N _} O {B} dat {Env _} n w _.
Arguments env_put P {N _} O {B} dat {Env _} n v w _.
Arguments env_stuck P {N _} O {B} dat {Env _} n w _.
Arguments env_trace P {N _} O {B} dat {Env _} n u w _.
Arguments status_posts P {N _} O {B} dat {Env _} reqs n w fl act _ _.

(** A callback that does not call the driver is one. *)
Lemma quiet_posts P `{!QuietStatus P} {N} `{!Linked N} (O : Pool N) {B} (dat : N -> B) :
  PostingStatus P O dat (fun _ _ => True).
Proof.
  split; [done..|]. intros reqs n w fl act Hw _. eapply wp_mono; [by apply (quiet_status reqs), Hw|].
  intros r w' (h & -> & _). exists fl, [], []. unfold heap_of. psimp. rewrite app_nil_r.
  split_and!; try done. eapply pool_wf_ext, Hw; [by psimp|done].
Qed.

(** ** Walking a detached list *)

Section walk.
Context {N : Type} `{!Linked N} (O : Pool N) {B : Type} (dat : N -> B) `{!LinkFree dat}.
Context (D : nat -> N). (* the nodes when the walk began *)

(** Free list [fl], nodes [act] posted since, nodes to be freed [acc1],
    nodes to be posted again [acc2], nodes still to look at [todo]; those in
    [acc2] and [rest] are as they were. *)
Record walk_inv (w : world) h f fl a act hd1 lst1 acc1 hd2 lst2 acc2 (p : option nat) todo
    (rest : list nat) : Prop := mkWalk {
  wi_has : has O w h f a;
  wi_held : held w = [];
  wi_parts : parts h f fl hd1 lst1 acc1 hd2 lst2 acc2 p todo;
  wi_act : chain h a act;
  wi_apart : NoDup (act ++ fl ++ acc1 ++ acc2 ++ todo);
  wi_dat : forall i, i ∈ acc2 ++ rest -> dat <$> h !! i = Some (dat (D i)) }.

Lemma walk_head w h f fl a act hd1 lst1 acc1 hd2 lst2 acc2 i todo rest :
  walk_inv w h f fl a act hd1 lst1 acc1 hd2 lst2 acc2 (Some i) todo (i :: rest) ->
  exists d, h !! i = Some d /\ heap_of O w !! i = Some d /\ dat d = dat (D i).
Proof.
  intros [A _ _ _ _ Hd]. specialize (Hd i). unfold heap_of. rewrite A. cbn.
  destruct (h !! i) as [d|].
  - exists d. split_and!; [done..|]. apply (base.inj Some), Hd. apply elem_of_app; right; left.
  - by discriminate Hd; apply elem_of_app; right; left.
Qed.

(** What polling posted since is on no other list. *)
Lemma walk_apart w h f fl a act hd1 lst1 acc1 hd2 lst2 acc2 p todo rest k :
  walk_inv w h f fl a act hd1 lst1 acc1 hd2 lst2 acc2 p todo rest ->
  k ∈ fl ++ acc1 ++ acc2 ++ todo -> k ∉ act.
Proof. intros [_ _ _ _ (_ & Hx & _)%list.NoDup_app _] Hk Ha. by apply (Hx k). Qed.

(** The other parts are disjoint from the node at the front of the walk. *)
Lemma walk_front w h f fl a act hd1 lst1 acc1 hd2 lst2 acc2 i todo rest :
  walk_inv w h f fl a act hd1 lst1 acc1 hd2 lst2 acc2 (Some i) (i :: todo) rest -> i ∉ acc2 ++ todo.
Proof.
  intros [_ _ Hp _ _ _]. apply parts_swap in Hp. apply parts_nodup_acc in Hp.
  rewrite <- Permutation_middle in Hp. by apply list.NoDup_cons in Hp as [? _].
Qed.

(** Changing the data of the node at the front. *)
Lemma walk_upd_front (Q : unit -> world -> Prop) w h f fl a act hd1 lst1 acc1 hd2 lst2 acc2 i todo rest u d :
  walk_inv w h f fl a act hd1 lst1 acc1 hd2 lst2 acc2 (Some i) (i :: todo) rest ->
  h !! i = Some d -> (forall n, nx (u n) = nx n) ->
  (forall k, k ∈ rest -> k ∈ i :: todo) ->
  (i ∈ rest -> forall n, dat (u n) = dat n) ->
  (walk_inv (put O (alter u i h) f a w) (alter u i h) f fl a act hd1 lst1 acc1 hd2 lst2 acc2
     (Some i) (i :: todo) rest -> Q tt (put O (alter u i h) f a w)) ->
  wp (upd_node O i u) Q w.
Proof.
  intros Hi Hd Hu Hsub Hdat HQ. pose proof (walk_front _ _ _ _ _ _ _ _ _ _ _ _ _ _ _ Hi) as Hf.
  destruct Hi as [A B' C G Hn E]. eapply wp_upd_node'; [done..|]. apply HQ.
  split; [apply has_put|by unfold put; rewrite pl_held_put|by apply parts_alter
         |by apply chain_alter_data|done|].
  intros k Hk. destruct (decide (k = i)) as [->|].
  - apply elem_of_app in Hk as [Hk|Hk]; [by exfalso; apply Hf, elem_of_app; left|].
    rewrite lookup_alter_dat by by apply Hdat. apply E. apply elem_of_app. by right.
  - rewrite lookup_alter_ne by done. by apply E.
Qed.

(** Appending the front node to one of the lists keeps the posted ones. *)
Lemma walk_append_act w h f fl a act hd1 lst1 acc1 hd2 lst2 acc2 i todo rest hd lst acc :
  walk_inv w h f fl a act hd1 lst1 acc1 hd2 lst2 acc2 (Some i) (i :: todo) rest ->
  seg h hd lst acc -> (forall k, k ∈ acc -> k ∈ acc1 ++ acc2) ->
  chain (append_heap hd lst i h) a act.
Proof.
  intros Hi Hs Hacc. eapply chain_frame; [by destruct Hi|]. intros k Hk.
  assert (Hk' : k ∉ fl ++ acc1 ++ acc2 ++ i :: todo)
    by (intros Hin; by eapply walk_apart in Hin; [|done]).
  eapply append_heap_off; [done| |].
  - intros Hin. apply Hk'. specialize (Hacc k Hin). set_solver.
  - intros ->. apply Hk'. set_solver.
Qed.

Lemma walk_append_free w h f fl a act hd1 lst1 acc1 hd2 lst2 acc2 i todo :
  walk_inv w h f fl a act hd1 lst1 acc1 hd2 lst2 acc2 (Some i) (i :: todo) todo ->
  wp (append_node O hd1 lst1 i) (fun r w' => exists h',
    let '(hd, lst, nxt) := r in hd <> None /\ w' = put O h' f a w /\
    walk_inv w' h' f fl a act hd lst (acc1 ++ [i]) hd2 lst2 acc2 nxt todo todo) w.
Proof.
  intros Hi. pose proof Hi as [Hw Hh Hp _ Hap Hdat].
  pose proof (parts_nodup_acc _ _ _ _ _ _ _ _ _ _ _ Hp) as Hnd.
  pose proof Hp as [_ H1 _ [_ (n & Hn & Ht)] _].
  pose proof (parts_append _ _ _ _ _ _ _ _ _ _ _ _ Hp Hn) as Hp'.
  eapply wp_append_node; [done..|]. eexists. split_and!; [by destruct hd1|done|].
  split; [apply has_put|by unfold put; rewrite pl_held_put|done| | |].
  - eapply walk_append_act; [exact Hi|done|]. set_solver.
  - assert (E : act ++ fl ++ (acc1 ++ [i]) ++ acc2 ++ todo ≡ₚ act ++ fl ++ acc1 ++ acc2 ++ i :: todo).
    { rewrite <- (app_assoc acc1). do 3 apply Permutation_app_head. cbn [app]. apply Permutation_middle. }
    by rewrite E.
  - intros k Hk. rewrite append_heap_dat by (apply dat_nx || apply dat_pv). by apply Hdat.
Qed.

Lemma walk_append_repost w h f fl a act hd1 lst1 acc1 hd2 lst2 acc2 i todo :
  walk_inv w h f fl a act hd1 lst1 acc1 hd2 lst2 acc2 (Some i) (i :: todo) (i :: todo) ->
  wp (append_node O hd2 lst2 i) (fun r w' => exists h',
    let '(hd, lst, nxt) := r in w' = put O h' f a w /\
    walk_inv w' h' f fl a act hd1 lst1 acc1 hd lst (acc2 ++ [i]) nxt todo todo) w.
Proof.
  intros Hi. pose proof Hi as [Hw Hh Hp _ Hap Hdat]. apply parts_swap in Hp.
  pose proof (parts_nodup_acc _ _ _ _ _ _ _ _ _ _ _ Hp) as Hnd.
  pose proof Hp as [_ H1 _ [_ (n & Hn & Ht)] _].
  pose proof (parts_append _ _ _ _ _ _ _ _ _ _ _ _ Hp Hn) as Hp'.
  eapply wp_append_node; [done..|]. eexists. split; [done|].
  split; [apply has_put|by unfold put; rewrite pl_held_put|by apply parts_swap| | |].
  - eapply walk_append_act; [exact Hi|done|]. set_solver.
  - by rewrite <- (app_assoc acc2).
  - intros k Hk. rewrite append_heap_dat by (apply dat_nx || apply dat_pv). apply Hdat. set_solver.
Qed.

(** Returning the first list to the free list. *)
Lemma walk_give_free w h f fl a act hd1 lst1 acc1 hd2 lst2 acc2 p todo rest :
  walk_inv w h f fl a act hd1 lst1 acc1 hd2 lst2 acc2 p todo rest -> hd1 <> None ->
  wp (with_lock O (splice_free O hd1 lst1)) (fun _ w' => exists h' f', w' = put O h' f' a w /\
     walk_inv w' h' f' (acc1 ++ fl) a act None lst1 [] hd2 lst2 acc2 p todo rest) w.
Proof.
  intros Hi Hne. pose proof Hi as [Hw Hh Hp Hact Hap Hdat]. destruct hd1 as [i|]; [|done].
  pose proof (parts_1 _ _ _ _ _ _ _ _ _ _ _ Hp) as H1.
  destruct (seg_Some _ _ _ _ H1) as (j & -> & H1').
  apply wp_lock_pool; [done|]. intros R HR _. eapply wp_splice_free.
  - by apply has_locked.
  - exact H1'.
  - by eapply parts_free.
  - destruct Hp as [_ _ _ _ Hnd]. rewrite app_assoc, (Permutation_app_comm fl) in Hnd.
    by apply list.NoDup_app in Hnd as (? & _).
  - intros _. apply HR. eexists _, _. split; [done|]. split.
    + apply has_put.
    + unfold put. by rewrite pl_held_put.
    + exact (parts_give_free _ _ _ _ _ _ _ _ _ _ _ Hp).
    + apply chain_alter_off; [|done]. eapply walk_apart; [exact Hi|].
      destruct H1' as [_ Hl1]. specialize (Hl1 ltac:(done)).
      symmetry in Hl1. apply last_Some_elem_of in Hl1. set_solver.
    + by rewrite (app_assoc fl acc1), (Permutation_app_comm fl acc1) in Hap.
    + intros k Hk. rewrite lookup_alter_dat by apply dat_nx. by apply Hdat.
Qed.

(** After the walk both lists go back to the pool. *)
Lemma finish_free w h f fl a act hd1 lst1 acc1 hd2 lst2 acc2 :
  walk_inv w h f fl a act hd1 lst1 acc1 hd2 lst2 acc2 None [] [] ->
  wp (match hd1 with
      | Some _ => with_lock O (splice_free O hd1 lst1)
      | None => ret tt
      end) (fun _ w' => exists h' f' fl', fl' ≡ₚ fl ++ acc1 /\ w' = put O h' f' a w /\
        walk_inv w' h' f' fl' a act None lst1 [] hd2 lst2 acc2 None [] []) w.
Proof.
  intros Hi. destruct hd1 as [i|].
  - eapply wp_mono; [by eapply walk_give_free|].
    intros [] w' (h' & f' & -> & Hi'). exists h', f', (acc1 ++ fl).
    split_and!; [apply Permutation_app_comm|done|done].
  - apply wp_ret. exists h, f, fl. pose proof Hi as [Hw _ Hp _ _ _].
    pose proof (seg_None _ _ _ (parts_1 _ _ _ _ _ _ _ _ _ _ _ Hp)) as ->.
    split_and!; [by rewrite app_nil_r| |done].
    etrans; [symmetry; apply (put_id O)|]. unfold heap_of. by rewrite Hw.
Qed.

Lemma finish_active w h f fl a act lst1 hd2 lst2 acc2 :
  walk_inv w h f fl a act None lst1 [] hd2 lst2 acc2 None [] [] ->
  wp (match hd2 with
      | Some _ => with_lock O (splice_active O hd2 lst2)
      | None => ret tt
      end) (fun _ w' => (exists h' a', w' = put O h' f a' w) /\ pool_wf O w' fl (acc2 ++ act) /\
        forall i, i ∈ acc2 -> dat <$> heap_of O w' !! i = Some (dat (D i))) w.
Proof.
  intros [A B' C Hact Hap E]. pose proof C as [Hf _ H2 _ _]. cbn [app] in Hap. rewrite app_nil_r in Hap.
  assert (E' : forall k, k ∈ acc2 -> dat <$> h !! k = Some (dat (D k)))
    by (intros; apply E; by rewrite app_nil_r).
  assert (Hnd : NoDup (fl ++ acc2 ++ act))
    by (by rewrite app_assoc, (Permutation_app_comm (fl ++ acc2))).
  assert (Ew : w = put O h f a w).
  { etrans; [symmetry; apply (put_id O)|]. unfold heap_of. by rewrite A. }
  destruct hd2 as [i|].
  - destruct (seg_Some _ _ _ _ H2) as (j & -> & H2').
    apply wp_lock_pool; [done|]. intros R HR _.
    eapply (wp_splice_active O h f a i j acc2 act); [by apply has_locked|done|done| |].
    { by apply list.NoDup_app in Hnd as (_ & _ & ?). }
    intros Hc. apply HR. split_and!; [by eexists _, _| |].
    + apply pool_wf_put; [|done|done|done]. apply chain_alter_off; [|done].
      destruct H2' as [Hc2 Hl2]. specialize (Hl2 ltac:(done)). symmetry in Hl2.
      apply last_Some_elem_of in Hl2.
      intros Hj. apply list.NoDup_app in Hnd as (_ & Hx & _). apply (Hx j Hj). set_solver.
    + intros k Hk. rewrite put_heap, lookup_alter_dat by apply dat_nx. by apply E'.
  - apply wp_ret. pose proof (seg_None _ _ _ H2) as ->.
    split_and!; [by exists h, a| |by intros ? []%elem_of_nil].
    rewrite Ew. by apply pool_wf_put.
Qed.

(** Beginning a walk. *)
Lemma walk_start w h f fl p al :
  has O w h f None -> held w = [] -> chain h f fl -> chain h p al -> NoDup (fl ++ al) ->
  (forall i, i ∈ al -> dat <$> h !! i = Some (dat (D i))) ->
  walk_inv w h f fl None [] None None [] None None [] p al al.
Proof.
  intros. split; [done..| |done|done|done]. split; [done|apply seg_nil|apply seg_nil|done|done].
Qed.

(** *** Reports *)

Context (P : platform) {Env : nat -> world -> Prop} `{!PostingStatus P O dat Env}.

(** A report while the walk goes on: what the callback posts comes in front
    of what earlier reports posted, and nothing else changes. *)
Lemma walk_status reqs n w h f fl a act hd1 lst1 acc1 hd2 lst2 acc2 p todo :
  walk_inv w h f fl a act hd1 lst1 acc1 hd2 lst2 acc2 p todo todo -> Env (S n) w ->
  wp (status_cb P reqs) (fun _ w' => exists h' f' fl' a' new more,
    walk_inv w' h' f' fl' a' (new ++ act) hd1 lst1 acc1 hd2 lst2 acc2 p todo todo /\
    fl ≡ₚ new ++ fl' /\ trace w' = trace w ++ EvStatus reqs :: more /\ statuses more = [] /\
    Env n w') w.
Proof.
  intros Hi Henv. pose proof Hi as [A B' C Hact Hap E].
  set (w1 := w <| trace ::= fun t => t ++ [EvStatus reqs] |>).
  assert (Hh1 : heap_of O w1 = h) by (unfold heap_of; subst w1; psimp; by rewrite A).
  assert (Hwf : pool_wf O w1 fl act).
  { apply (pool_wf_ext O w); [by subst w1; psimp|done|]. rewrite <- (put_id O w). unfold heap_of.
    rewrite A. apply pool_wf_put; [by destruct C|done| |done].
    rewrite app_assoc, (Permutation_app_comm act fl) in Hap. by apply list.NoDup_app in Hap as (? & _). }
  apply wp_bind, wp_modify. eapply wp_mono; [exact (status_posts P O dat reqs n w1 fl act Hwf (env_trace P O dat _ _ _ Henv))|].
  intros r w' (fl' & new & more & Hwf' & Hp & Hoff & _ & Ht & Hs & Hn).
  destruct (pool_wf_has O _ _ _ Hwf') as (h' & f' & a' & Hh' & Eh' & Hf' & Ha' & Hnd' & Hl' & _).
  rewrite Eh', Hh1 in Hoff. exists h', f', fl', a', new, more.
  assert (Hap' : NoDup ((new ++ act) ++ fl' ++ acc1 ++ acc2 ++ todo)).
  { rewrite Hp in Hap. by rewrite (Permutation_app_comm new act), <- app_assoc,
      (app_assoc new fl'). }
  assert (Hkeep : forall k, k ∈ acc1 ++ acc2 ++ todo -> h' !! k = h !! k).
  { intros k Hk. apply Hoff. rewrite Hp. intros Hin. rewrite app_assoc in Hap'.
    apply list.NoDup_app in Hap' as (_ & Hx & _). apply (Hx k); set_solver. }
  split_and!; [|done|by rewrite Ht; subst w1; wsimp; rewrite <- app_assoc|done|done].
  destruct C as [_ C1 C2 C3 _]. split; [done|done| |done|done|].
  - split; [done|eapply seg_frame; [done|]..|eapply chain_frame; [done|]|].
    1-3: intros k Hk; apply Hkeep; set_solver.
    by apply list.NoDup_app in Hap' as (_ & _ & ?).
  - intros k Hk. rewrite Hkeep; [by apply E|set_solver].
Qed.
End walk.

(** ** The last batch of reports *)

Definition last_batch (refs : list (Z * Z)) : list (list (Z * Z)) :=
  if decide (refs = []) then [] else [refs].

Lemma concat_last_batch refs : concat (last_batch refs) = refs.
Proof. unfold last_batch. case_decide as H; [by subst|]. cbn. by rewrite app_nil_r. Qed.

Lemma last_batch_short k refs : (length refs < k)%nat ->
  Forall (fun b => 1 <= length b <= k)%nat (last_batch refs).
Proof.
  intros. unfold last_batch. case_decide; [by constructor|].
  constructor; [|by constructor]. destruct refs; [done|]. cbn in *. lia.
Qed.

Section report.
Context {N : Type} `{!Linked N} (O : Pool N) {B : Type} (dat : N -> B).
Context (P : platform) {Env : nat -> world -> Prop} `{!PostingStatus P O dat Env}.

Lemma report_rest refs n fl al w :
  pool_wf O w fl al -> Env (S n) w ->
  wp (if decide (refs = []) then ret tt else r <- status_cb P refs ;; ret tt)
     (fun _ w' => exists fl' new evs, pool_wf O w' fl' (new ++ al) /\ fl ≡ₚ new ++ fl' /\
        (forall k, k ∈ al -> dat <$> heap_of O w' !! k = dat <$> heap_of O w !! k) /\
        trace w' = trace w ++ evs /\ answered (map EvStatus (last_batch refs)) evs) w.
Proof.
  intros Hwf Henv. unfold last_batch. case_decide.
  - apply wp_ret. exists fl, [], []. rewrite app_nil_r. by split_and!; [..|constructor].
  - apply wp_bind, wp_bind, wp_modify. set (w1 := w <| trace ::= _ |>).
    eapply wp_mono.
    { apply (status_posts P O dat refs n w1 fl al); [|by apply (env_trace P O dat)].
      eapply pool_wf_ext, Hwf; [by subst w1; psimp|done]. }
    intros r w' (fl' & new & more & A & B' & _ & C & T & S' & _). apply wp_ret.
    exists fl', new, (EvStatus refs :: more). split_and!; [done|done| | |by apply answered_one].
    + intros k Hk. rewrite C by done. subst w1. unfold heap_of. by psimp.
    + rewrite T. subst w1. wsimp. by rewrite <- app_assoc.
Qed.
End report.

(** The end of a poll: both lists go back to the pool, the last reports
    are made. *)
Section finish.
Context {N : Type} `{!Linked N} (O : Pool N) {B : Type} (dat : N -> B) `{!LinkFree dat} (D : nat -> N).
Context (P : platform) {Env : nat -> world -> Prop} `{!PostingStatus P O dat Env}.

Lemma finish_poll {A} (k : MW A) (Q : A -> world -> Prop) refs n w h f fl a act hd1 lst1 acc1 hd2 lst2 acc2 :
  walk_inv O dat D w h f fl a act hd1 lst1 acc1 hd2 lst2 acc2 None [] [] -> Env (S n) w ->
  (forall w' fl' late evs, pool_wf O w' fl' (late ++ acc2 ++ act) -> late ++ fl' ≡ₚ fl ++ acc1 ->
     (forall i, i ∈ acc2 -> dat <$> heap_of O w' !! i = Some (dat (D i))) ->
     trace w' = trace w ++ evs -> answered (map EvStatus (last_batch refs)) evs -> wp k Q w') ->
  wp (match hd1 with Some _ => with_lock O (splice_free O hd1 lst1) | None => ret tt end ;;;
      match hd2 with Some _ => with_lock O (splice_active O hd2 lst2) | None => ret tt end ;;;
      (if decide (refs = []) then ret tt else r <- status_cb P refs ;; ret tt) ;;; k) Q w.
Proof.
  intros Hi Henv HQ. apply wp_bind. eapply wp_mono; [by eapply finish_free|].
  intros [] w2 (h2 & f2 & fl2 & P2 & -> & Hi2).
  apply wp_bind. eapply wp_mono; [by eapply finish_active|].
  intros [] w3 ((h3 & a3 & ->) & Hwf & Hd3). rewrite put_put in *.
  apply wp_bind. eapply wp_mono.
  { eapply (report_rest O dat P); [exact Hwf|by apply (env_put P O dat)]. }
  intros [] w4 (fl4 & late & evs4 & Hwf4 & P4 & D4 & T4 & A4).
  apply (HQ w4 fl4 late evs4); [done|by rewrite <- P4| |by rewrite T4; unfold put; psimp|done].
  intros i Hin. rewrite D4 by (apply elem_of_app; by left). by apply Hd3.
Qed.
End finish.

(** A node [i] that was on no list, its data changed, and then posted. *)
Section posted.
Context {N : Type} `{!Linked N} (O : Pool N) {B : Type} (dat : N -> B) `{!LinkFree dat}.

Lemma posted_ok w h h1 f fl a act i :
  held w = [] -> chain h f fl -> chain h a act -> NoDup (i :: fl ++ act) ->
  (forall k, k <> i -> h1 !! k = h !! k) -> is_Some (h1 !! i) ->
  let h2 := push_heap a i h1 in
  pool_wf O (put O h2 f (Some i) w) fl (i :: act) /\
  (forall k, k <> i -> k ∉ act -> h2 !! k = h !! k) /\
  (forall k, k <> i -> dat <$> h2 !! k = dat <$> h !! k).
Proof.
  intros Hl Hf Ha [Hi Hnd]%list.NoDup_cons Hoff [d1 Hd1] h2.
  assert (Hif : i ∉ fl) by (intros ?; apply Hi, elem_of_app; auto).
  assert (Hia : i ∉ act) by (intros ?; apply Hi, elem_of_app; auto).
  assert (Ha1 : chain h1 a act) by (eapply chain_frame; [done|]; intros k Hk; apply Hoff; by intros ->).
  assert (H2 : forall k, k <> i -> k ∉ act -> h2 !! k = h !! k).
  { intros k Hk Hka. rewrite <- (Hoff k) by done. by eapply push_heap_off. }
  split_and!; [|done|].
  - apply pool_wf_put; [|by eapply push_heap_chain| |done].
    + eapply chain_frame; [done|]. intros k Hk. apply H2; [by intros ->|].
      by apply list.NoDup_app in Hnd as (_ & Hx & _); apply Hx.
    + by rewrite <- Permutation_middle; constructor.
  - intros k Hk. subst h2. unfold push_heap.
    destruct a; rewrite !lookup_alter_dat by (apply dat_nx || apply dat_pv); by rewrite Hoff.
Qed.

Lemma wp_post_node (Q : unit -> world -> Prop) w h h1 f fl a act i :
  held w = [] -> chain h f fl -> chain h a act -> NoDup (i :: fl ++ act) ->
  (forall k, k <> i -> h1 !! k = h !! k) -> is_Some (h1 !! i) ->
  (forall w2 h2, w2 = put O h2 f (Some i) w -> pool_wf O w2 fl (i :: act) ->
     (forall k, k ∉ (i :: fl) ++ act -> heap_of O w2 !! k = h !! k) ->
     (forall k, k ∈ act -> dat <$> heap_of O w2 !! k = dat <$> h !! k) -> Q tt w2) ->
  wp (with_lock O (push_active O i)) Q (put O h1 f a w).
Proof.
  intros Hl Hf Ha Hnd Hoff Hi HQ.
  destruct (posted_ok w h h1 f fl a act i) as (Hw2 & Ho2 & Hd2); [done..|].
  apply list.NoDup_cons in Hnd as [Hia _].
  assert (Hia' : i ∉ act) by (intros ?; apply Hia, elem_of_app; auto).
  apply (wp_lock_pool O); [by unfold put; rewrite pl_held_put|]. intros R HR _. destruct Hi as [d1 Hd1].
  eapply wp_push_active with (l := act); [apply has_locked, has_put|done| |done|].
  { eapply chain_frame; [done|]. intros k Hk. apply Hoff. by intros ->. }
  apply HR. rewrite put_put. eapply HQ; [done|done| |]; rewrite put_heap.
  - intros k Hk. apply Ho2; [intros ->; apply Hk; left|]. intros ?. apply Hk, elem_of_app. by right.
  - intros k Hk. apply Hd2. by intros ->.
Qed.
End posted.
