(* ===== verification/Pkt.v ===== *)
(** * Packet descriptors

    bgmudm/mudm_pkt.c and mudm_pkt.h: the pools of packet buffers, the
    list of packets handed to the message unit, and the polling routine
    that recognises the packets the message unit has finished with,
    returns them to the free list and reports their request IDs in
    batches of eight. *)

From Stdlib Require Import FunctionalExtensionality.
From S2P Require Import Prelude Chain Bytes Descriptor State Inject Concrete Pools.

#[export, program] Instance pkt_pool (p : pool_id) : Pool pkt_descriptor := {
  pl_get w := mkView (pkt_desc_list (pools w p)) (pkt_free_list (pools w p))
                     (pkt_reqid_list (pools w p));
  pl_put v w := w <| pools ::= fun f =>
    <[p := (f p) <| pkt_desc_list := v_heap v |> <| pkt_free_list := v_free v |>
                 <| pkt_reqid_list := v_active v |>]> f |>;
  pl_lock := PktLock p }.
Next Obligation. intros p v w. cbn. rewrite fn_lookup_insert. by destruct v. Qed.
Next Obligation.
  intros p v v' w. destruct w. unfold upd_field. cbn. f_equal. extensionality q.
  destruct (decide (p = q)) as [->|].
  - by rewrite !fn_lookup_insert.
  - by rewrite !fn_lookup_insert_ne.
Qed.
Next Obligation.
  intros p w. destruct w. unfold upd_field. cbn. f_equal. extensionality q.
  destruct (decide (p = q)) as [->|].
  - rewrite fn_lookup_insert. by destruct (pools q).
  - by rewrite fn_lookup_insert_ne.
Qed.
Solve All Obligations with done.

(** ** Allocation and release *)

Definition alloc_pkt_message (p : pool_id) : MW (option nat) :=
  pktd <- with_lock (pkt_pool p) (take_free (pkt_pool p)) ;;
  match pktd with
  | None => ret None
  | Some i =>
      upd_node (pkt_pool p) i (fun d => d <| req_id := 0 |> <| error_val := 0 |>
        <| pk_timestamp := 0 |> <| desc_cnt := u64_max |> <| pk_ccontext := None |>) ;;;
      ret (Some i)
  end.

Definition set_pkt_req_id (p : pool_id) (i : nat) (value : Z) : MW unit :=
  upd_node (pkt_pool p) i (fun d => d <| req_id := value |>).

(** The descriptor count given to [release_pkt_to_free] is not used. *)
Definition release_pkt_to_free (p : pool_id) (i : nat) (desc_count : Z) : MW unit :=
  upd_node (pkt_pool p) i (fun d => d <| desc_cnt := 0 |>) ;;;
  with_lock (pkt_pool p) (push_free (pkt_pool p) i).

Definition release_pkt_to_poll (p : pool_id) (i : nat) (desc_count : Z) : MW unit :=
  upd_node (pkt_pool p) i (fun d => d <| desc_cnt := desc_count |>) ;;;
  t <- GetTimeBase2 ;;
  upd_node (pkt_pool p) i (fun d => d <| pk_timestamp := t |>) ;;;
  with_lock (pkt_pool p) (push_active (pkt_pool p) i).

Definition release_pkt_to_poll_ccontext (p : pool_id) (i : nat) (desc_count : Z) (c : nat)
    : MW unit :=
  upd_node (pkt_pool p) i (fun d => d <| pk_ccontext := Some c |>) ;;;
  d <- get_node (pkt_pool p) i ;;
  release_pkt_to_poll p i desc_count ;;;
  when (negb (req_id d =? 0)) wakeup.

(** ** Flushing and polling *)

Definition NUM_REFID : nat := 8.
Definition TOO_MANY_CYCLES := 182000000000.

Section with_platform.
Context (P : platform).

(** The walk of the detached list; the bound is the number of descriptors. *)
Fixpoint flush_loop (fuel : nat) (p : pool_id) (pktd last_pktd : option nat)
    : MW (option nat) :=
  match pktd with
  | None => ret last_pktd
  | Some i =>
    match fuel with
    | O => hang
    | S fuel =>
      d <- get_node (pkt_pool p) i ;;
      upd_node (pkt_pool p) i (fun d => d <| req_id := 0 |>) ;;;
      when (negb (req_id d =? 0))
        (r <- status_cb P [(req_id d, u32 (- ECANCELED))] ;; ret tt) ;;;
      d <- get_node (pkt_pool p) i ;;
      flush_loop fuel p (pk_next d) (Some i)
    end
  end.

Definition flush_pkt_reqid (p : pool_id) : MW Z :=
  a <- get_active (pkt_pool p) ;;
  match a with
  | None => ret 0
  | Some _ =>
    pktd <- with_lock (pkt_pool p) (detach_active (pkt_pool p)) ;;
    match pktd with
    | None => ret 0
    | Some first_pktd =>
      n <- gets (fun w => size (heap_of (pkt_pool p) w)) ;;
      last_pktd <- flush_loop n p pktd None ;;
      with_lock (pkt_pool p) (splice_free (pkt_pool p) (Some first_pktd) last_pktd) ;;;
      ret 0
    end
  end.

(** Local variables of [poll_pkt_message]. *)
Record poll_vars := mkPv {
  pktd2free_list : option nat; last_in_pktd2free_list : option nat;
  pktd2repost_list : option nat; last_in_pktd2repost_list : option nat;
  refid_list : list (Z * Z);          (* with the error of each *)
  unfreed_req_id : Z }.
#[export] Instance FieldsOf_pv : FieldsOf poll_vars := fun v =>
  mkPv (pktd2free_list v) (last_in_pktd2free_list v) (pktd2repost_list v)
       (last_in_pktd2repost_list v) (refid_list v) (unfreed_req_id v).

(** Take over the request ID of a packet that was sent. *)
Definition take_refid (p : pool_id) (i : nat) (v : poll_vars) : MW poll_vars :=
  d <- get_node (pkt_pool p) i ;;
  if negb (req_id d =? 0) then
    upd_node (pkt_pool p) i (fun d => d <| req_id := 0 |> <| error_val := 0 |>) ;;;
    ret (v <| refid_list ::= fun l => l ++ [(req_id d, u32 (error_val d))] |>)
  else ret v.

(** A packet the message unit has sent. *)
Definition poll_complete (p : pool_id) (i : nat) (v : poll_vars)
    : MW (poll_vars * option nat) :=
  v <- take_refid p i v ;;
  r <- append_node (pkt_pool p) (pktd2free_list v) (last_in_pktd2free_list v) i ;;
  let '(hd, lst, nxt) := r in
  let v := v <| pktd2free_list := hd |> <| last_in_pktd2free_list := lst |> in
  if decide (length (refid_list v) = NUM_REFID) then
    with_lock (pkt_pool p) (splice_free (pkt_pool p) (pktd2free_list v) (last_in_pktd2free_list v)) ;;;
    r <- status_cb P (refid_list v) ;;
    ret (v <| pktd2free_list := None |> <| refid_list := [] |>, nxt)
  else ret (v, nxt).

(** A packet still in the FIFO; one that has been there for too long is
    reported once ([StuckState], reading the FIFO of [pktd->ccontext]) and
    its timestamp is cleared. *)
Definition poll_pending (p : pool_id) (timestamp : Z) (i : nat) (v : poll_vars)
    : MW (poll_vars * option nat) :=
  d <- get_node (pkt_pool p) i ;;
  let v := if negb (req_id d =? 0) then v <| unfreed_req_id ::= fun n => u64 (n + 1) |> else v in
  (if negb (pk_timestamp d =? 0) && (u64 (timestamp - pk_timestamp d) >? TOO_MANY_CYCLES) then
     s <- gets StuckState ;;
     when (s =? 0) (c <- deref (pk_ccontext d) ;; modify (fun w => w <| StuckState := 1 |>)) ;;;
     upd_node (pkt_pool p) i (fun d => d <| pk_timestamp := 0 |>)
   else ret tt) ;;;
  r <- append_node (pkt_pool p) (pktd2repost_list v) (last_in_pktd2repost_list v) i ;;
  let '(hd, lst, nxt) := r in
  ret (v <| pktd2repost_list := hd |> <| last_in_pktd2repost_list := lst |>, nxt).

Fixpoint poll_loop (fuel : nat) (p : pool_id) (ref_desc_count timestamp : Z)
    (pktd : option nat) (v : poll_vars) : MW poll_vars :=
  match pktd with
  | None => ret v
  | Some i =>
    match fuel with
    | O => hang
    | S fuel =>
      d <- get_node (pkt_pool p) i ;;
      r <- (if ref_desc_count >=? desc_cnt d then poll_complete p i v
            else poll_pending p timestamp i v) ;;
      poll_loop fuel p ref_desc_count timestamp (snd r) (fst r)
    end
  end.

Definition poll_pkt_message (p : pool_id) : MW Z :=
  pktd <- with_lock (pkt_pool p) (detach_active (pkt_pool p)) ;;
  match pktd with
  | None => ret 0
  | Some _ =>
    c <- gets (fun w => pools w p) ;;
    ref_desc_count <- gets (fun w => hw_descCount (hw w) (IdToInjFifo c)) ;;
    timestamp <- GetTimeBase2 ;;
    v <- poll_loop (size (pkt_desc_list c)) p ref_desc_count timestamp pktd
           (mkPv None None None None [] 0) ;;
    match pktd2free_list v with
    | Some _ => with_lock (pkt_pool p)
        (splice_free (pkt_pool p) (pktd2free_list v) (last_in_pktd2free_list v))
    | None => ret tt
    end ;;;
    match pktd2repost_list v with
    | Some _ => with_lock (pkt_pool p)
        (splice_active (pkt_pool p) (pktd2repost_list v) (last_in_pktd2repost_list v))
    | None => ret tt
    end ;;;
    (if decide (refid_list v = []) then ret tt
     else r <- status_cb P (refid_list v) ;; ret tt) ;;;
    ret (unfreed_req_id v)
  end.
End with_platform.

(** The parts of a descriptor other than its links and timestamp. *)
Definition pk_dat (d : pkt_descriptor) : Z * Z * Z * Z * option nat :=
  (desc_cnt d, req_id d, error_val d, message_pa d, pk_ccontext d).
#[export] Instance pk_dat_link_free : LinkFree pk_dat.
Proof. by split. Qed.

(** ** Allocation and release: rules *)

Section alloc.
Context (p : pool_id).
Abbreviation O := (pkt_pool p).

Lemma wp_alloc_pkt_message fl al (Q : option nat -> world -> Prop) w :
  pool_wf O w fl al ->
  (fl = [] -> Q None w) ->
  (forall i fl' w', fl = i :: fl' -> pool_wf O w' fl' al -> pool_frame O pk_dat [i] w w' ->
     (exists d, heap_of O w' !! i = Some d /\ req_id d = 0 /\ error_val d = 0 /\ desc_cnt d = u64_max /\
        message_pa <$> heap_of O w !! i = Some (message_pa d)) ->
     Q (Some i) w') ->
  wp (alloc_pkt_message p) Q w.
Proof.
  intros Hw H0 H1. destruct (pool_wf_has O _ _ _ Hw) as (h & f & a & Hh & Eh & Hf & Ha & Hnd & Hl & E).
  unfold alloc_pkt_message. apply wp_bind, (wp_lock_pool O); [done|]. intros R HR HR'.
  eapply (wp_take_free O h f a fl); [by apply has_locked|done| |].
  - intros -> ->. apply HR'. apply wp_ret. auto.
  - intros i fl' -> n Hn Hc. apply HR. apply wp_bind.
    eapply wp_upd_node'; [apply has_put|done|]. apply wp_ret. rewrite put_put.
    assert (Hi : i ∉ fl' ++ al) by (by apply list.NoDup_cons in Hnd as [? _]).
    assert (Hi' : i ∉ al) by (intros ?; apply Hi, elem_of_app; auto).
    assert (Hi'' : i ∉ fl') by (intros ?; apply Hi, elem_of_app; auto).
    eapply H1; [done| | |].
    + apply pool_wf_put; [by apply chain_alter_off|by apply chain_alter_off| |done].
      by apply list.NoDup_cons in Hnd as [_ ?].
    + split; [by eexists|]. intros k Hk. rewrite put_heap, Eh, lookup_alter_ne; [done|].
      intros ->. apply Hk. left.
    + rewrite put_heap, lookup_alter_eq, Hn. eexists. split; [done|]. split_and!; [done..|].
      by rewrite Eh, Hn.
Qed.

Lemma wp_release_pkt_to_free i cnt fl al (Q : unit -> world -> Prop) w :
  pool_wf O w fl al -> i ∉ fl ++ al -> is_Some (heap_of O w !! i) ->
  (forall w', pool_wf O w' (i :: fl) al -> pool_frame O pk_dat [i] w w' -> Q tt w') ->
  wp (release_pkt_to_free p i cnt) Q w.
Proof.
  intros Hw Hi [d Hd] HQ. destruct (pool_wf_has O _ _ _ Hw) as (h & f & a & Hh & Eh & Hf & Ha & Hnd & Hl & E).
  rewrite Eh in Hd. unfold release_pkt_to_free. apply wp_bind. eapply wp_upd_node'; [done..|].
  apply (wp_lock_pool O); [by unfold put; rewrite pl_held_put|]. intros R HR _.
  eapply wp_push_free; [apply has_locked, has_put|by rewrite lookup_alter_eq, Hd|].
  apply HR. rewrite put_put. apply HQ.
  - apply pool_wf_put; [| |by constructor|done].
    + eapply chain_push; [by rewrite lookup_alter_eq, Hd| |].
      * intros ?. apply Hi, elem_of_app; auto.
      * apply chain_alter_off; [|done]. intros ?. apply Hi, elem_of_app; auto.
    + do 2 (apply chain_alter_off; [intros ?; apply Hi, elem_of_app; by auto|]). done.
  - split; [by eexists|]. intros k Hk. assert (i <> k) by (intros ->; apply Hk; left).
    by rewrite put_heap, Eh, !lookup_alter_ne.
Qed.

Lemma wp_release_pkt_to_poll i d cnt fl al (Q : unit -> world -> Prop) w :
  pool_wf O w fl al -> i ∉ fl ++ al -> heap_of O w !! i = Some d ->
  (forall w', pool_wf O w' fl (i :: al) -> pool_frame O pk_dat [i] w w' ->
     pk_dat <$> heap_of O w' !! i = Some (pk_dat (d <| desc_cnt := cnt |>)) -> Q tt w') ->
  wp (release_pkt_to_poll p i cnt) Q w.
Proof.
  intros Hw Hi Hd HQ. destruct (pool_wf_has O _ _ _ Hw) as (h & f & a & Hh & Eh & Hf & Ha & Hnd & Hl & E).
  rewrite Eh in Hd. unfold release_pkt_to_poll. apply wp_bind. eapply wp_upd_node'; [done..|].
  apply wp_bind, wp_gets, wp_bind. eapply wp_upd_node'; [apply has_put|by rewrite lookup_alter_eq, Hd|].
  rewrite put_put. apply (wp_lock_pool O); [by unfold put; rewrite pl_held_put|]. intros R HR _.
  set (h1 := alter _ i (alter _ i h)).
  assert (Hd1 : exists d1, h1 !! i = Some d1 /\ pk_dat d1 = pk_dat (d <| desc_cnt := cnt |>)).
  { subst h1. rewrite !lookup_alter_eq, Hd. cbn. eauto. }
  destruct Hd1 as (d1 & Hd1 & E1).
  assert (Hif : i ∉ fl) by (intros ?; apply Hi, elem_of_app; auto).
  assert (Hia : i ∉ al) by (intros ?; apply Hi, elem_of_app; auto).
  assert (Ha1 : chain h1 a al) by (by do 2 (apply chain_alter_off; [done|])).
  assert (Hf1 : chain h1 f fl) by (by do 2 (apply chain_alter_off; [done|])).
  eapply wp_push_active; [apply has_locked, has_put|done|exact Ha1|done|].
  apply HR. rewrite put_put. apply HQ.
  - apply pool_wf_put; [|by eapply push_heap_chain| |done].
    + eapply chain_frame; [done|]. intros k Hk. eapply push_heap_off; [done| |by intros ->].
      apply list.NoDup_app in Hnd as (_ & Hx & _). by apply Hx.
    + by rewrite <- Permutation_middle; constructor.
  - split; [by eexists|]. intros k Hk. assert (i <> k) by (intros ->; apply Hk; left).
    rewrite put_heap, Eh. unfold push_heap. destruct a; rewrite !lookup_alter_dat by done.
    + subst h1. by rewrite !lookup_alter_ne.
    + subst h1. by rewrite !lookup_alter_ne.
  - rewrite put_heap. unfold push_heap. destruct a; rewrite !lookup_alter_dat by done.
    all: by rewrite Hd1; cbn; rewrite E1.
Qed.
Lemma wp_release_pkt_to_poll_ccontext i d cnt c fl al (Q : unit -> world -> Prop) w :
  pool_wf O w fl al -> i ∉ fl ++ al -> heap_of O w !! i = Some d ->
  (forall w', pool_wf O w' fl (i :: al) -> pool_frame O pk_dat [i] w w' ->
     pk_dat <$> heap_of O w' !! i
       = Some (pk_dat (d <| desc_cnt := cnt |> <| pk_ccontext := Some c |>)) ->
     Q tt (if req_id d =? 0 then w' else w' <| trace ::= fun t => t ++ [EvWakeup] |>)) ->
  wp (release_pkt_to_poll_ccontext p i cnt c) Q w.
Proof.
  intros Hw Hi Hd HQ. destruct (pool_wf_has O _ _ _ Hw) as (h & f & a & Hh & Eh & Hf & Ha & Hnd & Hl & E).
  rewrite Eh in Hd. unfold release_pkt_to_poll_ccontext. apply wp_bind.
  eapply wp_upd_node'; [done..|]. set (u := fun d : pkt_descriptor => d <| pk_ccontext := Some c |>).
  assert (Hd1 : heap_of O (put O (alter u i h) f a w) !! i = Some (u d))
    by (by rewrite put_heap, lookup_alter_eq, Hd).
  apply wp_bind. eapply wp_get_node; [exact Hd1|]. apply wp_bind.
  eapply wp_release_pkt_to_poll; [|exact Hi|exact Hd1|].
  { apply pool_wf_put; [| |done|done]; (apply chain_alter_off; [|done]);
      intros ?; apply Hi, elem_of_app; auto. }
  intros w' Hw' [[v ->] Hfr] Hdat. change (req_id (u d)) with (req_id d).
  assert (Hfr' : pool_frame O pk_dat [i] w (pl_put (Pool := O) v (put O (alter u i h) f a w))).
  { split; [exists v; apply pl_put_put|]. intros k Hk. rewrite Hfr by done.
    rewrite put_heap, lookup_alter_ne; [by rewrite Eh|]. intros ->. apply Hk. left. }
  specialize (HQ _ Hw' Hfr' Hdat).
  destruct (req_id d =? 0); cbn [negb when]; [by apply wp_ret|by apply wp_modify].
Qed.
End alloc.

(** ** Polling: what it does *)

(** Was the packet with descriptor [d] sent when the count was [ref]? *)
Definition sent (ref : Z) (d : pkt_descriptor) : bool := ref >=? desc_cnt d.
(** What the user is told when it was. *)
Definition report (d : pkt_descriptor) : list (Z * Z) :=
  if negb (req_id d =? 0) then [(req_id d, u32 (error_val d))] else [].
Definition unreported (d : pkt_descriptor) : Z := if negb (req_id d =? 0) then 1 else 0.

Section poll.
Context (P : platform) (p : pool_id) (ref now : Z).
Context (D : nat -> pkt_descriptor). (* the descriptors when polling began *)
Abbreviation O := (pkt_pool p).
Context {Env : nat -> world -> Prop} `{!PostingStatus P O pk_dat Env}.

Abbreviation walk w v h f fl a act facc racc pktd todo rest := (walk_inv O pk_dat D w h f fl a act
  (pktd2free_list v) (last_in_pktd2free_list v) facc
  (pktd2repost_list v) (last_in_pktd2repost_list v) racc pktd todo rest).

Lemma take_refid_ok w v i h f fl a act facc racc todo :
  walk w v h f fl a act facc racc (Some i) (i :: todo) (i :: todo) ->
  wp (take_refid p i v) (fun v' w' => exists h', w' = put O h' f a w /\
    walk w' v' h' f fl a act facc racc (Some i) (i :: todo) todo /\
    v' = v <| refid_list := refid_list v ++ report (D i) |>) w.
Proof.
  intros Hi. destruct (walk_head _ _ _ _ _ _ _ _ _ _ _ _ _ _ _ _ _ _ Hi) as (d & Hd & Hd' & Ed).
  injection Ed as _ Er Ee _ _. unfold take_refid, report. apply wp_bind.
  eapply wp_get_node; [done|]. rewrite <- Er, <- Ee.
  assert (Hi' : walk w v h f fl a act facc racc (Some i) (i :: todo) todo).
  { destruct Hi as [A B C G Hn E]. split; [done..|]. intros k Hk. apply E. set_solver. }
  pose proof (walk_front _ _ _ _ _ _ _ _ _ _ _ _ _ _ _ _ _ _ Hi') as Hf.
  destruct (negb (req_id d =? 0)).
  - apply wp_bind. eapply walk_upd_front; [exact Hi'|done|done|by right| |].
    { intros Hin. exfalso. apply Hf, elem_of_app. by right. }
    intros Hi2. apply wp_ret. eexists. split_and!; [done|exact Hi2|done].
  - apply wp_ret. exists h. rewrite app_nil_r. split_and!; [|done|by destruct v].
    etrans; [symmetry; apply (put_id O)|]. unfold heap_of. by rewrite (wi_has _ _ _ _ _ _ _ _ _ _ _ _ _ _ _ _ _ _ Hi).
Qed.

Lemma poll_complete_ok n w v i h f fl a act facc racc todo :
  walk w v h f fl a act facc racc (Some i) (i :: todo) (i :: todo) -> Env (S n) w ->
  (length (refid_list v) < NUM_REFID)%nat ->
  wp (poll_complete P p i v) (fun r w' => exists h' f' fl' a' new facc' bs evs,
    walk w' (fst r) h' f' fl' a' (new ++ act) facc' racc (snd r) todo todo /\ Env n w' /\
    (length (refid_list (fst r)) < NUM_REFID)%nat /\
    new ++ fl' ++ facc' ≡ₚ fl ++ facc ++ [i] /\
    trace w' = trace w ++ evs /\ answered (map EvStatus bs) evs /\
    refid_list v ++ report (D i) = concat bs ++ refid_list (fst r) /\
    Forall (fun b => length b = NUM_REFID) bs /\
    unfreed_req_id (fst r) = unfreed_req_id v) w.
Proof.
  intros Hi Henv Hroom. unfold poll_complete. apply wp_bind.
  eapply wp_mono; [by eapply take_refid_ok|]. intros v1 w1 (h1 & -> & Hi1 & ->).
  apply wp_bind. eapply wp_mono; [by eapply (walk_append_free O pk_dat D)|].
  intros [[hd lst] nxt] w2 (h2 & Hhd & -> & Hi2). rewrite put_put in *.
  cbn [refid_list upd_field]. set (v2 := _ <| last_in_pktd2free_list := lst |>) in *.
  destruct (decide _) as [Hfull|Hnot].
  - apply wp_bind. eapply wp_mono; [by eapply (walk_give_free O pk_dat D)|].
    intros [] w3 (h3 & f3 & -> & Hi3). rewrite put_put in *. apply wp_bind.
    eapply wp_mono; [eapply (walk_status O pk_dat D P); [exact Hi3|by apply (env_put P O pk_dat)]|].
    intros r w4 (h4 & f4 & fl4 & a4 & new & more & Hi4 & Hp & T & Hs & Hn). apply wp_ret.
    exists h4, f4, fl4, a4, new, [], [refid_list v ++ report (D i)], (EvStatus (refid_list v ++ report (D i)) :: more).
    split_and!; [exact Hi4|done| | | |by apply answered_one| |by constructor|done].
    + cbn. unfold NUM_REFID. lia.
    + by rewrite app_nil_r, <- Hp, (Permutation_app_comm fl).
    + rewrite T. unfold put. by psimp.
    + cbn. by rewrite !app_nil_r.
  - apply wp_ret. exists h2, f, fl, a, [], (facc ++ [i]), [], [].
    split_and!; [done|by apply (env_put P O pk_dat), (env_less P O pk_dat)| |done| |constructor|done|done|done].
    + cbn. cbn in Hnot. rewrite length_app in *. unfold report in *.
      destruct (negb _); cbn in *; unfold NUM_REFID in *; lia.
    + unfold put. rewrite app_nil_r. by psimp.
Qed.

Lemma poll_pending_ok n w v i h f fl a act facc racc todo :
  walk w v h f fl a act facc racc (Some i) (i :: todo) (i :: todo) -> Env n w ->
  pk_ccontext (D i) <> None ->
  wp (poll_pending p now i v) (fun r w' => exists h',
    walk w' (fst r) h' f fl a act facc (racc ++ [i]) (snd r) todo todo /\ Env n w' /\
    trace w' = trace w /\ refid_list (fst r) = refid_list v /\
    unfreed_req_id (fst r) =
      (if negb (req_id (D i) =? 0) then u64 (unfreed_req_id v + 1) else unfreed_req_id v)) w.
Proof.
  intros Hi Henv Hcc. destruct (walk_head _ _ _ _ _ _ _ _ _ _ _ _ _ _ _ _ _ _ Hi) as (d & Hd & Hd' & Ed).
  injection Ed as _ Er _ _ Ecc. rewrite <- Er. rewrite <- Ecc in Hcc.
  unfold poll_pending. apply wp_bind. eapply wp_get_node; [done|].
  set (v1 := if negb (req_id d =? 0) then _ else v).
  assert (Hi1 : walk w v1 h f fl a act facc racc (Some i) (i :: todo) (i :: todo)).
  { subst v1. by destruct (negb _). }
  assert (V1 : refid_list v1 = refid_list v) by (subst v1; by destruct (negb _)).
  assert (V2 : unfreed_req_id v1 = if negb (req_id d =? 0)
     then u64 (unfreed_req_id v + 1) else unfreed_req_id v) by (subst v1; by destruct (negb _)).
  clearbody v1. apply wp_bind.
  apply (wp_mono _ (fun _ w1 => exists h1,
    walk w1 v1 h1 f fl a act facc racc (Some i) (i :: todo) (i :: todo) /\ Env n w1 /\ trace w1 = trace w)).
  - destruct (negb _ && _); [|apply wp_ret; by eauto].
    apply wp_bind, wp_gets, wp_bind.
    apply (wp_mono _ (fun _ w1 => walk w1 v1 h f fl a act facc racc (Some i) (i :: todo) (i :: todo) /\
                                  Env n w1 /\ trace w1 = trace w)).
    { destruct Hi1 as [A B C G Hn E], (pk_ccontext d); [|done].
      destruct (StuckState w =? 0); cbn [when]; [apply wp_bind, wp_ret, wp_modify|by apply wp_ret].
      split_and!; [by split|by apply (env_stuck P O pk_dat)|done]. }
    intros [] w1 (Hi2 & He & T). eapply walk_upd_front; [exact Hi2|done|done|done|done|].
    intros Hi3. eexists. split_and!; [exact Hi3|by apply (env_put P O pk_dat)|].
    unfold put. by rewrite pl_trace_put.
  - intros [] w1 (h1 & Hi2 & He & T1). apply wp_bind.
    eapply wp_mono; [by eapply (walk_append_repost O pk_dat D)|].
    intros [[hd lst] nxt] w2 (h2 & -> & Hi3). apply wp_ret. exists h2.
    split_and!; [done|by apply (env_put P O pk_dat)|unfold put; by rewrite pl_trace_put|done|done].
Qed.

(** Outcome of the walk from [todo]; the callbacks have posted [new]. *)
Lemma poll_loop_ok fuel w v pktd h f fl a act facc racc todo :
  (length todo <= fuel)%nat ->
  walk w v h f fl a act facc racc pktd todo todo -> Env (S (length todo)) w ->
  (forall i, i ∈ todo -> sent ref (D i) = false -> pk_ccontext (D i) <> None) ->
  (length (refid_list v) < NUM_REFID)%nat -> 0 <= unfreed_req_id v < 2 ^ 64 ->
  wp (poll_loop P fuel p ref now pktd v) (fun v' w' => exists h' f' fl' a' new facc' bs evs,
    walk w' v' h' f' fl' a' (new ++ act) facc'
      (racc ++ filter (fun i => sent ref (D i) = false) todo) None [] [] /\ Env 1%nat w' /\
    new ++ fl' ++ facc' ≡ₚ fl ++ facc ++ filter (fun i => sent ref (D i) = true) todo /\
    trace w' = trace w ++ evs /\ answered (map EvStatus bs) evs /\
    refid_list v ++ (filter (fun i => sent ref (D i) = true) todo ≫= fun i => report (D i))
      = concat bs ++ refid_list v' /\
    Forall (fun b => length b = NUM_REFID) bs /\ (length (refid_list v') < NUM_REFID)%nat /\
    unfreed_req_id v' = u64 (unfreed_req_id v +
      foldr (fun i acc => unreported (D i) + acc) 0 (filter (fun i => sent ref (D i) = false) todo))) w.
Proof.
  revert fuel w v pktd h f fl a act facc racc.
  induction todo as [|i todo IH]; intros fuel w v pktd h f fl a act facc racc Hl Hi Henv Hcc Hroom Hc.
  - pose proof (parts_todo _ _ _ _ _ _ _ _ _ _ _ (wi_parts _ _ _ _ _ _ _ _ _ _ _ _ _ _ _ _ _ _ Hi)) as Hp.
    cbn in Hp. subst pktd. destruct fuel; cbn [poll_loop]; apply wp_ret;
      exists h, f, fl, a, [], facc, [], []; cbn; rewrite !app_nil_r, Z.add_0_r, u64_small by done;
      (split_and!; try done; constructor).
  - pose proof (parts_todo _ _ _ _ _ _ _ _ _ _ _ (wi_parts _ _ _ _ _ _ _ _ _ _ _ _ _ _ _ _ _ _ Hi)) as [-> _].
    destruct (walk_head _ _ _ _ _ _ _ _ _ _ _ _ _ _ _ _ _ _ Hi) as (d & Hd & Hd' & Ed).
    injection Ed as Edc _ _ _ _.
    destruct fuel as [|fuel]; [cbn in Hl; lia|]. cbn [length] in Hl, Henv. cbn [poll_loop]. apply wp_bind.
    eapply wp_get_node; [done|].
    rewrite Edc. fold (sent ref (D i)). apply wp_bind.
    assert (Hcc' : forall k, k ∈ todo -> sent ref (D k) = false -> pk_ccontext (D k) <> None)
      by (intros k Hk; apply Hcc; by right).
    rewrite !filter_cons. destruct (sent ref (D i)) eqn:Es.
    + repeat case_decide; try done.
      eapply wp_mono; [by eapply poll_complete_ok|].
      intros [v1 p1] w1 (h1 & f1 & fl1 & a1 & new1 & facc1 & bs1 & evs1 & Hi1 & He1 & R1 & P1 & T1 & A1 & C1 & F1 & U1).
      cbn [fst snd] in *.
      eapply wp_mono; [apply (IH fuel _ _ _ _ _ _ _ _ _ _ ltac:(lia) Hi1 He1 Hcc' R1); by rewrite U1|].
      intros v2 w2 (h2 & f2 & fl2 & a2 & new2 & facc2 & bs2 & evs2 & Hi2 & He2 & P2 & T2 & A2 & C2 & F2 & R2 & U2).
      exists h2, f2, fl2, a2, (new2 ++ new1), facc2, (bs1 ++ bs2), (evs1 ++ evs2). rewrite map_app.
      split_and!; [by rewrite <- app_assoc|done| | |by apply answered_app| |by apply list.Forall_app|done|by rewrite U2, U1].
      * rewrite (Permutation_app_comm new2), <- app_assoc, P2, (app_assoc fl1), app_assoc, P1, <- !app_assoc. done.
      * by rewrite T2, T1, app_assoc.
      * cbn. rewrite app_assoc, C1, <- app_assoc, C2, concat_app, <- app_assoc. done.
    + repeat case_decide; try done.
      eapply wp_mono; [eapply poll_pending_ok; [done|by apply (env_less P O pk_dat)|apply Hcc; [by left|done]]|].
      intros [v1 p1] w1 (h1 & Hi1 & He1 & T1 & C1 & U1). cbn [fst snd] in *.
      assert (Hu : 0 <= unfreed_req_id v1 < 2 ^ 64)
        by (rewrite U1; destruct (negb _); [apply u64_range|done]).
      eapply wp_mono; [apply (IH fuel _ _ _ _ _ _ _ _ _ _ ltac:(lia) Hi1 He1 Hcc'); [by rewrite C1|done]|].
      intros v2 w2 (h2 & f2 & fl2 & a2 & new2 & facc2 & bs2 & evs2 & Hi2 & He2 & P2 & T2 & A2 & C2 & F2 & R2 & U2).
      exists h2, f2, fl2, a2, new2, facc2, bs2, evs2.
      split_and!; [by rewrite <- app_assoc in Hi2|done|done|by rewrite T2, T1|done|by rewrite <- C1|done|done|].
      rewrite U2, U1. cbn [foldr]. unfold unreported at 2. destruct (negb _); cbn.
      * unfold u64. rewrite Zplus_mod_idemp_l. f_equal. lia.
      * done.
Qed.
End poll.

(** ** Flushing *)

Section flush.
Context (P : platform) `{!QuietStatus P} (p : pool_id).
Abbreviation O := (pkt_pool p).

Definition cancellation (d : pkt_descriptor) : list event :=
  if negb (req_id d =? 0) then [EvStatus [(req_id d, u32 (- ECANCELED))]] else [].

Lemma pkt_put_touches h f a w : touches (eq p) (fun _ => False) w (put O h f a w).
Proof.
  split_and!; [by destruct w| |done]. intros q Hq. unfold put. cbn. by rewrite fn_lookup_insert_ne.
Qed.

Lemma flush_loop_ok (D : nat -> pkt_descriptor) fuel w pktd lst h f fl done_ todo :
  (length todo <= fuel)%nat -> has O w h f None -> held w = [] ->
  chain h f fl -> chain h pktd todo ->
  (forall i, i ∈ todo -> req_id <$> h !! i = Some (req_id (D i))) ->
  lst = list.last done_ ->
  wp (flush_loop P fuel p pktd lst) (fun lst' w' => exists h',
    has O w' h' f None /\ held w' = [] /\
    (forall q l, chain h q l -> chain h' q l) /\
    lst' = list.last (done_ ++ todo) /\
    trace w' = trace w ++ (todo ≫= fun i => cancellation (D i)) /\
    touches (eq p) (fun _ => False) w w') w.
Proof.
  revert fuel w pktd lst h done_.
  induction todo as [|i todo IH]; intros fuel w pktd lst h dn Hl Hw Hh Hf Ht HD ->.
  - cbn in Ht. subst pktd. destruct fuel; cbn [flush_loop]; apply wp_ret; exists h;
      cbn; rewrite !app_nil_r; split_and!; done.
  - destruct Ht as [-> (d & Hd & Ht)]. destruct fuel as [|fuel]; [cbn in Hl; lia|].
    cbn [length] in Hl. cbn [flush_loop]. apply wp_bind.
    eapply wp_get_node; [unfold heap_of; by rewrite Hw|]. apply wp_bind.
    eapply wp_upd_node'; [done..|].
    pose proof (HD i ltac:(left)) as E. rewrite Hd in E. injection E as E.
    set (h1 := alter _ i h). set (w1 := put O h1 f None w).
    assert (Hch : forall q l, chain h q l -> chain h1 q l) by (intros; by apply chain_alter_data).
    assert (Hi1 : exists d1, h1 !! i = Some d1 /\ pk_next d1 = pk_next d).
    { subst h1. rewrite lookup_alter_eq, Hd. cbn. eauto. }
    destruct Hi1 as (d1 & Hd1 & E1).
    assert (Hnd : i ∉ todo).
    { assert (Hc : chain h (Some i) (i :: todo)) by (cbn; eauto).
      apply chain_NoDup, list.NoDup_cons in Hc as [? _]. done. }
    apply wp_bind.
    apply (wp_mono _ (fun _ w2 => has O w2 h1 f None /\ held w2 = [] /\
             trace w2 = trace w ++ cancellation (D i) /\ touches (eq p) (fun _ => False) w w2)).
    + unfold cancellation. rewrite <- E. destruct (negb (req_id d =? 0)); cbn [when].
      * apply wp_bind, (wp_status_cb P); [unfold w1, put; by rewrite pl_held_put|].
        intros r hw' _. apply wp_ret.
        split_and!; [unfold has; psimp; apply has_put|by wsimp|by wsimp|].
        etrans; [apply pkt_put_touches|apply touches_trace].
      * apply wp_ret. rewrite app_nil_r. split_and!; [apply has_put|done|done|apply pkt_put_touches].
    + intros [] w2 (Hw2 & Hh2 & Ht2 & Hto2). apply wp_bind.
      eapply wp_get_node; [unfold heap_of; by rewrite Hw2|]. rewrite E1.
      eapply wp_mono; [apply (IH fuel _ _ _ h1 (dn ++ [i])); [lia|done|done|by apply Hch|by apply Hch| |]|].
      * intros k Hk. subst h1. rewrite lookup_alter_ne by (intros ->; done). apply HD. by right.
      * by rewrite list.last_snoc.
      * intros lst' w' (h' & A & B & C & -> & T & To). exists h'. rewrite <- app_assoc in *.
        split_and!; [done|done|by auto|done| |by etrans].
        rewrite T, Ht2, <- app_assoc. done.
Qed.
End flush.

(** ** Properties *)

Definition no_pktd : pkt_descriptor := mkPktd None None 0 0 0 0 0 None.
(** The descriptor at [i], in the world [w]. *)
Definition pktd_at (p : pool_id) (w : world) (i : nat) : pkt_descriptor :=
  default no_pktd (heap_of (pkt_pool p) w !! i).

(** [pool_wf] in the world of the proofs below. *)
Lemma pkt_put_info p h f a w :
  IdToInjFifo (pools (put (pkt_pool p) h f a w) p) = IdToInjFifo (pools w p) /\
  pkt_desc_list (pools (put (pkt_pool p) h f a w) p) = h.
Proof. unfold put. cbn. wsimp. by rewrite fn_lookup_insert. Qed.

Section polling.
Context (P : platform) (p : pool_id) (w : world) (fl al : list nat).
Abbreviation O := (pkt_pool p).
Abbreviation ref := (hw_descCount (hw w) (IdToInjFifo (pools w p))).
Abbreviation is_sent := (fun i => sent ref (pktd_at p w i) = true).
Abbreviation is_pending := (fun i => sent ref (pktd_at p w i) = false).
Context (Env : nat -> world -> Prop) `{!PostingStatus P O pk_dat Env}.

(** C7: one poll of a packet pool, with a status callback that may itself
    take packets of this pool and post them ([PostingStatus]).  The packets
    the message unit has sent are returned to the free list, the others
    stay posted in the order they were in and as they were; the packets
    the callbacks posted meanwhile stay posted before and after them, and
    no packet is lost.  The request IDs of the sent packets, and only
    those, are reported in order, in batches of one to eight and never with
    a lock held; the result counts the requests still open.  The packets
    still in the FIFO must name their connection: the report of a stuck
    packet reads it. *)
Theorem poll_pkt_message_correct :
  pool_wf O w fl al -> Env (S (length al)) w ->
  (forall i, i ∈ al -> is_pending i -> pk_ccontext (pktd_at p w i) <> None) ->
  wp (poll_pkt_message P p) (fun r w' => exists fl' late early bs evs,
    pool_wf O w' fl' (late ++ filter is_pending al ++ early) /\
    late ++ early ++ fl' ≡ₚ fl ++ filter is_sent al /\
    trace w' = trace w ++ evs /\ answered (map EvStatus bs) evs /\
    concat bs = filter is_sent al ≫= (fun i => report (pktd_at p w i)) /\
    Forall (fun b => 1 <= length b <= NUM_REFID)%nat bs /\
    r = u64 (foldr (fun i acc => unreported (pktd_at p w i) + acc) 0 (filter is_pending al)) /\
    forall i, i ∈ filter is_pending al ->
      pk_dat <$> heap_of O w' !! i = pk_dat <$> heap_of O w !! i) w.
Proof.
  intros Hw Henv Hcc. destruct (pool_wf_has O _ _ _ Hw) as (h & f & a & Hh & Eh & Hf & Ha & Hnd & Hl & E).
  unfold poll_pkt_message. apply wp_bind, (wp_lock_pool O); [done|]. intros R HR _.
  eapply wp_detach_active; [by apply has_locked|]. apply HR. clear R HR.
  destruct (pkt_put_info p h f None w) as [I1 I2].
  set (w0 := put O h f None w) in *.
  assert (T0 : trace w0 = trace w) by (unfold w0, put; by rewrite pl_trace_put).
  assert (H0 : hw w0 = hw w) by (unfold w0, put; by rewrite pl_hw_put).
  assert (Hdat : forall k, k ∈ al -> pk_dat <$> h !! k = Some (pk_dat (pktd_at p w k))).
  { intros k Hk. unfold pktd_at. rewrite Eh. by destruct (chain_is_Some _ _ _ k Ha Hk) as [d ->]. }
  destruct a as [i|].
  2: { apply chain_None in Ha as ->. apply wp_ret. exists fl, [], [], [], [].
       assert (Hput : pool_wf O w0 fl []) by (by apply pool_wf_put).
       clearbody w0. cbn. rewrite !app_nil_r.
       split_and!; [done..|constructor|done|by constructor|done|by intros ? []%elem_of_nil]. }
  apply wp_bind, wp_gets, wp_bind, wp_gets, wp_bind, wp_gets. rewrite I1, I2, H0. apply wp_bind.
  set (v0 := mkPv None None None None [] 0).
  eapply wp_mono; [eapply (poll_loop_ok P p ref _ (pktd_at p w)) with (racc := []) (todo := al)|].
  { by eapply chain_length. }
  { apply walk_start; [apply has_put|unfold w0, put; by rewrite pl_held_put|done..]. }
  { by apply (env_put P O pk_dat). } { exact Hcc. }
  { cbn. unfold NUM_REFID. lia. } { cbn. lia. }
  clearbody w0.
  intros v w1 (h1 & f1 & fl1 & a1 & early & facc1 & bs & evs & Hi & He1 & Hperm & T1 & A1 & C1 & F1 & R1 & U1).
  cbn [app] in *. rewrite app_nil_r in *. eapply (finish_poll O pk_dat (pktd_at p w) P); [exact Hi|exact He1|].
  intros w4 fl4 late evs4 Hwf4 P4 D4 T4 A4. apply wp_ret.
  exists fl4, late, early, (bs ++ last_batch (refid_list v)), (evs ++ evs4). split_and!; [done| | | | | | |].
  - by rewrite (app_assoc late), (Permutation_app_comm late), <- app_assoc, P4.
  - by rewrite T4, T1, T0, app_assoc.
  - rewrite map_app. by apply answered_app.
  - rewrite concat_app, concat_last_batch. by symmetry.
  - apply list.Forall_app. split; [|by apply last_batch_short].
    eapply list.Forall_impl; [exact F1|]. intros b ->. unfold NUM_REFID. lia.
  - by rewrite U1.
  - intros k Hk. rewrite D4, Eh by done. symmetry. apply Hdat.
    by apply list_elem_of_filter in Hk as [_ ?].
Qed.
End polling.

Section properties.
Context (P : platform) `{!QuietStatus P} (p : pool_id) (w : world) (fl al : list nat).
Abbreviation O := (pkt_pool p).

Lemma flush_pkt_reqid_ok :
  pool_wf O w fl al ->
  wp (flush_pkt_reqid P p) (fun r w' => r = 0 /\ pool_wf O w' (al ++ fl) [] /\
    trace w' = trace w ++ (al ≫= fun i => cancellation (pktd_at p w i)) /\
    touches (eq p) (fun _ => False) w w') w.
Proof.
  intros Hw. apply (flush_with_ok O (fun n => flush_loop P n p) (touches (eq p) (fun _ => False)));
    [by intros; apply pkt_put_touches|done|].
  intros h f i Eh Hf Ha w0. eapply wp_mono; [apply (flush_loop_ok P p (pktd_at p w) _ _ _ _ h f fl [] al)|].
  { by eapply chain_length. } { apply has_put. } { unfold w0, put. rewrite pl_held_put. apply Hw. }
  { done. } { done. }
  { intros k Hk. unfold pktd_at. rewrite Eh. by destruct (chain_is_Some _ _ _ k Ha Hk) as [d ->]. }
  { done. }
  done.
Qed.

(** C10: flushing a pool (the link went down) cancels every open request, in
    the order of the list, and returns every posted packet to the free
    list. *)
Theorem flush_pkt_reqid_correct :
  pool_wf O w fl al ->
  wp (flush_pkt_reqid P p) (fun r w' => r = 0 /\ pool_wf O w' (al ++ fl) [] /\
    trace w' = trace w ++ (al ≫= fun i => cancellation (pktd_at p w i))) w.
Proof.
  intros Hw. eapply wp_mono; [by apply flush_pkt_reqid_ok|]. by intros r w' (A & B & C & _).
Qed.

(** C11: allocation hands out the first free packet, erased and on no list,
    and fails exactly when there is none; posting it and giving it back
    put it on the posted and on the free list. *)
Theorem pkt_lifecycle_correct i cnt :
  pool_wf O w (i :: fl) al ->
  wp (alloc_pkt_message p) (fun r w1 => r = Some i /\ pool_wf O w1 fl al /\
    pool_frame O pk_dat [i] w w1 /\
    (exists d, heap_of O w1 !! i = Some d /\ req_id d = 0 /\ error_val d = 0 /\ desc_cnt d = u64_max) /\
    wp (release_pkt_to_free p i cnt) (fun _ w2 => pool_wf O w2 (i :: fl) al) w1 /\
    wp (release_pkt_to_poll p i cnt) (fun _ w2 => pool_wf O w2 fl (i :: al) /\
      desc_cnt <$> heap_of O w2 !! i = Some cnt) w1) w.
Proof.
  intros Hw. assert (Hi : i ∉ fl ++ al).
  { by destruct Hw as [_ _ [? _]%list.NoDup_cons _]. }
  apply (wp_alloc_pkt_message p (i :: fl) al); [done|done|].
  intros i' fl' w1 [= <- <-] Hw1 Hf (d & Hd & H1 & H2 & H3 & H4).
  split_and!; [done|done|done|by exists d| |].
  - eapply wp_release_pkt_to_free; [done|done|by eauto|by auto].
  - eapply wp_release_pkt_to_poll; [done|done|done|]. intros w2 Hw2 _ E. split; [done|].
    destruct (heap_of O w2 !! i) as [d2|]; [|done]. unfold pk_dat in E. cbn in E. injection E. cbn. congruence.
Qed.
End properties.

(** ** Witnesses *)

(** Three packets posted by the demo node; two were sent. *)
Definition demo_posted : world := demo_world
  <| hw ::= fun h => h <| hw_descCount := fun _ => 2 |> |>
  <| pools ::= fun f => <[PacketControls 0 :=
       (f (PacketControls 0)) <| pkt_free_list := None |> <| pkt_reqid_list := Some 0%nat |>
         <| pkt_desc_list := list_to_map [
              (0%nat, mkPktd (Some 1%nat) None 2 77 0 0x50000 0 (Some 0%nat));
              (1%nat, mkPktd (Some 2%nat) (Some 0%nat) 3 78 0 0x50200 0 (Some 0%nat));
              (2%nat, mkPktd None (Some 1%nat) 1 79 5 0x50400 0 (Some 0%nat))] |>]> f |>.

Lemma demo_posted_wf : pool_wf (pkt_pool (PacketControls 0)) demo_posted [] [0; 1; 2]%nat.
Proof.
  split; [done| |by apply (bool_decide_unpack _)|done].
  by apply (walk_sound 3).
Qed.

Lemma demo_pool_wf : pool_wf (pkt_pool (PacketControls 0)) demo_world [0; 1; 2]%nat [].
Proof.
  split; [|done|by apply (bool_decide_unpack _)|done].
  by apply (walk_sound 3).
Qed.

(** A callback that sends the next packet as soon as one is reported sent,
    the way the verbs driver goes on with its send queue. *)
Definition post_next (p : pool_id) : MW Z :=
  pktd <- alloc_pkt_message p ;;
  match pktd with
  | Some i => set_pkt_req_id p i 90 ;;; release_pkt_to_poll_ccontext p i 9 0%nat
  | None => ret tt
  end ;;;
  ret 0.

Lemma post_next_ok p fl act w :
  pool_wf (pkt_pool p) w fl act ->
  wp (post_next p) (fun _ w' => exists fl' new more,
    pool_wf (pkt_pool p) w' fl' (new ++ act) /\ fl ≡ₚ new ++ fl' /\
    (forall k, k ∉ fl ++ act -> heap_of (pkt_pool p) w' !! k = heap_of (pkt_pool p) w !! k) /\
    (forall k, k ∈ act -> pk_dat <$> heap_of (pkt_pool p) w' !! k = pk_dat <$> heap_of (pkt_pool p) w !! k) /\
    trace w' = trace w ++ more /\ statuses more = []) w.
Proof.
  intros Hw. destruct (pool_wf_has _ _ _ _ Hw) as (h & f & a & Hh & Eh & Hf & Ha & Hnd & Hl & E).
  unfold post_next, alloc_pkt_message. rewrite Eh. do 2 apply wp_bind.
  apply (wp_lock_pool (pkt_pool p)); [done|]. intros R HR HR'.
  eapply (wp_take_free (pkt_pool p) h f a fl); [by apply has_locked|done| |].
  { intros -> ->. apply HR'. do 2 apply wp_ret. exists [], [], [].
    rewrite Eh, (app_nil_r (trace w)). by split_and!. }
  intros i fl' -> n Hn Hc. apply HR.
  apply wp_bind. eapply wp_upd_node'; [apply has_put|done|]. apply wp_ret. rewrite put_put.
  assert (Hi : i ∉ fl' ++ act) by (by apply list.NoDup_cons in Hnd as [? _]).
  assert (Hif : i ∉ fl') by (intros ?; apply Hi, elem_of_app; auto).
  assert (Hia : i ∉ act) by (intros ?; apply Hi, elem_of_app; auto).
  do 2 apply wp_bind. eapply wp_upd_node'; [apply has_put|by rewrite lookup_alter_eq, Hn|].
  unfold release_pkt_to_poll_ccontext, release_pkt_to_poll. rewrite put_put.
  apply wp_bind. eapply wp_upd_node'; [apply has_put|by rewrite !lookup_alter_eq, Hn|]. rewrite put_put.
  apply wp_bind. eapply wp_get_node; [by rewrite put_heap, !lookup_alter_eq, Hn|]. do 2 apply wp_bind.
  eapply wp_upd_node'; [apply has_put|by rewrite !lookup_alter_eq, Hn|]. rewrite put_put.
  apply wp_bind, wp_gets, wp_bind.
  eapply wp_upd_node'; [apply has_put|by rewrite !lookup_alter_eq, Hn|]. rewrite put_put.
  match goal with |- context [put _ ?hh] => set (h1 := hh) end.
  assert (Hoff : forall k, k <> i -> h1 !! k = h !! k) by (intros k Hk; subst h1; by rewrite !lookup_alter_ne).
  assert (Hd1 : is_Some (h1 !! i)) by (subst h1; by rewrite !lookup_alter_eq, Hn).
  clearbody h1. eapply (wp_post_node (pkt_pool p) pk_dat); [done..|].
  intros w2 h2 Ew Hw2 Ho2 Hd2. assert (T2 : trace w2 = trace w) by (rewrite Ew; unfold put; by rewrite pl_trace_put).
  clear Ew. apply wp_modify. cbv beta. apply wp_ret.
  exists fl', [i], [EvWakeup]. unfold heap_of in *. psimp. rewrite T2. split_and!; [|done..].
  eapply pool_wf_ext, Hw2; [by psimp|done].
Qed.

Definition posting_platform (p : pool_id) : platform := mkPlatform (hw_step demo_platform)
  (cb_recv demo_platform) (cb_recv_conn demo_platform) (fun _ => post_next p)
  (cb_allocate demo_platform) (cb_free demo_platform) (wakeup_wait demo_platform)
  (cycles_per_usec demo_platform) (off_dummy_counter demo_platform) (off_rgatc demo_platform)
  (off_largest_node_corner demo_platform) (off_num_compute_nodes demo_platform)
  (buf_image demo_platform) (spin_fuel demo_platform).

#[export] Instance posting_posts p :
  PostingStatus (posting_platform p) (pkt_pool p) pk_dat (fun _ _ => True).
Proof.
  split; [done..|]. intros reqs n w fl act Hw _. eapply wp_mono; [by apply post_next_ok|].
  intros r w' (fl' & new & more & H). exists fl', new, more. naive_solver.
Qed.

Lemma poll_pkt_message_correct_witness :
  wp (poll_pkt_message (posting_platform (PacketControls 0)) (PacketControls 0)) (fun r w' => r = 1 /\
    exists fl' late early bs evs,
      pool_wf (pkt_pool (PacketControls 0)) w' fl' (late ++ [1%nat] ++ early) /\
      late ++ early ++ fl' ≡ₚ [0; 2]%nat /\
      trace w' = evs /\ answered (map EvStatus bs) evs /\ concat bs = [(77, 0); (79, 5)]) demo_posted.
Proof.
  eapply wp_mono; [apply (poll_pkt_message_correct _ _ _ _ _ (fun _ _ => True) demo_posted_wf I)|].
  { intros i Hi _. repeat (apply elem_of_cons in Hi as [->|Hi]; [by vm_compute|]).
    by apply elem_of_nil in Hi. }
  intros r w' (fl' & late & early & bs & evs & A & B & T & C & E & _ & F & _).
  split; [by rewrite F|]. by exists fl', late, early, bs, evs.
Defined.

(** That poll, computed: packet 0 is sent again by the callback, in front of
    packet 1. *)
Example posting_poll :
  match poll_pkt_message (posting_platform (PacketControls 0)) (PacketControls 0) demo_posted with
  | Ok r w' => r = 1 /\ trace w' = [EvStatus [(77, 0); (79, 5)]; EvWakeup] /\
      pkt_reqid_list (pools w' (PacketControls 0)) = Some 0%nat /\
      req_id (pktd_at (PacketControls 0) w' 0) = 90 /\
      pk_next (pktd_at (PacketControls 0) w' 0) = Some 1%nat
  | _ => False
  end.
Proof. by vm_compute. Qed.

Lemma flush_pkt_reqid_correct_witness :
  wp (flush_pkt_reqid demo_platform (PacketControls 0)) (fun r w' => r = 0 /\
    pool_wf (pkt_pool (PacketControls 0)) w' [0; 1; 2]%nat [] /\
    trace w' = [EvStatus [(77, 4294967171)]; EvStatus [(78, 4294967171)]; EvStatus [(79, 4294967171)]])
    demo_posted.
Proof. exact (flush_pkt_reqid_correct demo_platform _ _ _ _ demo_posted_wf). Defined.

Lemma pkt_lifecycle_correct_witness :
  wp (alloc_pkt_message (PacketControls 0)) (fun r w1 => r = Some 0%nat /\
    pool_wf (pkt_pool (PacketControls 0)) w1 [1; 2]%nat []) demo_world.
Proof.
  eapply wp_mono; [apply (pkt_lifecycle_correct _ _ _ _ 0%nat 5 demo_pool_wf)|].
  by intros r w1 (A & B & _).
Defined.

(** A packet posted without its connection, as [mudm_rdma_read_on_torus]
    does with [release_pkt_to_poll], and stuck in the FIFO for more than
    [TOO_MANY_CYCLES]: the report of it dereferences NULL. *)
Definition demo_stuck : world := demo_posted
  <| hw ::= fun h => h <| hw_descCount := fun _ => 0 |> <| hw_timebase := 182000000002 |> |>
  <| pools ::= fun f => <[PacketControls 0 :=
       (f (PacketControls 0)) <| pkt_desc_list := list_to_map [
              (0%nat, mkPktd None None 2 77 0 0x50000 1 None)] |>]> f |>.
Example stuck_without_connection_faults :
  poll_pkt_message demo_platform (PacketControls 0) demo_stuck = Fault.
Proof. by vm_compute. Qed.
