(* ===== verification/Rdma.v ===== *)
(** * RDMA objects

    bgmudm/rdma_object.c and rdma_object.h: the objects that track an RDMA
    transfer through a reception counter of the compare area, the polling
    routine that recognises finished transfers, notifies the remote side
    and the user, and the layout of the compare area. *)

From Stdlib Require Import FunctionalExtensionality.
From S2P Require Import Prelude Chain Bytes Descriptor State Inject Concrete Pools RdmaWrite.

#[export, program] Instance rdma_pool (l : nat) : Pool mudm_rdma_object := {
  pl_get w := mkView (rdma_obj_list (rdma w l)) (rdma_free_list (rdma w l))
                     (counter_list (rdma w l));
  pl_put v w := w <| rdma ::= fun f =>
    <[l := (f l) <| rdma_obj_list := v_heap v |> <| rdma_free_list := v_free v |>
                 <| counter_list := v_active v |>]> f |>;
  pl_lock := RdmaLock l }.
Next Obligation. intros p v w. cbn. rewrite fn_lookup_insert. by destruct v. Qed.
Next Obligation.
  intros p v v' w. destruct w. unfold upd_field. cbn. f_equal. extensionality q.
  destruct (decide (p = q)) as [->|].
  - by rewrite !fn_lookup_insert.
  - by rewrite !fn_lookup_insert_ne.
Qed.
Next Obligation.
  intros p w. destruct w. unfold upd_field. cbn. f_equal. extensionality q.
  destruct (decide (p = q)) as [->|].
  - rewrite fn_lookup_insert. by destruct (rdma q).
  - by rewrite fn_lookup_insert_ne.
Qed.
Solve All Obligations with done.

(** ** Allocation and release *)

Definition allocate_rdma_object (l : nat) : MW (option nat) :=
  mro <- with_lock (rdma_pool l)
    (mro <- take_free (rdma_pool l) ;;
     upd_roc l (fun c => c <| rdma_allocated_count ::= fun n => u64 (n + 1) |>) ;;;
     ret mro) ;;
  match mro with
  | None => ret None
  | Some i =>
      upd_node (rdma_pool l) i (fun r => r <| local_request_id := 0 |> <| remote_rdma_obj_pa := 0 |>) ;;;
      ret (Some i)
  end.

Definition release_rdma_obj_to_poll (l i : nat) : MW unit :=
  with_lock (rdma_pool l) (push_active (rdma_pool l) i) ;;; wakeup.

Definition free_rdma_obj (l i : nat) : MW unit :=
  with_lock (rdma_pool l)
    (push_free (rdma_pool l) i ;;;
     upd_roc l (fun c => c <| rdma_freed_count ::= fun n => u64 (n + 1) |>)).

(** ** Flushing and polling *)

Section with_platform.
Context (P : platform).

Fixpoint flush_rdma_loop (fuel l : nat) (mro last_mro : option nat) : MW (option nat) :=
  match mro with
  | None => ret last_mro
  | Some i =>
    match fuel with
    | O => hang
    | S fuel =>
      r <- get_node (rdma_pool l) i ;;
      upd_mue l (ro_mue r) (fun m => m <| mu_counter := 0 |>) ;;;
      upd_node (rdma_pool l) i (fun r => r <| local_request_id := 0 |>) ;;;
      when (negb (local_request_id r =? 0))
        (x <- status_cb P [(local_request_id r, u32 (- ECANCELED))] ;; ret tt) ;;;
      r <- get_node (rdma_pool l) i ;;
      flush_rdma_loop fuel l (ro_next r) (Some i)
    end
  end.

Definition flush_rdma_counter_reqid (l : nat) : MW Z :=
  a <- get_active (rdma_pool l) ;;
  match a with
  | None => ret 0
  | Some _ =>
    mro <- with_lock (rdma_pool l) (detach_active (rdma_pool l)) ;;
    match mro with
    | None => ret 0
    | Some first_mro =>
      n <- gets (fun w => size (heap_of (rdma_pool l) w)) ;;
      last_mro <- flush_rdma_loop n l mro None ;;
      with_lock (rdma_pool l) (splice_free (rdma_pool l) (Some first_mro) last_mro) ;;;
      ret 0
    end
  end.

Definition NUM_REFID : nat := 8.

(** Local variables of [rdma_poll_rdma_counter]. *)
Record rpoll_vars := mkRv {
  mro2free_list : option nat; last_in_mro2free_list : option nat;
  mro2repost_list : option nat; last_in_mro2repost_list : option nat;
  r_refid_list : list (Z * Z); counters_pending : Z }.
#[export] Instance FieldsOf_rv : FieldsOf rpoll_vars := fun v =>
  mkRv (mro2free_list v) (last_in_mro2free_list v) (mro2repost_list v)
       (last_in_mro2repost_list v) (r_refid_list v) (counters_pending v).

(** Tell the remote object, if there is one, that the transfer is over:
    8 bytes to its error word.  [false] is [CHECK_CONN_MAGIC] failing. *)
Definition notify_remote (l i : nat) : MW bool :=
  mro <- get_node (rdma_pool l) i ;;
  if remote_rdma_obj_pa mro =? 0 then ret true else
  pa <- gets mudm_context_phys_addr ;;
  mue <- get_mue l (ro_mue mro) ;;
  let source_physaddr := if negb (mu_error mue =? 0) then pa + OFF_rdma_EINVAL_source
                         else pa + OFF_rdma_GOOD_source in
  c <- deref (local_connect mro) ;;
  cc <- get_conn c ;;
  if negb (c_magic cc =? CONN_MAGIC) then ret false else
  desc_count <- direct_put P c source_physaddr (remote_rdma_obj_pa mro + OFF_mue_error) 8
                  (remote_rdma_obj_pa mro) ;;
  ret true.

(** Take over the request ID and the error of a finished transfer. *)
Definition take_rdma_refid (l i : nat) (v : rpoll_vars) : MW rpoll_vars :=
  mro <- get_node (rdma_pool l) i ;;
  if negb (local_request_id mro =? 0) then
    upd_node (rdma_pool l) i (fun r => r <| local_request_id := 0 |>) ;;;
    mue <- get_mue l (ro_mue mro) ;;
    upd_mue l (ro_mue mro) (fun m => m <| mu_error := 0 |>) ;;;
    ret (v <| r_refid_list ::= fun x => x ++ [(local_request_id mro, u32 (mu_error mue))] |>)
  else ret v.

(** A finished transfer; [None] is the early return of the whole poll. *)
Definition rpoll_complete (l i : nat) (v : rpoll_vars) : MW (option (rpoll_vars * option nat)) :=
  ok <- notify_remote l i ;;
  if negb ok then ret None else
  v <- take_rdma_refid l i v ;;
  r <- append_node (rdma_pool l) (mro2free_list v) (last_in_mro2free_list v) i ;;
  let '(hd, lst, nxt) := r in
  let v := v <| mro2free_list := hd |> <| last_in_mro2free_list := lst |> in
  if decide (length (r_refid_list v) = NUM_REFID) then
    with_lock (rdma_pool l) (splice_free (rdma_pool l) (mro2free_list v) (last_in_mro2free_list v)) ;;;
    r <- status_cb P (r_refid_list v) ;;
    ret (Some (v <| mro2free_list := None |> <| r_refid_list := [] |>, nxt))
  else ret (Some (v, nxt)).

Definition rpoll_pending (l i : nat) (v : rpoll_vars) : MW (rpoll_vars * option nat) :=
  let v := v <| counters_pending ::= fun n => u64 (n + 1) |> in
  r <- append_node (rdma_pool l) (mro2repost_list v) (last_in_mro2repost_list v) i ;;
  let '(hd, lst, nxt) := r in
  ret (v <| mro2repost_list := hd |> <| last_in_mro2repost_list := lst |>, nxt).

Definition mue_complete (m : mu_element) : bool := (mu_counter m =? 0) || negb (mu_error m =? 0).

Fixpoint rpoll_loop (fuel l : nat) (mro : option nat) (v : rpoll_vars)
    : MW (option rpoll_vars) :=
  match mro with
  | None => ret (Some v)
  | Some i =>
    match fuel with
    | O => hang
    | S fuel =>
      r <- get_node (rdma_pool l) i ;;
      mue <- get_mue l (ro_mue r) ;;
      r <- (if mue_complete mue then rpoll_complete l i v
            else x <- rpoll_pending l i v ;; ret (Some x)) ;;
      match r with
      | None => ret None
      | Some (v, nxt) => rpoll_loop fuel l nxt v
      end
    end
  end.

Definition rdma_poll_rdma_counter (l : nat) : MW Z :=
  mro <- with_lock (rdma_pool l) (detach_active (rdma_pool l)) ;;
  n <- gets (fun w => size (heap_of (rdma_pool l) w)) ;;
  o <- rpoll_loop n l mro (mkRv None None None None [] 0) ;;
  match o with
  | None => ret (u64 (- EFAULT))
  | Some v =>
    match mro2free_list v with
    | Some _ => with_lock (rdma_pool l)
        (splice_free (rdma_pool l) (mro2free_list v) (last_in_mro2free_list v))
    | None => ret tt
    end ;;;
    match mro2repost_list v with
    | Some _ => with_lock (rdma_pool l)
        (splice_active (rdma_pool l) (mro2repost_list v) (last_in_mro2repost_list v))
    | None => ret tt
    end ;;;
    (if decide (r_refid_list v = []) then ret tt
     else r <- status_cb P (r_refid_list v) ;; ret tt) ;;;
    ret (counters_pending v)
  end.
End with_platform.

(** ** Layout of the compare area *)

Definition SIZEOF_mu_element := 16.

(** Double the size until it is enough; 2048 doubled 52 times is 2^63. *)
Fixpoint grow (fuel : nat) (compare_area_size need : Z) : Z :=
  match fuel with
  | O => compare_area_size
  | S fuel => if compare_area_size <? need then grow fuel (u64 (Z.shiftl compare_area_size 1)) need
              else compare_area_size
  end.

(** Size of the compare area and number of counters, less the one kept for
    control when they fill the area. *)
Definition compute_rdma_section_size (max_connections num_io_links : Z) : Z * Z :=
  let objects_per_connection := if num_io_links >? 1 then 2 else 4 in
  let num_mu_elements := u32 (objects_per_connection * max_connections) in
  let num_mu_elements := if num_mu_elements <? 128 then 128 else num_mu_elements in
  let compare_area_size := grow 52 2048 (u64 (num_mu_elements * SIZEOF_mu_element)) in
  (compare_area_size,
   if compare_area_size =? u64 (num_mu_elements * SIZEOF_mu_element)
   then num_mu_elements - 1 else num_mu_elements).

(** [base] is the counter of the compare area that the virtual address
    [base_va] names: 0 when it belongs to the physical address [base_pa]. *)
Definition rdma_obj_init (l base : nat) : MW unit :=
  SPIN_UNLOCK (RdmaLock l) ;;;
  upd_roc l (fun roc =>
    roc <| rdma_free_list := Some 0%nat |> <| counter_list := None |>
        <| rdma_obj_list := array_list (fun i =>
             mkRo 0 (base + i) (roc_base_pa roc + Z.of_nat i * SIZEOF_mu_element) 0 None (Some (S i)) None)
             (Z.to_nat (num_obj roc)) |>).

(** ** Polling: what it does *)

Definition ro_dat (r : mudm_rdma_object) : Z * nat * Z * Z * option nat :=
  (remote_rdma_obj_pa r, ro_mue r, rdma_object_pa r, local_request_id r, local_connect r).
#[export] Instance ro_dat_link_free : LinkFree ro_dat.
Proof. by split. Qed.

(** ** Allocation and release: rules *)

Section alloc.
Context (l : nat).
Abbreviation O := (rdma_pool l).

Lemma put_rdma h f a w : exists r', put O h f a w = w <| rdma := r' |>.
Proof. by eexists. Qed.

(** The two counts are not part of the pool. *)
Definition roc_bump (u : rdma_obj_controls -> rdma_obj_controls) (w : world) : world :=
  w <| rdma ::= fun g => <[l := u (g l)]> g |>.
Lemma roc_bump_get u w :
  (forall r, rdma_obj_list (u r) = rdma_obj_list r /\ rdma_free_list (u r) = rdma_free_list r /\
             counter_list (u r) = counter_list r) ->
  pl_get (Pool := O) (roc_bump u w) = pl_get (Pool := O) w.
Proof.
  intros H. unfold roc_bump. cbn. rewrite fn_lookup_insert.
  by destruct (H (rdma w l)) as (-> & -> & ->).
Qed.
Lemma roc_bump_wf u w fl al :
  (forall r, rdma_obj_list (u r) = rdma_obj_list r /\ rdma_free_list (u r) = rdma_free_list r /\
             counter_list (u r) = counter_list r) ->
  pool_wf O w fl al -> pool_wf O (roc_bump u w) fl al.
Proof.
  intros H [A B C D]. split; unfold heap_of; rewrite ?(roc_bump_get u w H); done.
Qed.

(** Nothing but the objects of the link changed; object [i] is off both
    lists and erased. *)
Lemma wp_allocate_rdma_object fl al (Q : option nat -> world -> Prop) w :
  pool_wf O w fl al ->
  (fl = [] -> forall r', pool_wf O (w <| rdma := r' |>) [] al -> Q None (w <| rdma := r' |>)) ->
  (forall i fl' r' d, fl = i :: fl' -> pool_wf O (w <| rdma := r' |>) fl' al ->
     heap_of O w !! i = Some d ->
     ro_dat <$> heap_of O (w <| rdma := r' |>) !! i
       = Some (ro_dat (d <| local_request_id := 0 |> <| remote_rdma_obj_pa := 0 |>)) ->
     Q (Some i) (w <| rdma := r' |>)) ->
  wp (allocate_rdma_object l) Q w.
Proof.
  intros Hw H0 H1. destruct (pool_wf_has O _ _ _ Hw) as (h & f & a & Hh & Eh & Hf & Ha & Hnd & Hl & E).
  unfold allocate_rdma_object. apply wp_bind, (wp_with_lock O); [done|]. apply wp_bind.
  eapply (wp_take_free O h f a fl); [by apply has_locked|done| |].
  - intros -> ->. apply wp_bind, wp_modify, wp_ret. split; [done|]. apply wp_ret.
    set (u := fun c : rdma_obj_controls => c <| rdma_allocated_count ::= fun n => u64 (n + 1) |>).
    pose proof (roc_bump_wf u w [] al ltac:(done) Hw) as Hw'.
    match goal with |- Q None ?x => assert (Ex : x = roc_bump u w) by (destruct w; cbn in Hl; by subst) end.
    rewrite Ex. by apply (H0 eq_refl).
  - intros i fl' -> n Hn Hc. apply wp_bind, wp_modify, wp_ret. split; [done|].
    set (u := fun c : rdma_obj_controls => c <| rdma_allocated_count ::= fun n => u64 (n + 1) |>).
    match goal with |- wp _ _ ?x => set (w1 := x) end.
    assert (E1 : w1 = roc_bump u (put O h (nx n) a w)) by (destruct w; cbn in Hl; by subst).
    clearbody w1. subst w1. apply list.NoDup_cons in Hnd as [Hi Hnd].
    assert (Hw1 : pool_wf O (roc_bump u (put O h (nx n) a w)) fl' al)
      by (apply roc_bump_wf; [done|]; by apply pool_wf_put).
    assert (Hg : has O (roc_bump u (put O h (nx n) a w)) h (nx n) a)
      by (unfold has; rewrite roc_bump_get by done; apply has_put).
    apply wp_bind. eapply wp_upd_node'; [exact Hg|done|]. apply wp_ret.
    destruct (put_rdma (alter (fun r => r <| local_request_id := 0 |> <| remote_rdma_obj_pa := 0 |>) i h)
      (nx n) a (roc_bump u (put O h (nx n) a w))) as (r' & Er).
    assert (Ew : put O (alter (fun r => r <| local_request_id := 0 |> <| remote_rdma_obj_pa := 0 |>) i h)
      (nx n) a (roc_bump u (put O h (nx n) a w)) = w <| rdma := r' |>)
      by (rewrite Er; by destruct w).
    assert (Hi1 : i ∉ fl') by (intros ?; apply Hi, elem_of_app; auto).
    assert (Hi2 : i ∉ al) by (intros ?; apply Hi, elem_of_app; auto).
    rewrite Ew. eapply H1; [done| |by rewrite Eh|]; rewrite <- Ew.
    + apply pool_wf_put; [by apply chain_alter_off..|done|done].
    + by rewrite put_heap, lookup_alter_eq, Hn.
Qed.

Lemma wp_release_rdma_obj_to_poll i d fl al (Q : unit -> world -> Prop) w :
  pool_wf O w fl al -> i ∉ fl ++ al -> heap_of O w !! i = Some d ->
  (forall r', pool_wf O (w <| rdma := r' |>) fl (i :: al) ->
     ro_dat <$> heap_of O (w <| rdma := r' |>) !! i = Some (ro_dat d) ->
     Q tt (w <| rdma := r' |> <| trace ::= fun t => t ++ [EvWakeup] |>)) ->
  wp (release_rdma_obj_to_poll l i) Q w.
Proof.
  intros Hw Hi Hd HQ. destruct (pool_wf_has O _ _ _ Hw) as (h & f & a & Hh & Eh & Hf & Ha & Hnd & Hl & E).
  rewrite Eh in Hd. assert (Hif : i ∉ fl) by (intros ?; apply Hi, elem_of_app; auto).
  assert (Hia : i ∉ al) by (intros ?; apply Hi, elem_of_app; auto).
  unfold release_rdma_obj_to_poll. apply wp_bind, (wp_lock_pool O); [done|]. intros R HR _.
  eapply wp_push_active; [by apply has_locked|done|exact Ha|done|].
  apply HR, wp_modify. destruct (put_rdma (push_heap a i h) f (Some i) w) as (r' & Er).
  rewrite Er. apply HQ; rewrite <- Er.
  - apply pool_wf_put; [|by eapply push_heap_chain| |done].
    + eapply chain_frame; [done|]. intros k Hk. eapply push_heap_off; [done| |by intros ->].
      apply list.NoDup_app in Hnd as (_ & Hx & _). by apply Hx.
    + by rewrite <- Permutation_middle; constructor.
  - rewrite put_heap. unfold push_heap. destruct a; rewrite !lookup_alter_dat by done; by rewrite Hd.
Qed.

Lemma wp_free_rdma_obj i fl al (Q : unit -> world -> Prop) w :
  pool_wf O w fl al -> i ∉ fl ++ al -> is_Some (heap_of O w !! i) ->
  (forall r', pool_wf O (w <| rdma := r' |>) (i :: fl) al -> Q tt (w <| rdma := r' |>)) ->
  wp (free_rdma_obj l i) Q w.
Proof.
  intros Hw Hi [d Hd] HQ. destruct (pool_wf_has O _ _ _ Hw) as (h & f & a & Hh & Eh & Hf & Ha & Hnd & Hl & E).
  rewrite Eh in Hd. unfold free_rdma_obj. apply (wp_with_lock O); [done|]. apply wp_bind.
  eapply wp_push_free; [by apply has_locked|done|]. apply wp_modify. split; [done|].
  set (u := fun c : rdma_obj_controls => c <| rdma_freed_count ::= fun n => u64 (n + 1) |>).
  match goal with |- Q tt ?x => set (w1 := x) end.
  assert (E1 : w1 = roc_bump u (put O (alter (set_nx f) i h) (Some i) a w)) by (destruct w; cbn in Hl; by subst).
  assert (E2 : exists r', w1 = w <| rdma := r' |>) by (rewrite E1; by eexists).
  destruct E2 as (r' & E2). rewrite E2. apply HQ. rewrite <- E2, E1.
  apply roc_bump_wf; [done|]. apply pool_wf_put; [| |by constructor|done].
  - eapply chain_push; [done| |]; [intros ?; apply Hi, elem_of_app; auto|done].
  - apply chain_alter_off; [intros ?; apply Hi, elem_of_app; by auto|done].
Qed.
End alloc.

(** A counter that reached zero, or whose error word was written, is not
    touched by the message unit any more. *)
Class MueStable (P : platform) : Prop := mue_stable : forall w l k,
  mue_complete (hw_mue (hw w) l k) = true -> hw_mue (hw_step P w) l k = hw_mue (hw w) l k.

Lemma mue_evolves P `{!MueStable P} h h' l k :
  hw_evolves P h h' -> mue_complete (hw_mue h l k) = true -> hw_mue h' l k = hw_mue h l k.
Proof.
  intros He Hc. apply (He (fun x => hw_mue x l k = hw_mue h l k)); [|done].
  intros w E. rewrite mue_stable; [done|by rewrite E].
Qed.

#[export] Instance demo_mue_stable : MueStable demo_platform.
Proof. by intros w l k _. Qed.

(** The direct puts of a trace. *)
Definition puts (t : list event) : list put_view :=
  omap (fun e => match e with EvInject _ d _ => Some (view_put d) | _ => None end) t.

Lemma puts_app t1 t2 : puts (t1 ++ t2) = puts t1 ++ puts t2.
Proof. apply omap_app. Qed.
Lemma puts_reports bs : puts (map EvStatus bs) = [].
Proof. by induction bs as [|b bs IH]. Qed.

(** An object with its counter as it was read. *)
Abbreviation seen_t := (nat * mu_element)%type.
Definition rreport (D : nat -> mudm_rdma_object) (x : seen_t) : list (Z * Z) :=
  if negb (local_request_id (D x.1) =? 0)
  then [(local_request_id (D x.1), u32 (mu_error x.2))] else [].
(** The put that ends the transfer on the remote side. *)
Definition notice (pa : Z) (D : nat -> mudm_rdma_object) (x : seen_t) : list put_view :=
  let remote := remote_rdma_obj_pa (D x.1) in
  if remote =? 0 then [] else
  [mkPut (if negb (mu_error x.2 =? 0) then pa + OFF_rdma_EINVAL_source else pa + OFF_rdma_GOOD_source)
         (remote + OFF_mue_error) 8 (put_word remote)].

(** The objects that wait for a remote notification have usable connections. *)
Definition remote_ready (n : nat) (r : mudm_rdma_object) (w : world) : Prop :=
  remote_rdma_obj_pa r <> 0 -> exists c cc, local_connect r = Some c /\
    c_magic cc = CONN_MAGIC /\ put_ready c n cc w /\ ctr_ok (remote_rdma_obj_pa r).

Lemma put_ready_inject c n cc P l d w w' :
  put_ready c (S n) cc w -> inject1 P l d w w' -> put_ready c n cc w'.
Proof.
  intros (Hc & Hh & Hr) Hi. split_and!; [|done|].
  - pose proof (inject1_sends _ _ _ _ _ Hi) as Hs. apply sends_conn in Hs. by rewrite Hs.
  - destruct (decide (l = injfifo_ctls cc)) as [->|Hne]; [by eapply inject1_ready|].
    destruct Hi as (i & h & fs & _ & -> & _ & Hi). destruct Hr as [A B C [E1 E2]].
    split; wsimp; [done..| |]; rewrite Hi by done; [done|]. split; lia.
Qed.

(** What polling the objects of link [l] needs of a status callback that
    posts: it uses at most [K] free slots of any injection FIFO, keeps the
    connections, and leaves alone the counters of finished objects that it
    did not allocate itself.  Polling injects one notification and resets
    counters between two calls of it. *)
Class PostingRdma (P : platform) (l : nat) (Env : nat -> world -> Prop) (K : nat) : Prop := {
  rdma_posts :: PostingStatus P (rdma_pool l) ro_dat Env;
  env_mue : forall n i u w, Env n w ->
    Env n (w <| hw ::= fun h => h <| hw_mue ::= fun f => <[l := <[i := u (f l i)]> (f l)]> f |> |>);
  env_inject : forall n q d w w', Env (S n) w -> inject1 P q d w w' -> Env n w';
  status_keeps : forall reqs n w fl act, pool_wf (rdma_pool l) w fl act -> Env (S n) w ->
    wp (cb_status P reqs) (fun _ w' =>
      mudm_context_phys_addr w' = mudm_context_phys_addr w /\
      (forall i d, heap_of (rdma_pool l) w !! i = Some d -> i ∉ fl ++ act ->
         mue_complete (hw_mue (hw w) l (ro_mue d)) = true ->
         hw_mue (hw w') l (ro_mue d) = hw_mue (hw w) l (ro_mue d)) /\
      (forall c m cc, put_ready c (m + K) cc w -> put_ready c m cc w')) w }.
Arguments env_mue P {l Env K _} n i u w _.
Arguments env_inject P l {Env K _} n q d w w' _ _.
Arguments status_keeps P l {Env K _} reqs n w fl act _ _.

(** A callback that does not call the driver is one. *)
Lemma quiet_posts_rdma P `{!QuietStatus P} l : PostingRdma P l (fun _ _ => True) 0.
Proof.
  split; [by apply quiet_posts|done..|]. intros reqs n w fl act Hw _.
  eapply wp_mono; [by apply (quiet_status reqs), Hw|].
  intros r w' (h & -> & Hm). split_and!; [done|intros ????; cbn; by rewrite Hm|].
  intros c m cc Hp. rewrite Nat.add_0_r in Hp. by apply (put_ready_ext c m cc w).
Qed.

Section poll.
Context (P : platform) `{!MuLive P, !MueStable P} (l : nat) (pa : Z).
Context (D : nat -> mudm_rdma_object) (m0 : nat -> mu_element).
Abbreviation O := (rdma_pool l).
Context {Env : nat -> world -> Prop} {K : nat} `{!PostingRdma P l Env K}.
Abbreviation walk w v h f fl a act facc racc mro todo rest := (walk_inv O ro_dat D w h f fl a act
  (mro2free_list v) (last_in_mro2free_list v) facc
  (mro2repost_list v) (last_in_mro2repost_list v) racc mro todo rest).

(** What is known of the objects still to look at. *)
Record pending_ok (n : nat) (todo : list nat) (w : world) : Prop := mkPending {
  po_pa : mudm_context_phys_addr w = pa;
  po_mue : forall i, i ∈ todo -> mue_complete (m0 i) = true ->
             hw_mue (hw w) l (ro_mue (D i)) = m0 i;
  po_inj : forall i j, i ∈ todo -> j ∈ todo -> ro_mue (D i) = ro_mue (D j) -> i = j;
  po_ready : forall i, i ∈ todo -> remote_ready n (D i) w }.

Lemma pending_ok_ext n todo w w' :
  mudm_context_phys_addr w' = mudm_context_phys_addr w ->
  (forall i, i ∈ todo -> hw_mue (hw w') l (ro_mue (D i)) = hw_mue (hw w) l (ro_mue (D i))) ->
  conn_list w' = conn_list w -> held w' = held w -> inj_state w' = inj_state w -> inj w' = inj w ->
  pending_ok n todo w -> pending_ok n todo w'.
Proof.
  intros E1 E2 E3 E4 E5 E6 [A B C E]. split; [congruence| |done|].
  - intros i Hi Hc. rewrite E2 by done. by apply B.
  - intros i Hi Hr. destruct (E i Hi Hr) as (c & cc & ? & ? & ? & ?). exists c, cc.
    split_and!; [done|done|by eapply put_ready_ext|done].
Qed.
Lemma pending_ok_put n todo h f a w : pending_ok n todo w -> pending_ok n todo (put O h f a w).
Proof. by apply pending_ok_ext. Qed.

Lemma pending_ok_mono n m todo todo' w :
  (m <= n)%nat -> (forall i, i ∈ todo' -> i ∈ todo) -> pending_ok n todo w -> pending_ok m todo' w.
Proof.
  intros Hle Hin [A B C E]. split; [done|by auto|by auto|]. intros i Hi Hr.
  destruct (E i ltac:(auto) Hr) as (c & cc & ? & ? & ? & ?). exists c, cc.
  split_and!; [done|done|by eapply put_ready_mono|done].
Qed.

Lemma notify_remote_ok b n w v h f fl a act facc racc i todo :
  walk w v h f fl a act facc racc (Some i) (i :: todo) (i :: todo) -> pending_ok (S n) (i :: todo) w ->
  Env (S b) w ->
  let m := hw_mue (hw w) l (ro_mue (D i)) in mue_complete m = true ->
  wp (notify_remote P l i) (fun ok w' => ok = true /\ exists evs,
    walk w' v h f fl a act facc racc (Some i) (i :: todo) (i :: todo) /\ Env b w' /\
    pending_ok n (i :: todo) w' /\ hw_mue (hw w') l (ro_mue (D i)) = m /\
    trace w' = trace w ++ evs /\ statuses evs = [] /\ puts evs = notice pa D (i, m)) w.
Proof.
  intros Hi Hp Henv m Hm. destruct (walk_head _ _ _ _ _ _ _ _ _ _ _ _ _ _ _ _ _ _ Hi) as (d & Hd & Hd' & Ed).
  injection Ed as Er Em _ _ Ec. unfold notify_remote, notice. cbn [fst snd].
  apply wp_bind. eapply wp_get_node; [done|]. rewrite Er.
  destruct (Z.eqb_spec (remote_rdma_obj_pa (D i)) 0) as [E0|E0].
  - apply wp_ret. split; [done|]. exists []. rewrite app_nil_r.
    split_and!; [done|by apply (env_less P O ro_dat)|by eapply pending_ok_mono, Hp; auto|done..].
  - destruct Hp as [A B C R]. destruct (R i ltac:(left) E0) as (c & cc & Hc & Hmag & Hput & Hctr).
    apply wp_bind, wp_gets, wp_bind, wp_gets. rewrite Em, Ec, Hc, A. fold m.
    apply wp_bind, wp_ret, wp_bind, (wp_get_conn _ cc); [by destruct Hput|].
    rewrite Hmag, Z.eqb_refl. cbn [negb]. apply wp_bind.
    assert (Hoff : 0 <= remote_rdma_obj_pa (D i) + OFF_mue_error < 2 ^ 37).
    { destruct Hctr. unfold OFF_mue_error. lia. }
    eapply (wp_direct_put P _ n cc); [exact Hput|exact Hctr|exact Hoff|].
    intros d' w' Hv Hinj _. apply wp_ret. split; [done|].
    assert (R' : forall j, j ∈ i :: todo -> remote_ready n (D j) w').
    { intros j Hj Hrj. destruct (R j Hj Hrj) as (cj & ccj & ? & ? & ? & ?).
      exists cj, ccj. split_and!; [done|done|by eapply put_ready_inject|done]. }
    pose proof (env_inject P l _ _ _ _ _ Henv Hinj) as Henv'.
    destruct Hinj as (i' & h' & fs & Hev & -> & _).
    exists [EvInject (injfifo_ctls cc) d' (mem w !! Pa_Payload d')].
    assert (Hmm : hw_mue h' l (ro_mue (D i)) = m) by (by apply (mue_evolves P (hw w))).
    split_and!; [|done|split; [done| |done|done]|by wsimp|by wsimp|done|by cbn; rewrite Hv].
    + destruct Hi as [A1 B1 C1 G1 N1 E1]. by split.
    + intros j Hj Hcj. wsimp. rewrite <- (B j Hj Hcj). apply (mue_evolves P (hw w)); [done|].
      by rewrite B.
Qed.

Lemma take_rdma_refid_ok b n w v h f fl a act facc racc i todo m :
  walk w v h f fl a act facc racc (Some i) (i :: todo) (i :: todo) -> pending_ok n (i :: todo) w ->
  Env b w -> hw_mue (hw w) l (ro_mue (D i)) = m ->
  wp (take_rdma_refid l i v) (fun v' w' => exists h',
    walk w' v' h' f fl a act facc racc (Some i) (i :: todo) todo /\ Env b w' /\ pending_ok n todo w' /\
    trace w' = trace w /\ v' = v <| r_refid_list := r_refid_list v ++ rreport D (i, m) |>) w.
Proof.
  intros Hi Hp Henv Hm. destruct (walk_head _ _ _ _ _ _ _ _ _ _ _ _ _ _ _ _ _ _ Hi) as (d & Hd & Hd' & Ed).
  injection Ed as _ Em _ Er _. unfold take_rdma_refid, rreport. cbn [fst snd].
  apply wp_bind. eapply wp_get_node; [done|]. rewrite Er, Em.
  assert (Hi' : walk w v h f fl a act facc racc (Some i) (i :: todo) todo).
  { destruct Hi as [A B C G Hn E]. split; [done..|]. intros k Hk. apply E. set_solver. }
  pose proof (walk_front _ _ _ _ _ _ _ _ _ _ _ _ _ _ _ _ _ _ Hi') as Hf.
  assert (Hft : i ∉ todo) by (intros ?; apply Hf, elem_of_app; by right).
  destruct (negb (local_request_id (D i) =? 0)).
  - apply wp_bind. eapply walk_upd_front; [exact Hi'|done|done|by right|done|].
    intros Hi2. apply wp_bind, wp_gets.
    match goal with |- context [put O ?h1 f a w] => set (h' := h1) in *; set (w1 := put O h' f a w) in * end.
    assert (Hm1 : hw_mue (hw w1) l (ro_mue (D i)) = m) by (subst w1; unfold put; by rewrite pl_hw_put).
    rewrite Hm1. apply wp_bind, wp_modify, wp_ret. exists h'. split_and!; [|..|done].
    + destruct Hi2 as [A1 B1 C1 G1 N1 E1]. by split.
    + by apply (env_mue P), (env_put P O ro_dat).
    + assert (Hinj : forall j, j ∈ todo -> ro_mue (D i) <> ro_mue (D j)).
      { intros j Hj Heq. apply Hft. destruct Hp as [_ _ C _].
        rewrite (C i j); [done|left|by right|done]. }
      apply (pending_ok_mono n n (i :: todo) todo) in Hp; [|done|intros k Hk; by right].
      eapply pending_ok_ext, Hp; [done| |done..].
      intros j Hj. subst w1. unfold put. psimp. cbn [hw_mue upd_field].
      rewrite fn_lookup_insert, fn_lookup_insert_ne by by apply Hinj. done.
    + subst w1. unfold put. by psimp.
  - apply wp_ret. exists h. rewrite app_nil_r. split_and!; [done|done| |done|by destruct v].
    eapply pending_ok_mono, Hp; [done|by right].
Qed.

(** A report while the walk goes on. *)
Lemma walk_status_rdma reqs b n w h f fl a act hd1 lst1 acc1 hd2 lst2 acc2 q todo :
  walk_inv O ro_dat D w h f fl a act hd1 lst1 acc1 hd2 lst2 acc2 q todo todo -> Env (S b) w ->
  pending_ok (n + K) todo w ->
  wp (status_cb P reqs) (fun _ w' => exists h' f' fl' a' new more,
    walk_inv O ro_dat D w' h' f' fl' a' (new ++ act) hd1 lst1 acc1 hd2 lst2 acc2 q todo todo /\
    fl ≡ₚ new ++ fl' /\ trace w' = trace w ++ EvStatus reqs :: more /\ statuses more = [] /\
    Env b w' /\ pending_ok n todo w') w.
Proof.
  intros Hi Henv [A B C R]. pose proof (walk_status O ro_dat D P reqs b _ _ _ _ _ _ _ _ _ _ _ _ _ _ Hi Henv) as H.
  pose proof Hi as [Hw Hh Hp Hact Hap Hdat]. set (w1 := w <| trace ::= fun t => t ++ [EvStatus reqs] |>).
  assert (Hwf : pool_wf O w1 fl act).
  { apply (pool_wf_ext O w); [by subst w1; psimp|done|]. rewrite <- (put_id O w). unfold heap_of.
    rewrite Hw. apply pool_wf_put; [by destruct Hp|done| |done].
    rewrite app_assoc, (Permutation_app_comm act fl) in Hap. by apply list.NoDup_app in Hap as (? & _). }
  pose proof (status_keeps P l reqs b w1 fl act Hwf (env_trace P O ro_dat _ _ _ Henv)) as Hk.
  unfold wp in *. unfold status_cb, bind, emit, modify in *. fold w1 in H |- *.
  destruct (cb_status P reqs w1) as [r w'| |]; [|done..].
  destruct H as (h' & f' & fl' & a' & new & more & X1 & X2 & X3 & X4 & X5). destruct Hk as (Y1 & Y2 & Y3).
  exists h', f', fl', a', new, more. split_and!; [done..|].
  assert (Hdet : forall i, i ∈ todo -> exists d, heap_of O w1 !! i = Some d /\ ro_mue d = ro_mue (D i) /\ i ∉ fl ++ act).
  { intros i Hin. specialize (Hdat i ltac:(apply elem_of_app; by right)).
    assert (E1 : heap_of O w1 = h) by (unfold heap_of; subst w1; psimp; by rewrite Hw). rewrite E1.
    destruct (h !! i) as [d|]; [|done]. injection Hdat as _ Em _ _ _. exists d. split_and!; [done|done|].
    intros [Hf|Hf]%elem_of_app.
    - destruct Hp as [_ _ _ _ (_ & Hx & _)%list.NoDup_app]. apply (Hx i Hf). set_solver.
    - apply list.NoDup_app in Hap as (_ & Hx & _). apply (Hx i Hf). set_solver. }
  split; [by rewrite Y1| |done|].
  - intros i Hin Hm. destruct (Hdet i Hin) as (d & Hd & Em & Hoff). specialize (Y2 i d Hd Hoff).
    rewrite Em in Y2. change (hw w1) with (hw w) in Y2. rewrite (B i Hin Hm) in Y2. by apply Y2.
  - intros i Hin Hr. destruct (R i Hin Hr) as (c & cc & ? & ? & ? & ?). exists c, cc.
    split_and!; [done|done| |done]. apply Y3. by apply (put_ready_ext c _ cc w).
Qed.

Lemma rpoll_complete_ok b n w v i h f fl a act facc racc todo :
  walk w v h f fl a act facc racc (Some i) (i :: todo) (i :: todo) ->
  pending_ok (S (n + K)) (i :: todo) w -> Env (S (S b)) w ->
  (length (r_refid_list v) < NUM_REFID)%nat ->
  let m := hw_mue (hw w) l (ro_mue (D i)) in mue_complete m = true ->
  wp (rpoll_complete P l i v) (fun r w' => exists v' nxt h' f' fl' a' new facc' own evs,
    r = Some (v', nxt) /\ walk w' v' h' f' fl' a' (new ++ act) facc' racc nxt todo todo /\
    pending_ok n todo w' /\ Env b w' /\
    (length (r_refid_list v') < NUM_REFID)%nat /\
    new ++ fl' ++ facc' ≡ₚ fl ++ facc ++ [i] /\
    trace w' = trace w ++ evs /\ answered own evs /\ puts own = notice pa D (i, m) /\
    r_refid_list v ++ rreport D (i, m) = concat (statuses own) ++ r_refid_list v' /\
    Forall (fun b => length b = NUM_REFID) (statuses own) /\
    counters_pending v' = counters_pending v) w.
Proof.
  intros Hi Hp Henv Hroom m Hm. unfold rpoll_complete. apply wp_bind.
  eapply wp_mono; [by eapply notify_remote_ok|].
  intros ok w1 (-> & evs & Hi1 & He1 & Hp1 & Hm1 & T1 & S1 & P1). cbn [negb]. apply wp_bind.
  eapply wp_mono; [by eapply take_rdma_refid_ok|]. intros v1 w2 (h2 & Hi2 & He2 & Hp2 & T2 & ->).
  fold m. apply wp_bind. eapply wp_mono; [by eapply (walk_append_free O ro_dat D)|].
  intros [[hd lst] nxt] w3 (h3 & Hhd & -> & Hi3). apply (pending_ok_put _ _ h3 f a) in Hp2.
  apply (env_put P O ro_dat _ (mkView h3 f a)) in He2.
  cbn [r_refid_list upd_field]. set (v2 := _ <| last_in_mro2free_list := lst |>) in *.
  destruct (decide _) as [Hfull|Hnot].
  - apply wp_bind. eapply wp_mono; [by eapply (walk_give_free O ro_dat D)|].
    intros [] w4 (h4 & f4 & -> & Hi4). apply (pending_ok_put _ _ h4 f4 a) in Hp2.
    apply (env_put P O ro_dat _ (mkView h4 f4 a)) in He2. apply wp_bind.
    eapply wp_mono; [by eapply walk_status_rdma|].
    intros r w5 (h5 & f5 & fl5 & a5 & new & more & Hi5 & Hperm & T5 & S5 & He5 & Hp5). apply wp_ret.
    set (rs := r_refid_list v ++ rreport D (i, m)) in *.
    eexists _, nxt, h5, f5, fl5, a5, new, [], (evs ++ [EvStatus rs]), (evs ++ EvStatus rs :: more).
    rewrite statuses_app, puts_app, S1, P1.
    split_and!; [done|exact Hi5|done|done| | | | |cbn|cbn|by constructor|done].
    + cbn. unfold NUM_REFID. lia.
    + by rewrite app_nil_r, <- Hperm, (Permutation_app_comm fl).
    + rewrite T5. unfold put. psimp. by rewrite T2, T1, app_assoc.
    + apply answered_app; [apply answered_refl|by apply answered_one].
    + by rewrite app_nil_r.
    + by rewrite !app_nil_r.
  - apply wp_ret. eexists _, nxt, h3, f, fl, a, [], (facc ++ [i]), evs, evs. rewrite S1, P1.
    split_and!; [done|done| |by apply (env_less P O ro_dat)| |done| |apply answered_refl|done|done|by constructor|done].
    + eapply pending_ok_mono, Hp2; [lia|done].
    + cbn. cbn in Hnot. rewrite length_app in *. unfold rreport in *.
      destruct (negb _); cbn in *; unfold NUM_REFID in *; lia.
    + unfold put. psimp. by rewrite T2.
Qed.

Lemma rpoll_pending_ok b n w v i h f fl a act facc racc todo :
  walk w v h f fl a act facc racc (Some i) (i :: todo) (i :: todo) -> pending_ok n (i :: todo) w ->
  Env b w ->
  wp (rpoll_pending l i v) (fun r w' => exists h',
    walk w' (fst r) h' f fl a act facc (racc ++ [i]) (snd r) todo todo /\ pending_ok n todo w' /\
    Env b w' /\ trace w' = trace w /\ r_refid_list (fst r) = r_refid_list v /\
    counters_pending (fst r) = u64 (counters_pending v + 1)) w.
Proof.
  intros Hi Hp Henv. unfold rpoll_pending. apply wp_bind.
  eapply wp_mono; [eapply (walk_append_repost O ro_dat D); exact Hi|].
  intros [[hd lst] nxt] w2 (h2 & -> & Hi2). apply wp_ret. exists h2.
  split_and!; [done| |by apply (env_put P O ro_dat)|unfold put; by rewrite pl_trace_put|done|done].
  apply pending_ok_put. eapply pending_ok_mono, Hp; [done|by right].
Qed.

(** Outcome of the walk from [todo]: the objects with the counters as they
    were read. *)
Lemma rpoll_loop_ok fuel w v mro h f fl a act facc racc todo :
  (length todo <= fuel)%nat ->
  walk w v h f fl a act facc racc mro todo todo -> pending_ok (length todo * S K) todo w ->
  Env (S (2 * length todo)) w ->
  (length (r_refid_list v) < NUM_REFID)%nat -> 0 <= counters_pending v < 2 ^ 64 ->
  wp (rpoll_loop P fuel l mro v) (fun r w' => exists v' h' f' fl' a' new facc' (seen : list seen_t) own evs,
    let done_ := filter (fun x => mue_complete x.2 = true) seen in
    let pend := filter (fun x => mue_complete x.2 = false) seen in
    r = Some v' /\ seen.*1 = todo /\
    (forall x, x ∈ seen -> mue_complete (m0 x.1) = true -> x.2 = m0 x.1) /\
    walk w' v' h' f' fl' a' (new ++ act) facc' (racc ++ pend.*1) None [] [] /\ Env 1%nat w' /\
    new ++ fl' ++ facc' ≡ₚ fl ++ facc ++ done_.*1 /\
    trace w' = trace w ++ evs /\ answered own evs /\ puts own = done_ ≫= notice pa D /\
    r_refid_list v ++ (done_ ≫= rreport D) = concat (statuses own) ++ r_refid_list v' /\
    Forall (fun b => length b = NUM_REFID) (statuses own) /\
    (length (r_refid_list v') < NUM_REFID)%nat /\
    counters_pending v' = u64 (counters_pending v + Z.of_nat (length pend))) w.
Proof.
  revert fuel w v mro h f fl a act facc racc.
  induction todo as [|i todo IH]; intros fuel w v mro h f fl a act facc racc Hl Hi Hp Henv Hroom Hc.
  - pose proof (parts_todo _ _ _ _ _ _ _ _ _ _ _ (wi_parts _ _ _ _ _ _ _ _ _ _ _ _ _ _ _ _ _ _ Hi)) as E.
    cbn in E. subst mro. destruct fuel; cbn [rpoll_loop]; apply wp_ret;
      exists v, h, f, fl, a, [], facc, [], [], []; cbn; rewrite !app_nil_r, Z.add_0_r, u64_small by done;
      (split_and!; try done; by intros ? []%elem_of_nil || constructor).
  - pose proof (parts_todo _ _ _ _ _ _ _ _ _ _ _ (wi_parts _ _ _ _ _ _ _ _ _ _ _ _ _ _ _ _ _ _ Hi)) as [-> _].
    destruct (walk_head _ _ _ _ _ _ _ _ _ _ _ _ _ _ _ _ _ _ Hi) as (d & Hd & Hd' & Ed).
    injection Ed as _ Em _ _ _.
    destruct fuel as [|fuel]; [cbn in Hl; lia|]. cbn [length] in Hl, Hp, Henv. cbn [rpoll_loop]. apply wp_bind.
    replace (S (2 * S (length todo)))%nat with (S (S (S (2 * length todo)))) in Henv by lia.
    replace (S (length todo) * S K)%nat with (S (length todo * S K + K)) in Hp by lia.
    eapply wp_get_node; [done|]. rewrite Em. apply wp_bind, wp_gets. apply wp_bind.
    set (m := hw_mue (hw w) l (ro_mue (D i))).
    assert (Hm0 : mue_complete (m0 i) = true -> m = m0 i) by (apply (po_mue _ _ _ Hp); left).
    destruct (mue_complete m) eqn:Es.
    + eapply wp_mono; [by eapply rpoll_complete_ok|].
      intros r w1 (v1 & p1 & h1 & f1 & fl1 & a1 & new1 & facc1 & own1 & evs1 & -> & Hi1 & Hp1 & He1 & R1 & P1 & T1 & A1 & N1 & C1 & F1 & U1).
      fold m in N1, C1.
      eapply wp_mono; [apply (IH fuel _ _ _ _ _ _ _ _ _ _ ltac:(lia) Hi1 Hp1 He1 R1); by rewrite U1|].
      intros r w2 (v2 & h2 & f2 & fl2 & a2 & new2 & facc2 & seen & own2 & evs2 & -> & G2 & M2 & Hi2 & He2 & P2 & T2 & A2 & N2 & C2 & F2 & R2 & U2).
      exists v2, h2, f2, fl2, a2, (new2 ++ new1), facc2, ((i, m) :: seen), (own1 ++ own2), (evs1 ++ evs2).
      rewrite !filter_cons. cbn [snd]. repeat case_decide; try congruence.
      rewrite statuses_app, puts_app.
      split_and!; [done|by cbn; rewrite G2| |by rewrite <- app_assoc|done| | |by apply answered_app| | |by apply list.Forall_app|done|by rewrite U2, U1].
      * intros x [->|Hx]%elem_of_cons; [done|by apply M2].
      * rewrite (Permutation_app_comm new2), <- app_assoc, P2, (app_assoc fl1), app_assoc, P1, <- !app_assoc. done.
      * by rewrite T2, T1, app_assoc.
      * by rewrite N1, N2.
      * cbn. rewrite app_assoc, C1, <- app_assoc, C2, concat_app, <- app_assoc. done.
    + apply wp_bind. eapply wp_mono; [eapply rpoll_pending_ok; [exact Hi|exact Hp|by do 2 apply (env_less P O ro_dat)]|].
      intros [v1 p1] w1 (h1 & Hi1 & Hp1 & He1 & T1 & C1 & U1). cbn [fst snd] in *. apply wp_ret.
      assert (Hu : 0 <= counters_pending v1 < 2 ^ 64) by (rewrite U1; apply u64_range).
      apply (pending_ok_mono _ (length todo * S K) todo todo) in Hp1; [|lia|done].
      eapply wp_mono; [apply (IH fuel _ _ _ _ _ _ _ _ _ _ ltac:(lia) Hi1 Hp1 He1); [by rewrite C1|done]|].
      intros r w2 (v2 & h2 & f2 & fl2 & a2 & new2 & facc2 & seen & own2 & evs2 & -> & G2 & M2 & Hi2 & He2 & P2 & T2 & A2 & N2 & C2 & F2 & R2 & U2).
      exists v2, h2, f2, fl2, a2, new2, facc2, ((i, m) :: seen), own2, evs2.
      rewrite !filter_cons. cbn [snd]. repeat case_decide; try congruence.
      split_and!; [done|by cbn; rewrite G2| |by rewrite <- app_assoc in Hi2|done|done|by rewrite T2, T1|done|done|
                   by rewrite <- C1|done|done|].
      * intros x [->|Hx]%elem_of_cons; [done|by apply M2].
      * rewrite U2, U1. unfold u64. rewrite Zplus_mod_idemp_l. f_equal. cbn [length]. lia.
Qed.
End poll.

(** ** The compare area: sizes *)

Lemma grow_spec fuel k need :
  0 <= k -> k + Z.of_nat fuel <= 63 -> 0 < need <= 2 ^ (k + Z.of_nat fuel) ->
  exists j, k <= j /\ grow fuel (2 ^ k) need = 2 ^ j /\ need <= 2 ^ j /\ (k < j -> 2 ^ (j - 1) < need).
Proof.
  revert k. induction fuel as [|fuel IH]; intros k Hk Hf Hn; cbn [grow].
  - exists k. rewrite Z.add_0_r in Hn. lia.
  - destruct (Z.ltb_spec (2 ^ k) need) as [Hlt|Hge]; [|exists k; lia].
    assert (E : u64 (Z.shiftl (2 ^ k) 1) = 2 ^ (k + 1)).
    { rewrite Z.shiftl_mul_pow2 by lia. rewrite <- Z.pow_add_r by lia. apply u64_small.
      split; [apply Z.pow_nonneg; lia|]. apply Z.pow_lt_mono_r; lia. }
    rewrite E. destruct (IH (k + 1)) as (j & Hj & Eg & Hle & Hmin); [lia|lia| |].
    { replace (k + 1 + Z.of_nat fuel) with (k + Z.of_nat (S fuel)) by lia. done. }
    exists j. split_and!; [lia|done|done|]. intros _.
    destruct (decide (j = k + 1)) as [->|]; [|apply Hmin; lia].
    by replace (k + 1 - 1) with k by lia.
Qed.

Definition ro_at (l : nat) (w : world) (i : nat) : mudm_rdma_object :=
  default (mkRo 0 0 0 0 None None None) (heap_of (rdma_pool l) w !! i).

(** ** Flushing *)

Section flush.
Context (P : platform) `{!QuietStatus P} (l : nat).
Abbreviation O := (rdma_pool l).
Abbreviation F := (touches (fun _ => False) (eq l)).

Definition rdma_cancellation (r : mudm_rdma_object) : list event :=
  if negb (local_request_id r =? 0) then [EvStatus [(local_request_id r, u32 (- ECANCELED))]] else [].

Lemma rdma_put_touches h f a w : F w (put O h f a w).
Proof.
  split_and!; [by destruct w|done|]. intros q Hq. unfold put. cbn. by rewrite fn_lookup_insert_ne.
Qed.

Lemma flush_rdma_loop_ok (D : nat -> mudm_rdma_object) fuel w mro lst h f fl done_ todo :
  (length todo <= fuel)%nat -> has O w h f None -> held w = [] ->
  chain h f fl -> chain h mro todo ->
  (forall i, i ∈ todo -> local_request_id <$> h !! i = Some (local_request_id (D i))) ->
  lst = list.last done_ ->
  wp (flush_rdma_loop P fuel l mro lst) (fun lst' w' => exists h',
    has O w' h' f None /\ held w' = [] /\
    (forall q l, chain h q l -> chain h' q l) /\
    lst' = list.last (done_ ++ todo) /\
    trace w' = trace w ++ (todo ≫= fun i => rdma_cancellation (D i)) /\ F w w') w.
Proof.
  revert fuel w mro lst h done_.
  induction todo as [|i todo IH]; intros fuel w mro lst h dn Hl Hw Hh Hf Ht HD ->.
  - cbn in Ht. subst mro. destruct fuel; cbn [flush_rdma_loop]; apply wp_ret; exists h;
      cbn; rewrite !app_nil_r; split_and!; done.
  - pose proof Ht as Hc. destruct Ht as [-> (d & Hd & Ht)]. destruct fuel as [|fuel]; [cbn in Hl; lia|].
    cbn [length] in Hl. cbn [flush_rdma_loop]. apply wp_bind.
    eapply wp_get_node; [unfold heap_of; by rewrite Hw|]. apply wp_bind, wp_modify, wp_bind.
    set (wm := w <| hw ::= _ |>).
    assert (Hwm : has O wm h f None) by (unfold wm, has; psimp; exact Hw).
    eapply wp_upd_node'; [exact Hwm|exact Hd|].
    pose proof (HD i ltac:(left)) as E. rewrite Hd in E. injection E as E.
    set (h1 := alter _ i h). set (w1 := put O h1 f None wm).
    assert (Hto : F w w1) by (etrans; [apply touches_hw|apply rdma_put_touches]).
    assert (Hh1 : held w1 = []) by (unfold w1, put; rewrite pl_held_put; exact Hh).
    assert (Hch : forall q l, chain h q l -> chain h1 q l) by (intros; by apply chain_alter_data).
    assert (Hi1 : exists d1, h1 !! i = Some d1 /\ ro_next d1 = ro_next d).
    { subst h1. rewrite lookup_alter_eq, Hd. cbn. eauto. }
    destruct Hi1 as (d1 & Hd1 & E1).
    assert (Hnd : i ∉ todo) by (by apply chain_NoDup, list.NoDup_cons in Hc as [? _]).
    apply wp_bind.
    apply (wp_mono _ (fun _ w2 => has O w2 h1 f None /\ held w2 = [] /\
             trace w2 = trace w ++ rdma_cancellation (D i) /\ F w w2)).
    + unfold rdma_cancellation. rewrite <- E. destruct (negb (local_request_id d =? 0)); cbn [when].
      * apply wp_bind, (wp_status_cb P); [done|].
        intros r hw' _. apply wp_ret. split_and!; [unfold has; psimp; apply has_put|by wsimp|by wsimp|].
        etrans; [exact Hto|apply touches_trace].
      * apply wp_ret. rewrite app_nil_r. split_and!; [apply has_put|done|done|done].
    + intros [] w2 (Hw2 & Hh2 & Ht2 & Hto2). apply wp_bind.
      eapply wp_get_node; [unfold heap_of; by rewrite Hw2|]. rewrite E1.
      eapply wp_mono; [apply (IH fuel _ _ _ h1 (dn ++ [i])); [lia|done|done|by apply Hch|by apply Hch| |]|].
      * intros k Hk. subst h1. rewrite lookup_alter_ne by (intros ->; done). apply HD. by right.
      * by rewrite list.last_snoc.
      * intros lst' w' (h' & A & B & C & -> & T & To). exists h'. rewrite <- app_assoc in *.
        split_and!; [done|done|by auto|done| |by etrans].
        rewrite T, Ht2, <- app_assoc. done.
Qed.

Lemma flush_rdma_ok w fl al :
  pool_wf O w fl al ->
  wp (flush_rdma_counter_reqid P l) (fun r w' => r = 0 /\ pool_wf O w' (al ++ fl) [] /\
    trace w' = trace w ++ (al ≫= fun i => rdma_cancellation (ro_at l w i)) /\ F w w') w.
Proof.
  intros Hw. apply (flush_with_ok O (fun n => flush_rdma_loop P n l) F); [by intros; apply rdma_put_touches|done|].
  intros h f i Eh Hf Ha w0. eapply wp_mono; [apply (flush_rdma_loop_ok (ro_at l w) _ _ _ _ h f fl [] al)|].
  { by eapply chain_length. } { apply has_put. } { unfold w0, put. rewrite pl_held_put. apply Hw. }
  { done. } { done. }
  { intros k Hk. unfold ro_at. rewrite Eh. by destruct (chain_is_Some _ _ _ k Ha Hk) as [d ->]. }
  { done. }
  done.
Qed.
End flush.

(** ** Properties *)

Section polling.
Context (P : platform) `{!MuLive P, !MueStable P} (l : nat) (w : world).
Context (fl al : list nat).
Abbreviation O := (rdma_pool l).
Abbreviation D := (ro_at l w).
Abbreviation now i := (hw_mue (hw w) l (ro_mue (D i))).
Context (Env : nat -> world -> Prop) (K : nat) `{!PostingRdma P l Env K}.

End polling.

Section compare_area.
Lemma compute_rdma_section_size_ok max_connections num_io_links :
  0 <= max_connections < 2 ^ 28 -> 1 <= num_io_links ->
  let '(size, n) := compute_rdma_section_size max_connections num_io_links in
  exists k, 11 <= k /\ size = 2 ^ k /\ 127 <= n /\
    (n + 1) * SIZEOF_mu_element <= size /\
    (11 < k -> size < 2 * ((n + 1) * SIZEOF_mu_element)) /\
    (if num_io_links >? 1 then 2 else 4) * max_connections <= n + 1 /\
    n <= Z.max 128 ((if num_io_links >? 1 then 2 else 4) * max_connections).
Proof.
  intros Hm Hl. unfold compute_rdma_section_size, SIZEOF_mu_element.
  set (o := if num_io_links >? 1 then 2 else 4).
  assert (Ho : o = 2 \/ o = 4) by (subst o; destruct (num_io_links >? 1); auto).
  rewrite u32_small by lia.
  set (e := if o * max_connections <? 128 then 128 else o * max_connections).
  assert (He : 128 <= e < 2 ^ 31 /\ o * max_connections <= e)
    by (subst e; destruct (Z.ltb_spec (o * max_connections) 128); lia).
  assert (He' : e <= Z.max 128 (o * max_connections)) by (subst e; destruct (Z.ltb_spec (o * max_connections) 128); lia).
  rewrite u64_small by lia.
  destruct (grow_spec 52 11 (e * 16)) as (k & Hk & Eg & Hle & Hmin); [lia|cbn; lia|cbn; lia|].
  change (2 ^ 11) with 2048 in Eg. rewrite Eg.
  assert (E4 : 2 ^ k = 2 ^ (k - 4) * 16).
  { change 16 with (2 ^ 4). rewrite <- Z.pow_add_r by lia. f_equal. lia. }
  assert (E1 : 2 ^ k = 2 * 2 ^ (k - 1)).
  { change 2 with (2 ^ 1) at 2. rewrite <- Z.pow_add_r by lia. f_equal. lia. }
  exists k. destruct (Z.eqb_spec (2 ^ k) (e * 16)); split_and!; try lia.
Qed.

(** The compare area is the smallest power of two, of at least 2048
    bytes, that holds the counters (at least 128), and there is always
    room after them for the control element. *)
Theorem compute_rdma_section_size_correct max_connections num_io_links :
  0 <= max_connections < 2 ^ 28 -> 1 <= num_io_links ->
  let '(size, n) := compute_rdma_section_size max_connections num_io_links in
  exists k, 11 <= k /\ size = 2 ^ k /\ 127 <= n /\
    (n + 1) * SIZEOF_mu_element <= size /\
    (11 < k -> size < 2 * ((n + 1) * SIZEOF_mu_element)) /\
    (if num_io_links >? 1 then 2 else 4) * max_connections <= n + 1.
Proof.
  intros Hm Hl. pose proof (compute_rdma_section_size_ok _ _ Hm Hl) as H. destruct (compute_rdma_section_size _ _).
  destruct H as (k & A & B & C & D & E & F & _). by exists k.
Qed.
End compare_area.

(** ** Witnesses: three transfers, one done, one failed, one running *)

Definition demo_running : world := demo_world
  <| hw ::= fun h => h <| hw_mue := fun _ k =>
       match k with O => mkMue 0 0 | S O => mkMue 100 (2 ^ 64 - 22) | _ => mkMue 512 0 end |> |>
  <| rdma ::= fun f => <[0%nat := (f 0%nat) <| rdma_free_list := None |> <| counter_list := Some 0%nat |>
       <| rdma_obj_list := list_to_map [
          (0%nat, mkRo 0x30000 0 0x10000 51 (Some 0%nat) (Some 1%nat) None);
          (1%nat, mkRo 0 1 0x10010 52 (Some 0%nat) (Some 2%nat) (Some 0%nat));
          (2%nat, mkRo 0 2 0x10020 53 (Some 0%nat) None (Some 1%nat))] |>]> f |>.

Lemma demo_running_wf : pool_wf (rdma_pool 0) demo_running [] [0; 1; 2]%nat.
Proof.
  split; [done| |by apply (bool_decide_unpack _)|done]. by apply (walk_sound 3).
Qed.

(** A callback that starts the next transfer as soon as one is reported. *)
Definition post_next_object (l : nat) : MW Z :=
  mro <- allocate_rdma_object l ;;
  match mro with
  | Some i =>
      upd_node (rdma_pool l) i (fun r => r <| local_request_id := 90 |>) ;;;
      release_rdma_obj_to_poll l i
  | None => ret tt
  end ;;;
  ret 0.

Lemma post_next_object_ok l fl act w :
  pool_wf (rdma_pool l) w fl act ->
  wp (post_next_object l) (fun _ w' => exists fl' new r' more,
    w' = w <| rdma := r' |> <| trace ::= fun t => t ++ more |> /\ statuses more = [] /\
    pool_wf (rdma_pool l) w' fl' (new ++ act) /\ fl ≡ₚ new ++ fl' /\
    (forall k, k ∉ fl ++ act -> heap_of (rdma_pool l) w' !! k = heap_of (rdma_pool l) w !! k) /\
    (forall k, k ∈ act -> ro_dat <$> heap_of (rdma_pool l) w' !! k = ro_dat <$> heap_of (rdma_pool l) w !! k)) w.
Proof.
  intros Hw. destruct (pool_wf_has _ _ _ _ Hw) as (h & f & a & Hh & Eh & Hf & Ha & Hnd & Hl & E).
  set (u := fun c : rdma_obj_controls => c <| rdma_allocated_count ::= fun n => u64 (n + 1) |>).
  unfold post_next_object, allocate_rdma_object. rewrite Eh. do 2 apply wp_bind.
  apply (wp_with_lock (rdma_pool l)); [done|]. apply wp_bind.
  eapply (wp_take_free (rdma_pool l) h f a fl); [by apply has_locked|done| |].
  { intros -> ->. apply wp_bind, wp_modify, wp_ret. split; [done|]. do 2 apply wp_ret.
    exists [], [], (rdma (roc_bump l u w)), []. match goal with |- ?x = _ /\ _ => set (w1 := x) end.
    assert (E1 : w1 = roc_bump l u w) by (subst w1; destruct w; cbn in Hl; by subst).
    rewrite E1. split_and!; [destruct w; unfold roc_bump, upd_field; cbn; by rewrite app_nil_r|done|
      by apply roc_bump_wf|done| |].
    all: intros k _; unfold heap_of in *; by rewrite (roc_bump_get l u w), Eh. }
  intros i fl' -> n Hn Hc. apply wp_bind, wp_modify, wp_ret. split; [done|].
  match goal with |- wp _ _ ?x => set (w1 := x) end.
  assert (E1 : w1 = roc_bump l u (put (rdma_pool l) h (nx n) a w)) by (subst w1; destruct w; cbn in Hl; by subst).
  assert (E2 : w1 = w <| rdma := rdma w1 |>) by (rewrite E1; by destruct w).
  assert (Hl1 : held w1 = []) by (by rewrite E2).
  assert (Hg : has (rdma_pool l) w1 h (nx n) a)
    by (unfold has; rewrite E1, roc_bump_get by done; apply has_put).
  clearbody w1. clear E1.
  apply wp_bind. eapply wp_upd_node'; [exact Hg|done|]. apply wp_ret. do 2 apply wp_bind.
  eapply wp_upd_node'; [apply has_put|by rewrite lookup_alter_eq, Hn|]. rewrite put_put.
  match goal with |- context [put _ ?hh] => set (h1 := hh) end.
  assert (Hoff : forall k, k <> i -> h1 !! k = h !! k) by (intros k Hk; subst h1; by rewrite !lookup_alter_ne).
  assert (Hd1 : is_Some (h1 !! i)) by (subst h1; by rewrite !lookup_alter_eq, Hn).
  clearbody h1. apply wp_bind. eapply (wp_post_node (rdma_pool l) ro_dat); [done..|].
  intros w2 h2 Ew Hw2 Ho2 Hd2. destruct (put_rdma l h2 (nx n) (Some i) w1) as (r' & E3).
  rewrite <- Ew in E3. clear Ew. apply wp_modify. cbv beta. apply wp_ret.
  exists fl', [i], r', [EvWakeup]. unfold heap_of in *. psimp.
  split_and!; [rewrite E3, E2; by destruct w|done| |done..]. eapply pool_wf_ext, Hw2; [by psimp|done].
Qed.

Definition posting_platform (l : nat) : platform := mkPlatform (hw_step demo_platform)
  (cb_recv demo_platform) (cb_recv_conn demo_platform) (fun _ => post_next_object l)
  (cb_allocate demo_platform) (cb_free demo_platform) (wakeup_wait demo_platform)
  (cycles_per_usec demo_platform) (off_dummy_counter demo_platform) (off_rgatc demo_platform)
  (off_largest_node_corner demo_platform) (off_num_compute_nodes demo_platform)
  (buf_image demo_platform) (spin_fuel demo_platform).

#[export] Instance posting_live l : MuLive (posting_platform l).
Proof. destruct demo_live as [H1 H2]. by split. Qed.
#[export] Instance posting_mue_stable l : MueStable (posting_platform l).
Proof. by intros w k i _. Qed.

#[export] Instance posting_posts_rdma l : PostingRdma (posting_platform l) l (fun _ _ => True) 0.
Proof.
  split; [split; [done..|]|done|done|]; intros reqs n w fl act Hw _;
    (eapply wp_mono; [by apply post_next_object_ok|]);
    intros r w' (fl' & new & r' & more & -> & Hs & H1 & H2 & H3 & H4).
  - exists fl', new, more. by split_and!.
  - split_and!; [done|done|]. intros c m cc Hp. rewrite Nat.add_0_r in Hp. by apply (put_ready_ext c m cc w).
Qed.


(** That poll, computed: object 0 is used again by the callback. *)
Example posting_rdma_poll :
  match rdma_poll_rdma_counter (posting_platform 0) 0 demo_running with
  | Ok r w' => r = 1 /\ statuses (trace w') = [[(51, 0); (52, 4294967274)]] /\
      counter_list (rdma w' 0) = Some 0%nat /\ local_request_id (ro_at 0 w' 0) = 90 /\
      ro_next (ro_at 0 w' 0) = Some 2%nat
  | _ => False
  end.
Proof. by vm_compute. Qed.

(** What the poll of those three transfers does, computed. *)
Example demo_rdma_poll :
  match rdma_poll_rdma_counter demo_platform 0 demo_running with
  | Ok r w' => r = 1 /\ statuses (trace w') = [[(51, 0); (52, 4294967274)]] /\
      puts (trace w') = [mkPut 0x40040 0x30008 8 (put_word 0x30000)] /\
      rdma_free_list (rdma w' 0) = Some 0%nat /\ counter_list (rdma w' 0) = Some 2%nat
  | _ => False
  end.
Proof. by vm_compute. Qed.

Lemma compute_rdma_section_size_correct_witness :
  exists k, 11 <= k /\ 8192 = 2 ^ k /\ 127 <= 400.
Proof.
  pose proof (compute_rdma_section_size_correct 100 1 ltac:(lia) ltac:(lia)) as (k & A & B & C & _).
  exists k. split_and!; [done|exact B|exact C].
Defined.
