(* ===== verification/ConnList.v ===== *)
(** * Connection lists

    The list operations of bgmudm/mudm_connect.c: a connection block is on
    the free list, on the pending, active or abort list of an I/O link, or
    floating while one thread sets it up.  All lists are threaded through
    the same two links and share one lock. *)

From Stdlib Require Import FunctionalExtensionality.
From S2P Require Import Prelude Chain Bytes Descriptor State Inject Concrete Memory Pools.

(** ** The code

    [set_nx p] and [set_pv p] assign the members [nextconn] and [prevconn]. *)

Definition set_pendlist (l : nat) (p : option nat) : MW unit :=
  modify (fun w => w <| conn_pendlist ::= <[l := p]> |>).
Definition set_activelist (l : nat) (p : option nat) : MW unit :=
  modify (fun w => w <| conn_activelist ::= <[l := p]> |>).
Definition set_abortlist (l : nat) (p : option nat) : MW unit :=
  modify (fun w => w <| conn_abortlist ::= <[l := p]> |>).
Definition set_freelist (p : option nat) : MW unit :=
  modify (fun w => w <| conn_freelist := p |>).

(** [if (p != NULL) p->field = v] *)
Definition upd_opt (p : option nat) (u : mudm_connection -> mudm_connection) : MW unit :=
  match p with Some j => upd_conn j u | None => ret tt end.

Section with_platform.
Context (P : platform).

Definition SIZEOF_mudm_connection := 448.

(** The blocks of the new region are zero but for what is set here. *)
Definition zero_conn : mudm_connection :=
  mkConn zero_desc zero_desc zero_desc 0 CONN_FREE 0 0 0 0 0 0 0 0 0 0 0 0 0 0 None None
    None None None 0 0 0 0 0 0 0.
Definition conn_list_init (max_conn : Z) : MW Z :=
  set_freelist None ;;;
  modify (fun w => w
    <| conn_pendlist ::= fun f => <[1%nat := None]> (<[0%nat := None]> f) |>
    <| conn_activelist ::= fun f => <[1%nat := None]> (<[0%nat := None]> f) |>
    <| conn_abortlist ::= fun f => <[1%nat := None]> (<[0%nat := None]> f) |>) ;;;
  r <- alloc_object P (max_conn * SIZEOF_mudm_connection) (Some FreeMem) ;;
  if negb (fst r =? 0) then ret (fst r) else
  let n := Z.to_nat max_conn in
  set_freelist (Some 0%nat) ;;;
  modify (fun w => w <| conn_list := array_list (fun i =>
    zero_conn <| my_index := u16 (Z.of_nat i) |> <| nextconn := Some (S i) |>) n |>) ;;;
  modify (fun w => w <| held ::= filter (fun x => x <> ConnLock) |>) ;;;
  ret 0.
End with_platform.

Definition put_on_pending_list (c LINK_INDEX : nat) : MW unit :=
  upd_conn c (fun cc => cc <| c_pendlist := Some LINK_INDEX |>) ;;;
  SPIN_LOCK ConnLock ;;;
  upd_conn c (fun cc => cc <| c_state := CONN_PENDING |>) ;;;
  p <- gets (fun w => conn_pendlist w LINK_INDEX) ;;
  upd_opt p (set_pv (Some c)) ;;;
  upd_conn c (fun cc => cc <| nextconn := p |>) ;;;
  upd_conn c (fun cc => cc <| prevconn := None |>) ;;;
  set_pendlist LINK_INDEX (Some c) ;;;
  SPIN_UNLOCK ConnLock.

(** The timestamp is the one of the flight log entry. *)
Definition conn_list_getfree : MW (option nat) :=
  SPIN_LOCK ConnLock ;;;
  f <- gets conn_freelist ;;
  match f with
  | Some c => cc <- get_conn c ;; set_freelist (nextconn cc)
  | None => ret tt
  end ;;;
  SPIN_UNLOCK ConnLock ;;;
  match f with
  | None => ret None
  | Some c =>
      t <- GetTimeBase2 ;;
      upd_conn c (fun cc => cc <| my_timestamp := t |> <| lowbit_timestamp := u16 t |>
        <| nextconn := None |> <| prevconn := None |> <| c_magic := CONN_MAGIC |>
        <| memfifo_sent := 0 |> <| c_rget_memfifo_sent := 0 |> <| injfifo_ctls := 0%nat |>) ;;;
      ret (Some c)
  end.

Definition connection_activate (c : nat) : MW unit :=
  cc <- get_conn c ;;
  let activelist := c_activelist cc in
  let pendlist := c_pendlist cc in
  SPIN_LOCK ConnLock ;;;
  cc <- get_conn c ;;
  upd_opt (nextconn cc) (set_pv (prevconn cc)) ;;;
  cc <- get_conn c ;;
  upd_opt (prevconn cc) (set_nx (nextconn cc)) ;;;
  pl <- deref pendlist ;;
  hd <- gets (fun w => conn_pendlist w pl) ;;
  (if decide (hd = Some c) then cc <- get_conn c ;; set_pendlist pl (nextconn cc)
   else ret tt) ;;;
  al <- deref activelist ;;
  hd <- gets (fun w => conn_activelist w al) ;;
  upd_opt hd (set_pv (Some c)) ;;;
  upd_conn c (fun x => x <| prevconn := None |>) ;;;
  hd <- gets (fun w => conn_activelist w al) ;;
  upd_conn c (fun x => x <| nextconn := hd |>) ;;;
  upd_conn c (fun x => x <| c_state := CONN_ACTIVE |>) ;;;
  set_activelist al (Some c) ;;;
  SPIN_UNLOCK ConnLock.

(** The head of the abort list is compared, but the pending list is
    written. *)
Definition connection_free (ccontext : option nat) : MW Z :=
  match ccontext with
  | None => ret (- EFAULT)
  | Some c =>
    cc <- get_conn c ;;
    if negb (c_magic cc =? CONN_MAGIC) then ret (- EFAULT) else
    upd_conn c (fun x => x <| c_state := CONN_FREE |>) ;;;
    SPIN_LOCK ConnLock ;;;
    cc <- get_conn c ;;
    upd_opt (nextconn cc) (set_pv (prevconn cc)) ;;;
    cc <- get_conn c ;;
    match prevconn cc with
    | Some j => upd_conn j (set_nx (nextconn cc))
    | None =>
        al <- deref (c_activelist cc) ;;
        a <- gets (fun w => conn_activelist w al) ;;
        if decide (a = Some c) then set_activelist al (nextconn cc) else
        pl <- deref (c_pendlist cc) ;;
        p <- gets (fun w => conn_pendlist w pl) ;;
        if decide (p = Some c) then set_pendlist pl (nextconn cc) else
        bl <- deref (c_abortlist cc) ;;
        b <- gets (fun w => conn_abortlist w bl) ;;
        if decide (b = Some c) then set_pendlist pl (nextconn cc) else ret tt
    end ;;;
    upd_conn c (fun x => x <| prevconn := None |>) ;;;
    f <- gets conn_freelist ;;
    upd_conn c (fun x => x <| nextconn := f |>) ;;;
    set_freelist (Some c) ;;;
    upd_conn c (fun x => x <| c_magic := CONN_MAGIC |>) ;;;
    SPIN_UNLOCK ConnLock ;;;
    ret 0
  end.

(** ** The lists of a world *)

Inductive clist := LPend (l : nat) | LAct (l : nat) | LAbort (l : nat).
#[export] Instance clist_eq : EqDecision clist.
Proof. solve_decision. Defined.

Definition head_of (w : world) (t : clist) : option nat :=
  match t with
  | LPend l => conn_pendlist w l
  | LAct l => conn_activelist w l
  | LAbort l => conn_abortlist w l
  end.

(** The world with the lists replaced. *)
Definition cput (hs : list lock_id) (h : gmap nat mudm_connection) (f : option nat)
    (hd : clist -> option nat) (w : world) : world :=
  mkWorld (magic w) (m_state w) (mudm_context_phys_addr w) (my_using_IO_port w)
    (myTorusAddress w) (mybridgingCNnode w) (myUCI w) (myBlockID w) (max_connections w)
    (poll_active w) (wakeupActive w) (StuckState w) (m_iMemoryFifoDescriptor w) (rget_memfifo_sent w)
    h f (fun l => hd (LPend l)) (fun l => hd (LAct l)) (fun l => hd (LAbort l))
    (inj w) (inj_state w) (pools w) (rdma w) (recf w)
    (sys_rec_fifo_id w) (remote_BlockID w) (link4reset w) (system_bcast w)
    (num_compute_nodes w) (largest_node_corner w) (clean_table w) (mem w) hs
    (trace w) (hw w).

Lemma cput_id w : cput (held w) (conn_list w) (conn_freelist w) (head_of w) w = w.
Proof. by destruct w. Qed.

Lemma cput_conn hs h f hd w : conn_list (cput hs h f hd w) = h.
Proof. done. Qed.

Section rules.
Implicit Types (h : gmap nat mudm_connection) (f : option nat) (hd : clist -> option nat)
  (w : world) (hs : list lock_id) (c : nat).
Abbreviation conn := mudm_connection.

Lemma wp_cget hs h f hd w c n (Q : conn -> world -> Prop) :
  h !! c = Some n -> Q n (cput hs h f hd w) -> wp (get_conn c) Q (cput hs h f hd w).
Proof. intros H HQ. by eapply wp_get_conn. Qed.

Lemma wp_cupd hs h f hd w c u n (Q : unit -> world -> Prop) :
  h !! c = Some n -> Q tt (cput hs (alter u c h) f hd w) -> wp (upd_conn c u) Q (cput hs h f hd w).
Proof. intros H HQ. by eapply wp_upd_conn. Qed.

Lemma wp_cupd_opt hs h f hd w p u (Q : unit -> world -> Prop) :
  (forall j, p = Some j -> is_Some (h !! j)) -> Q tt (cput hs (oalter p u h) f hd w) ->
  wp (upd_opt p u) Q (cput hs h f hd w).
Proof.
  destruct p as [j|]; cbn; [|by intros _]. intros H. destruct (H j) as [n Hn]; [done|].
  by eapply wp_cupd.
Qed.

Lemma cput_held hs h f hd w u :
  (cput hs h f hd w) <| held ::= u |> = cput (u hs) h f hd w.
Proof. by destruct w. Qed.
Lemma cput_free hs h f hd w p : (cput hs h f hd w) <| conn_freelist := p |> = cput hs h p hd w.
Proof. by destruct w. Qed.

Lemma wp_clock h f hd w (Q : unit -> world -> Prop) :
  Q tt (cput [ConnLock] h f hd w) -> wp (SPIN_LOCK ConnLock) Q (cput [] h f hd w).
Proof. intros HQ. apply wp_lock; [apply not_elem_of_nil|]. by rewrite cput_held. Qed.

Lemma wp_cunlock h f hd w (Q : unit -> world -> Prop) :
  Q tt (cput [] h f hd w) -> wp (SPIN_UNLOCK ConnLock) Q (cput [ConnLock] h f hd w).
Proof. intros HQ. apply wp_modify. by rewrite cput_held. Qed.

Lemma set_head_ext {A} (hd : clist -> A) (g : nat -> clist) l (p : A) :
  (forall l l', g l = g l' -> l = l') ->
  <[l := p]> (fun x => hd (g x)) = fun x => <[g l := p]> hd (g x).
Proof.
  intros Hg. extensionality x. destruct (decide (l = x)) as [->|].
  - by rewrite !fn_lookup_insert.
  - rewrite !fn_lookup_insert_ne; [done| |done]. intros E. by apply Hg in E.
Qed.

Lemma cput_pend hs h f hd w l p :
  (cput hs h f hd w) <| conn_pendlist ::= <[l := p]> |> = cput hs h f (<[LPend l := p]> hd) w.
Proof.
  unfold cput. destruct w. unfold upd_field. cbn. f_equal.
  apply (set_head_ext hd LPend). congruence.
Qed.
Lemma cput_act hs h f hd w l p :
  (cput hs h f hd w) <| conn_activelist ::= <[l := p]> |> = cput hs h f (<[LAct l := p]> hd) w.
Proof.
  unfold cput. destruct w. unfold upd_field. cbn. f_equal.
  apply (set_head_ext hd LAct). congruence.
Qed.

Lemma wp_set_pend hs h f hd w l p (Q : unit -> world -> Prop) :
  Q tt (cput hs h f (<[LPend l := p]> hd) w) -> wp (set_pendlist l p) Q (cput hs h f hd w).
Proof. intros HQ. apply wp_modify. by rewrite cput_pend. Qed.
Lemma wp_set_act hs h f hd w l p (Q : unit -> world -> Prop) :
  Q tt (cput hs h f (<[LAct l := p]> hd) w) -> wp (set_activelist l p) Q (cput hs h f hd w).
Proof. intros HQ. apply wp_modify. by rewrite cput_act. Qed.
Lemma wp_set_free hs h f hd w p (Q : unit -> world -> Prop) :
  Q tt (cput hs h p hd w) -> wp (set_freelist p) Q (cput hs h f hd w).
Proof. intros HQ. apply wp_modify. by rewrite cput_free. Qed.

Lemma wp_get_pend hs h f hd w l (Q : option nat -> world -> Prop) :
  Q (hd (LPend l)) (cput hs h f hd w) ->
  wp (gets (fun w => conn_pendlist w l)) Q (cput hs h f hd w).
Proof. done. Qed.
Lemma wp_get_act hs h f hd w l (Q : option nat -> world -> Prop) :
  Q (hd (LAct l)) (cput hs h f hd w) ->
  wp (gets (fun w => conn_activelist w l)) Q (cput hs h f hd w).
Proof. done. Qed.
Lemma wp_get_free hs h f hd w (Q : option nat -> world -> Prop) :
  Q f (cput hs h f hd w) -> wp (gets conn_freelist) Q (cput hs h f hd w).
Proof. done. Qed.
End rules.

(** ** The invariant *)

(** What a block on a list records about itself. *)
Definition on_list (t : clist) (cc : mudm_connection) : Prop :=
  c_magic cc = CONN_MAGIC /\
  match t with
  | LPend l => c_pendlist cc = Some l /\ c_activelist cc <> None /\ c_state cc = CONN_PENDING
  | LAct l => c_activelist cc = Some l
  | LAbort l => c_abortlist cc = Some l /\ c_state cc = CONN_ABORTED
  end.

(** [lists_wf h f hd fl ls]: the free list is [fl], the list [t] is [ls t]
    and doubly linked, and no block is on two lists. *)
Record lists_wf (h : gmap nat mudm_connection) (f : option nat) (hd : clist -> option nat)
    (fl : list nat) (ls : clist -> list nat) : Prop := mkLw {
  lw_free : chain h f fl;
  lw_list : forall t, dchain h None (hd t) (ls t);
  lw_off : forall t i, i ∈ ls t -> i ∉ fl;
  lw_disj : forall t t' i, i ∈ ls t -> i ∈ ls t' -> t = t';
  lw_on : forall t i cc, i ∈ ls t -> h !! i = Some cc -> on_list t cc }.

Definition conn_wf (w : world) (fl : list nat) (ls : clist -> list nat) : Prop :=
  held w = [] /\ lists_wf (conn_list w) (conn_freelist w) (head_of w) fl ls.

(** A block in use but on no list. *)
Definition floating (c : nat) (fl : list nat) (ls : clist -> list nat) : Prop :=
  (c ∉ fl) /\ forall t, c ∉ ls t.

(** Everything but the connection lists is as it was, and the blocks other
    than [c] kept their data. *)
Definition conn_dat (cc : mudm_connection) : mudm_connection :=
  cc <| nextconn := None |> <| prevconn := None |>.
Definition conn_frame (c : nat) (w w' : world) : Prop :=
  (exists h f hd, w' = cput [] h f hd w) /\
  forall k, k <> c -> conn_dat <$> conn_list w' !! k = conn_dat <$> conn_list w !! k.

Lemma conn_wf_cput h f hd w fl ls : lists_wf h f hd fl ls -> conn_wf (cput [] h f hd w) fl ls.
Proof.
  intros H. split; [done|]. cbn.
  assert (E : head_of (cput [] h f hd w) = hd) by (extensionality t; by destruct t).
  by rewrite E.
Qed.

Lemma conn_wf_open w fl ls : conn_wf w fl ls ->
  exists h f hd, w = cput [] h f hd w /\ conn_list w = h /\ lists_wf h f hd fl ls.
Proof.
  intros [Hh H]. exists (conn_list w), (conn_freelist w), (head_of w). split; [|done].
  rewrite <- Hh. symmetry. apply cput_id.
Qed.

(** The invariant depends on the lists and the lock only. *)
Lemma conn_wf_ext w w' fl ls :
  held w' = held w -> conn_list w' = conn_list w -> conn_freelist w' = conn_freelist w ->
  (forall t, head_of w' t = head_of w t) -> conn_wf w fl ls -> conn_wf w' fl ls.
Proof.
  intros E1 E2 E3 E4 [Hh Hl]. split; [by rewrite E1|]. rewrite E2, E3.
  assert (E : head_of w' = head_of w) by (by extensionality t). by rewrite E.
Qed.

Lemma cput_cput hs hs' h h' f f' hd hd' w :
  cput hs h f hd (cput hs' h' f' hd' w) = cput hs h f hd w.
Proof. by destruct w. Qed.

(** ** List surgery preserves the invariant *)

Lemma conn_dat_next p cc : conn_dat (cc <| nextconn := p |>) = conn_dat cc.
Proof. done. Qed.
Lemma conn_dat_prev p cc : conn_dat (cc <| prevconn := p |>) = conn_dat cc.
Proof. done. Qed.
Lemma on_list_dat t x y : conn_dat x = conn_dat y -> on_list t x -> on_list t y.
Proof.
  intros E H. assert (H' : on_list t (conn_dat x)) by (by destruct t).
  rewrite E in H'. by destruct t.
Qed.
Lemma oalter_dat p u (h : gmap nat mudm_connection) k :
  (forall n, conn_dat (u n) = conn_dat n) ->
  conn_dat <$> oalter p u h !! k = conn_dat <$> h !! k.
Proof. intros. destruct p; [|done]. by apply lookup_alter_dat. Qed.
Lemma unlink_heap_dat n (h : gmap nat mudm_connection) k :
  conn_dat <$> unlink_heap n h !! k = conn_dat <$> h !! k.
Proof. unfold unlink_heap. by rewrite !oalter_dat by done. Qed.

Section lists.
Context (h : gmap nat mudm_connection) (f : option nat) (hd : clist -> option nat)
  (fl : list nat) (ls : clist -> list nat) (Hw : lists_wf h f hd fl ls).

Lemma lw_is_Some t i : i ∈ ls t -> is_Some (h !! i).
Proof. intros H. eapply chain_is_Some; [|done]. eapply dchain_chain, (lw_list _ _ _ _ _ Hw). Qed.

Lemma lw_head_in t c : hd t = Some c -> c ∈ ls t.
Proof.
  intros E. pose proof (lw_list _ _ _ _ _ Hw t) as H. rewrite E in H.
  apply dchain_Some in H as (n & l & -> & _). left.
Qed.

(** Writing to a floating block. *)
Lemma lw_upd_floating c u : floating c fl ls -> lists_wf (alter u c h) f hd fl ls.
Proof.
  intros [Hf Hl]. destruct Hw as [A B C D E]. split; [by apply chain_alter_off| |done|done|].
  - intros t. by apply dchain_alter_off.
  - intros t i cc Hi. rewrite lookup_alter_ne; [by apply E|]. intros ->. by apply (Hl t).
Qed.

Lemma lw_push t c n u :
  floating c fl ls -> h !! c = Some n -> (forall x, nextconn (u x) = hd t) ->
  (forall x, prevconn (u x) = None) -> on_list t (u n) ->
  lists_wf (alter u c (oalter (hd t) (set_pv (Some c)) h)) f (<[t := Some c]> hd) fl
           (<[t := c :: ls t]> ls).
Proof.
  intros [Hf Hl] Hn Hu Hu' Hon. pose proof Hw as [A B C D E].
  assert (Ho : forall k, k <> c -> k ∉ ls t ->
            alter u c (oalter (hd t) (set_pv (Some c)) h) !! k = h !! k).
  { intros k Hk Hkt. rewrite lookup_alter_ne by done. apply oalter_off.
    intros Ek. by apply Hkt, lw_head_in. }
  split.
  - eapply chain_frame; [done|]. intros i Hi. apply Ho; [by intros ->|]. intros Hit. by apply (C t i).
  - intros t'. destruct (decide (t = t')) as [<-|Ht].
    + rewrite !fn_lookup_insert. by eapply dchain_push.
    + rewrite !fn_lookup_insert_ne by done. eapply dchain_frame; [done|]. intros i Hi.
      apply Ho; [intros ->; by apply (Hl t')|]. intros Hit. by apply Ht, (D t t' i).
  - intros t' i Hi. destruct (decide (t = t')) as [<-|Ht].
    + rewrite fn_lookup_insert in Hi. apply elem_of_cons in Hi as [->|Hi]; [done|by apply (C t)].
    + rewrite fn_lookup_insert_ne in Hi by done. by apply (C t').
  - intros t1 t2 i. destruct (decide (t = t1)) as [<-|H1], (decide (t = t2)) as [<-|H2];
      rewrite ?fn_lookup_insert, ?fn_lookup_insert_ne by done; [done| | |by eauto].
    + intros [->|?]%elem_of_cons ?; [by destruct (Hl t2)|by eauto].
    + intros ? [->|?]%elem_of_cons; [by destruct (Hl t1)|by eauto].
  - intros t' i cc Hi. destruct (decide (i = c)) as [->|Hic].
    { assert (t' = t) as ->.
      { destruct (decide (t = t')) as [<-|Ht]; [done|]. rewrite fn_lookup_insert_ne in Hi by done.
        by destruct (Hl t'). }
      rewrite lookup_alter_eq, oalter_off, Hn; [by intros [= <-]|].
      intros Ek. by apply (Hl t), lw_head_in. }
    assert (Hi' : i ∈ ls t').
    { destruct (decide (t = t')) as [<-|Ht]; [|by rewrite fn_lookup_insert_ne in Hi by done].
      rewrite fn_lookup_insert in Hi. by apply elem_of_cons in Hi as [->|Hi]. }
    rewrite lookup_alter_ne by done. destruct (hd t) as [j|]; cbn; [|by apply E].
    destruct (decide (j = i)) as [->|Hj]; [|rewrite lookup_alter_ne by done; by apply E].
    rewrite lookup_alter_eq. destruct (h !! i) as [x|] eqn:Ex; [|done].
    intros [= <-]. specialize (E t' i x Hi' Ex). by destruct t'.
Qed.

(** Writing to a listed block, not its links. *)
Lemma lw_upd_listed t c u n :
  c ∈ ls t -> h !! c = Some n -> (forall x, nextconn (u x) = nextconn x) ->
  (forall x, prevconn (u x) = prevconn x) -> on_list t (u n) ->
  lists_wf (alter u c h) f hd fl ls.
Proof.
  intros Hc Hn Hx Hp Hon. destruct Hw as [A B C D E].
  split; [by apply chain_alter_data| |done|done|].
  - intros t'. by apply dchain_alter_data.
  - intros t' i cc Hi. destruct (decide (c = i)) as [<-|Hne].
    + rewrite lookup_alter_eq, Hn. intros [= <-]. by rewrite (D t' t c Hi Hc).
    + rewrite lookup_alter_ne by done. by apply E.
Qed.

(** The list without one of its blocks. *)
Definition without (c : nat) (l : list nat) : list nat := filter (fun x => x <> c) l.

Lemma without_off c l : c ∉ l -> without c l = l.
Proof.
  unfold without. induction l as [|x l IH]; [done|]. intros [H1 H2]%not_elem_of_cons.
  rewrite filter_cons, decide_True by congruence. f_equal. auto.
Qed.
Lemma without_split c l1 l2 : c ∉ l1 -> c ∉ l2 -> without c (l1 ++ c :: l2) = l1 ++ l2.
Proof.
  intros H1 H2. unfold without. rewrite list.filter_app, filter_cons, decide_False by naive_solver.
  fold (without c l1) (without c l2). by rewrite (without_off c l1), (without_off c l2).
Qed.
Lemma elem_of_without c l i : i ∈ without c l <-> i <> c /\ i ∈ l.
Proof. unfold without. apply (list_elem_of_filter (fun x => x <> c)). Qed.

Lemma lw_split t c n : c ∈ ls t -> h !! c = Some n -> exists l1 l2,
  ls t = l1 ++ c :: l2 /\ (c ∉ l1) /\ (c ∉ l2) /\ nextconn n = head l2 /\ prevconn n = list.last l1.
Proof.
  intros Hc Hn. apply list_elem_of_split in Hc as (l1 & l2 & Hs).
  pose proof (lw_list _ _ _ _ _ Hw t) as Hd. rewrite Hs in Hd.
  destruct (dchain_at _ _ _ _ _ _ _ Hd Hn) as [E1 E2]. exists l1, l2.
  apply dchain_NoDup, list.NoDup_app in Hd as (_ & Hd1 & Hd2).
  apply list.NoDup_cons in Hd2 as [Hc2 _]. split_and!; [done| |done|done|].
  - intros H. apply (Hd1 c H). left.
  - cbn in E2. rewrite E2. by destruct (list.last l1).
Qed.

Lemma lw_neighbours t c n : c ∈ ls t -> h !! c = Some n ->
  (forall j, nextconn n = Some j -> j ∈ ls t /\ j <> c) /\
  (forall j, prevconn n = Some j -> j ∈ ls t /\ j <> c).
Proof.
  intros Hc Hn. destruct (lw_split t c n Hc Hn) as (l1 & l2 & Hs & H1 & H2 & E1 & E2).
  rewrite E1, E2, Hs. split; intros j Hj.
  - destruct l2 as [|x l2]; [done|]. injection Hj as ->.
    split; [apply elem_of_app; right; right; left|]. intros ->. apply H2. left.
  - apply last_in in Hj. split; [apply elem_of_app; by left|by intros ->].
Qed.

Lemma lw_is_head t c n : c ∈ ls t -> h !! c = Some n -> (hd t = Some c <-> prevconn n = None).
Proof.
  intros Hc Hn. destruct (lw_split t c n Hc Hn) as (l1 & l2 & Hs & H1 & H2 & _ & ->).
  rewrite (dchain_head _ _ _ _ (lw_list _ _ _ _ _ Hw t)), Hs.
  destruct l1 as [|x l1]; [done|]. cbn. split.
  - intros [= ->]. destruct H1. left.
  - by intros ?%last_None.
Qed.

Lemma lw_unlink t c n :
  c ∈ ls t -> h !! c = Some n ->
  lists_wf (unlink_heap n h) f
    (<[t := match prevconn n with None => nextconn n | Some _ => hd t end]> hd) fl
    (<[t := without c (ls t)]> ls) /\
  floating c fl (<[t := without c (ls t)]> ls).
Proof.
  intros Hc Hn. pose proof Hw as [A B C D E]. destruct (lw_neighbours t c n Hc Hn) as [N1 N2].
  assert (Ho : forall k, k ∉ ls t -> unlink_heap n h !! k = h !! k).
  { intros k Hk. apply unlink_heap_off; intros Ek; apply Hk; [by apply N2|by apply N1]. }
  assert (Hin : forall t' i, i ∈ <[t := without c (ls t)]> ls t' -> i ∈ ls t' /\ i <> c).
  { intros t' i. destruct (decide (t = t')) as [<-|Ht].
    - rewrite fn_lookup_insert. intros [??]%elem_of_without. done.
    - rewrite fn_lookup_insert_ne by done. intros Hi. split; [done|]. intros ->. by apply Ht, (D t t' c). }
  split; [split|split; [by apply (C t)|intros t' Hi; by apply Hin in Hi as [_ ?]]].
  - eapply chain_frame; [done|]. intros i Hi. apply Ho. intros Hit. by apply (C t i).
  - intros t'. destruct (decide (t = t')) as [<-|Ht].
    + rewrite !fn_lookup_insert. destruct (lw_split t c n Hc Hn) as (l1 & l2 & Hs & H1 & H2 & E1 & E2).
      specialize (B t). rewrite Hs in B |- *. rewrite without_split by done.
      assert (Em : match prevconn n with None => nextconn n | Some _ => hd t end
                 = match l1 with [] => nextconn n | _ => hd t end).
      { rewrite E2. destruct l1 as [|x l1]; [done|].
        destruct (list.last (x :: l1)) eqn:El; [done|by apply last_None in El]. }
      rewrite Em. exact (dchain_unlink _ _ _ _ _ _ n B Hn ltac:(done)).
    + rewrite !fn_lookup_insert_ne by done. eapply dchain_frame; [done|]. intros i Hi.
      apply Ho. intros Hit. by apply Ht, (D t t' i).
  - intros t' i [Hi _]%Hin. by apply (C t').
  - intros t1 t2 i [Hi1 _]%Hin [Hi2 _]%Hin. by eapply D.
  - intros t' i cc [Hi _]%Hin Hcc.
    pose proof (unlink_heap_dat n h i) as Ed.
    rewrite Hcc in Ed. destruct (h !! i) as [x|] eqn:Ex; [|done].
    apply (base.inj Some) in Ed. by apply (on_list_dat t' x), (E t' i x).
Qed.

Lemma lw_take_free c fl' n :
  fl = c :: fl' -> h !! c = Some n ->
  lists_wf h (nextconn n) hd fl' ls /\ floating c fl' ls.
Proof.
  intros -> Hn. pose proof Hw as [A B C D E].
  pose proof (chain_NoDup _ _ _ A) as [Hc _]%list.NoDup_cons. split.
  - destruct A as (_ & n' & Hn' & A). simplify_eq. split; [done|done| |done|done].
    intros t i Hi Hif. apply (C t i Hi). by right.
  - split; [done|]. intros t Hi. apply (C t c Hi). left.
Qed.

Lemma lw_push_free c n u :
  floating c fl ls -> h !! c = Some n -> (forall x, nextconn (u x) = f) ->
  lists_wf (alter u c h) (Some c) hd (c :: fl) ls.
Proof.
  intros Hc Hn Hu. pose proof (lw_upd_floating c u Hc) as [A B C D E]. destruct Hc as [H1 H2].
  split; [|done| |done|done].
  - split; [done|]. exists (u n). rewrite lookup_alter_eq, Hn. split; [done|].
    change (nx (u n)) with (nextconn (u n)). by rewrite Hu.
  - intros t i Hi [->|Hif]%elem_of_cons; [by apply (H2 t)|by apply (C t i)].
Qed.
End lists.

Lemma oalter_alter p f u c (h : gmap nat mudm_connection) :
  p <> Some c -> oalter p f (alter u c h) = alter u c (oalter p f h).
Proof. destruct p; [|done]. intros. apply alter_alter_ne. congruence. Qed.
Lemma unlink_heap_alter n u c (h : gmap nat mudm_connection) :
  prevconn n <> Some c -> nextconn n <> Some c ->
  unlink_heap n (alter u c h) = alter u c (unlink_heap n h).
Proof. intros H1 H2. unfold unlink_heap. by rewrite !oalter_alter. Qed.

(** ** The operations on the lists *)

Section op_specs.
Context (w : world) (fl : list nat) (ls : clist -> list nat).
Abbreviation dat_is w' c x := (conn_dat <$> conn_list w' !! c = Some (conn_dat x)).

Lemma conn_frame_intro c h f hd w0 :
  w = cput [] (conn_list w) f hd w0 ->
  (forall k, k <> c -> conn_dat <$> h !! k = conn_dat <$> conn_list w !! k) ->
  forall f' hd', conn_frame c w (cput [] h f' hd' w).
Proof. intros _ H f' hd'. split; [by eexists _, _, _|done]. Qed.

Lemma wp_conn_list_getfree (Q : option nat -> world -> Prop) :
  conn_wf w fl ls ->
  (fl = [] -> Q None w) ->
  (forall c fl' w' cc cc', fl = c :: fl' -> conn_wf w' fl' ls -> floating c fl' ls ->
     conn_frame c w w' -> conn_list w !! c = Some cc -> conn_list w' !! c = Some cc' ->
     conn_dat cc' = conn_dat (cc <| my_timestamp := hw_timebase (hw w) |>
       <| lowbit_timestamp := u16 (hw_timebase (hw w)) |> <| c_magic := CONN_MAGIC |>
       <| memfifo_sent := 0 |> <| c_rget_memfifo_sent := 0 |> <| injfifo_ctls := 0%nat |>) ->
     Q (Some c) w') ->
  wp conn_list_getfree Q w.
Proof.
  intros Hw H0 H1. pose proof Hw as (h & f & hd & E & Eh & Hl)%conn_wf_open.
  unfold conn_list_getfree. rewrite E. apply wp_bind, wp_clock, wp_bind, wp_get_free.
  pose proof (lw_free _ _ _ _ _ Hl) as Hf. destruct fl as [|c fl'].
  - cbn in Hf. subst f. apply wp_bind, wp_ret, wp_bind, wp_cunlock, wp_ret. rewrite <- E. auto.
  - pose proof Hf as (-> & n & Hn & _). apply wp_bind, wp_bind. eapply wp_cget; [done|].
    apply wp_set_free, wp_bind, wp_cunlock, wp_bind, wp_gets, wp_bind. eapply wp_cupd; [done|].
    apply wp_ret. destruct (lw_take_free _ _ _ _ _ Hl c fl' n eq_refl Hn) as [Hl' Hfl].
    rewrite <- Eh in *. eapply H1; [done| |done| |exact Hn|by rewrite cput_conn, lookup_alter_eq, Hn|].
    + by apply conn_wf_cput, lw_upd_floating.
    + split; [by eexists _, _, _|]. intros k Hk. by rewrite cput_conn, lookup_alter_ne.
    + done.
Qed.

Lemma wp_put_on_pending_list c l cc (Q : unit -> world -> Prop) :
  conn_wf w fl ls -> floating c fl ls -> conn_list w !! c = Some cc ->
  c_magic cc = CONN_MAGIC -> c_activelist cc <> None ->
  (forall w', conn_wf w' fl (<[LPend l := c :: ls (LPend l)]> ls) -> conn_frame c w w' ->
     dat_is w' c (cc <| c_pendlist := Some l |> <| c_state := CONN_PENDING |>) -> Q tt w') ->
  wp (put_on_pending_list c l) Q w.
Proof.
  intros Hw Hc Hcc Hm Ha HQ. pose proof Hw as (h & f & hd & E & Eh & Hl)%conn_wf_open.
  rewrite <- Eh in *. unfold put_on_pending_list. rewrite E.
  apply wp_bind. eapply wp_cupd; [done|]. apply wp_bind, wp_clock, wp_bind.
  eapply wp_cupd; [by rewrite lookup_alter_eq, Hcc|]. rewrite alter_alter_eq.
  set (u := _ ∘ _). pose proof (lw_upd_floating _ _ _ _ _ Hl c u Hc) as Hl1.
  set (h1 := alter u c (conn_list w)) in *.
  assert (Hc1 : h1 !! c = Some (u cc)) by (subst h1; by rewrite lookup_alter_eq, Hcc).
  apply wp_bind, wp_get_pend, wp_bind, wp_cupd_opt.
  { intros j Hj. by eapply lw_is_Some, lw_head_in. }
  assert (Ho : oalter (hd (LPend l)) (set_pv (Some c)) h1 !! c = Some (u cc)).
  { rewrite oalter_off; [done|]. intros Ek. destruct Hc as [_ Hc]. by apply (Hc (LPend l)), (lw_head_in _ _ _ _ _ Hl). }
  apply wp_bind. eapply wp_cupd; [exact Ho|]. apply wp_bind.
  eapply wp_cupd; [by rewrite lookup_alter_eq, Ho|]. rewrite alter_alter_eq.
  apply wp_bind, wp_set_pend, wp_cunlock. apply HQ.
  - apply conn_wf_cput. by apply (lw_push _ _ _ _ _ Hl1 (LPend l) c (u cc)).
  - split; [by eexists _, _, _|]. intros k Hk. rewrite cput_conn, lookup_alter_ne by done.
    rewrite oalter_dat by done. subst h1. by rewrite lookup_alter_ne.
  - by rewrite cput_conn, lookup_alter_eq, Ho.
Qed.

(** Unlinking, as the code does it: [next->prev = prev], then
    [prev->next = next]. *)
Lemma wp_unlink_next {A} h f hd c n (k : mudm_connection -> MW A) (Q : A -> world -> Prop) :
  h !! c = Some n -> (forall j, nextconn n = Some j -> is_Some (h !! j) /\ j <> c) ->
  wp (k n) Q (cput [ConnLock] (oalter (nextconn n) (set_pv (prevconn n)) h) f hd w) ->
  wp (cc <- get_conn c ;; upd_opt (nextconn cc) (set_pv (prevconn cc)) ;;;
      cc <- get_conn c ;; k cc) Q (cput [ConnLock] h f hd w).
Proof.
  intros Hn Hx HQ. apply wp_bind. eapply wp_cget; [done|].
  apply wp_bind, wp_cupd_opt; [by intros j [??]%Hx|].
  apply wp_bind. eapply wp_cget; [|exact HQ]. rewrite oalter_off; [done|]. by intros [_ ?]%Hx.
Qed.

Lemma oalter_is_Some p u (h : gmap nat mudm_connection) k :
  (forall n, conn_dat (u n) = conn_dat n) -> is_Some (h !! k) -> is_Some (oalter p u h !! k).
Proof.
  intros Hu [x Hx]. apply (fmap_is_Some conn_dat). rewrite oalter_dat, Hx by done. by eexists.
Qed.

Lemma wp_unlink h f hd t c n (k : mudm_connection -> MW unit) (Q : unit -> world -> Prop) :
  lists_wf h f hd fl ls -> c ∈ ls t -> h !! c = Some n ->
  wp (k n) Q (cput [ConnLock] (unlink_heap n h) f hd w) ->
  wp (cc <- get_conn c ;; upd_opt (nextconn cc) (set_pv (prevconn cc)) ;;;
      cc <- get_conn c ;; upd_opt (prevconn cc) (set_nx (nextconn cc)) ;;; k cc) Q
     (cput [ConnLock] h f hd w).
Proof.
  intros Hl Hc Hn HQ. destruct (lw_neighbours _ _ _ _ _ Hl t c n Hc Hn) as [N1 N2].
  apply (wp_unlink_next _ _ _ _ n (fun cc => _ ;;; k cc)); [done| |].
  { intros j [Hj Hjc]%N1. split; [by eapply lw_is_Some|done]. }
  apply wp_bind, wp_cupd_opt; [|exact HQ].
  intros j [Hj _]%N2. apply oalter_is_Some; [done|]. by eapply lw_is_Some.
Qed.

Lemma wp_connection_activate c l a cc (Q : unit -> world -> Prop) :
  conn_wf w fl ls -> c ∈ ls (LPend l) -> conn_list w !! c = Some cc -> c_activelist cc = Some a ->
  (forall w', conn_wf w' fl (<[LAct a := c :: ls (LAct a)]>
                              (<[LPend l := without c (ls (LPend l))]> ls)) ->
     conn_frame c w w' -> dat_is w' c (cc <| c_state := CONN_ACTIVE |>) -> Q tt w') ->
  wp (connection_activate c) Q w.
Proof.
  intros Hw Hc Hcc Ha HQ. pose proof Hw as (h & f & hd & E & Eh & Hl)%conn_wf_open.
  rewrite <- Eh in *. unfold connection_activate. rewrite E. apply wp_bind.
  eapply wp_cget; [done|]. rewrite Ha. apply wp_bind, wp_clock.
  destruct (lw_on _ _ _ _ _ Hl _ _ _ Hc Hcc) as (Hm & Hp & _ & _). rewrite Hp.
  eapply (wp_unlink _ _ _ (LPend l)); [done..|].
  destruct (lw_unlink _ _ _ _ _ Hl _ _ _ Hc Hcc) as [Hl1 Hf1].
  set (h1 := unlink_heap cc _) in *.
  assert (Hc1 : h1 !! c = Some cc).
  { destruct (lw_neighbours _ _ _ _ _ Hl _ _ _ Hc Hcc) as [N1 N2].
    subst h1. rewrite unlink_heap_off; [done|by intros [_ ?]%N2|by intros [_ ?]%N1]. }
  apply wp_bind, wp_ret, wp_bind, wp_get_pend, wp_bind.
  set (hd1 := <[LPend l := _]> hd) in *.
  apply (wp_mono _ (fun _ w1 => w1 = cput [ConnLock] h1 f hd1 w)).
  { pose proof (lw_is_head _ _ _ _ _ Hl _ _ _ Hc Hcc) as Hh. subst hd1.
    destruct (decide (hd (LPend l) = Some c)) as [Eh'|Eh'].
    - apply wp_bind. eapply wp_cget; [done|]. apply wp_set_pend.
      apply Hh in Eh'. by rewrite Eh'.
    - apply wp_ret. destruct (prevconn cc) eqn:Ep; [|by destruct Eh'; apply Hh].
      f_equal. extensionality t. destruct (decide (LPend l = t)) as [<-|];
        by rewrite ?fn_lookup_insert, ?fn_lookup_insert_ne. }
  intros [] w1 ->. apply wp_bind, wp_ret, wp_bind, wp_get_act, wp_bind, wp_cupd_opt.
  { intros j Hj. by eapply lw_is_Some, lw_head_in. }
  assert (Ho : oalter (hd1 (LAct a)) (set_pv (Some c)) h1 !! c = Some cc).
  { rewrite oalter_off; [done|]. intros Ek. destruct Hf1 as [_ Hf1].
    by apply (Hf1 (LAct a)), (lw_head_in _ _ _ _ _ Hl1). }
  apply wp_bind. eapply wp_cupd; [exact Ho|]. apply wp_bind, wp_get_act, wp_bind.
  eapply wp_cupd; [by rewrite lookup_alter_eq, Ho|]. rewrite alter_alter_eq.
  apply wp_bind. eapply wp_cupd; [by rewrite lookup_alter_eq, Ho|]. rewrite alter_alter_eq.
  apply wp_bind, wp_set_act, wp_cunlock. apply HQ.
  - apply conn_wf_cput.
    assert (E2 : <[LPend l := without c (ls (LPend l))]> ls (LAct a) = ls (LAct a))
      by (by rewrite fn_lookup_insert_ne).
    rewrite <- E2. by apply (lw_push _ _ _ _ _ Hl1 (LAct a) c cc).
  - split; [by eexists _, _, _|]. intros k Hk. rewrite cput_conn, lookup_alter_ne by done.
    rewrite oalter_dat by done. apply unlink_heap_dat.
  - by rewrite cput_conn, lookup_alter_eq, Ho.
Qed.

(** The common end of [connection_free]: the block, floating, goes to the
    free list. *)
Lemma wp_free_tail h f hd ls' c n (Q : Z -> world -> Prop) :
  lists_wf h f hd fl ls' -> floating c fl ls' -> h !! c = Some n ->
  (forall k, k <> c -> conn_dat <$> h !! k = conn_dat <$> conn_list w !! k) ->
  (forall w', conn_wf w' (c :: fl) ls' -> conn_frame c w w' ->
     dat_is w' c (n <| c_magic := CONN_MAGIC |>) -> Q 0 w') ->
  wp (upd_conn c (fun x => x <| prevconn := None |>) ;;;
      f <- gets conn_freelist ;; upd_conn c (fun x => x <| nextconn := f |>) ;;;
      set_freelist (Some c) ;;; upd_conn c (fun x => x <| c_magic := CONN_MAGIC |>) ;;;
      SPIN_UNLOCK ConnLock ;;; ret 0) Q (cput [ConnLock] h f hd w).
Proof.
  intros Hl Hc Hn Hk HQ. apply wp_bind. eapply wp_cupd; [done|]. apply wp_bind, wp_get_free.
  apply wp_bind. eapply wp_cupd; [by rewrite lookup_alter_eq, Hn|]. rewrite alter_alter_eq.
  apply wp_bind, wp_set_free, wp_bind. eapply wp_cupd; [by rewrite lookup_alter_eq, Hn|].
  rewrite alter_alter_eq. apply wp_bind, wp_cunlock, wp_ret. apply HQ.
  - apply conn_wf_cput. by apply (lw_push_free _ _ _ _ _ Hl c n).
  - split; [by eexists _, _, _|]. intros k Hkc. rewrite cput_conn, lookup_alter_ne by done. auto.
  - by rewrite cput_conn, lookup_alter_eq, Hn.
Qed.

(** A block on a pending or an active list. *)
Lemma wp_connection_free t c cc (Q : Z -> world -> Prop) :
  conn_wf w fl ls -> c ∈ ls t -> (forall l, t <> LAbort l) -> conn_list w !! c = Some cc ->
  (forall w', conn_wf w' (c :: fl) (<[t := without c (ls t)]> ls) -> conn_frame c w w' ->
     dat_is w' c (cc <| c_state := CONN_FREE |>) -> Q 0 w') ->
  wp (connection_free (Some c)) Q w.
Proof.
  intros Hw Hc Hta Hcc HQ. pose proof Hw as (h & f & hd & E & Eh & Hl)%conn_wf_open.
  rewrite <- Eh in *. pose proof (lw_on _ _ _ _ _ Hl _ _ _ Hc Hcc) as Hon.
  pose proof Hon as [Hm _]. destruct (lw_neighbours _ _ _ _ _ Hl _ _ _ Hc Hcc) as [N1 N2].
  pose proof (lw_is_head _ _ _ _ _ Hl _ _ _ Hc Hcc) as Hh.
  destruct (lw_unlink _ _ _ _ _ Hl _ _ _ Hc Hcc) as [Hl1 Hf1].
  unfold connection_free. rewrite E. apply wp_bind. eapply wp_cget; [done|].
  rewrite Hm. cbn [negb Z.eqb Pos.eqb]. apply wp_bind. eapply wp_cupd; [done|].
  set (u := fun x : mudm_connection => x <| c_state := CONN_FREE |>).
  apply wp_bind, wp_clock, (wp_unlink_next _ _ _ _ (u cc) (fun _ => _ ;;; _));
    [by rewrite lookup_alter_eq, Hcc| |].
  { intros j [Hj Hjc]%N1. rewrite lookup_alter_ne by done. split; [by eapply lw_is_Some|done]. }
  apply wp_bind.
  apply (wp_mono _ (fun _ w1 => w1 = cput [ConnLock] (alter u c (unlink_heap cc (conn_list w))) f
    (<[t := match prevconn cc with None => nextconn cc | Some _ => hd t end]> hd) w)).
  2: { intros [] w1 ->. apply (wp_free_tail _ _ _ (<[t := without c (ls t)]> ls) c (u cc)).
       - by apply lw_upd_floating.
       - done.
       - rewrite lookup_alter_eq, unlink_heap_off, Hcc; [done|by intros [_ ?]%N2|by intros [_ ?]%N1].
       - intros k Hk. rewrite lookup_alter_ne by done. apply unlink_heap_dat.
       - intros w' H1 H2 H3. apply HQ; [done..|]. rewrite H3. f_equal. unfold u.
         destruct cc; cbn in Hm |- *. by subst. }
  rewrite <- unlink_heap_alter by (first [by intros [_ ?]%N2|by intros [_ ?]%N1]).
  change (prevconn (u cc)) with (prevconn cc). change (nextconn (u cc)) with (nextconn cc).
  unfold unlink_heap. change (nx cc) with (nextconn cc). change (pv cc) with (prevconn cc).
  destruct (prevconn cc) as [j|] eqn:Ep.
  - destruct (N2 j eq_refl) as [Hj Hjc]. destruct (oalter_is_Some (nextconn cc) (set_pv (Some j))
      (alter u c (conn_list w)) j) as [x Hx]; [done| |].
    { rewrite lookup_alter_ne by done. by eapply lw_is_Some. }
    eapply wp_cupd; [exact Hx|]. cbn [oalter]. f_equal. extensionality t'.
    destruct (decide (t = t')) as [<-|]; by rewrite ?fn_lookup_insert, ?fn_lookup_insert_ne.
  - assert (Ehd : hd t = Some c) by (by apply Hh). cbn [oalter].
    destruct t as [l|l|l]; [| |by destruct (Hta l)].
    + destruct Hon as (_ & Hp & Ha & _). change (c_activelist (u cc)) with (c_activelist cc).
      change (c_pendlist (u cc)) with (c_pendlist cc).
      destruct (c_activelist cc) as [al|]; [|done]. apply wp_bind, wp_ret, wp_bind, wp_get_act.
      rewrite decide_False.
      2: { intros Ea. by pose proof (lw_disj _ _ _ _ _ Hl _ _ _ (lw_head_in _ _ _ _ _ Hl _ _ Ea) Hc). }
      rewrite Hp. apply wp_bind, wp_ret, wp_bind, wp_get_pend. rewrite decide_True by done.
      by apply wp_set_pend.
    + destruct Hon as (_ & Ha). change (c_activelist (u cc)) with (c_activelist cc). rewrite Ha.
      apply wp_bind, wp_ret, wp_bind, wp_get_act. rewrite decide_True by done.
      by apply wp_set_act.
Qed.

(** A floating block whose three list pointers are set. *)
Lemma wp_connection_free_floating c cc al pl bl (Q : Z -> world -> Prop) :
  conn_wf w fl ls -> floating c fl ls -> conn_list w !! c = Some cc ->
  c_magic cc = CONN_MAGIC -> nextconn cc = None -> prevconn cc = None ->
  c_activelist cc = Some al -> c_pendlist cc = Some pl -> c_abortlist cc = Some bl ->
  (forall w', conn_wf w' (c :: fl) ls -> conn_frame c w w' ->
     dat_is w' c (cc <| c_state := CONN_FREE |>) -> Q 0 w') ->
  wp (connection_free (Some c)) Q w.
Proof.
  intros Hw Hc Hcc Hm Hn Hp Ha Hpl Hb HQ. pose proof Hw as (h & f & hd & E & Eh & Hl)%conn_wf_open.
  rewrite <- Eh in *. unfold connection_free. rewrite E. apply wp_bind. eapply wp_cget; [done|].
  rewrite Hm. cbn [negb Z.eqb Pos.eqb]. apply wp_bind. eapply wp_cupd; [done|].
  set (u := fun x : mudm_connection => x <| c_state := CONN_FREE |>).
  apply wp_bind, wp_clock, (wp_unlink_next _ _ _ _ (u cc) (fun _ => _ ;;; _));
    [by rewrite lookup_alter_eq, Hcc|by cbn; rewrite Hn|].
  change (nextconn (u cc)) with (nextconn cc). change (prevconn (u cc)) with (prevconn cc).
  change (c_activelist (u cc)) with (c_activelist cc). change (c_pendlist (u cc)) with (c_pendlist cc).
  change (c_abortlist (u cc)) with (c_abortlist cc). rewrite Hn, Hp, Ha, Hpl, Hb. cbn [oalter].
  assert (Hd : forall t, hd t <> Some c).
  { intros t Et. destruct Hc as [_ Hc]. by apply (Hc t), (lw_head_in _ _ _ _ _ Hl). }
  apply wp_bind, wp_bind, wp_ret, wp_bind, wp_get_act. rewrite decide_False by (apply (Hd (LAct al))).
  apply wp_bind, wp_ret, wp_bind, wp_get_pend. rewrite decide_False by (apply (Hd (LPend pl))).
  apply wp_bind, wp_ret, wp_bind, wp_gets.
  change (conn_abortlist (cput _ _ _ hd _) bl) with (hd (LAbort bl)).
  rewrite decide_False by done. apply wp_ret.
  apply (wp_free_tail _ _ _ ls c (u cc)); [by apply lw_upd_floating|done|by rewrite lookup_alter_eq, Hcc| |].
  - intros k Hk. by rewrite lookup_alter_ne.
  - intros w' H1 H2 H3. apply HQ; [done..|]. rewrite H3. f_equal. unfold u.
    destruct cc; cbn in Hm |- *. by subst.
Qed.
End op_specs.

(** ** Properties *)

(** The abstract lists: the free list and the list of each kind. *)
Definition alists : Type := list nat * (clist -> list nat).

Inductive conn_op := OGetFree | OPend (c l : nat) | OActivate (c : nat) | OFree (c : nat).

Definition run_op (op : conn_op) : MW unit :=
  match op with
  | OGetFree => r <- conn_list_getfree ;; ret tt
  | OPend c l => put_on_pending_list c l
  | OActivate c => connection_activate c
  | OFree c => r <- connection_free (Some c) ;; ret tt
  end.

(** What each operation does to the lists. *)
Inductive abs_step : conn_op -> alists -> alists -> Prop :=
| abs_get_none ls : abs_step OGetFree ([], ls) ([], ls)
| abs_get c fl ls : abs_step OGetFree (c :: fl, ls) (fl, ls)
| abs_pend c l fl ls : floating c fl ls ->
    abs_step (OPend c l) (fl, ls) (fl, <[LPend l := c :: ls (LPend l)]> ls)
| abs_activate c l a fl ls : c ∈ ls (LPend l) ->
    abs_step (OActivate c) (fl, ls)
      (fl, <[LAct a := c :: ls (LAct a)]> (<[LPend l := without c (ls (LPend l))]> ls))
| abs_free c t fl ls : c ∈ ls t ->
    abs_step (OFree c) (fl, ls) (c :: fl, <[t := without c (ls t)]> ls).

(** When the code may call them. *)
Definition op_ok (op : conn_op) (w : world) (fl : list nat) (ls : clist -> list nat) : Prop :=
  match op with
  | OGetFree => True
  | OPend c l => floating c fl ls /\ exists cc, conn_list w !! c = Some cc /\
      c_magic cc = CONN_MAGIC /\ c_activelist cc <> None
  | OActivate c => exists l, c ∈ ls (LPend l)
  | OFree c => exists t, c ∈ ls t /\ forall l, t <> LAbort l
  end.

Definition block_is (w : world) (c : nat) (p : mudm_connection -> Prop) : Prop :=
  exists cc, conn_list w !! c = Some cc /\ p cc.
Lemma dat_block_is w c x (p : mudm_connection -> Prop) :
  conn_dat <$> conn_list w !! c = Some (conn_dat x) -> (forall y, p (conn_dat y) <-> p y) -> p x ->
  block_is w c p.
Proof.
  destruct (conn_list w !! c) as [y|] eqn:Ey; [|done]. intros E Hp Hx. exists y. split; [done|].
  apply (base.inj Some) in E. apply Hp. rewrite E. by apply Hp.
Qed.

(** C24: the connection lists refine their abstract counterpart.  Taking a
    free block, putting a block on a pending list, activating a pending
    connection and freeing a pending or active one each return, keep the
    lists doubly linked, disjoint and consistent with the state of the
    blocks on them, have the effect of the abstract operation, and touch
    nothing but the lists and the block operated on, which ends in the
    state and on the list its own pointers name. *)
Theorem conn_lists_refine op w fl ls :
  conn_wf w fl ls -> op_ok op w fl ls ->
  wp (run_op op) (fun _ w' => exists fl' ls' c,
    abs_step op (fl, ls) (fl', ls') /\ conn_wf w' fl' ls' /\ conn_frame c w w' /\
    match op with
    | OGetFree => fl = [] \/ head fl = Some c
    | OPend c' l => c = c' /\ block_is w' c (fun cc => c_state cc = CONN_PENDING /\ c_pendlist cc = Some l)
    | OActivate c' => c = c' /\ block_is w' c (fun cc => c_state cc = CONN_ACTIVE /\
                        exists a, c_activelist cc = Some a /\ head (ls' (LAct a)) = Some c)
    | OFree c' => c = c' /\ block_is w' c (fun cc => c_state cc = CONN_FREE)
    end) w.
Proof.
  intros Hw Hop. destruct op as [|c l|c|c]; cbn [run_op op_ok] in *.
  - apply wp_bind. apply (wp_conn_list_getfree w fl ls); [done| |].
    + intros ->. apply wp_ret. exists [], ls, 0%nat. split_and!; [constructor|done| |by left].
      split; [|done]. destruct Hw as [Hh _]. eexists _, _, _. rewrite <- Hh. symmetry. apply cput_id.
    + intros c fl' w' cc cc' -> Hw' _ Hf _ _ _. apply wp_ret. exists fl', ls, c.
      split_and!; [constructor|done|done|by right].
  - destruct Hop as (Hc & cc & Hcc & Hm & Ha).
    apply (wp_put_on_pending_list w fl ls c l cc); [done..|]. intros w' Hw' Hf Hd.
    eexists fl, _, c. split_and!; [by constructor|done..|by eapply dat_block_is].
  - destruct Hop as (l & Hc). pose proof Hw as [_ Hl].
    destruct (lw_is_Some _ _ _ _ _ Hl _ _ Hc) as [cc Hcc].
    destruct (lw_on _ _ _ _ _ Hl _ _ _ Hc Hcc) as (_ & _ & Ha & _).
    destruct (c_activelist cc) as [a|] eqn:Ea; [|done].
    apply (wp_connection_activate w fl ls c l a cc); [done..|]. intros w' Hw' Hf Hd.
    eexists fl, _, c. split_and!; [by constructor|done..|eapply dat_block_is; [done..|]].
    split; [done|]. exists a. by rewrite fn_lookup_insert.
  - destruct Hop as (t & Hc & Ht). pose proof Hw as [_ Hl].
    destruct (lw_is_Some _ _ _ _ _ Hl _ _ Hc) as [cc Hcc]. apply wp_bind.
    apply (wp_connection_free w fl ls t c cc); [done..|]. intros w' Hw' Hf Hd. apply wp_ret.
    eexists _, _, c. split_and!; [by constructor|done..|by eapply dat_block_is].
Qed.

(** Freeing the first block of an abort list (a connection attempt the
    link reset aborted) puts it on the free list but leaves it the head of
    the abort list, and replaces the pending list by the rest of the abort
    list: the abort list case writes through [pendlist]. *)
Theorem connection_free_abort_head w fl ls b c r cc al pl :
  conn_wf w fl ls -> ls (LAbort b) = c :: r -> conn_list w !! c = Some cc ->
  c_activelist cc = Some al -> c_pendlist cc = Some pl ->
  wp (connection_free (Some c)) (fun res w' =>
    res = 0 /\ conn_freelist w' = Some c /\ conn_abortlist w' b = Some c /\
    conn_pendlist w' pl = head r) w.
Proof.
  intros Hw Hls Hcc Ha Hpl. pose proof Hw as (h & f & hd & E & Eh & Hl)%conn_wf_open.
  rewrite <- Eh in *. assert (Hc : c ∈ ls (LAbort b)) by (rewrite Hls; left).
  destruct (lw_on _ _ _ _ _ Hl _ _ _ Hc Hcc) as (Hm & Hb & _).
  destruct (lw_neighbours _ _ _ _ _ Hl _ _ _ Hc Hcc) as [N1 N2].
  pose proof (lw_list _ _ _ _ _ Hl (LAbort b)) as Hd. rewrite Hls in Hd.
  pose proof (dchain_head _ _ _ _ Hd) as Ehd. cbn in Ehd.
  destruct (dchain_at _ _ _ [] c r cc Hd Hcc) as [En Ep]. cbn in Ep, En.
  assert (Hother : forall t, t <> LAbort b -> hd t <> Some c).
  { intros t Ht Et. by apply Ht, (lw_disj _ _ _ _ _ Hl _ _ c (lw_head_in _ _ _ _ _ Hl _ _ Et)). }
  unfold connection_free. rewrite E. apply wp_bind. eapply wp_cget; [done|].
  rewrite Hm. cbn [negb Z.eqb Pos.eqb]. apply wp_bind. eapply wp_cupd; [done|].
  set (u := fun x : mudm_connection => x <| c_state := CONN_FREE |>).
  apply wp_bind, wp_clock, (wp_unlink_next _ _ _ _ _ (u cc) (fun _ => _ ;;; _));
    [by rewrite lookup_alter_eq, Hcc| |].
  { intros j [Hj Hjc]%N1. rewrite lookup_alter_ne by done. split; [by eapply lw_is_Some|done]. }
  change (nextconn (u cc)) with (nextconn cc). change (prevconn (u cc)) with (prevconn cc).
  change (c_activelist (u cc)) with (c_activelist cc). change (c_pendlist (u cc)) with (c_pendlist cc).
  change (c_abortlist (u cc)) with (c_abortlist cc). rewrite Ep, Ha, Hpl, Hb, En.
  set (h1 := oalter _ _ _). assert (Hc1 : is_Some (h1 !! c)).
  { apply oalter_is_Some; [done|]. rewrite lookup_alter_eq, Hcc. by eexists. }
  destruct Hc1 as [n1 Hn1].
  apply wp_bind, wp_bind, wp_ret, wp_bind, wp_get_act. rewrite decide_False by (by apply Hother).
  apply wp_bind, wp_ret, wp_bind, wp_get_pend. rewrite decide_False by (by apply Hother).
  apply wp_bind, wp_ret, wp_bind, wp_gets.
  change (conn_abortlist (cput _ _ _ hd _) b) with (hd (LAbort b)).
  rewrite decide_True by done. apply wp_set_pend.
  apply wp_bind. eapply wp_cupd; [exact Hn1|]. apply wp_bind, wp_get_free, wp_bind.
  eapply wp_cupd; [by rewrite lookup_alter_eq, Hn1|]. apply wp_bind, wp_set_free, wp_bind.
  eapply wp_cupd; [by rewrite !lookup_alter_eq, Hn1|]. apply wp_bind, wp_cunlock, wp_ret.
  split_and!; [done|done| |].
  - change (<[LPend pl := head r]> hd (LAbort b) = Some c). by rewrite fn_lookup_insert_ne.
  - change (<[LPend pl := head r]> hd (LPend pl) = head r). by rewrite fn_lookup_insert.
Qed.

(** [conn_list_init] either fails with -ENOMEM or leaves every block
    free, in index order, on well-formed lists, with its own index in it. *)
Theorem conn_list_init_correct P `{!QuietAlloc P} w max_conn :
  held w = [] -> 0 < max_conn ->
  (forall l, (2 <= l)%nat -> conn_pendlist w l = None /\ conn_activelist w l = None /\
                             conn_abortlist w l = None) ->
  wp (conn_list_init P max_conn) (fun r w' =>
    r = - ENOMEM \/
    r = 0 /\ conn_wf w' (seq 0 (Z.to_nat max_conn)) (fun _ => []) /\
    forall i, (i < Z.to_nat max_conn)%nat -> block_is w' i (fun cc =>
      my_index cc = u16 (Z.of_nat i) /\ c_state cc = CONN_FREE)) w.
Proof.
  intros Hh Hn Hl. unfold conn_list_init. apply wp_bind, wp_modify, wp_bind, wp_modify, wp_bind.
  apply wp_alloc_object; [done|apply wp_ret; by left|]. intros region _. cbn [negb Z.eqb fst].
  apply wp_bind, wp_modify, wp_bind, wp_modify, wp_bind, wp_modify, wp_ret. right. split; [done|].
  set (g := fun i => _). set (n := Z.to_nat max_conn) in *.
  assert (Hn' : (0 < n)%nat) by lia. split.
  - split; [by wsimp; rewrite Hh|]. wsimp. split; [by apply chain_array| |set_solver|set_solver|set_solver].
    intros t. cbn. destruct t as [l|l|l]; cbn; wsimp.
    all: destruct l as [|[|l]]; [by rewrite fn_lookup_insert_ne, fn_lookup_insert|by rewrite fn_lookup_insert|].
    all: rewrite !fn_lookup_insert_ne by done; apply (Hl (S (S l))); lia.
  - intros i Hi. unfold block_is. wsimp. unfold array_list. destruct (decide (i = n - 1)%nat) as [->|Hne].
    + rewrite lookup_alter_eq, array_lookup, decide_True by lia. by eexists.
    + rewrite lookup_alter_ne, array_lookup, decide_True by lia. by eexists.
Qed.

(** ** Witnesses *)

(** The lists of the demo node, and the same with connection 0 aborted. *)
Definition demo_lists : clist -> list nat := fun t => match t with LAct O => [0%nat] | _ => [] end.
Lemma demo_conn_wf : conn_wf demo_world [1%nat] demo_lists.
Proof.
  split; [done|]. split.
  - by apply (walk_sound 3).
  - intros [l|[|l]|l]; try done. split; [done|]. by eexists.
  - intros [l|[|l]|l] i; try by intros ?%elem_of_nil.
    by intros ->%list_elem_of_singleton ?%list_elem_of_singleton.
  - intros [l|[|l]|l] [l'|[|l']|l'] i; by repeat intros ?%elem_of_nil || intros _.
  - intros [l|[|l]|l] i cc; try by intros ?%elem_of_nil.
    by intros ->%list_elem_of_singleton [= <-].
Qed.

Lemma conn_lists_refine_witness :
  wp (run_op (OFree 0)) (fun _ w' => exists fl' ls' c,
    abs_step (OFree 0) ([1%nat], demo_lists) (fl', ls') /\ conn_wf w' fl' ls' /\
    conn_frame c demo_world w' /\ c = 0%nat /\ block_is w' c (fun cc => c_state cc = CONN_FREE)) demo_world.
Proof.
  apply (conn_lists_refine (OFree 0)); [apply demo_conn_wf|].
  exists (LAct 0). split; [by left|done].
Defined.

Definition demo_aborted : world := demo_world
  <| conn_activelist := fun _ => None |>
  <| conn_abortlist := fun l => match l with O => Some 0%nat | _ => None end |>
  <| conn_list ::= alter (fun cc => cc <| c_state := CONN_ABORTED |>) 0%nat |>.
Definition demo_aborted_lists : clist -> list nat :=
  fun t => match t with LAbort O => [0%nat] | _ => [] end.
Lemma demo_aborted_wf : conn_wf demo_aborted [1%nat] demo_aborted_lists.
Proof.
  split; [done|]. split.
  - by apply (walk_sound 3).
  - intros [l|l|[|l]]; try done. split; [done|]. by eexists.
  - intros [l|l|[|l]] i; try by intros ?%elem_of_nil.
    by intros ->%list_elem_of_singleton ?%list_elem_of_singleton.
  - intros [l|l|[|l]] [l'|l'|[|l']] i; by repeat intros ?%elem_of_nil || intros _.
  - intros [l|l|[|l]] i cc; try by intros ?%elem_of_nil.
    by intros ->%list_elem_of_singleton [= <-].
Qed.

Lemma connection_free_abort_head_witness :
  wp (connection_free (Some 0%nat)) (fun res w' =>
    res = 0 /\ conn_freelist w' = Some 0%nat /\ conn_abortlist w' 0%nat = Some 0%nat /\
    conn_pendlist w' 0%nat = None) demo_aborted.
Proof.
  eapply (connection_free_abort_head demo_aborted _ _ 0 0%nat [] _ 0%nat 0%nat demo_aborted_wf);
    reflexivity.
Defined.

Lemma conn_list_init_correct_witness :
  wp (conn_list_init demo_platform 4) (fun r w' =>
    r = - ENOMEM \/
    r = 0 /\ conn_wf w' [0; 1; 2; 3]%nat (fun _ => []) /\
    forall i, (i < 4)%nat -> block_is w' i (fun cc =>
      my_index cc = u16 (Z.of_nat i) /\ c_state cc = CONN_FREE)) demo_world.
Proof.
  apply (conn_list_init_correct demo_platform demo_world 4); [done|done|].
  intros [|[|l]] Hl; [lia..|done].
Defined.
