(* ===== verification/Connect.v ===== *)
(** * The connection protocol

    bgmudm/mudm_connect.c: a connection is set up with a request and a
    reply packet, each carrying the [ionet_connect] of the user followed at
    offset 256 by a [mudm_connect_payload] of the driver, and ended by a
    disconnect packet that names the remote block and the low 16 bits of
    its timestamp.  A received packet is the list of its bytes, 32 header
    bytes and the payload; the user's structures are byte lists too.  A
    packet too short for a member read from it is outside the model
    ([peek] faults). *)

From S2P Require Import Prelude Chain Bytes Descriptor State Inject Concrete Memory Pools Pkt ConnList.

(** ** Members *)

Definition at_off (n : nat) (f : field) : field := Field (n + f_off f) (f_len f).

(** [struct ionet_connect] *)
Definition SIZEOF_ionet_header : nat := 18.
Definition SIZEOF_ionet_connect : nat := 72.
Definition ic_status := Field 66 4.
Definition ic_private_data_length := Field 70 2.
(** [struct mudm_connect_payload] *)
Definition SIZEOF_mudm_connect_payload : nat := 32.
Definition mp_source_conn_index := Field 0 2.
Definition mp_dest_conn_index := Field 2 2.
Definition mp_version := Field 4 1.
Definition mp_using_IO_port := Field 5 1.
Definition mp_rec_FIFO_Id := Field 6 2.
Definition mp_source_BlockID := Field 8 4.
Definition mp_myBridgeTorusAddress := Field 12 4.
Definition mp_sourceUCI := Field 16 8.
Definition mp_timestamp := Field 24 8.

Definition CONNECT_PAYLOAD_OFF : nat := 256.
Definition in_msg := at_off CONNECT_PAYLOAD_OFF.
Definition in_pkt := at_off (32 + CONNECT_PAYLOAD_OFF).

(** Packet types (mudm/include/mudm.h). *)
Definition MUDM_CONN_REQUEST := 0x1bc2.
Definition MUDM_CONN_REPLY := 0x1bc3.
Definition MUDM_DISCONNECTED := 0xdddd.

Definition MUDM_CN2IO_NODE := 0xFFFFFFFF.
Definition MUDM_NODE_LOOPBACK := 0xC0000000.
Definition init_sys_rec_fifo_id (i : nat) : Z := match i with O => 264 | _ => 268 end.
Definition get_init_sys_rec_fifo_id := init_sys_rec_fifo_id.

Definition set_direction_request (src_torus dest_torus : Z) : Z :=
  if src_torus =? MUDM_NODE_LOOPBACK then NODE_LOOPBACK else
  if src_torus =? dest_torus then NODE_LOOPBACK
  else if dest_torus =? MUDM_CN2IO_NODE then CN2IONODE
  else if negb (Z.land src_torus 0x80000000 =? 0) then
    if negb (Z.land dest_torus 0x80000000 =? 0) then ION2ION else IONODE2CN
  else
    if negb (Z.land dest_torus 0x80000000 =? 0) then CN2IONODE else CN2CN.

Section with_platform.
Context (P : platform).

(** A packet buffer as bytes, whatever was last written there. *)
Definition buf_bytes (w : world) (pa : Z) : list Z :=
  match mem w !! pa with
  | None => replicate 512 0
  | Some (DataBytes bs) => bs
  | Some d => buf_image P d
  end.
Definition buf_write (pa : Z) (u : list Z -> list Z) : MW unit :=
  modify (fun w => w <| mem := <[pa := DataBytes (u (buf_bytes w pa))]> (mem w) |>).

Definition hdr_update (c : nat) (u : list Z -> list Z) : MW unit :=
  upd_conn c (fun x => x <| mu_iMemoryFifoDescriptor ::= upd_hdr u |>).
Definition clear_memfifo_sent (c : nat) : MW unit :=
  cc <- get_conn c ;;
  when (negb (memfifo_sent cc =? 0)) (upd_conn c (fun x => x <| memfifo_sent := 0 |>)).

(** ** Disconnecting *)

Definition mudm_disconnect (c : nat) : MW Z :=
  cc <- get_conn c ;;
  if negb (c_magic cc =? CONN_MAGIC) then ret (- EFAULT) else
  if c_state cc =? CONN_FREE then ret (- ENOTCONN) else
  if c_state cc =? CONN_DISCONNECTING then ret (- ECONNRESET) else
  upd_conn c (fun x => x <| mu_iMemoryFifoDescriptor ::= Update_memfifo_payload 0 0 |>) ;;;
  hdr_update c (wr (in_hdr sb_dest_context_index) (dest_conn_index cc)) ;;;
  hdr_update c (wr (in_hdr sb_type) MUDM_DISCONNECTED) ;;;
  hdr_update c (wr (in_hdr sb_lowbytes_timestamp) (remote_timestamp cc)) ;;;
  upd_conn c (fun x => x <| c_state := CONN_DISCONNECTING |>) ;;;
  cc <- get_conn c ;;
  desc_count <- InjFifoInject P (injfifo_ctls cc) (mu_iMemoryFifoDescriptor cc) ;;
  if desc_count =? u64_max then ret (- ECANCELED) else
  r <- connection_free (Some c) ;;
  ret (- ENOSYS).

(** Tell the user that the link of a connection is gone, with the header
    the remote side would have sent. *)
Definition disconnect_indicate (c : nat) (free_option : bool) : MW Z :=
  cc <- get_conn c ;;
  let hdr := PacketHeader (mu_iMemoryFifoDescriptor cc) in
  let source_node := rd (in_hdr sb_torus_source_node) hdr in
  let source_qpnum := rd (in_hdr sb_source_qpn) hdr in
  let hdr := wr (in_hdr sb_source_qpn) (rd (in_hdr sb_dest_qpn) hdr) hdr in
  let hdr := wr (in_hdr sb_dest_qpn) source_qpnum hdr in
  let hdr := wr (in_hdr sb_torus_source_node) (rd (in_hdr sb_torus_dest_node) hdr) hdr in
  let hdr := wr (in_hdr sb_torus_dest_node) source_node hdr in
  let hdr := wr (in_hdr sb_type) MUDM_DISCONNECTED hdr in
  let hdr := wr (in_hdr sb_payload_length) 0 hdr in
  let hdr := wr (in_hdr sb_sequence_number) (my_index cc) hdr in
  hdr_update c (fun _ => hdr) ;;;
  callback_STATUS <- recv_conn_cb P c (addressSoftwareBytes hdr) ;;
  (if free_option then r <- connection_free (Some c) ;; ret tt else ret tt) ;;;
  ret callback_STATUS.

(** The walk of the active list; the result is its last block. *)
Fixpoint flush_conn_loop (fuel : nat) (ccontext last_ccontext : option nat) : MW (option nat) :=
  match ccontext with
  | None => ret last_ccontext
  | Some c =>
    match fuel with
    | O => hang
    | S fuel =>
      upd_conn c (fun x => x <| c_state := CONN_FREE |>) ;;;
      r <- disconnect_indicate c false ;;
      upd_conn c (fun x => x <| c_activelist := None |>) ;;;
      cc <- get_conn c ;;
      flush_conn_loop fuel (nextconn cc) (Some c)
    end
  end.

Definition flush_iolink_connection_list (l : nat) : MW Z :=
  first_ccontext <- gets (fun w => conn_activelist w l) ;;
  match first_ccontext with
  | None => ret 0
  | Some _ =>
    n <- gets (fun w => size (conn_list w)) ;;
    last_ccontext <- flush_conn_loop n first_ccontext first_ccontext ;;
    SPIN_LOCK ConnLock ;;;
    c <- deref last_ccontext ;;
    f <- gets conn_freelist ;;
    upd_conn c (set_nx f) ;;;
    set_freelist first_ccontext ;;;
    set_activelist l None ;;;
    SPIN_UNLOCK ConnLock ;;;
    ret 0
  end.

(** The block index of the packet is used as it is. *)
Definition disconnect_request (pkt : list Z) : MW Z :=
  i <- peek (in_hdr sb_dest_context_index) pkt ;;
  let c := Z.to_nat i in
  cc <- get_conn c ;;
  if negb (c_magic cc =? CONN_MAGIC) then ret (- EFAULT) else
  t <- peek (in_hdr sb_lowbytes_timestamp) pkt ;;
  if negb (t =? lowbit_timestamp cc) then ret (- EINVAL) else
  if (c_state cc =? CONN_FREE) || (c_state cc =? CONN_DISCONNECTING) then
    ret (- (if c_state cc =? CONN_DISCONNECTING then ECONNRESET else ENOTCONN))
  else
  upd_conn c (fun x => x <| c_state := CONN_DISCONNECTING |>) ;;;
  r <- connection_free (Some c) ;;
  recv_conn_cb P c (drop SW_OFF pkt).

(** ** Connecting *)

Definition PAYLOAD_LENGTH : nat := SIZEOF_ionet_connect - SIZEOF_ionet_header.
Definition CONNECT_MESSAGE_LENGTH : Z :=
  Z.of_nat (CONNECT_PAYLOAD_OFF + SIZEOF_mudm_connect_payload).

(** [memcpy(msg2send + payload_length, private_data, private_data_length)] *)
Definition copy_private_data (pa : Z) (private_data : option (list Z)) (private_data_length : Z)
    : MW unit :=
  match private_data with
  | None => ret tt
  | Some pd =>
      bs <- peek_bytes 0 (Z.to_nat private_data_length) pd ;;
      buf_write pa (blit PAYLOAD_LENGTH bs)
  end.

(** The [mudm_connect_payload] both packets carry. *)
Definition put_connect_payload (w : world) (cc : mudm_connection) (dest_index using_IO_port : Z)
    (msg : list Z) : list Z :=
  let msg := wr (in_msg mp_source_conn_index) (my_index cc) msg in
  let msg := wr (in_msg mp_version) MUDM_VERSION msg in
  let msg := wr (in_msg mp_dest_conn_index) dest_index msg in
  let msg := wr (in_msg mp_using_IO_port) using_IO_port msg in
  let msg := wr (in_msg mp_timestamp) (my_timestamp cc) msg in
  let msg := wr (in_msg mp_rec_FIFO_Id) (local_rec_FIFO_Id cc) msg in
  let msg := wr (in_msg mp_myBridgeTorusAddress) (mybridgingCNnode w) msg in
  let msg := wr (in_msg mp_sourceUCI) (myUCI w) msg in
  wr (in_msg mp_source_BlockID) (myBlockID w) msg.

(** The controls of link [l], and its active and abort list. *)
Definition use_link (l : nat) (cc : mudm_connection) : mudm_connection :=
  cc <| injfifo_ctls := l |> <| c_packetcontrols := l |> <| c_smallpa_obj_ctls := l |>
     <| c_rdma_obj_ctls := l |> <| c_activelist := Some l |> <| c_abortlist := Some l |>.

(** Inject the packet of buffer [i] and give the buffer back, or post it
    when the message unit is not done with it yet.  [false] is an inactive
    FIFO.  The reply also clears the send counter after the injection. *)
Definition inject_packet (c i : nat) (is_reply : bool) : MW bool :=
  cc <- get_conn c ;;
  let p := PacketControls (c_packetcontrols cc) in
  desc_count <- InjFifoInject P (injfifo_ctls cc) (mu_iMemoryFifoDescriptor cc) ;;
  if desc_count =? u64_max then
    release_pkt_to_free p i desc_count ;;; ret false
  else
    when is_reply (clear_memfifo_sent c) ;;;
    done <- MUSPI_CheckDescComplete (injfifo_ctls cc) desc_count ;;
    (if negb (done =? 0) then release_pkt_to_free p i desc_count
     else release_pkt_to_poll_ccontext p i desc_count c ;;; wakeup) ;;;
    ret true.

(** The links and directions [mudm_connect] chooses. *)
Definition connect_setup (w : world) (dest_node : Z) (cc : mudm_connection) : mudm_connection :=
  let cc := cc <| c_direction := set_direction_request (myTorusAddress w) dest_node |>
    <| local_rec_FIFO_Id := u16 (sys_rec_fifo_id w 0) |>
    <| remote_rec_FIFO_Id := u16 (sys_rec_fifo_id w 0) |> in
  let cc := use_link 0 cc in
  if c_direction cc =? IONODE2CN then
    let cc := cc <| reverse_direction := CN2IONODE |> in
    if negb (my_using_IO_port w =? MUHWI_PACKET_RETURN_FROM_IO_NODE_USING_IO_PORT) then
      (use_link 1 cc) <| local_rec_FIFO_Id := u16 (sys_rec_fifo_id w 1) |>
    else cc
  else if c_direction cc =? CN2IONODE then
    let cc := cc <| reverse_direction := IONODE2CN |> in
    if negb (my_using_IO_port w =? MUHWI_PACKET_RETURN_FROM_IO_NODE_USING_IO_PORT) then
      cc <| remote_rec_FIFO_Id := get_init_sys_rec_fifo_id 1 |>
    else cc
  else cc <| reverse_direction := c_direction cc |>.

(** The template descriptor for direct puts in one direction. *)
Definition set_put_template (dest direction io_port : Z) : MW MUHWI_Descriptor :=
  deref (initPt2PtDirectPutDescriptor 0 0 dest direction io_port 0 0).

Definition mudm_connect (dest_node : Z) (conn_request : list Z)
    (private_data : option (list Z)) (private_data_length : Z) : MW (Z * option nat) :=
  mg <- gets magic ;;
  if negb (mg =? MUDM_MAGIC) then ret (- EINVAL, None) else
  if private_data_length >? 256 then ret (- EINVAL, None) else
  req <- peek_bytes 0 SIZEOF_ionet_connect conn_request ;;
  let conn_request := wr ic_private_data_length private_data_length req in
  o <- conn_list_getfree ;;
  match o with
  | None => ret (- EXFULL, None)
  | Some c =>
    w <- get ;;
    upd_conn c (connect_setup w dest_node) ;;;
    cc <- get_conn c ;;
    pktd <- alloc_pkt_message (PacketControls (c_packetcontrols cc)) ;;
    match pktd with
    | None => r <- connection_free (Some c) ;; ret (- EBUSY, Some c)
    | Some i =>
      d <- get_node (pkt_pool (PacketControls (c_packetcontrols cc))) i ;;
      let pa := message_pa d in
      buf_write pa (blit 0 (slice SIZEOF_ionet_header PAYLOAD_LENGTH conn_request)) ;;;
      copy_private_data pa private_data private_data_length ;;;
      upd_conn c (fun x => x <| lowbit_timestamp := u16 (my_timestamp x) |>
                             <| io_port := my_using_IO_port w |>) ;;;
      cc <- get_conn c ;;
      buf_write pa (put_connect_payload w cc 0xFFFF (my_using_IO_port w)) ;;;
      let sw := take SW_LEN conn_request in
      let sw := wr sb_sequence_number (my_index cc) sw in
      let sw := wr sb_torus_source_node (myTorusAddress w) sw in
      let sw := wr sb_torus_dest_node dest_node sw in
      upd_conn c (fun x => x <| c_destination := dest_node |>) ;;;
      let sw := wr sb_payload_length (Z.of_nat PAYLOAD_LENGTH + private_data_length) sw in
      let sw := wr sb_type MUDM_CONN_REQUEST sw in
      let '(sw, use_Destination) :=
        if c_direction cc =? CN2IONODE then (sw, mybridgingCNnode w)
        else if c_direction cc =? NODE_LOOPBACK
        then (wr sb_torus_dest_node (myTorusAddress w) sw, myTorusAddress w)
        else (sw, dest_node) in
      mf <- deref (InitPt2PtMemoryFIFODescriptor sw pa CONNECT_MESSAGE_LENGTH use_Destination
                     (c_direction cc) (io_port cc) (remote_rec_FIFO_Id cc)) ;;
      upd_conn c (fun x => x <| mu_iMemoryFifoDescriptor := mf |>) ;;;
      dp <- set_put_template use_Destination (c_direction cc) (io_port cc) ;;
      upd_conn c (fun x => x <| mu_iDirectPutDescriptor := dp |>) ;;;
      upd_conn c (fun x => x
        <| reverse_destination := if reverse_direction x =? CN2IONODE
             then remote_bridgingCNnode x else myTorusAddress w |>
        <| reverse_io_port := if io_port x =? 0xff
             then MUHWI_PACKET_RETURN_FROM_IO_NODE_USING_IO_PORT else io_port x |>) ;;;
      cc <- get_conn c ;;
      dr <- set_put_template (reverse_destination cc) (reverse_direction cc) (reverse_io_port cc) ;;
      upd_conn c (fun x => x <| mu_iDirectPutDescriptor4rget := dr |>) ;;;
      put_on_pending_list c 0 ;;;
      ok <- inject_packet c i false ;;
      if negb ok then r <- connection_free (Some c) ;; ret (- ECANCELED, Some c)
      else ret (0, Some c)
    end
  end.

(** The end of [mudm_conn_reply] at [CONN_RESP_ERR]. *)
Definition conn_resp_err (c : nat) (status : Z) : MW Z :=
  if status =? 0 then
    upd_conn c (fun x => x <| c_state := CONN_ORPHANED |>) ;;;
    r <- connection_free (Some c) ;; ret (- ENOTCONN)
  else r <- connection_free (Some c) ;; ret 0.

Definition mudm_conn_reply (c : nat) (conn_reply : list Z)
    (private_data : option (list Z)) (private_data_length : Z) : MW Z :=
  reply <- peek_bytes 0 SIZEOF_ionet_connect conn_reply ;;
  let status := rd ic_status reply in
  cc <- get_conn c ;;
  let use_Destination := c_destination cc in
  clear_memfifo_sent c ;;;
  if private_data_length >? 256 then ret (- EINVAL) else
  let conn_reply := wr ic_private_data_length private_data_length reply in
  if negb (c_magic cc =? CONN_MAGIC) then ret (- EFAULT) else
  mg <- gets magic ;;
  if negb (mg =? MUDM_MAGIC) then ret (- EFAULT) else
  pktd <- alloc_pkt_message (PacketControls (c_packetcontrols cc)) ;;
  match pktd with
  | None => ret (- EBUSY)
  | Some i =>
    w <- get ;;
    d <- get_node (pkt_pool (PacketControls (c_packetcontrols cc))) i ;;
    let pa := message_pa d in
    buf_write pa (blit 0 (slice SIZEOF_ionet_header PAYLOAD_LENGTH conn_reply)) ;;;
    copy_private_data pa private_data private_data_length ;;;
    let sw := take SW_LEN conn_reply in
    let sw := wr sb_sequence_number (my_index cc) sw in
    let sw := wr sb_torus_source_node (myTorusAddress w) sw in
    let sw := wr sb_torus_dest_node (c_destination cc) sw in
    let sw := wr sb_payload_length (Z.of_nat PAYLOAD_LENGTH + private_data_length) sw in
    let sw := wr sb_type MUDM_CONN_REPLY sw in
    let use_Destination := if c_direction cc =? CN2IONODE then mybridgingCNnode w
                           else use_Destination in
    mf <- deref (InitPt2PtMemoryFIFODescriptor sw pa CONNECT_MESSAGE_LENGTH use_Destination
                   (c_direction cc) (io_port cc) (remote_rec_FIFO_Id cc)) ;;
    upd_conn c (fun x => x <| mu_iMemoryFifoDescriptor := mf |>) ;;;
    if c_state cc =? CONN_ABORTED then
      release_pkt_to_free (PacketControls (c_packetcontrols cc)) i u64_max ;;;
      conn_resp_err c status
    else
    buf_write pa (put_connect_payload w cc (dest_conn_index cc) (io_port cc)) ;;;
    dp <- set_put_template (c_destination cc) (c_direction cc) (io_port cc) ;;
    upd_conn c (fun x => x <| mu_iDirectPutDescriptor := dp |>
      <| reverse_destination := if reverse_direction x =? CN2IONODE
           then remote_bridgingCNnode x else myTorusAddress w |>
      <| reverse_io_port := io_port x |>) ;;;
    cc <- get_conn c ;;
    dr <- set_put_template (reverse_destination cc) (reverse_direction cc) (reverse_io_port cc) ;;
    upd_conn c (fun x => x <| mu_iDirectPutDescriptor4rget := dr |>) ;;;
    (if negb (status =? 0) then upd_conn c (fun x => x <| c_state := CONN_DISCONNECTING |>)
     else connection_activate c) ;;;
    clear_memfifo_sent c ;;;
    ok <- inject_packet c i true ;;
    if negb ok then conn_resp_err c status else
    if negb (status =? 0) then conn_resp_err c status else ret 0
  end.

(** ** Receiving connection packets *)

(** The port that resets link [l], from the first request on it. *)
Definition learn_reset_port (l : nat) (using_IO_port : Z) : MW unit :=
  cur <- gets (fun w => link4reset w l) ;;
  if cur =? 0 then
    if using_IO_port =? MUHWI_PACKET_RETURN_FROM_IO_NODE_USING_IO_PORT then
      modify (fun w => w <| link4reset ::= <[l := 10]> |>)
    else if using_IO_port =? MUHWI_PACKET_RETURN_FROM_IO_NODE_USING_TORUS_PORT_6 then
      modify (fun w => w <| link4reset ::= <[l := 6]> |>)
    else if using_IO_port =? MUHWI_PACKET_RETURN_FROM_IO_NODE_USING_TORUS_PORT_7 then
      modify (fun w => w <| link4reset ::= <[l := 7]> |>)
    else ret tt
  else ret tt.

Definition connect_request (pkt : list Z) : MW Z :=
  o <- conn_list_getfree ;;
  match o with
  | None => ret (- EXFULL)
  | Some c =>
    w <- get ;;
    rec_FIFO_Id <- peek (in_pkt mp_rec_FIFO_Id) pkt ;;
    source_node <- peek (in_hdr sb_torus_source_node) pkt ;;
    using_IO_port <- peek (in_pkt mp_using_IO_port) pkt ;;
    source_BlockID <- peek (in_pkt mp_source_BlockID) pkt ;;
    source_conn_index <- peek (in_pkt mp_source_conn_index) pkt ;;
    bridge <- peek (in_pkt mp_myBridgeTorusAddress) pkt ;;
    timestamp <- peek (in_pkt mp_timestamp) pkt ;;
    let direction := set_direction_request (myTorusAddress w) source_node in
    let '(reverse, LINK_INDEX) :=
      if direction =? IONODE2CN then
        (CN2IONODE,
         if negb (using_IO_port =? MUHWI_PACKET_RETURN_FROM_IO_NODE_USING_IO_PORT) then 1%nat else 0%nat)
      else if direction =? CN2IONODE then (IONODE2CN, 0%nat)
      else (direction, 0%nat) in
    upd_conn c (fun x => (use_link LINK_INDEX x) <| remote_rec_FIFO_Id := rec_FIFO_Id |>
      <| c_direction := direction |> <| reverse_direction := reverse |>
      <| local_rec_FIFO_Id := u16 (sys_rec_fifo_id w LINK_INDEX) |>) ;;;
    modify (fun w => w <| remote_BlockID ::= <[LINK_INDEX := source_BlockID]> |>) ;;;
    learn_reset_port LINK_INDEX using_IO_port ;;;
    upd_conn c (fun x => x <| c_destination := source_node |> <| dest_conn_index := source_conn_index |>
      <| remote_bridgingCNnode := bridge |> <| reverse_io_port := using_IO_port |>
      <| io_port := using_IO_port |> <| c_remote_BlockID := source_BlockID |>
      <| remote_timestamp := timestamp |>) ;;;
    hdr_update c (fun _ => take 32 pkt) ;;;
    put_on_pending_list c LINK_INDEX ;;;
    clear_memfifo_sent c ;;;
    callback_STATUS <- recv_conn_cb P c (drop SW_OFF pkt) ;;
    clear_memfifo_sent c ;;;
    ret callback_STATUS
  end.

Definition connect_reply (pkt : list Z) : MW Z :=
  status <- peek (at_off SW_OFF ic_status) pkt ;;
  i <- peek (in_pkt mp_dest_conn_index) pkt ;;
  max <- gets max_connections ;;
  if negb (i <? max) then ret (-1) else
  let c := Z.to_nat i in
  cc <- get_conn c ;;
  if negb (c_magic cc =? CONN_MAGIC) then ret (- EFAULT) else
  hdr_update c (wr (in_hdr sb_dest_qpn) (rd (in_hdr sb_source_qpn) pkt)) ;;;
  hdr_update c (wr (in_hdr sb_torus_dest_node) (rd (in_hdr sb_torus_source_node) pkt)) ;;;
  using_IO_port <- peek (in_pkt mp_using_IO_port) pkt ;;
  (if negb (io_port cc =? using_IO_port) && (reverse_direction cc =? IONODE2CN) then
     upd_conn c (fun x => x <| reverse_io_port := using_IO_port |> <| io_port := using_IO_port |>) ;;;
     dr <- set_put_template (reverse_destination cc) (reverse_direction cc) using_IO_port ;;
     upd_conn c (fun x => x <| mu_iDirectPutDescriptor4rget := dr |>)
   else ret tt) ;;;
  source_conn_index <- peek (in_pkt mp_source_conn_index) pkt ;;
  bridge <- peek (in_pkt mp_myBridgeTorusAddress) pkt ;;
  timestamp <- peek (in_pkt mp_timestamp) pkt ;;
  source_BlockID <- peek (in_pkt mp_source_BlockID) pkt ;;
  rec_FIFO_Id <- peek (in_pkt mp_rec_FIFO_Id) pkt ;;
  upd_conn c (fun x => x <| dest_conn_index := source_conn_index |>
    <| remote_bridgingCNnode := bridge |> <| remote_timestamp := timestamp |>
    <| c_remote_BlockID := source_BlockID |>) ;;;
  (if negb (remote_rec_FIFO_Id cc =? rec_FIFO_Id) then
     upd_conn c (fun x => x <| remote_rec_FIFO_Id := rec_FIFO_Id |>
       <| mu_iMemoryFifoDescriptor ::= upd_hdr (h_set_Rec_FIFO_Id rec_FIFO_Id) |>)
   else ret tt) ;;;
  connection_activate c ;;;
  when (negb (status =? 0)) (upd_conn c (fun x => x <| c_state := CONN_DISCONNECTING |>)) ;;;
  callback_STATUS <- recv_conn_cb P c (drop SW_OFF pkt) ;;
  (if negb (status =? 0) then r <- connection_free (Some c) ;; ret tt else ret tt) ;;;
  ret callback_STATUS.
End with_platform.

(** ** Properties: addressing *)

Definition reverse_of (direction : Z) : Z :=
  if direction =? IONODE2CN then CN2IONODE
  else if direction =? CN2IONODE then IONODE2CN else direction.

(** C26: both ends agree on the direction.  For two node addresses that
    are not one of the two reserved values, the direction the receiving
    node computes from the request is the reverse of the one the
    requesting node computed, and is what the requester stored as the
    reverse direction. *)
Theorem directions_agree w cc src dest :
  myTorusAddress w = src ->
  src <> MUDM_NODE_LOOPBACK -> dest <> MUDM_NODE_LOOPBACK ->
  src <> MUDM_CN2IO_NODE -> dest <> MUDM_CN2IO_NODE ->
  set_direction_request dest src = reverse_of (set_direction_request src dest) /\
  reverse_direction (connect_setup w dest cc) = set_direction_request dest src.
Proof.
  intros Hw H1 H2 H3 H4.
  assert (E : set_direction_request dest src = reverse_of (set_direction_request src dest)).
  { apply Z.eqb_neq in H1, H2, H3, H4. unfold set_direction_request.
    rewrite H1, H2, H3, H4, (Z.eqb_sym dest src). destruct (src =? dest); [done|].
    by destruct (Z.land src 0x80000000 =? 0), (Z.land dest 0x80000000 =? 0). }
  split; [done|]. rewrite E. unfold connect_setup. rewrite Hw. cbn [use_link upd_field c_direction].
  unfold reverse_of. destruct (set_direction_request src dest =? IONODE2CN).
  - by destruct (negb _).
  - destruct (set_direction_request src dest =? CN2IONODE); [by destruct (negb _)|done].
Qed.

(** ** Properties: the connect message *)

(** What the remote side reads from a connect message. *)
Record payload_view := mkPview {
  pw_source_conn_index : Z; pw_dest_conn_index : Z; pw_version : Z; pw_using_IO_port : Z;
  pw_rec_FIFO_Id : Z; pw_BlockID : Z; pw_bridge : Z; pw_UCI : Z; pw_timestamp : Z }.
Definition view_payload (at_ : field -> field) (bs : list Z) : payload_view :=
  mkPview (rd (at_ mp_source_conn_index) bs) (rd (at_ mp_dest_conn_index) bs)
    (rd (at_ mp_version) bs) (rd (at_ mp_using_IO_port) bs) (rd (at_ mp_rec_FIFO_Id) bs)
    (rd (at_ mp_source_BlockID) bs) (rd (at_ mp_myBridgeTorusAddress) bs)
    (rd (at_ mp_sourceUCI) bs) (rd (at_ mp_timestamp) bs).

(** Every member of the [mudm_connect_payload] reads back as it was
    written, cut to its width, whatever the buffer held before. *)
Theorem connect_payload_roundtrip w cc dest_index using_IO_port msg :
  (288 <= length msg)%nat ->
  view_payload in_msg (put_connect_payload w cc dest_index using_IO_port msg) =
  mkPview (u16 (my_index cc)) (u16 dest_index) (u8 MUDM_VERSION) (u8 using_IO_port)
    (u16 (local_rec_FIFO_Id cc)) (u32 (myBlockID w)) (u32 (mybridgingCNnode w))
    (u64 (myUCI w)) (u64 (my_timestamp cc)).
Proof.
  intros Hl. unfold view_payload, put_connect_payload.
  f_equal; repeat rd_step; reflexivity.
Qed.

(** Two buffers that agree on the bytes [S]. *)
Definition agree (S : nat -> Prop) (l1 l2 : list Z) : Prop :=
  length l1 = length l2 /\ forall k, S k -> l1 !! k = l2 !! k.

Lemma lookup_blit off src dst k :
  (off + length src <= length dst)%nat ->
  blit off src dst !! k = if decide (off <= k < off + length src)%nat then src !! (k - off)%nat
                          else dst !! k.
Proof.
  intros Hl. unfold blit. case_decide as Hk.
  - rewrite lookup_app_r by (rewrite length_take; lia). rewrite length_take, Nat.min_l by lia.
    by rewrite lookup_app_l by lia.
  - destruct (decide (k < off)%nat).
    + rewrite lookup_app_l by (rewrite length_take; lia). by rewrite lookup_take_lt.
    + rewrite lookup_app_r by (rewrite length_take; lia). rewrite length_take, Nat.min_l by lia.
      rewrite lookup_app_r by lia. rewrite lookup_drop. f_equal. lia.
Qed.

Lemma lookup_wr_before f v l k :
  (k < f_off f)%nat -> (f_end f <= length l)%nat -> wr f v l !! k = l !! k.
Proof.
  unfold f_end, wr. intros. rewrite lookup_blit, length_be_split by (rewrite length_be_split; lia).
  by rewrite decide_False by lia.
Qed.

Lemma agree_wr S f v l1 l2 :
  (f_end f <= length l1)%nat -> agree S l1 l2 ->
  agree (fun k => S k \/ f_off f <= k < f_end f)%nat (wr f v l1) (wr f v l2).
Proof.
  unfold f_end. intros Hf [Hl Hs]. split; [by rewrite !length_wr by (unfold f_end; lia)|].
  intros k Hk. unfold wr. rewrite !lookup_blit by (rewrite length_be_split; lia).
  rewrite length_be_split. case_decide; [done|]. apply Hs. by destruct Hk.
Qed.

Lemma agree_take S n l1 l2 :
  (forall k, (k < n)%nat -> S k) -> agree S l1 l2 -> take n l1 = take n l2.
Proof.
  intros Hn [_ Hs]. apply list_eq. intros k. destruct (decide (k < n)%nat).
  - rewrite !lookup_take_lt by lia. auto.
  - by rewrite !lookup_take_ge by lia.
Qed.

(** The message of a connect packet: user payload, private data and the
    payload of the driver, in the order they are written to the buffer. *)
Definition connect_message (w : world) (cc : mudm_connection) (dest_index using_IO_port : Z)
    (payload pd buf : list Z) : list Z :=
  put_connect_payload w cc dest_index using_IO_port
    (blit PAYLOAD_LENGTH pd (blit 0 payload buf)).

(** Private data of up to 202 bytes is sent as given; of anything longer,
    up to the 256 bytes the interface allows, only the first 202 bytes reach
    the 288-byte message, the rest being overwritten or not sent. *)
Theorem private_data_limit w cc dest_index port payload pd buf :
  length payload = PAYLOAD_LENGTH -> length buf = 512%nat -> (length pd <= 256)%nat ->
  let msg := connect_message w cc dest_index port payload pd buf in
  slice PAYLOAD_LENGTH (min 202 (length pd)) msg = take 202 pd /\
  forall pd', length pd' = length pd -> take 202 pd' = take 202 pd ->
    take (Z.to_nat CONNECT_MESSAGE_LENGTH) (connect_message w cc dest_index port payload pd' buf)
    = take (Z.to_nat CONNECT_MESSAGE_LENGTH) msg.
Proof.
  intros Hp Hb Hl msg. change PAYLOAD_LENGTH with 54%nat in *.
  assert (Hlen : forall d, (length d <= 256)%nat -> length (blit 54 d (blit 0 payload buf)) = 512%nat).
  { intros d Hd. assert (H0 : length (blit 0 payload buf) = 512%nat) by (rewrite length_blit; lia).
    rewrite length_blit; lia. }
  assert (H0 : length (blit 0 payload buf) = 512%nat) by (rewrite length_blit; lia).
  split.
  - assert (Hout : forall k, (k < 256)%nat -> msg !! k = blit 54 pd (blit 0 payload buf) !! k).
    { intros k Hk. subst msg. unfold connect_message, put_connect_payload.
      change PAYLOAD_LENGTH with 54%nat. pose proof (Hlen pd Hl) as Hm. revert Hm. generalize (blit 54 pd (blit 0 payload buf)).
      intros m Hm. do 9 (rewrite lookup_wr_before; [|cbn; lia|wr_len]). done. }
    apply list_eq. intros k. unfold slice. destruct (decide (k < min 202 (length pd))%nat).
    + rewrite lookup_take_lt, lookup_drop, Hout, lookup_blit by lia.
      rewrite decide_True, lookup_take_lt by lia. f_equal. lia.
    + rewrite lookup_take_ge by lia. destruct (decide (k < 202)%nat).
      * rewrite lookup_take_lt by lia. symmetry. apply lookup_ge_None_2. lia.
      * by rewrite lookup_take_ge by lia.
  - intros pd' Hl' Ht. subst msg. unfold connect_message, put_connect_payload.
    change PAYLOAD_LENGTH with 54%nat.
    assert (Hag : agree (fun k => (k < 256)%nat)
      (blit 54 pd' (blit 0 payload buf)) (blit 54 pd (blit 0 payload buf))).
    { split; [by rewrite !Hlen by lia|].
      intros k Hk. rewrite !(lookup_blit 54) by lia. rewrite Hl'.
      case_decide; [|done]. assert (k - 54 < 202)%nat by lia.
      rewrite <- (lookup_take_lt pd' 202), <- (lookup_take_lt pd 202) by done. by rewrite Ht. }
    assert (Hm' : length (blit 54 pd' (blit 0 payload buf)) = 512%nat) by (by apply Hlen; lia).
    revert Hag Hm'. generalize (blit 54 pd (blit 0 payload buf)), (blit 54 pd' (blit 0 payload buf)).
    intros m m' Hag Hm'. eapply agree_take; [|do 9 (apply agree_wr; [wr_len|]); exact Hag].
    intros k Hk. change (Z.to_nat CONNECT_MESSAGE_LENGTH) with 288%nat in Hk. cbn. lia.
Qed.

(** ** Properties: disconnecting *)

(** A connection callback that does not call back into the driver. *)
Class QuietRecvConn (P : platform) : Prop := quiet_recv_conn :
  forall c sw w, held w = [] -> wp (cb_recv_conn P c sw) (fun _ w' => exists h, w' = w <| hw := h |>) w.
#[export] Instance demo_quiet_recv_conn : QuietRecvConn demo_platform.
Proof. intros c sw w _. exists (hw w). by destruct w. Qed.

Lemma wp_recv_conn_cb P `{!QuietRecvConn P} c sw (Q : Z -> world -> Prop) w :
  held w = [] ->
  (forall r h, Q r (w <| trace ::= fun t => t ++ [EvRecvConn c sw] |> <| hw := h |>)) ->
  wp (recv_conn_cb P c sw) Q w.
Proof.
  intros Hh HQ. apply wp_bind, wp_modify. eapply wp_mono; [by apply quiet_recv_conn; wsimp|].
  intros r w' (h & ->). by apply HQ.
Qed.

Lemma conn_wf_trace u hw' w fl ls :
  conn_wf w fl ls -> conn_wf (w <| trace ::= u |> <| hw := hw' |>) fl ls.
Proof. apply conn_wf_ext; [done..|]. by intros []. Qed.

Section disconnect.
Context (P : platform) (w : world) (fl : list nat) (ls : clist -> list nat).

Definition dead (cc : mudm_connection) : bool :=
  (c_state cc =? CONN_FREE) || (c_state cc =? CONN_DISCONNECTING).

(** [connection_free] sets the state first, whatever it was. *)
Lemma connection_free_state c s cc (v : world) : conn_list v !! c = Some cc -> c_magic cc = CONN_MAGIC ->
  connection_free (Some c) (v <| conn_list ::= alter (fun x => x <| c_state := s |>) c |>) = connection_free (Some c) v.
Proof.
  intros E Hm. set (v1 := v <| conn_list ::= _ |>). assert (E1 : conn_list v1 !! c = Some (cc <| c_state := s |>)).
  { subst v1. wsimp. by rewrite lookup_alter_eq, E. }
  assert (G : forall (u : world) x, conn_list u !! c = Some x -> get_conn c u = Ok x u).
  { intros u x Ex. unfold get_conn, bind, gets. by rewrite Ex. }
  unfold connection_free. erewrite (bind_ok _ _ v1), (bind_ok _ _ v) by by apply G.
  change (c_magic (cc <| c_state := s |>)) with (c_magic cc). rewrite Hm, Z.eqb_refl. cbn [negb].
  assert (U : forall (u : world) x, conn_list u !! c = Some x -> upd_conn c (fun x => x <| c_state := CONN_FREE |>) u =
    Ok tt (u <| conn_list ::= alter (fun x => x <| c_state := CONN_FREE |>) c |>)).
  { intros u x Ex. unfold upd_conn. by erewrite bind_ok by by apply G. }
  erewrite (bind_ok _ _ v1), (bind_ok _ _ v) by by eapply U. f_equal. subst v1. unfold upd_field. destruct v. cbn in E |- *. f_equal.
  apply map_eq. intros j. destruct (decide (j = c)) as [->|Hj]; [by rewrite !lookup_alter_eq, E|by rewrite !lookup_alter_ne].
Qed.

(** The packet is for this block, which is in use. *)
Definition disconnects (pkt : list Z) (cc : mudm_connection) : Prop :=
  c_magic cc = CONN_MAGIC /\ rd (in_hdr sb_lowbytes_timestamp) pkt = lowbit_timestamp cc /\ dead cc = false.


(** The descriptor of the disconnect packet of a connection. *)
Definition disconnect_desc (cc : mudm_connection) : MUHWI_Descriptor :=
  let d := Update_memfifo_payload 0 0 (mu_iMemoryFifoDescriptor cc) in
  let d := upd_hdr (wr (in_hdr sb_dest_context_index) (dest_conn_index cc)) d in
  let d := upd_hdr (wr (in_hdr sb_type) MUDM_DISCONNECTED) d in
  upd_hdr (wr (in_hdr sb_lowbytes_timestamp) (remote_timestamp cc)) d.

Lemma disconnect_desc_header cc :
  hdr_ok (mu_iMemoryFifoDescriptor cc) ->
  let hdr := PacketHeader (disconnect_desc cc) in
  rd (in_hdr sb_dest_context_index) hdr = u16 (dest_conn_index cc) /\
  rd (in_hdr sb_lowbytes_timestamp) hdr = u16 (remote_timestamp cc) /\
  rd (in_hdr sb_type) hdr = MUDM_DISCONNECTED /\
  Message_Length (disconnect_desc cc) = 0 /\ length hdr = 32%nat.
Proof.
  unfold hdr_ok, disconnect_desc, Update_memfifo_payload, set_hdr, upd_hdr. intros H.
  cbn [PacketHeader upd_field Message_Length].
  split_and!; [repeat rd_step; done..|done|wr_len].
Qed.

(** [mudm_disconnect] on an active connection sends one packet without
    payload that names the remote block and the low 16 bits of its
    timestamp, and frees the block; the result is -ENOSYS all the same.  On
    an inactive FIFO it returns -ECANCELED with nothing sent, and on a
    connection already disconnecting or free it does nothing. *)
Theorem mudm_disconnect_correct `{!MuLive P} t c cc :
  conn_wf w fl ls -> c ∈ ls (LAct t) -> conn_list w !! c = Some cc ->
  hdr_ok (mu_iMemoryFifoDescriptor cc) ->
  (dead cc = false -> inj_ready (injfifo_ctls cc) 1 w) ->
  wp (mudm_disconnect P c) (fun r w' =>
    if dead cc then (r = - ENOTCONN \/ r = - ECONNRESET) /\ w' = w
    else r = - ENOSYS /\ conn_wf w' (c :: fl) (<[LAct t := without c (ls (LAct t))]> ls) /\
      exists d, trace w' = trace w ++ [EvInject (injfifo_ctls cc) d (mem w !! 0)] /\
        let hdr := PacketHeader d in
        rd (in_hdr sb_dest_context_index) hdr = u16 (dest_conn_index cc) /\
        rd (in_hdr sb_lowbytes_timestamp) hdr = u16 (remote_timestamp cc) /\
        rd (in_hdr sb_type) hdr = MUDM_DISCONNECTED /\ Message_Length d = 0) w.
Proof.
  intros Hw Hin Hcc Hhdr Hr. pose proof Hw as [Hh Hlw].
  pose proof (lw_on _ _ _ _ _ Hlw _ _ _ Hin Hcc) as [Hm Ha].
  unfold mudm_disconnect. apply wp_bind. eapply wp_get_conn; [done|].
  rewrite Hm. cbn [negb Z.eqb Pos.eqb]. unfold dead in *.
  destruct (c_state cc =? CONN_FREE); [by apply wp_ret; split; [auto|done]|].
  destruct (c_state cc =? CONN_DISCONNECTING); [by apply wp_ret; split; [auto|done]|]. cbn [orb] in *.
  specialize (Hr eq_refl). unfold hdr_update.
  do 4 apply wp_upd_upd. apply wp_bind. eapply wp_upd_conn; [done|].
  set (u := _ ∘ _). assert (Eu : u cc = cc <| mu_iMemoryFifoDescriptor := disconnect_desc cc |>
                                        <| c_state := CONN_DISCONNECTING |>) by done.
  assert (Hu : forall x, nextconn (u x) = nextconn x /\ prevconn (u x) = prevconn x) by done.
  assert (Hcc1 : alter u c (conn_list w) !! c = Some (u cc)) by (by rewrite lookup_alter_eq, Hcc).
  assert (Hw1 : conn_wf (w <| conn_list ::= alter u c |>) fl ls).
  { split; [done|]. wsimp. by eapply lw_upd_listed; [done..|by apply Hu|by apply Hu|]. }
  clearbody u. apply wp_bind. eapply wp_get_conn; [wsimp; exact Hcc1|]. rewrite Eu.
  cbn [injfifo_ctls mu_iMemoryFifoDescriptor upd_field]. apply wp_bind.
  eapply (wp_InjFifoInject P _ _ 0); [by eapply inj_ready_ext; [..|exact Hr]|].
  intros w2 (i & h & fs & _ & -> & _). wsimp.
  destruct Hr as [_ _ _ [Hr1 Hr2]]. rewrite (proj2 (Z.eqb_neq _ _)) by (unfold u64_max in *; lia).
  apply wp_bind.
  eapply (wp_connection_free _ fl ls (LAct t) c (u cc)); [|done|done|by wsimp|].
  - eapply conn_wf_ext, Hw1; [done..|]. by intros [].
  - intros w' Hw' [(h1 & f1 & hd1 & ->) _] _. apply wp_ret. split; [done|]. split; [done|].
    exists (disconnect_desc cc). split; [done|].
    destruct (disconnect_desc_header cc Hhdr) as (?&?&?&?&_). done.
Qed.
End disconnect.

(** A connect attempt on a node whose packet buffers are all in use and
    whose connection block was never pending: giving the block back reads
    through its unset pending-list pointer. *)
Definition demo_busy : world := demo_world
  <| conn_list ::= alter (fun cc => cc <| c_pendlist := None |>) 1%nat |>
  <| pools ::= fun f => <[PacketControls 0 := (f (PacketControls 0)) <| pkt_free_list := None |>]> f |>.
Example connect_when_busy_faults :
  mudm_connect demo_platform 0x80000001 (replicate 72 0) None 0 demo_busy = Fault.
Proof. by vm_compute. Qed.

(** ** Witnesses *)

Lemma directions_agree_witness :
  set_direction_request 0x80000001 0x4321 = reverse_of (set_direction_request 0x4321 0x80000001) /\
  reverse_direction (connect_setup demo_world 0x80000001 zero_conn) = set_direction_request 0x80000001 0x4321.
Proof. by apply directions_agree. Defined.

Lemma connect_payload_roundtrip_witness :
  view_payload in_msg (put_connect_payload demo_world demo_cc 0xFFFF 24 (replicate 512 7))
  = mkPview 0 0xFFFF 4 24 3 7 0x55 0 100.
Proof. rewrite connect_payload_roundtrip by (cbn; lia). reflexivity. Defined.

Lemma private_data_limit_witness :
  let msg := connect_message demo_world demo_cc 0xFFFF 24 (replicate 54 1) (replicate 256 9) (replicate 512 7) in
  slice PAYLOAD_LENGTH 202 msg = replicate 202 9 /\
  forall pd', length pd' = 256%nat -> take 202 pd' = replicate 202 9 ->
    take (Z.to_nat CONNECT_MESSAGE_LENGTH)
      (connect_message demo_world demo_cc 0xFFFF 24 (replicate 54 1) pd' (replicate 512 7))
    = take (Z.to_nat CONNECT_MESSAGE_LENGTH) msg.
Proof.
  exact (private_data_limit demo_world demo_cc 0xFFFF 24 (replicate 54 1) (replicate 256 9)
    (replicate 512 7) eq_refl eq_refl (le_n 256)).
Defined.

(** A packet that names block 9 of two. *)
Definition demo_beyond : list Z := wr (in_hdr sb_dest_context_index) 9 (replicate 32 0).
Lemma demo_beyond_index : conn_list demo_world !! Z.to_nat (rd (in_hdr sb_dest_context_index) demo_beyond) = None.
Proof. by vm_compute. Qed.
Lemma demo_index : conn_list demo_world !! Z.to_nat (rd (in_hdr sb_dest_context_index) (replicate 32 0)) = Some demo_cc.
Proof. by vm_compute. Qed.

Lemma mudm_disconnect_correct_witness :
  wp (mudm_disconnect demo_platform 0) (fun r w' => r = - ENOSYS /\
    conn_wf w' [0; 1]%nat (<[LAct 0 := []]> demo_lists) /\ length (trace w') = 1%nat) demo_world.
Proof.
  eapply wp_mono; [apply (mudm_disconnect_correct demo_platform demo_world [1%nat] demo_lists 0 0 demo_cc
    demo_conn_wf)|].
  - by left.
  - done.
  - done.
  - intros _. by apply demo_inj_ready.
  - intros r w' (A & B & d & C & _). rewrite C. by split_and!.
Defined.
