(* ===== verification/Transfer.v ===== *)
(** * Sending on a connection and the remote get

    [mudm_send_pkt], [mudm_send_packet], [mudm_send_message_remote] and
    [mudm_rdma_read] of bgmudm/mudm.c.  An RDMA read is an emulated remote
    get: the direct puts the other side has to execute are written into a
    packet buffer, eight at a time, and sent there in [MUDM_DPUT] packets. *)

From S2P Require Import Prelude Chain Bytes Descriptor State Inject Concrete RdmaWrite Pools Pkt Rdma.

Definition MUDM_DPUT := 0x5544.
Definition MUDM_PKT_DATA_REMOTE := 0x88b1.
Definition MUDM_RDMA_READ := 0x4444.
Definition MUDM_RDMA_WRITE := 0x5555.
Definition MUDM_RDMA_READ_IMM := 0x444D.
Definition MUDM_MAX_REMOTE_SGE := 58.
(** sizeof(struct ionet_send_remote_payload), sizeof(struct mudm_sgl),
    sizeof(void * ). *)
Definition SIZEOF_mudm_sgl := 8.
Definition SIZEOF_ionet_send_remote_payload := 48 + MUDM_MAX_REMOTE_SGE * SIZEOF_mudm_sgl.
Definition SIZEOF_pointer := 8.

Section with_platform.
Context (P : platform).

(** ** Packets *)

(** The [do .. while (1)] of [mudm_send_pkt]: poll the packet, and while it
    is not complete try to get a tracking object for the request. *)
Fixpoint send_pkt_loop (fuel c : nat) (requestID desc_count : Z) : MW Z :=
  cc <- get_conn c ;;
  done <- MUSPI_CheckDescComplete (injfifo_ctls cc) desc_count ;;
  if done =? 1 then ret 0 else
  if desc_count =? u64_max then ret (- ECANCELED) else
  let p := SmallpaObjCtls (c_smallpa_obj_ctls cc) in
  spo <- (if negb (requestID =? 0) then alloc_pkt_message p else ret None) ;;
  match spo with
  | Some i =>
      set_pkt_req_id p i requestID ;;;
      release_pkt_to_poll_ccontext p i desc_count c ;;;
      ret (- EINPROGRESS)
  | None =>
    match fuel with
    | O => hang
    | S fuel =>
        modify (fun w => w <| hw := hw_step P w |>) ;;;
        send_pkt_loop fuel c requestID desc_count
    end
  end.

Definition mudm_send_pkt (c : nat) (requestID type payload_paddr payload_length : Z) : MW Z :=
  if payload_length >? TORUS_MAX_PAYLOAD_SIZE then ret (- EINVAL) else
  cc <- get_conn c ;;
  if negb (c_magic cc =? CONN_MAGIC) then ret (- EFAULT) else
  desc_count <- conn_memfifo P c type payload_paddr payload_length ;;
  send_pkt_loop (spin_fuel P) c requestID desc_count.

Definition mudm_send_packet (c : nat) (requestID type payload_paddr payload_length : Z) : MW Z :=
  if negb (payload_paddr =? 0)
  then mudm_send_pkt c requestID type payload_paddr payload_length
  else ret (- EINVAL).

(** ** Messages that name memory *)

Definition buf_store (pa : Z) (d : packet_data) : MW unit :=
  modify (fun w => w <| mem ::= <[pa := d]> |>).

(** The set-up of the RDMA object that tracks a request. *)
Definition track_request (l i c : nat) (counter request_id remote_pa : Z) : MW unit :=
  r <- get_node (rdma_pool l) i ;;
  upd_mue l (ro_mue r) (fun m => m <| mu_counter := counter |> <| mu_error := 0 |>) ;;;
  upd_node (rdma_pool l) i (fun r => r <| local_request_id := request_id |>
    <| remote_rdma_obj_pa := remote_pa |> <| local_connect := Some c |>).

Definition mudm_send_message_remote (c : nat) (type : Z) (payload : ionet_send_remote_payload)
    : MW Z :=
  if rp_sgl_num payload =? 0 then ret (- EFAULT) else
  if rp_sgl_num payload >? MUDM_MAX_REMOTE_SGE then ret (- E2BIG) else
  cc <- get_conn c ;;
  st <- at_link inj_state (injfifo_ctls cc) ;;
  if st =? 0 then ret (- ECANCELED) else
  let p := PacketControls (c_packetcontrols cc) in
  pktd <- alloc_pkt_message p ;;
  match pktd with
  | None => ret (- EBUSY)
  | Some i =>
    d <- get_node (pkt_pool p) i ;;
    let physaddr := message_pa d in
    let payload_length := SIZEOF_ionet_send_remote_payload
      - (MUDM_MAX_REMOTE_SGE - rp_sgl_num payload) * SIZEOF_mudm_sgl in
    let mudm_payload := payload <| rp_SGE ::= take (Z.to_nat (rp_sgl_num payload)) |> in
    buf_store physaddr (DataRemote mudm_payload) ;;;
    if negb ((type =? MUDM_RDMA_WRITE) || (type =? MUDM_RDMA_READ)
             || (type =? MUDM_PKT_DATA_REMOTE) || (type =? MUDM_RDMA_READ_IMM))
    then release_pkt_to_free p i 0 ;;; ret (- EINVAL) else
    let l := c_rdma_obj_ctls cc in
    rdma_obj_item <- allocate_rdma_object l ;;
    match rdma_obj_item with
    | None => release_pkt_to_free p i 0 ;;; ret (- EBUSY)
    | Some o =>
      r <- get_node (rdma_pool l) o ;;
      buf_store physaddr (DataRemote (mudm_payload <| rp_rdma_object := rdma_object_pa r |>)) ;;;
      track_request l o c
        (if type =? MUDM_RDMA_WRITE then rp_data_length mudm_payload else SIZEOF_pointer)
        (rp_RequestID mudm_payload) 0 ;;;
      release_rdma_obj_to_poll l o ;;;
      desc_count <- conn_memfifo P c type physaddr payload_length ;;
      done <- MUSPI_CheckDescComplete (injfifo_ctls cc) desc_count ;;
      (if done =? 1 then release_pkt_to_free p i desc_count
       else release_pkt_to_poll_ccontext p i desc_count c) ;;;
      ret (- EINPROGRESS)
    end
  end.

(** ** RDMA read *)

Definition NUM_DPUTS := 8.

(** Descriptor [n] of a packet buffer. *)
Definition buf_descs (w : world) (pa : Z) : list MUHWI_Descriptor :=
  match mem w !! pa with Some (DataDescs ds) => ds | _ => [] end.
Definition put_desc (pa : Z) (n : nat) (d : MUHWI_Descriptor) : MW unit :=
  modify (fun w => w <| mem := <[pa := DataDescs (take n (buf_descs w pa) ++ d ::
                                                  drop (S n) (buf_descs w pa))]> (mem w) |>).

(** Send the [n] descriptors of the buffer in one packet. *)
Definition send_bundle (c : nat) (pa n : Z) : MW Z :=
  dput_memfifo P c MUDM_DPUT pa (BGQ_MU_DESCRIPTOR_SIZE_IN_BYTES * n) (ConnRgetSent c).

(** [putdesc_count], [desc_count], [totalbytes]. *)
Record read_vars := mkRead { rv_puts : Z; rv_desc : Z; rv_total : Z }.
#[export] Instance FieldsOf_read : FieldsOf read_vars := fun v =>
  mkRead (rv_puts v) (rv_desc v) (rv_total v).

(** A full buffer is sent, and reused once the packet has left. *)
Definition flush_full (c : nat) (pa : Z) (v : read_vars) : MW read_vars :=
  if rv_puts v =? NUM_DPUTS then
    desc_count <- send_bundle c pa (rv_puts v) ;;
    cc <- get_conn c ;;
    wait_desc P (spin_fuel P) (injfifo_ctls cc) desc_count ;;;
    ret (v <| rv_desc := desc_count |> <| rv_puts := 0 |>)
  else ret v.

(** One piece: at most what is left of the transfer. *)
Definition put_piece (c : nat) (pa ctr bytes_xfer local_pa remote_pa len : Z) (v : read_vars)
    : MW (Z * read_vars) :=
  cc <- get_conn c ;;
  d <- deref (set_counter_directput ctr (mu_iDirectPutDescriptor4rget cc)) ;;
  let totalbytes := u32 (rv_total v + len) in
  let len := if totalbytes >? bytes_xfer then u64 (bytes_xfer - (totalbytes - len)) else len in
  put_desc pa (Z.to_nat (rv_puts v)) (set_dma_directput len remote_pa local_pa d) ;;;
  ret (len, v <| rv_puts ::= fun n => u32 (n + 1) |> <| rv_total := totalbytes |>).

Fixpoint rdma_read_loop (fuel c : nat) (pa ctr bytes_xfer : Z)
    (cur_local_pa cur_local_memlength cur_remote_pa cur_remote_memlength : Z)
    (local_sgl remote_sgl : list mudm_sgl) (v : read_vars) : MW read_vars :=
  if (cur_local_pa =? 0) || (cur_remote_pa =? 0) then ret v else
  match fuel with
  | O => hang
  | S fuel =>
      v <- flush_full c pa v ;;
      if cur_local_memlength =? cur_remote_memlength then
        r <- put_piece c pa ctr bytes_xfer cur_local_pa cur_remote_pa cur_local_memlength v ;;
        let '(_, v) := r in
        if rv_total v >=? bytes_xfer then ret v else
        loc <- sgl_next local_sgl ;;
        rem <- sgl_next remote_sgl ;;
        rdma_read_loop fuel c pa ctr bytes_xfer
          (physicalAddr (fst loc)) (memlength (fst loc))
          (physicalAddr (fst rem)) (memlength (fst rem)) (snd loc) (snd rem) v
      else if cur_local_memlength <? cur_remote_memlength then
        r <- put_piece c pa ctr bytes_xfer cur_local_pa cur_remote_pa cur_local_memlength v ;;
        let '(cur_local_memlength, v) := r in
        if rv_total v >=? bytes_xfer then ret v else
        loc <- sgl_next local_sgl ;;
        rdma_read_loop fuel c pa ctr bytes_xfer
          (physicalAddr (fst loc)) (memlength (fst loc))
          (u64 (cur_remote_pa + cur_local_memlength))
          (u64 (cur_remote_memlength - cur_local_memlength)) (snd loc) remote_sgl v
      else
        r <- put_piece c pa ctr bytes_xfer cur_local_pa cur_remote_pa cur_remote_memlength v ;;
        let '(cur_remote_memlength, v) := r in
        if rv_total v >=? bytes_xfer then ret v else
        rem <- sgl_next remote_sgl ;;
        rdma_read_loop fuel c pa ctr bytes_xfer
          (u64 (cur_local_pa + cur_remote_memlength))
          (u64 (cur_local_memlength - cur_remote_memlength))
          (physicalAddr (fst rem)) (memlength (fst rem)) local_sgl (snd rem) v
  end.

(** Tell the other side about an error: 8 bytes to its error word. *)
Definition put_error (c : nat) (rdma_object desc_count : Z) : MW Z :=
  if negb (rdma_object =? 0) then
    pa <- gets mudm_context_phys_addr ;;
    direct_put P c (pa + OFF_rdma_EINVAL_source) (rdma_object + OFF_mue_error) 8 rdma_object
  else ret desc_count.

(** What follows the loop, by how the bytes described compare with the
    bytes asked for.  The two waits are on the counter of the object. *)
Definition read_finish (c i o mue : nat) (pa rdma_object bytes_xfer : Z) (v : read_vars) : MW Z :=
  cc <- get_conn c ;;
  let p := PacketControls (c_packetcontrols cc) in
  let l := c_rdma_obj_ctls cc in
  if rv_total v =? bytes_xfer then
    desc_count <- (if rv_puts v >? 0 then send_bundle c pa (rv_puts v) else ret (rv_desc v)) ;;
    release_rdma_obj_to_poll l o ;;;
    done <- MUSPI_CheckDescComplete (injfifo_ctls cc) desc_count ;;
    (if done =? 1 then release_pkt_to_free p i desc_count
     else release_pkt_to_poll_ccontext p i desc_count c) ;;;
    ret (- EINPROGRESS)
  else if rv_desc v =? u64_max then
    desc_count <- put_error c rdma_object (rv_desc v) ;;
    release_pkt_to_free p i desc_count ;;;
    free_rdma_obj l o ;;;
    ret (- EINVAL)
  else if rv_total v >? bytes_xfer then
    desc_count <- (if rv_puts v >? 0 then send_bundle c pa (rv_puts v) else ret (rv_desc v)) ;;
    spin_until P (spin_fuel P) (fun w => mu_counter (hw_mue (hw w) l mue) =? 0) ;;;
    release_pkt_to_free p i desc_count ;;;
    desc_count <- put_error c rdma_object desc_count ;;
    free_rdma_obj l o ;;;
    ret (- EINVAL)
  else
    let nonzero_counter := bytes_xfer - rv_total v in
    upd_node (rdma_pool l) o (fun r => r <| local_request_id := 0 |>) ;;;
    spin_until P (spin_fuel P) (fun w => mu_counter (hw_mue (hw w) l mue) =? nonzero_counter) ;;;
    (if negb (rdma_object =? 0) then
       desc_count <- put_error c rdma_object (rv_desc v) ;;
       release_pkt_to_free p i desc_count ;;;
       free_rdma_obj l o
     else ret tt) ;;;
    ret (- EINVAL).

Definition mudm_rdma_read (c : nat) (requestID remote_requestID rdma_object bytes_xfer : Z)
    (local_sgl remote_sgl : list mudm_sgl) : MW Z :=
  cc <- get_conn c ;;
  if negb (c_magic cc =? CONN_MAGIC) then ret (- EFAULT) else
  let p := PacketControls (c_packetcontrols cc) in
  let l := c_rdma_obj_ctls cc in
  pktd <- alloc_pkt_message p ;;
  match pktd with
  | None => ret (- EBUSY)
  | Some i =>
    rdma_obj_item <- allocate_rdma_object l ;;
    match rdma_obj_item with
    | None => release_pkt_to_free p i 0 ;;; ret (- EBUSY)
    | Some o =>
      track_request l o c bytes_xfer requestID rdma_object ;;;
      d <- get_node (pkt_pool p) i ;;
      r <- get_node (rdma_pool l) o ;;
      loc <- deref (head local_sgl) ;;
      rem <- deref (head remote_sgl) ;;
      v <- rdma_read_loop (length local_sgl + length remote_sgl) c (message_pa d)
             (rdma_object_pa r) bytes_xfer
             (physicalAddr loc) (memlength loc) (physicalAddr rem) (memlength rem)
             local_sgl remote_sgl (mkRead 0 u64_max 0) ;;
      read_finish c i o (ro_mue r) (message_pa d) rdma_object bytes_xfer v
    end
  end.
End with_platform.

(** ** The walk of the two lists *)

(** The put a remote get asks for; the counter is set before the
    addresses, in the other order than [direct_put] does it. *)
Lemma view_remote_put bytes src dst ctr d d' :
  hdr_ok d -> 0 <= dst < 2 ^ 37 -> ctr_ok ctr ->
  set_counter_directput ctr d = Some d' ->
  view_put (set_dma_directput bytes src dst d') = mkPut src dst bytes (put_word ctr).
Proof.
  unfold set_counter_directput, set_dma_directput. intros H Hdst [Hc H7] E.
  rewrite H7 in E. cbn in E. injection E as <-.
  rewrite counter_word_spec by done.
  set (d0 := set_hdr h_Counter_Offset (ctr + 2 ^ 36 + 3) d).
  assert (H0 : hdr_ok d0) by (apply hdr_ok_set_hdr; [field_lia|done]).
  assert (H1 : hdr_ok (d0 <| Pa_Payload := src |> <| Message_Length := bytes |>)) by done.
  unfold view_put. rewrite put_offset_set by done. rewrite put_counter_set_put_offset by done.
  change (put_counter (d0 <| Pa_Payload := src |> <| Message_Length := bytes |>)) with (put_counter d0).
  unfold d0. rewrite put_counter_set by done.
  rewrite !Z.mod_small by lia. done.
Qed.

Lemma alter_compose_eq {A} (f g : A -> A) (i : nat) (m : gmap nat A) :
  alter f i (alter g i m) = alter (fun x => f (g x)) i m.
Proof. by rewrite alter_alter_eq. Qed.

Section read.
Context (P : platform) `{!MuLive P} (c : nat) (cc : mudm_connection) (ctr pa bytes_xfer : Z).
Context (Hctr : ctr_ok ctr) (Hbytes : bytes_xfer < 2 ^ 32 - 2 ^ 28)
        (Htmpl : hdr_ok (mu_iDirectPutDescriptor4rget cc)).

Definition set_rget (k : Z) (x : mudm_connection) : mudm_connection := x <| c_rget_memfifo_sent := k |>.

(** The connection apart from its send counter, and its link. *)
Definition rd_ready (n : nat) (w : world) : Prop :=
  (exists k, conn_list w !! c = Some (set_rget k cc)) /\ inj_ready (injfifo_ctls cc) n w.

(** What the walk changes. *)
Definition rd_rel (evs : list event) (w w' : world) : Prop :=
  exists i h m k, hw_evolves P (hw w) h /\
    w' = w <| inj := i |> <| hw := h |> <| mem := m |> <| trace := trace w ++ evs |>
           <| conn_list := alter (set_rget k) c (conn_list w) |>.

Lemma set_rget_id k (m : gmap nat mudm_connection) :
  m !! c = Some (set_rget k cc) -> alter (set_rget k) c m = m.
Proof.
  intros Hk. apply map_eq. intros j. destruct (decide (c = j)) as [<-|]; [|by rewrite lookup_alter_ne].
  by rewrite lookup_alter_eq, Hk.
Qed.

Lemma rd_rel_refl n w : rd_ready n w -> rd_rel [] w w.
Proof.
  intros [[k Hk] _]. exists (inj w), (hw w), (mem w), k. split; [auto with mudm|].
  rewrite set_rget_id, app_nil_r by done. by destruct w.
Qed.

Lemma rd_rel_trans e1 e2 w1 w2 w3 : rd_rel e1 w1 w2 -> rd_rel e2 w2 w3 -> rd_rel (e1 ++ e2) w1 w3.
Proof.
  intros (i & h & m & k & Hev & ->) (i' & h' & m' & k' & Hev' & ->). exists i', h', m', k'.
  split; [revert Hev'; wsimp; by apply hw_evolves_trans|]. wsimp.
  rewrite alter_compose_eq, app_assoc. by destruct w1.
Qed.

Lemma rd_ready_mono n m w : (n <= m)%nat -> rd_ready m w -> rd_ready n w.
Proof. intros Hle [Hc [A B C [D E]]]. split; [done|]. split; [done..|]. split; lia. Qed.

(** A packet of [b] descriptors, as it is handed to the message unit. *)
Definition is_bundle (e : event) (b : list MUHWI_Descriptor) : Prop :=
  exists k rest, e = EvInject (injfifo_ctls cc)
    (edit_memfifo MUDM_DPUT pa (64 * Z.of_nat (length b)) k (mu_iMemoryFifoDescriptor cc))
    (Some (DataDescs (b ++ rest))).

Lemma Pa_edit_memfifo type p len k d : Pa_Payload (edit_memfifo type p len k d) = p.
Proof. done. Qed.

Lemma buf_descs_take w b : b <> [] -> take (length b) (buf_descs w pa) = b ->
  exists rest, mem w !! pa = Some (DataDescs (b ++ rest)).
Proof.
  unfold buf_descs. intros Hb H. exists (drop (length b) (match mem w !! pa with
    Some (DataDescs ds) => ds | _ => [] end)).
  destruct (mem w !! pa) as [[]|]; rewrite ?take_nil in H; try by subst.
  rewrite <- H at 1. by rewrite take_drop.
Qed.

Lemma wp_send_bundle (Q : Z -> world -> Prop) n w b :
  rd_ready (S n) w -> b <> [] -> take (length b) (buf_descs w pa) = b ->
  (forall e w', is_bundle e b -> rd_rel [e] w w' -> rd_ready n w' -> mem w' = mem w ->
     if_numInjected (inj w' (injfifo_ctls cc)) = if_numInjected (inj w (injfifo_ctls cc)) + 1 ->
     Q (if_numInjected (inj w (injfifo_ctls cc)) + 1) w') ->
  wp (send_bundle P c pa (Z.of_nat (length b))) Q w.
Proof.
  intros [[k Hk] Hr] Hb Ht HQ. unfold send_bundle, dput_memfifo.
  apply wp_bind, (wp_get_conn _ (set_rget k cc)); [done|].
  change (injfifo_ctls (set_rget k cc)) with (injfifo_ctls cc).
  eapply (wp_InjFifoInjectMemFifo P _ _ n _ _ _ _ (ConnRgetSent c) k); [done| |].
  { cbn [read_count]. by rewrite Hk. }
  intros w' Hi. pose proof (inject1_ready _ _ n _ _ _ (incr_count_ready (ConnRgetSent c) _ _ _ Hr) Hi) as Hr'.
  destruct (buf_descs_take w b Hb Ht) as (rest & Hm).
  destruct Hi as (i & h & fs & Hev & -> & Hi & Ho). cbn [incr_count] in *. revert Hev Hi Ho Hr'. wsimp.
  intros Hev Hi Ho Hr'.
  assert (Ec : alter (fun x => x <| c_rget_memfifo_sent ::= fun x => u64 (x + 1) |>) c (conn_list w)
               = alter (set_rget (u64 (k + 1))) c (conn_list w)).
  { apply map_eq. intros j. destruct (decide (c = j)) as [<-|]; [|by rewrite !lookup_alter_ne].
    by rewrite !lookup_alter_eq, Hk. }
  eapply HQ.
  - exists k, rest. reflexivity.
  - exists i, h, (mem w), (u64 (k + 1)). split; [done|]. rewrite <- Ec.
    rewrite Pa_edit_memfifo, Hm. by destruct w.
  - split; [|done]. exists (u64 (k + 1)). wsimp. by rewrite Ec, lookup_alter_eq, Hk.
  - by wsimp.
  - wsimp. by rewrite Hi.
Qed.

(** The state of the walk: the bundles [bs] were sent, [pend] is in the
    buffer. *)
Record rd_inv (n : nat) (v : read_vars) (bs : list (list MUHWI_Descriptor))
    (pend : list MUHWI_Descriptor) (w : world) : Prop := mkRdInv {
  ri_ready : rd_ready n w;
  ri_puts : rv_puts v = Z.of_nat (length pend) /\ (length pend <= 8)%nat;
  ri_buf : take (length pend) (buf_descs w pa) = pend;
  ri_full : Forall (fun b => length b = 8%nat) bs;
  ri_ctr : Forall (fun d => pt_counter (view_put d) = put_word ctr) (concat bs ++ pend);
  ri_desc : rv_desc v = u64_max <-> bs = [] }.

Lemma rd_inv_mono n m v bs pend w : (n <= m)%nat -> rd_inv m v bs pend w -> rd_inv n v bs pend w.
Proof. intros Hle [A B C D E F]. split; [by eapply rd_ready_mono|done..]. Qed.

Lemma flush_full_ok n v bs pend w :
  rd_inv (S n) v bs pend w ->
  wp (flush_full P c pa v) (fun v' w' => exists evs new pend',
    rd_rel evs w w' /\ Forall2 is_bundle evs new /\ concat new ++ pend' = pend /\
    rd_inv n v' (bs ++ new) pend' w' /\ (length pend' < 8)%nat /\ rv_total v' = rv_total v) w.
Proof.
  intros Hi. pose proof Hi as [Hr [Hp Hle] Hb Hf Hk Hd]. unfold flush_full, NUM_DPUTS.
  destruct (Z.eqb_spec (rv_puts v) 8) as [E8|E8].
  2: { apply wp_ret. exists [], [], pend. rewrite app_nil_r.
       split_and!; [by eapply rd_rel_refl|by constructor|done|by eapply rd_inv_mono, Hi; lia|lia|done]. }
  assert (Hl8 : length pend = 8%nat) by lia.
  rewrite E8. change 8 with (Z.of_nat 8). rewrite <- Hl8. apply wp_bind.
  apply (wp_send_bundle _ n); [done|by intros ->|done|].
  intros e w1 He Hrel Hr1 Hm Hn. apply wp_bind.
  pose proof Hr1 as [[k Hc] Hir]. apply (wp_get_conn _ (set_rget k cc)); [done|].
  change (injfifo_ctls (set_rget k cc)) with (injfifo_ctls cc). apply wp_bind.
  apply (wp_wait_desc P); [lia|]. intros w2 Hpol. apply wp_ret.
  assert (Hrel2 : rd_rel [] w1 w2).
  { destruct Hpol as (i & h & d & Hev & -> & _). exists i, h, (mem w1), k. split; [done|].
    rewrite app_nil_r, set_rget_id by done. by destruct w1. }
  exists [e], [pend], []. rewrite <- (app_nil_r [e]). cbn [concat]. rewrite !app_nil_r. split_and!.
  - rewrite <- (app_nil_r [e]). by eapply rd_rel_trans.
  - by repeat constructor.
  - done.
  - split; cbn.
    + split; [|by eapply polled_ready]. exists k.
      destruct Hpol as (i & h & d & _ & -> & _). by wsimp.
    + split; [done|lia].
    + done.
    + apply list.Forall_app. by repeat constructor.
    + rewrite concat_app. cbn. by rewrite !app_nil_r.
    + destruct Hr as [_ [_ _ _ [H1 H2]]]. split; [lia|]. by intros []%app_eq_nil.
  - cbn. lia.
  - done.
Qed.

(** The buffer after descriptor [d] was put behind the pending ones. *)
Lemma put_desc_take w pend d :
  take (length pend) (buf_descs w pa) = pend ->
  take (S (length pend)) (take (length pend) (buf_descs w pa) ++ d ::
     drop (S (length pend)) (buf_descs w pa)) = pend ++ [d].
Proof.
  intros ->. rewrite take_app, take_ge by lia.
  by replace (S (length pend) - length pend)%nat with 1%nat by lia.
Qed.

Definition piece_len (tot k : Z) : Z := if tot + k >? bytes_xfer then bytes_xfer - tot else k.

Lemma wp_put_piece (Q : Z * read_vars -> world -> Prop) n v bs pend lpa rpa k w :
  rd_inv n v bs pend w -> (length pend < 8)%nat -> 0 <= lpa < 2 ^ 37 ->
  0 <= rv_total v < bytes_xfer -> 0 <= k < 2 ^ 28 ->
  (forall d v' w', rd_rel [] w w' -> rd_inv n v' bs (pend ++ [d]) w' ->
     view_put d = mkPut rpa lpa (piece_len (rv_total v) k) (put_word ctr) ->
     rv_total v' = rv_total v + k -> Q (piece_len (rv_total v) k, v') w') ->
  wp (put_piece c pa ctr bytes_xfer lpa rpa k v) Q w.
Proof.
  intros [Hr [Hp _] Hb Hf Hk Hd] Hl Hlpa Ht Hk2 HQ. pose proof Hr as [[q Hc] _].
  unfold put_piece. apply wp_bind, (wp_get_conn _ (set_rget q cc)); [done|].
  destruct Hctr as [H1 H7].
  destruct (set_counter_directput_Some ctr (mu_iDirectPutDescriptor4rget (set_rget q cc)) H7) as (d' & E).
  apply wp_bind. eapply wp_deref; [exact E|]. rewrite u32_small by lia.
  assert (El : (if rv_total v + k >? bytes_xfer then u64 (bytes_xfer - (rv_total v + k - k)) else k)
    = piece_len (rv_total v) k).
  { unfold piece_len. destruct (Z.gtb_spec (rv_total v + k) bytes_xfer); [|done].
    rewrite u64_small by lia. lia. }
  rewrite El. apply wp_bind, wp_modify, wp_ret. set (d := set_dma_directput _ _ _ _).
  assert (Hv : view_put d = mkPut rpa lpa (piece_len (rv_total v) k) (put_word ctr))
    by (by apply (view_remote_put _ _ _ _ (mu_iDirectPutDescriptor4rget (set_rget q cc)))).
  clearbody d. apply (HQ d); [| |exact Hv|done].
  - match goal with |- rd_rel [] w (upd_field (fun _ => ?m) w) => exists (inj w), (hw w), m, q end.
    split; [auto with mudm|]. rewrite set_rget_id, app_nil_r by done. by clear; destruct w.
  - split; cbn.
    + destruct Hr as [? Hir]. split; [by wsimp|]. by eapply inj_ready_ext, Hir.
    + rewrite length_app, Hp. cbn. rewrite u32_small by lia. lia.
    + unfold buf_descs at 1. wsimp. rewrite lookup_insert_eq, length_app, Nat.add_1_r.
      rewrite Hp, Nat2Z.id. by apply put_desc_take.
    + done.
    + rewrite app_assoc. apply list.Forall_app. split; [done|]. constructor; [|done]. pose proof (f_equal pt_counter Hv) as Hv'. exact Hv'.
    + done.
Qed.

(** What the rest of a walk over byte lists [L] and [R] has done when it
    ends; [X] holds if it left the buffer empty. *)
Definition rd_post (X : Prop) (n : nat) (bs : list (list MUHWI_Descriptor))
    (pend : list MUHWI_Descriptor) (L R : list Z) (tot : Z) (w : world)
    (v' : read_vars) (w' : world) : Prop :=
  exists evs new pend', rd_rel evs w w' /\ Forall2 is_bundle evs new /\
    rd_inv n v' (bs ++ new) pend' w' /\
    moved (concat new ++ pend') = moved pend ++ take (Z.to_nat (bytes_xfer - tot)) (zip R L) /\
    (pend' = [] -> X /\ new = []) /\
    (rv_total v' = bytes_xfer /\ bytes_xfer - tot <= Z.of_nat (length (zip R L)) \/
     rv_total v' < bytes_xfer /\ rv_total v' = tot + Z.of_nat (length (zip R L)) \/
     bytes_xfer < rv_total v' /\ bytes_xfer - tot < Z.of_nat (length (zip R L))).

Lemma rd_flush X (K : read_vars -> MW read_vars) n m v bs pend L R w :
  rd_inv (S m) v bs pend w ->
  (forall v1 bs1 pend1 w1, rd_inv m v1 bs1 pend1 w1 -> (length pend1 < 8)%nat ->
     rv_total v1 = rv_total v ->
     wp (K v1) (rd_post False n bs1 pend1 L R (rv_total v) w1) w1) ->
  wp (v <- flush_full P c pa v ;; K v) (rd_post X n bs pend L R (rv_total v) w) w.
Proof.
  intros Hi HK. apply wp_bind. eapply wp_mono; [by apply flush_full_ok|].
  intros v1 w1 (e1 & new1 & pend1 & Hr1 & Hb1 & <- & Hi1 & Hl1 & Ht1).
  eapply wp_mono; [by apply HK|]. intros v2 w2 (e2 & new2 & pend2 & Hr2 & Hb2 & Hi2 & Hm2 & Hx & Ht2).
  exists (e1 ++ e2), (new1 ++ new2), pend2. split_and!.
  - by eapply rd_rel_trans.
  - by apply Forall2_app.
  - by rewrite app_assoc.
  - by rewrite concat_app, <- app_assoc, moved_app, Hm2, moved_app, app_assoc.
  - by intros []%Hx.
  - done.
Qed.

Lemma zip_seqZ k a b : 0 <= k -> length (zip (seqZ a k) (seqZ b k)) = Z.to_nat k.
Proof. intros. rewrite length_zip_with, !length_seqZ. lia. Qed.

Lemma zip_split k a b (L R : list Z) :
  zip (seqZ a k ++ L) (seqZ b k ++ R) = zip (seqZ a k) (seqZ b k) ++ zip L R.
Proof. rewrite zip_with_app; [done|by rewrite !length_seqZ]. Qed.

Lemma take_zip_seqZ j k a b : 0 <= j <= k ->
  take (Z.to_nat j) (zip (seqZ a k) (seqZ b k)) = zip (seqZ a j) (seqZ b j).
Proof.
  intros Hj. replace k with (j + (k - j)) at 1 2 by lia. rewrite !seqZ_app by lia.
  rewrite zip_split, take_app_length'; [done|]. rewrite zip_seqZ; lia.
Qed.

Lemma rd_step (K : Z -> read_vars -> MW read_vars) n m v bs pend lpa rpa k L R w :
  (n <= m)%nat -> rd_inv m v bs pend w -> (length pend < 8)%nat -> 0 <= lpa < 2 ^ 37 ->
  0 <= rv_total v < bytes_xfer -> 0 <= k < 2 ^ 28 ->
  (forall v1 pend1 w1, rd_inv m v1 bs pend1 w1 -> pend1 <> [] -> rv_total v1 = rv_total v + k ->
     rv_total v + k < bytes_xfer ->
     wp (K k v1) (rd_post (pend1 = []) n bs pend1 L R (rv_total v + k) w1) w1) ->
  wp (r <- put_piece c pa ctr bytes_xfer lpa rpa k v ;;
      let '(k, v) := r in if rv_total v >=? bytes_xfer then ret v else K k v)
     (rd_post False n bs pend (seqZ lpa k ++ L) (seqZ rpa k ++ R) (rv_total v) w) w.
Proof.
  intros Hnm Hi Hl Hlpa Ht Hk HK. apply wp_bind, (wp_put_piece _ m _ bs pend); [done..|].
  intros d v1 w1 Hr1 Hi1 Hv Ht1. unfold piece_len in *.
  assert (Hz := zip_split k rpa lpa R L). pose proof (zip_seqZ k rpa lpa ltac:(lia)) as Hzl.
  assert (Hpb : forall j, view_put d = mkPut rpa lpa j (put_word ctr) ->
    moved (pend ++ [d]) = moved pend ++ zip (seqZ rpa j) (seqZ lpa j)).
  { intros j E. rewrite moved_app, moved_cons, E. cbn. by rewrite app_nil_r. }
  destruct (Z.geb_spec (rv_total v1) bytes_xfer) as [Hge|Hlt].
  - apply wp_ret. exists [], [], (pend ++ [d]). rewrite !app_nil_r.
    split_and!; [done|by constructor|by eapply rd_inv_mono| |by intros []%app_eq_nil|].
    + cbn [concat app]. rewrite Hz. destruct (Z.gtb_spec (rv_total v + k) bytes_xfer) as [Hgt|Hle].
      * rewrite (Hpb _ Hv), take_app_le, take_zip_seqZ by (rewrite ?Hzl; lia). done.
      * rewrite (Hpb _ Hv), take_app_length'; [done|]. rewrite Hzl. lia.
    + rewrite Hz, length_app, Hzl. lia.
  - destruct (Z.gtb_spec (rv_total v + k) bytes_xfer); [lia|].
    eapply wp_mono; [apply (HK _ (pend ++ [d])); [done|by intros []%app_eq_nil|done|lia]|].
    intros v2 w2 (e2 & new2 & pend2 & Hr2 & Hb2 & Hi2 & Hm2 & Hx & Ht2).
    exists e2, new2, pend2. split_and!; [|done|done| | |].
    + by apply (rd_rel_trans [] e2 _ w1).
    + rewrite Hm2, (Hpb k Hv), <- app_assoc, Hz. f_equal.
      rewrite take_app_ge by (rewrite Hzl; lia). f_equal. f_equal. rewrite Hzl. lia.
    + intros []%Hx. by destruct pend.
    + rewrite Hz, length_app, Hzl. lia.
Qed.

Lemma rd_post_nil n v bs pend L R w :
  rd_inv n v bs pend w -> rv_total v < bytes_xfer -> zip R L = [] ->
  rd_post (pend = []) n bs pend L R (rv_total v) w v w.
Proof.
  intros Hi Ht Hz. exists [], [], pend. rewrite Hz, take_nil, !app_nil_r.
  split_and!; [by eapply rd_rel_refl, (ri_ready _ _ _ _ _ Hi)|by constructor|done|done|done|cbn; lia].
Qed.

Lemma rdma_read_loop_ok fuel n lpa llen rpa rlen ls rs v bs pend w :
  (length ls + length rs <= fuel)%nat ->
  cur_ok lpa llen (tail ls) -> cur_ok rpa rlen (tail rs) ->
  0 <= rv_total v < bytes_xfer -> rd_inv (fuel + n) v bs pend w ->
  wp (rdma_read_loop P fuel c pa ctr bytes_xfer lpa llen rpa rlen ls rs v)
     (rd_post (pend = []) n bs pend (cur_bytes lpa llen (tail ls)) (cur_bytes rpa rlen (tail rs))
        (rv_total v) w) w.
Proof.
  revert lpa llen rpa rlen ls rs v bs pend w.
  induction fuel as [|fuel IH]; intros lpa llen rpa rlen ls rs v bs pend w Hf HL HR Ht Hp.
  all: cbn [rdma_read_loop]; destruct ((lpa =? 0) || (rpa =? 0)) eqn:E.
  1, 3: apply wp_ret, rd_post_nil; [by eapply rd_inv_mono, Hp; lia|lia|];
        apply orb_true_iff in E as [->%Z.eqb_eq| ->%Z.eqb_eq]; [apply zip_with_nil_r|done].
  all: apply orb_false_iff in E as [Hl%Z.eqb_neq Hr%Z.eqb_neq].
  { destruct ls; [|cbn in Hf; lia]. destruct HL as (_&_&_&_&[?|(s & []%elem_of_nil & _)]). done. }
  pose proof (cur_ok_bounds _ _ _ HL) as HLb. pose proof (cur_ok_bounds _ _ _ HR) as HRb.
  destruct (cur_ok_next _ _ _ Hl HL) as (sl & ls' & El & HL' & BL).
  destruct (cur_ok_next _ _ _ Hr HR) as (sr & rs' & Er & HR' & BR).
  destruct ls as [|s0 ls]; [done|]. destruct rs as [|r0 rs]; [done|]. cbn [tail] in *. subst ls rs.
  cbn [length] in Hf.
  eapply rd_flush; [exact Hp|]. clear Hp. intros v1 bs1 pend1 w1 Hp Hl8 Htv. rewrite <- Htv in *.
  destruct (Z.eqb_spec llen rlen) as [Heq|Hne]; [|destruct (Z.ltb_spec llen rlen) as [Hlt|Hge]].
  - rewrite BL, BR, <- Heq. apply (rd_step (fun _ v => _) n (fuel + n)); [lia|done|done|lia|done|lia|].
    intros v2 pend2 w2 Hp2 Hne2 Ht2 Hlt2. do 4 (apply wp_bind || apply wp_ret). rewrite <- Ht2 in *.
    apply (IH _ _ _ _ (sl :: ls') (sr :: rs')); cbn; [lia|done|done|lia|done].
  - destruct (cur_ok_consume rpa rlen _ llen Hr ltac:(lia) HR) as [HRc BRc].
    rewrite BL, BRc. apply (rd_step _ n (fuel + n)); [lia|done|done|lia|done|lia|].
    intros v2 pend2 w2 Hp2 Hne2 Ht2 Hlt2. rewrite !u64_small by lia.
    do 2 (apply wp_bind || apply wp_ret). rewrite <- Ht2 in *.
    apply (IH _ _ _ _ (sl :: ls') (r0 :: sr :: rs')); cbn; [lia|done|done|lia|done].
  - destruct (cur_ok_consume lpa llen _ rlen Hl ltac:(lia) HL) as [HLc BLc].
    rewrite BR, BLc. apply (rd_step _ n (fuel + n)); [lia|done|done|lia|done|lia|].
    intros v2 pend2 w2 Hp2 Hne2 Ht2 Hlt2. rewrite !u64_small by lia.
    do 2 (apply wp_bind || apply wp_ret). rewrite <- Ht2 in *.
    apply (IH _ _ _ _ (s0 :: sl :: ls') (sr :: rs')); cbn; [lia|done|done|lia|done].
Qed.
End read.

(** ** The end of a read that asked for as much as the lists describe *)

Section finish.
Context (P : platform) `{!MuLive P} (c : nat) (cc : mudm_connection) (ctr pa bytes_xfer : Z).
Abbreviation p := (PacketControls (c_packetcontrols cc)).
Abbreviation l := (c_rdma_obj_ctls cc).

Lemma rd_rel_frame evs w w' : rd_rel P c evs w w' ->
  pools w' = pools w /\ rdma w' = rdma w /\ held w' = held w /\
  trace w' = trace w ++ evs /\ hw_evolves P (hw w) (hw w').
Proof. intros (i & h & m & k & He & ->). by wsimp. Qed.

Lemma rd_rel_pkt evs w w' fl al : rd_rel P c evs w w' ->
  pool_wf (pkt_pool p) w fl al -> pool_wf (pkt_pool p) w' fl al.
Proof. intros (E1 & E2 & E3 & _)%rd_rel_frame. apply pool_wf_ext; [|done]. cbn. by rewrite E1. Qed.
Lemma rd_rel_rdma evs w w' fl al : rd_rel P c evs w w' ->
  pool_wf (rdma_pool l) w fl al -> pool_wf (rdma_pool l) w' fl al.
Proof. intros (E1 & E2 & E3 & _)%rd_rel_frame. apply pool_wf_ext; [|done]. cbn. by rewrite E2. Qed.

(** The packet goes to the free list or to the posted list. *)
Lemma retire_packet (done cnt : Z) i d fl al w :
  pool_wf (pkt_pool p) w fl al -> i ∉ fl ++ al -> heap_of (pkt_pool p) w !! i = Some d ->
  req_id d = 0 ->
  wp (if done =? 1 then release_pkt_to_free p i cnt else release_pkt_to_poll_ccontext p i cnt c)
     (fun _ w' => (exists q, w' = w <| pools := q |>) /\
        (pool_wf (pkt_pool p) w' (i :: fl) al \/ pool_wf (pkt_pool p) w' fl (i :: al))) w.
Proof.
  intros Hw Hi Hd Hq. destruct (done =? 1).
  - eapply wp_release_pkt_to_free; [done|done|by eauto|]. intros w' Hw' [[v ->] _].
    split; [by eexists|by left].
  - eapply wp_release_pkt_to_poll_ccontext; [done..|]. intros w' Hw' [[v ->] _] _.
    rewrite Hq. split; [by eexists|by right].
Qed.

(** The end of every send: poll the descriptor once, retire the packet. *)
Lemma wp_check_retire cnt (res : Z) i d fl al w :
  pool_wf (pkt_pool p) w fl al -> i ∉ fl ++ al -> heap_of (pkt_pool p) w !! i = Some d ->
  req_id d = 0 ->
  wp (done <- MUSPI_CheckDescComplete (injfifo_ctls cc) cnt ;;
      (if done =? 1 then release_pkt_to_free p i cnt else release_pkt_to_poll_ccontext p i cnt c) ;;;
      ret res)
     (fun x w' => x = res /\ (exists ij h q, hw_evolves P (hw w) h /\
          w' = w <| inj := ij |> <| hw := h |> <| pools := q |>) /\
        (pool_wf (pkt_pool p) w' (i :: fl) al \/ pool_wf (pkt_pool p) w' fl (i :: al))) w.
Proof.
  intros Hw Hi Hd Hq. apply wp_bind.
  destruct (check_desc_polled P (injfifo_ctls cc) cnt w) as (dn & w3 & E & _ & (i3 & h3 & d3 & Hev & -> & _)).
  eapply wp_intro; [exact E|]. apply wp_bind.
  eapply wp_mono; [eapply (retire_packet dn _ i d fl al)|].
  - eapply pool_wf_ext, Hw; done.
  - done.
  - exact Hd.
  - done.
  - intros [] w4 [[q4 ->] Hpk4]. apply wp_ret. split_and!; [done| |done]. by eexists _, _, _.
Qed.

Lemma read_finish_ok i o d r mue rdma_object v bs pend fl al fl' al' w :
  rd_inv c cc ctr pa 1 v bs pend w -> pend <> [] -> rv_total v = bytes_xfer ->
  pool_wf (pkt_pool p) w fl al -> i ∉ fl ++ al -> heap_of (pkt_pool p) w !! i = Some d ->
  req_id d = 0 ->
  pool_wf (rdma_pool l) w fl' al' -> o ∉ fl' ++ al' -> heap_of (rdma_pool l) w !! o = Some r ->
  wp (read_finish P c i o mue pa rdma_object bytes_xfer v)
     (fun res w' => res = - EINPROGRESS /\
        (exists e, is_bundle cc pa e pend /\ trace w' = trace w ++ [e; EvWakeup]) /\
        hw_evolves P (hw w) (hw w') /\
        pool_wf (rdma_pool l) w' fl' (o :: al') /\
        ro_dat <$> heap_of (rdma_pool l) w' !! o = Some (ro_dat r) /\
        (pool_wf (pkt_pool p) w' (i :: fl) al \/ pool_wf (pkt_pool p) w' fl (i :: al))) w.
Proof.
  intros [Hr [Hp _] Hb _ _ _] Hne Ht Hpk Hi Hd Hq Hro Ho Hr0.
  pose proof Hr as [[k Hc] _]. unfold read_finish.
  apply wp_bind, (wp_get_conn _ (set_rget k cc)); [done|]. rewrite Ht, Z.eqb_refl.
  assert (E : (rv_puts v >? 0) = true).
  { rewrite Hp. destruct pend; [done|]. apply Z.gtb_lt. cbn. lia. }
  rewrite E, Hp. apply wp_bind.
  apply (wp_send_bundle P c cc pa _ 0); [done..|]. intros e w1 He Hrel Hr1 _ _.
  pose proof (rd_rel_frame _ _ _ Hrel) as (E1 & E2 & E3 & E4 & E5).
  apply wp_bind. change (c_rdma_obj_ctls (set_rget k cc)) with l.
  eapply (wp_release_rdma_obj_to_poll l o r); [by eapply rd_rel_rdma|done| |].
  { unfold heap_of in *. cbn in *. by rewrite E2. }
  intros q Hw2 Hdat2. set (w2 := w1 <| rdma := q |> <| trace ::= _ |>).
  eapply wp_mono; [apply (wp_check_retire _ _ i d fl al w2)|].
  - eapply pool_wf_ext; [..|exact Hpk]; [|by unfold w2; wsimp].
    unfold w2. cbn. by rewrite E1.
  - done.
  - unfold heap_of in *. unfold w2. cbn in *. by rewrite E1.
  - done.
  - intros res w4 (-> & (i4 & h4 & q4 & Hev & ->) & Hpk4). revert Hev Hpk4. unfold w2. wsimp.
    intros Hev Hpk4. split_and!.
    + done.
    + exists e. split; [done|]. by rewrite E4, <- app_assoc.
    + by eapply hw_evolves_trans.
    + eapply pool_wf_ext; [..|exact Hw2]; by wsimp.
    + exact Hdat2.
    + exact Hpk4.
Qed.
End finish.

(** ** Properties *)

(** A connection with a free packet buffer and a free RDMA object. *)
Section properties.
Context (P : platform) `{!MuLive P} (c : nat) (cc : mudm_connection)
        (requestID remote_requestID rdma_object bytes_xfer : Z) (local remote : list mudm_sgl)
        (i o : nat) (d : pkt_descriptor) (r : mudm_rdma_object) (fl al fl' al' : list nat) (w : world).
Abbreviation p := (PacketControls (c_packetcontrols cc)).
Abbreviation l := (c_rdma_obj_ctls cc).

(** The hardware once the object tracks the transfer. *)
Definition tracking (l mue : nat) (bytes : Z) (h : hw_state) : hw_state :=
  h <| hw_mue ::= fun f => <[l := <[mue := mkMue bytes 0]> (f l)]> f |>.

Lemma wp_track_request l' o' c' r' counter request_id remote_pa (Q : unit -> world -> Prop) w1 :
  heap_of (rdma_pool l') w1 !! o' = Some r' ->
  (forall w2, (exists q, w2 = w1 <| rdma := q |> <| hw ::= tracking l' (ro_mue r') counter |>) ->
     heap_of (rdma_pool l') w2 = alter (fun r => r <| local_request_id := request_id |>
       <| remote_rdma_obj_pa := remote_pa |> <| local_connect := Some c' |>) o' (heap_of (rdma_pool l') w1) ->
     v_free (pl_get (Pool := rdma_pool l') w2) = v_free (pl_get (Pool := rdma_pool l') w1) ->
     v_active (pl_get (Pool := rdma_pool l') w2) = v_active (pl_get (Pool := rdma_pool l') w1) ->
     Q tt w2) ->
  wp (track_request l' o' c' counter request_id remote_pa) Q w1.
Proof.
  intros Hr HQ. unfold track_request. apply wp_bind. eapply wp_get_node; [done|].
  apply wp_bind, wp_modify. eapply wp_upd_node; [unfold heap_of in *; by eauto|]. apply HQ.
  - eexists. unfold tracking. by destruct w1.
  - apply (put_heap (rdma_pool l')).
  - apply (put_free (rdma_pool l')).
  - apply (put_active (rdma_pool l')).
Qed.

(** The state in which the walk begins: packet buffer [d1] and object [r3]
    are off their lists, and the object tracks the transfer. *)
Record read_start (w3 : world) (d1 : pkt_descriptor) (r3 : mudm_rdma_object) : Prop := mkStart {
  rs_conn : conn_list w3 = conn_list w; rs_held : held w3 = held w;
  rs_state : inj_state w3 = inj_state w; rs_inj : inj w3 = inj w; rs_trace : trace w3 = trace w;
  rs_hw : hw w3 = tracking l (ro_mue r) bytes_xfer (hw w);
  rs_pkt : pool_wf (pkt_pool p) w3 fl al; rs_pktd : heap_of (pkt_pool p) w3 !! i = Some d1;
  rs_req : req_id d1 = 0; rs_pa : message_pa d1 = message_pa d;
  rs_rdma : pool_wf (rdma_pool l) w3 fl' al'; rs_ro : heap_of (rdma_pool l) w3 !! o = Some r3;
  rs_dat : ro_dat r3 = (rdma_object, ro_mue r, rdma_object_pa r, requestID, Some c) }.

Lemma wp_read_setup (Q : Z -> world -> Prop) s ls t rs :
  local = s :: ls -> remote = t :: rs ->
  conn_list w !! c = Some cc -> c_magic cc = CONN_MAGIC ->
  pool_wf (pkt_pool p) w (i :: fl) al -> heap_of (pkt_pool p) w !! i = Some d ->
  pool_wf (rdma_pool l) w (o :: fl') al' -> heap_of (rdma_pool l) w !! o = Some r ->
  (forall w3 d1 r3, read_start w3 d1 r3 ->
     wp (rdma_read_loop P (length local + length remote) c (message_pa d) (rdma_object_pa r)
           bytes_xfer (physicalAddr s) (memlength s) (physicalAddr t) (memlength t) local remote
           (mkRead 0 u64_max 0))
        (fun v => wp (read_finish P c i o (ro_mue r) (message_pa d) rdma_object bytes_xfer v) Q) w3) ->
  wp (mudm_rdma_read P c requestID remote_requestID rdma_object bytes_xfer local remote) Q w.
Proof.
  intros -> -> Hc Hm Hpk Hd Hro Hr HQ.
  unfold mudm_rdma_read. apply wp_bind, (wp_get_conn _ cc); [done|].
  rewrite Hm, Z.eqb_refl. cbn [negb]. apply wp_bind.
  eapply wp_alloc_pkt_message; [exact Hpk|done|].
  intros i' fl1 w1 [= <- <-] Hpk1 [[v1 ->] _] (d1 & Hd1 & Hq1 & _ & _ & Hpa).
  rewrite Hd in Hpa. injection Hpa as Hpa. apply wp_bind.
  eapply (wp_allocate_rdma_object l (o :: fl') al'); [by eapply pool_wf_ext, Hro|done|].
  intros o' fl2 q2 r2 [= <- <-] Hro2 Hr2 Hdat2. change (heap_of (rdma_pool l) w !! o = Some r2) in Hr2.
  rewrite Hr in Hr2. injection Hr2 as <-.
  destruct (heap_of (rdma_pool l) _ !! o) as [r2|] eqn:Hr2 in Hdat2; [|done].
  assert (Em : ro_mue r2 = ro_mue r /\ rdma_object_pa r2 = rdma_object_pa r) by (by injection Hdat2).
  destruct Em as [Em Epa]. apply wp_bind.
  eapply (wp_track_request l o c r2); [exact Hr2|].
  intros w3 (q3 & E3) Hh3 Hf3 Ha3. rewrite Em in E3. apply wp_bind.
  assert (Hd3 : heap_of (pkt_pool p) w3 !! i = Some d1) by (rewrite E3; exact Hd1).
  eapply wp_get_node; [exact Hd3|]. apply wp_bind.
  set (r3 := r2 <| local_request_id := requestID |> <| remote_rdma_obj_pa := rdma_object |>
                <| local_connect := Some c |>).
  assert (Hr3 : heap_of (rdma_pool l) w3 !! o = Some r3) by (by rewrite Hh3, lookup_alter_eq, Hr2).
  eapply wp_get_node; [exact Hr3|].
  cbn [head]. do 4 (apply wp_bind || apply wp_ret).
  change (rdma_object_pa r3) with (rdma_object_pa r2). change (ro_mue r3) with (ro_mue r2).
  rewrite Em, Epa, <- Hpa. eapply (HQ w3 d1 r3). split; try (rewrite E3; by wsimp); try done.
  - eapply pool_wf_ext, Hpk1; rewrite E3; by wsimp.
  - destruct Hro2 as [A B C D']. split; [..|done|by rewrite E3].
    + rewrite Hh3, Hf3. apply chain_alter_data; done.
    + rewrite Hh3, Ha3. apply chain_alter_data; done.
  - unfold ro_dat, r3. cbn. by rewrite Em, Epa.
Qed.

(** The read for the lists as the loop takes them. *)
Lemma rdma_read_ok :
  conn_list w !! c = Some cc -> c_magic cc = CONN_MAGIC ->
  hdr_ok (mu_iDirectPutDescriptor4rget cc) ->
  inj_ready (injfifo_ctls cc) (S (length local + length remote)) w ->
  pool_wf (pkt_pool p) w (i :: fl) al -> heap_of (pkt_pool p) w !! i = Some d ->
  pool_wf (rdma_pool l) w (o :: fl') al' -> heap_of (rdma_pool l) w !! o = Some r ->
  ctr_ok (rdma_object_pa r) -> sgl_ok local -> sgl_ok remote -> 0 < bytes_xfer < 2 ^ 32 - 2 ^ 28 ->
  Z.of_nat (length (zip (sgl_bytes remote) (sgl_bytes local))) = bytes_xfer ->
  wp (mudm_rdma_read P c requestID remote_requestID rdma_object bytes_xfer local remote)
     (fun res w' => res = - EINPROGRESS /\ exists evs bundles,
        trace w' = trace w ++ evs ++ [EvWakeup] /\
        Forall2 (is_bundle cc (message_pa d)) evs bundles /\
        Forall (fun b => 1 <= length b <= 8)%nat bundles /\
        moved (concat bundles) = zip (sgl_bytes remote) (sgl_bytes local) /\
        Forall (fun x => pt_counter (view_put x) = put_word (rdma_object_pa r)) (concat bundles) /\
        hw_evolves P (tracking l (ro_mue r) bytes_xfer (hw w)) (hw w') /\
        pool_wf (rdma_pool l) w' fl' (o :: al') /\
        ro_dat <$> heap_of (rdma_pool l) w' !! o
          = Some (rdma_object, ro_mue r, rdma_object_pa r, requestID, Some c) /\
        (pool_wf (pkt_pool p) w' (i :: fl) al \/ pool_wf (pkt_pool p) w' fl (i :: al))) w.
Proof.
  intros Hc Hm Ht Hinj Hpk Hd Hro Hr Hctr Hl Hrem Hb Hlen.
  assert (Hi : i ∉ fl ++ al) by (by destruct Hpk as [_ _ [? _]%list.NoDup_cons _]).
  assert (Ho : o ∉ fl' ++ al') by (by destruct Hro as [_ _ [? _]%list.NoDup_cons _]).
  destruct local as [|s ls] eqn:El; [by destruct Hl as (_ & ? & []%elem_of_nil & _)|].
  destruct remote as [|t rs] eqn:Er; [by destruct Hrem as (_ & ? & []%elem_of_nil & _)|].
  rewrite <- El, <- Er in *.
  apply (wp_read_setup _ s ls t rs); [done..|]. intros w3 d1 r3 [C3 L3 S3 I3 T3 H3 Hpk3 Hd3 Hq Hpa Hro3 Hr3 Hdat].
  eapply wp_mono.
  { eapply (rdma_read_loop_ok P c cc (rdma_object_pa r) (message_pa d) bytes_xfer Hctr ltac:(lia) Ht
      (length local + length remote) 1 _ _ _ _ local remote (mkRead 0 u64_max 0) [] []).
    - lia.
    - rewrite El in *. by apply cur_ok_first.
    - rewrite Er in *. by apply cur_ok_first.
    - cbn. lia.
    - split; [|split; cbn; lia|done|by constructor|by constructor|done]. split.
      + exists (c_rget_memfifo_sent cc). rewrite C3, Hc. by destruct cc.
      + eapply inj_ready_ext; [..|rewrite Nat.add_1_r; exact Hinj]; done. }
  intros v w4 (evs & new & pend & Hrel & Hb4 & Hinv & Hmov & Hne & Htot). cbn [rv_total] in *.
  assert (Es : cur_bytes (physicalAddr s) (memlength s) (tail local) = sgl_bytes local)
    by (rewrite El; by destruct s).
  assert (Et : cur_bytes (physicalAddr t) (memlength t) (tail remote) = sgl_bytes remote)
    by (rewrite Er; by destruct t).
  rewrite Es, Et, Z.sub_0_r in *. rewrite take_ge in Hmov by lia. cbn [moved app] in *.
  assert (Hpend : pend <> []).
  { intros ->. destruct (Hne eq_refl) as [_ ->]. cbn in Hmov. rewrite <- Hmov in Hlen. cbn in Hlen. lia. }
  pose proof (rd_rel_frame P c _ _ _ Hrel) as (E41 & E42 & E43 & E44 & E45).
  eapply wp_mono.
  { eapply (read_finish_ok P c cc (rdma_object_pa r) (message_pa d) bytes_xfer i o d1 r3 (ro_mue r)
      rdma_object v new pend fl al fl' al'); [done..|lia| |done| |done| |done|].
    - by eapply rd_rel_pkt.
    - unfold heap_of in *. cbn in *. by rewrite E41.
    - by eapply rd_rel_rdma.
    - unfold heap_of in *. cbn in *. by rewrite E42. }
  intros res w5 (-> & (e & He & Htr) & Hev & Hro5 & Hdat5 & Hpk5). split; [done|].
  pose proof Hinv as [_ [_ Hle] _ Hfull Hcall _].
  exists (evs ++ [e]), (new ++ [pend]). rewrite concat_app. cbn [concat]. rewrite app_nil_r. split_and!.
  - rewrite Htr, E44, T3, <- !app_assoc. done.
  - apply Forall2_app; [done|]. by repeat constructor.
  - apply list.Forall_app. split.
    + eapply list.Forall_impl; [exact Hfull|]. intros b ->. lia.
    + apply list.Forall_singleton. destruct pend; [done|cbn in *; lia].
  - done.
  - exact Hcall.
  - eapply hw_evolves_trans, Hev. rewrite <- H3. exact E45.
  - exact Hro5.
  - by rewrite Hdat5, Hdat.
  - exact Hpk5.
Qed.

(** C6: an RDMA read whose two SGLs have no empty pieces and describe exactly
    [bytes_xfer] byte pairs returns [-EINPROGRESS] after sending the direct
    puts the other side has to execute: packets of one to eight puts whose
    bytes are, in order, the byte-wise pairing of the remote with the local
    list, each put counting down the counter of the object, which was set to
    [bytes_xfer]; the object is posted and the packet buffer freed or
    posted. *)
Theorem rdma_read_exact :
  conn_list w !! c = Some cc -> c_magic cc = CONN_MAGIC ->
  hdr_ok (mu_iDirectPutDescriptor4rget cc) ->
  inj_ready (injfifo_ctls cc) (S (length local + length remote)) w ->
  pool_wf (pkt_pool p) w (i :: fl) al -> heap_of (pkt_pool p) w !! i = Some d ->
  pool_wf (rdma_pool l) w (o :: fl') al' -> heap_of (rdma_pool l) w !! o = Some r ->
  ctr_ok (rdma_object_pa r) -> sgl_ok local -> sgl_ok remote ->
  no_empty local = true -> no_empty remote = true -> 0 < bytes_xfer < 2 ^ 32 - 2 ^ 28 ->
  Z.of_nat (length (described_pairs remote local)) = bytes_xfer ->
  wp (mudm_rdma_read P c requestID remote_requestID rdma_object bytes_xfer local remote)
     (fun res w' => res = - EINPROGRESS /\ exists evs bundles,
        trace w' = trace w ++ evs ++ [EvWakeup] /\
        Forall2 (is_bundle cc (message_pa d)) evs bundles /\
        Forall (fun b => 1 <= length b <= 8)%nat bundles /\
        moved (concat bundles) = described_pairs remote local /\
        Forall (fun x => pt_counter (view_put x) = put_word (rdma_object_pa r)) (concat bundles) /\
        hw_evolves P (tracking l (ro_mue r) bytes_xfer (hw w)) (hw w') /\
        pool_wf (rdma_pool l) w' fl' (o :: al') /\
        ro_dat <$> heap_of (rdma_pool l) w' !! o
          = Some (rdma_object, ro_mue r, rdma_object_pa r, requestID, Some c) /\
        (pool_wf (pkt_pool p) w' (i :: fl) al \/ pool_wf (pkt_pool p) w' fl (i :: al))) w.
Proof.
  intros Hc Hm Ht Hinj Hpk Hd Hro Hr Hctr Hl Hrem El Er Hb Hlen. unfold described_pairs in *.
  rewrite !sgl_described_bytes in * by done. by apply rdma_read_ok.
Qed.

(** A read that finds no packet buffer or no RDMA object is refused
    with [-EBUSY]; nothing is sent and the packet buffer is given back. *)
Theorem rdma_read_no_resources pfl rfl :
  conn_list w !! c = Some cc -> c_magic cc = CONN_MAGIC ->
  pool_wf (pkt_pool p) w pfl al -> pool_wf (rdma_pool l) w rfl al' -> pfl = [] \/ rfl = [] ->
  wp (mudm_rdma_read P c requestID remote_requestID rdma_object bytes_xfer local remote)
     (fun res w' => res = - EBUSY /\ trace w' = trace w /\ inj w' = inj w /\ mem w' = mem w /\
        pool_wf (pkt_pool p) w' pfl al /\ pool_wf (rdma_pool l) w' rfl al') w.
Proof.
  intros Hc Hm Hpk Hro He. unfold mudm_rdma_read. apply wp_bind, (wp_get_conn _ cc); [done|].
  rewrite Hm, Z.eqb_refl. cbn [negb]. apply wp_bind.
  eapply wp_alloc_pkt_message; [exact Hpk| |].
  { intros ->. by apply wp_ret. }
  intros i' fl1 w1 -> Hpk1 [[v1 ->] _] (d1 & Hd1 & _). apply wp_bind.
  assert (Hro1 : pool_wf (rdma_pool l) (pl_put (Pool := pkt_pool p) v1 w) rfl al') by (by eapply pool_wf_ext, Hro).
  eapply (wp_allocate_rdma_object l rfl al'); [exact Hro1| |].
  2: { intros ? ? ? ? -> _. by destruct He. }
  intros -> q Hro2. apply wp_bind.
  assert (Hi : i' ∉ fl1 ++ al) by (by destruct Hpk as [_ _ [? _]%list.NoDup_cons _]).
  eapply (wp_release_pkt_to_free p i' 0 fl1 al); [by eapply pool_wf_ext, Hpk1|done|by exists d1|].
  intros w2 Hw2 [[v2 ->] _]. apply wp_ret. split_and!; [done..|].
  eapply pool_wf_ext, Hro2; done.
Qed.
End properties.

(** ** Messages and packets: properties *)

Definition message_type (type : Z) : bool :=
  (type =? MUDM_RDMA_WRITE) || (type =? MUDM_RDMA_READ) || (type =? MUDM_PKT_DATA_REMOTE)
  || (type =? MUDM_RDMA_READ_IMM).

Section messages.
Context (P : platform) `{!MuLive P} (c : nat) (cc : mudm_connection) (type : Z)
        (payload : ionet_send_remote_payload) (w : world).
Abbreviation p := (PacketControls (c_packetcontrols cc)).
Abbreviation l := (c_rdma_obj_ctls cc).
Abbreviation lk := (injfifo_ctls cc).

Lemma wp_conn_memfifo (Q : Z -> world -> Prop) t pa len n w1 :
  conn_list w1 !! c = Some cc -> inj_ready lk (S n) w1 ->
  (forall w', inject1 P lk (edit_memfifo t pa len (memfifo_sent cc) (mu_iMemoryFifoDescriptor cc))
                (incr_count (ConnSent c) w1) w' -> inj_ready lk n w' ->
     Q (if_numInjected (inj w1 lk) + 1) w') ->
  wp (conn_memfifo P c t pa len) Q w1.
Proof.
  intros Hc Hr HQ. apply wp_bind, (wp_get_conn _ cc); [done|].
  eapply (wp_InjFifoInjectMemFifo P _ _ n _ _ _ _ (ConnSent c)); [done|by cbn; rewrite Hc|].
  intros w' Hi. apply HQ; [done|]. eapply inject1_ready, Hi. by apply incr_count_ready.
Qed.

(** C23: a request that names memory (an RDMA write, an RDMA read or a remote
    message) is tracked by an RDMA object and sent in one packet: the packet
    holds the caller's payload, cut to its SGL entries, with the physical
    address of the object; the counter of the object is the data length of
    a write and the size of a pointer for the other types. *)
Theorem send_message_remote_correct i o d r fl al fl' al' :
  conn_list w !! c = Some cc -> inj_ready lk 1 w ->
  0 < rp_sgl_num payload <= MUDM_MAX_REMOTE_SGE -> message_type type = true ->
  pool_wf (pkt_pool p) w (i :: fl) al -> heap_of (pkt_pool p) w !! i = Some d ->
  pool_wf (rdma_pool l) w (o :: fl') al' -> heap_of (rdma_pool l) w !! o = Some r ->
  let sent := payload <| rp_SGE ::= take (Z.to_nat (rp_sgl_num payload)) |>
                      <| rp_rdma_object := rdma_object_pa r |> in
  let counter := if type =? MUDM_RDMA_WRITE then rp_data_length payload else SIZEOF_pointer in
  wp (mudm_send_message_remote P c type payload)
     (fun res w' => res = - EINPROGRESS /\
        trace w' = trace w ++ [EvWakeup; EvInject lk
          (edit_memfifo type (message_pa d) (48 + 8 * rp_sgl_num payload) (memfifo_sent cc)
             (mu_iMemoryFifoDescriptor cc)) (Some (DataRemote sent))] /\
        hw_evolves P (tracking l (ro_mue r) counter (hw w)) (hw w') /\
        pool_wf (rdma_pool l) w' fl' (o :: al') /\
        ro_dat <$> heap_of (rdma_pool l) w' !! o
          = Some (0, ro_mue r, rdma_object_pa r, rp_RequestID payload, Some c) /\
        (pool_wf (pkt_pool p) w' (i :: fl) al \/ pool_wf (pkt_pool p) w' fl (i :: al))) w.
Proof.
  intros Hc Hinj Hn Ht Hpk Hd Hro Hr sent counter.
  assert (Hi : i ∉ fl ++ al) by (by destruct Hpk as [_ _ [? _]%list.NoDup_cons _]).
  assert (Ho : o ∉ fl' ++ al') by (by destruct Hro as [_ _ [? _]%list.NoDup_cons _]).
  unfold mudm_send_message_remote. rewrite (proj2 (Z.eqb_neq _ _)) by lia.
  destruct (Z.gtb_spec (rp_sgl_num payload) MUDM_MAX_REMOTE_SGE) as [?|_]; [lia|].
  apply wp_bind, (wp_get_conn _ cc); [done|]. apply wp_bind, wp_gets.
  rewrite (proj2 (Z.eqb_neq _ _)) by apply Hinj. apply wp_bind.
  eapply wp_alloc_pkt_message; [exact Hpk|done|].
  intros i' fl1 w1 [= <- <-] Hpk1 [[v1 ->] _] (d1 & Hd1 & Hq1 & _ & _ & Hpa).
  rewrite Hd in Hpa. injection Hpa as Hpa. apply wp_bind. eapply wp_get_node; [exact Hd1|].
  apply wp_bind, wp_modify. unfold message_type in Ht. rewrite Ht. cbn [negb]. apply wp_bind.
  eapply (wp_allocate_rdma_object l (o :: fl') al'); [by eapply pool_wf_ext, Hro|done|].
  intros o' fl2 q2 r2 [= <- <-] Hro2 Hr2 Hdat2. change (heap_of (rdma_pool l) w !! o = Some r2) in Hr2.
  rewrite Hr in Hr2. injection Hr2 as <-.
  destruct (heap_of (rdma_pool l) _ !! o) as [r2|] eqn:Hr2 in Hdat2; [|done].
  assert (Em : ro_mue r2 = ro_mue r /\ rdma_object_pa r2 = rdma_object_pa r) by (by injection Hdat2).
  destruct Em as [Em Epa]. apply wp_bind. eapply wp_get_node; [exact Hr2|].
  apply wp_bind, wp_modify, wp_bind. eapply wp_track_request; [exact Hr2|].
  intros w3 (q3 & E3) Hh3 Hf3 Ha3. apply wp_bind.
  set (r3 := r2 <| local_request_id := rp_RequestID payload |> <| remote_rdma_obj_pa := 0 |>
                <| local_connect := Some c |>).
  assert (Hr3 : heap_of (rdma_pool l) w3 !! o = Some r3).
  { rewrite Hh3, lookup_alter_eq.
    change (heap_of (rdma_pool l) (upd_field (f := mem) _ ?x)) with (heap_of (rdma_pool l) x).
    by rewrite Hr2. }
  eapply (wp_release_rdma_obj_to_poll l o r3 fl' al'); [|done|exact Hr3|].
  { destruct Hro2 as [A B C D']. split; [..|done|by rewrite E3].
    - rewrite Hh3, Hf3. apply chain_alter_data; done.
    - rewrite Hh3, Ha3. apply chain_alter_data; done. }
  intros q4 Hro4 Hdat4. apply wp_bind. eapply (wp_conn_memfifo _ _ _ _ 0).
  { rewrite E3. exact Hc. }
  { eapply inj_ready_ext, Hinj; by rewrite E3. }
  intros w5 (ij & h & fs & Hev & -> & _) _.
  match goal with |- wp _ _ ?x => set (w5 := x) end.
  assert (Hp3 : pools w3 = pools (pl_put (Pool := pkt_pool p) v1 w) /\ held w3 = held w /\
    trace w3 = trace w) by (by rewrite E3).
  destruct Hp3 as (P3 & L3 & T3).
  assert (Hm3 : mem w3 !! message_pa d1 = Some (DataRemote sent))
    by (rewrite E3; wsimp; by rewrite lookup_insert_eq, Epa).
  eapply wp_mono; [eapply (wp_check_retire P c cc _ _ i d1 fl al w5)|].
  - eapply pool_wf_ext, Hpk1; [unfold w5; cbn in *; by rewrite P3|exact L3].
  - done.
  - unfold heap_of in *. unfold w5. cbn in *. by rewrite P3.
  - done.
  - intros res w6 (-> & (i6 & h6 & q6 & Hev6 & ->) & Hpk6). split_and!.
    + done.
    + unfold w5. wsimp. cbn [incr_count]. wsimp. rewrite Hm3, T3, <- app_assoc, Hpa.
      replace (SIZEOF_ionet_send_remote_payload - _) with (48 + 8 * rp_sgl_num payload); [done|].
      unfold SIZEOF_ionet_send_remote_payload, MUDM_MAX_REMOTE_SGE, SIZEOF_mudm_sgl. lia.
    + eapply hw_evolves_trans, Hev6. revert Hev. unfold w5. cbn [incr_count]. wsimp.
      rewrite E3. wsimp. unfold counter. by rewrite <- Em.
    + eapply pool_wf_ext, Hro4; done.
    + etrans; [exact Hdat4|]. unfold ro_dat, r3. cbn. by rewrite Em, Epa.
    + exact Hpk6.
Qed.
(** A message without SGL entries, with more than fit in a packet, or on
    an inactive link is refused, and nothing at all changes. *)
Theorem send_message_remote_refuses :
  conn_list w !! c = Some cc ->
  rp_sgl_num payload <= 0 \/ MUDM_MAX_REMOTE_SGE < rp_sgl_num payload \/ inj_state w lk = 0 ->
  0 <= rp_sgl_num payload ->
  exists e, mudm_send_message_remote P c type payload w = Ok e w /\
    (e = - EFAULT /\ rp_sgl_num payload = 0 \/ e = - E2BIG /\ MUDM_MAX_REMOTE_SGE < rp_sgl_num payload \/
     e = - ECANCELED /\ inj_state w lk = 0).
Proof.
  intros Hc H Hp. unfold mudm_send_message_remote, get_conn, at_link, bind, gets, deref, ret.
  destruct (Z.eqb_spec (rp_sgl_num payload) 0); [eauto 6|].
  destruct (Z.gtb_spec (rp_sgl_num payload) MUDM_MAX_REMOTE_SGE); [eexists; split; [done|auto]|].
  rewrite Hc. destruct (Z.eqb_spec (inj_state w lk) 0); [eauto 8|]. lia.
Qed.

Lemma send_pkt_loop_ok fuel reqID n fl al w1 rank :
  (rank (hw w1) <= fuel)%nat ->
  (forall w, n <= if_numInjected (inj w lk) -> hw_descCount (hw w) lk < n ->
     (rank (hw_step P w) < rank (hw w))%nat) ->
  n <= if_numInjected (inj w1 lk) -> n <> u64_max ->
  (exists k, conn_list w1 !! c = Some (cc <| memfifo_sent := k |>)) ->
  pool_wf (pkt_pool (SmallpaObjCtls (c_smallpa_obj_ctls cc))) w1 fl al ->
  let O := pkt_pool (SmallpaObjCtls (c_smallpa_obj_ctls cc)) in
  wp (send_pkt_loop P fuel c reqID n) (fun r w' =>
    r = 0 /\ pool_wf O w' fl al /\ trace w' = trace w1 \/
    r = - EINPROGRESS /\ reqID <> 0 /\ exists i fl', fl = i :: fl' /\ pool_wf O w' fl' (i :: al) /\
      trace w' = trace w1 ++ [EvWakeup] /\
      exists d, heap_of O w' !! i = Some d /\ req_id d = reqID /\ desc_cnt d = n /\
        pk_ccontext d = Some c) w1.
Proof.
  revert w1. induction fuel as [|fuel IH]; intros w1 Hf Hr Hn Hne [k Hc] Hpk O; cbn [send_pkt_loop].
  all: apply wp_bind, (wp_get_conn _ (cc <| memfifo_sent := k |>)); [done|]; apply wp_bind.
  all: change (injfifo_ctls (cc <| memfifo_sent := k |>)) with lk;
    change (c_smallpa_obj_ctls (cc <| memfifo_sent := k |>)) with (c_smallpa_obj_ctls cc).
  all: destruct (check_desc lk n w1) as (ij & dc & E & Hi & Ho & Hd & _); eapply wp_intro; [exact E|].
  all: destruct (Z.leb_spec n dc) as [Hle|Hgt]; cbn [Z.eqb Pos.eqb];
    [apply wp_ret; left; split_and!; [done|by eapply pool_wf_ext, Hpk|done]|].
  all: rewrite (proj2 (Z.eqb_neq _ _) Hne); apply wp_bind.
  all: assert (Hstep : forall w2, w2 = w1 <| inj := ij |> -> (rank (hw_step P w2) < rank (hw w1))%nat)
    by (intros w2 ->; pose proof (Hr (w1 <| inj := ij |>)) as H; revert H; wsimp; rewrite Hi;
        intros H; exact (H Hn (Hd Hgt))).
  all: specialize (Hstep _ eq_refl).
  { lia. }
  assert (Hgo : wp (modify (fun w => w <| hw := hw_step P w |>) ;;; send_pkt_loop P fuel c reqID n)
    (fun r w' => r = 0 /\ pool_wf O w' fl al /\ trace w' = trace w1 \/
    r = - EINPROGRESS /\ reqID <> 0 /\ exists i fl', fl = i :: fl' /\ pool_wf O w' fl' (i :: al) /\
      trace w' = trace w1 ++ [EvWakeup] /\
      exists d, heap_of O w' !! i = Some d /\ req_id d = reqID /\ desc_cnt d = n /\
        pk_ccontext d = Some c) (w1 <| inj := ij |>)).
  { apply wp_bind, wp_modify. eapply wp_mono; [apply IH; wsimp|]; [lia|done|by rewrite Hi|done|by exists k| |done].
    by eapply pool_wf_ext, Hpk. }
  destruct (Z.eqb_spec reqID 0) as [->|Hq]; cbn [negb].
  { by apply wp_ret. }
  eapply wp_alloc_pkt_message; [by eapply pool_wf_ext, Hpk|done|].
  intros i fl' w2 -> Hpk2 [[v ->] _] (d & Hd2 & _). apply wp_bind.
  assert (Hi2 : i ∉ fl' ++ al) by (by destruct Hpk as [_ _ [? _]%list.NoDup_cons _]).
  unfold set_pkt_req_id. apply wp_upd_node; [by exists d|].
  match goal with |- wp _ _ ?x => set (w3 := x) end.
  assert (Hd3 : heap_of O w3 !! i = Some (d <| req_id := reqID |>)).
  { etrans; [apply (f_equal (fun m => m !! i)), (put_heap O)|]. by rewrite lookup_alter_eq, Hd2. }
  assert (Hpk3 : pool_wf O w3 fl' al).
  { destruct Hpk2 as [A B C D]. apply pool_wf_put; [by apply chain_alter_data|by apply chain_alter_data|done|done]. }
  apply wp_bind. eapply (wp_release_pkt_to_poll_ccontext _ i _ n c fl' al); [exact Hpk3|done|exact Hd3|].
  intros w4 Hw4 [[v4 ->] _] Hdat. cbn [req_id upd_field]. rewrite (proj2 (Z.eqb_neq _ _) Hq).
  apply wp_ret. right. split; [done|]. split; [done|]. exists i, fl'. split_and!; [done| |done|].
  - by eapply pool_wf_ext, Hw4.
  - change (heap_of O (upd_field (f := trace) _ ?x)) with (heap_of O x).
    destruct (fmap_Some_1 _ _ _ Hdat) as (d4 & Hd4 & E4). exists d4. split; [exact Hd4|].
    unfold pk_dat in E4. cbn in E4. by injection E4 as -> -> _ _ ->.
Qed.

(** A packet of at most 512 bytes is injected once with the next
    sequence number of the connection.  The result is 0 when the message
    unit has taken it, with nothing left behind; a request ID may instead be
    handed to a tracking object, and the result is [-EINPROGRESS].  Without
    a request ID the call waits for the message unit. *)
Theorem send_pkt_correct requestID payload_paddr payload_length fl al :
  conn_list w !! c = Some cc -> c_magic cc = CONN_MAGIC -> inj_ready lk 1 w ->
  payload_length <= TORUS_MAX_PAYLOAD_SIZE ->
  let O := pkt_pool (SmallpaObjCtls (c_smallpa_obj_ctls cc)) in
  pool_wf O w fl al ->
  wp (mudm_send_pkt P c requestID type payload_paddr payload_length) (fun r w' =>
    let sent := trace w ++ [EvInject lk (edit_memfifo type payload_paddr payload_length
       (memfifo_sent cc) (mu_iMemoryFifoDescriptor cc)) (mem w !! payload_paddr)] in
    r = 0 /\ pool_wf O w' fl al /\ trace w' = sent \/
    r = - EINPROGRESS /\ requestID <> 0 /\ exists i fl', fl = i :: fl' /\ pool_wf O w' fl' (i :: al) /\
      trace w' = sent ++ [EvWakeup] /\
      exists d, heap_of O w' !! i = Some d /\ req_id d = requestID /\
        desc_cnt d = if_numInjected (inj w lk) + 1 /\ pk_ccontext d = Some c) w.
Proof.
  intros Hc Hm Hinj Hlen O Hpk. unfold mudm_send_pkt.
  destruct (Z.gtb_spec payload_length TORUS_MAX_PAYLOAD_SIZE); [lia|].
  apply wp_bind, (wp_get_conn _ cc); [done|]. rewrite Hm, Z.eqb_refl. cbn [negb].
  apply wp_bind, (wp_conn_memfifo _ _ _ _ 0); [done|done|].
  intros w1 (ij & h & fs & Hev & -> & Hi & _) Hir.
  destruct (desc_live lk (if_numInjected (inj w lk) + 1)) as (rank & Hr & Hs).
  assert (Hnum : if_numInjected (ij lk) = if_numInjected (inj w lk) + 1) by (by rewrite Hi).
  destruct Hinj as [_ _ _ [G1 G2]].
  eapply wp_mono; [eapply (send_pkt_loop_ok _ _ _ fl al _ rank)|].
  - done.
  - done.
  - wsimp. lia.
  - unfold u64_max in *. lia.
  - exists (u64 (memfifo_sent cc + 1)). wsimp. cbn [incr_count]. wsimp. by rewrite lookup_alter_eq, Hc.
  - by eapply pool_wf_ext, Hpk.
  - intros r w1 Hx. revert Hx. wsimp. cbn [incr_count]. wsimp. naive_solver.
Qed.
End messages.

(** ** Witnesses *)

Lemma demo_rdma_wf : pool_wf (rdma_pool 0) demo_world [0; 1]%nat [].
Proof.
  split; [|done|by apply (bool_decide_unpack _)|done].
  by apply (walk_sound 2).
Qed.

Lemma rdma_read_exact_witness :
  wp (mudm_rdma_read demo_platform 0 77 0 0x20000 300 demo_local demo_remote)
     (fun res w' => res = - EINPROGRESS /\ exists evs bundles,
        trace w' = evs ++ [EvWakeup] /\
        Forall2 (is_bundle demo_cc 0x50000) evs bundles /\
        moved (concat bundles) = described_pairs demo_remote demo_local) demo_world.
Proof.
  eapply wp_mono.
  - apply (rdma_read_exact demo_platform 0 demo_cc 77 0 0x20000 300 demo_local demo_remote 0 0
      (demo_pktd (Some 1%nat) 0x50000) (demo_ro 0 (Some 1%nat)) [1; 2]%nat [] [1%nat] [] demo_world).
    + done.
    + done.
    + done.
    + by apply demo_inj_ready.
    + apply demo_pool_wf.
    + done.
    + apply demo_rdma_wf.
    + done.
    + by split.
    + apply demo_local_ok.
    + apply demo_remote_ok.
    + done.
    + done.
    + lia.
    + by vm_compute.
  - intros res w' (E & evs & bundles & A & B & _ & D & _). split; [done|]. by exists evs, bundles.
Defined.

Lemma rdma_read_no_resources_witness :
  wp (mudm_rdma_read demo_platform 0 77 0 0x20000 300 demo_local demo_remote)
     (fun res _ => res = - EBUSY)
     (demo_world <| pools ::= fun f => <[PacketControls 0 := (f (PacketControls 0)) <| pkt_free_list := None |>]> f |>).
Proof.
  eapply wp_mono.
  - eapply (rdma_read_no_resources demo_platform 0 demo_cc 77 0 0x20000 300 demo_local demo_remote [] [] _ [] [0; 1]%nat).
    + done.
    + done.
    + split; [done|done|by constructor|done].
    + split; [|done|by apply (bool_decide_unpack _)|done]. by apply (walk_sound 2).
    + by left.
  - by intros res w' (E & _).
Defined.

(** ** A read of more than the lists describe

    Nine pieces of 100 bytes for a read of 1000 bytes: the first eight puts
    are sent in a packet, the ninth is dropped with the buffer, and the
    driver waits for the counter to go down to 100 although the puts it
    sent only bring it down to 200.  [deliver] is a message unit that
    executes all puts at once. *)

Definition demo_pieces (base : Z) : list mudm_sgl :=
  map (fun i => mkSgl (base + 0x1000 * i) 100) (seqZ 0 9) ++ [mkSgl 0 0].

Definition delivered (t : list event) : Z :=
  foldr Z.add 0 (omap (fun e => match e with
    | EvInject _ d (Some (DataDescs ds)) =>
        Some (foldr Z.add 0 (map Message_Length (take (Z.to_nat (Message_Length d / 64)) ds)))
    | _ => None end) t).

Definition delivering (fuel : nat) (bytes : Z) : platform := mkPlatform
  (fun w => (hw_step demo_platform w) <| hw_mue := fun _ _ => mkMue (bytes - delivered (trace w)) 0 |>)
  (cb_recv demo_platform) (cb_recv_conn demo_platform) (cb_status demo_platform)
  (cb_allocate demo_platform) (cb_free demo_platform) (wakeup_wait demo_platform) 1600 4096 4160 4224 8
  (buf_image demo_platform) fuel.

Example short_read_hangs :
  mudm_rdma_read (delivering 1000 1000) 0 77 0 0x20000 1000 (demo_pieces 0x100000)
    (demo_pieces 0x200000) demo_world = Hang.
Proof. by vm_compute. Qed.

(** The same lists, read in full. *)
Example exact_read_bundles :
  match mudm_rdma_read (delivering 10 900) 0 77 0 0x20000 900 (demo_pieces 0x100000)
    (demo_pieces 0x200000) demo_world with
  | Ok r w' => r = - EINPROGRESS /\
      omap (fun e => match e with EvInject _ d _ => Some (Message_Length d) | _ => None end) (trace w')
      = [512; 64] /\ delivered (trace w') = 900
  | _ => False
  end.
Proof. by vm_compute. Qed.

Definition demo_request : ionet_send_remote_payload :=
  mkRemote 77 0x7000 5 2 300 0 0 0 demo_local.

Lemma send_message_remote_correct_witness :
  wp (mudm_send_message_remote demo_platform 0 MUDM_RDMA_WRITE demo_request)
     (fun res w' => res = - EINPROGRESS /\
        trace w' = [EvWakeup; EvInject 0 (edit_memfifo MUDM_RDMA_WRITE 0x50000 64 0 demo_memfifo_desc)
          (Some (DataRemote (demo_request <| rp_SGE := take 2 demo_local |> <| rp_rdma_object := 0x10000 |>)))])
     demo_world.
Proof.
  eapply wp_mono.
  - eapply (send_message_remote_correct demo_platform 0 demo_cc MUDM_RDMA_WRITE demo_request demo_world
      0 0 (demo_pktd (Some 1%nat) 0x50000) (demo_ro 0 (Some 1%nat)) [1; 2]%nat [] [1%nat] []).
    + done.
    + by apply demo_inj_ready.
    + by cbn.
    + done.
    + apply demo_pool_wf.
    + done.
    + apply demo_rdma_wf.
    + done.
  - by intros res w' (A & B & _).
Defined.

Lemma send_message_remote_refuses_witness :
  exists e, mudm_send_message_remote demo_platform 0 MUDM_RDMA_WRITE (demo_request <| rp_sgl_num := 59 |>)
    demo_world = Ok e demo_world /\ (e = - EFAULT /\ rp_sgl_num (demo_request <| rp_sgl_num := 59 |>) = 0 \/
     e = - E2BIG /\ MUDM_MAX_REMOTE_SGE < 59 \/ e = - ECANCELED /\ inj_state demo_world 0 = 0).
Proof.
  apply (send_message_remote_refuses demo_platform 0 demo_cc); [done| |done]. by right; left.
Defined.

Lemma send_pkt_correct_witness :
  wp (mudm_send_pkt demo_platform 0 0 MUDM_PKT_DATA_REMOTE 0x70000 100) (fun r _ => r = 0) demo_world.
Proof.
  eapply wp_mono.
  - eapply (send_pkt_correct demo_platform 0 demo_cc MUDM_PKT_DATA_REMOTE demo_world 0 0x70000 100
      [0; 1; 2]%nat []).
    + done.
    + done.
    + by apply demo_inj_ready.
    + done.
    + split; [|done|by apply (bool_decide_unpack _)|done]. by apply (walk_sound 3).
  - intros r w' [(A & _)|(_ & B & _)]; [exact A|by destruct B].
Defined.
