(* ===== verification/Bcast.v ===== *)
(** * Collective packets and the RDMA broadcast

    bgmudm/mudm_bcast.c and mudm_poll_bcast.c.  A broadcast of memory is a
    small protocol over a class route: the origin announces it
    ([MUDM_RDY_RDMA_BCAST]), every node sets its counter and takes part in
    a reduce to the origin, the origin puts the data on the class route
    ([MUDM_REDUCE_BCAST_ORIGIN]), and when its counter is zero every node
    takes part in a reduce over all nodes that ends the broadcast
    ([MUDM_REDUCE_BCAST_FINISH]). *)

From S2P Require Import Prelude Chain Bytes Descriptor State Inject Concrete.

(** Packet types (bgmudm/common.h). *)
Definition MUDM_REDUCE_ALL := 0xF50F.
Definition MUDM_REDUCE_ALL_LNC := 0xF51F.
Definition MUDM_REDUCE_BCAST_ORIGIN := 0xF5B0.
Definition MUDM_REDUCE_BCAST_FINISH := 0xF5BF.
Definition MUDM_RDY_RDMA_BCAST := 0xF588.
Definition MUDM_CLR_RDMA_BCAST := 0xF544.

(** Offsets in [struct bcast_rdma_object]; sizeof(struct
    rdma_bcast_set_counter). *)
Definition OFF_bcast_counter_info := 128.
Definition OFF_num_compute_nodes_in_class_route := 400.
Definition SIZEOF_rdma_bcast_set_counter := 128.

(** [struct rdma_bcast_set_counter] in the payload of a packet. *)
Definition rb_requestID := Field 32 8.
Definition rb_payload_length := Field 56 8.
Definition rb_class_route := Field 68 1.
Definition rb_status_mem := Field 72 8.
Definition rb_status_val := Field 80 8.
Definition rb_origination_node := Field 96 4.

Definition bro_of (w : world) : bcast_rdma_object := RDMA_bcast_control (system_bcast w).
Definition get_bro : MW bcast_rdma_object := gets bro_of.
Definition upd_bro (u : bcast_rdma_object -> bcast_rdma_object) : MW unit :=
  modify (fun w => w <| system_bcast ::= fun b => b <| RDMA_bcast_control ::= u |> |>).

(** A member of the context that is also a packet buffer. *)
Definition ctx_store (pa : Z) (d : packet_data) : MW unit :=
  modify (fun w => w <| mem ::= <[pa := d]> |>).

Section with_platform.
Context (P : platform).

(** ** Sending on a class route (mudm_bcast.c) *)

Definition mudm_bcast_memfifo (type payload_paddr payload_length class_route : Z) : MW Z :=
  d <- gets (fun w => mb_iMemoryFifoDescriptor (system_bcast w)) ;;
  desc_count <- InjFifoInjectMemFifoBcast P 0 d type payload_paddr payload_length class_route
                  BcastSent ;;
  l <- gets (fun w => mb_IdToInjFifo (system_bcast w)) ;;
  wait_desc P (spin_fuel P) l desc_count ;;;
  ret 0.

Definition mudm_bcast_reduce (type op_code payload_paddr payload_length torus_destination
    class_route reduce_choice : Z) : MW Z :=
  if popcnt64 payload_length >? 1 then ret (- EINVAL) else
  if payload_length <? 4 then ret (- EINVAL) else
  if negb ((MUHWI_COLLECTIVE_TYPE_ALLREDUCE =? reduce_choice)
           || (MUHWI_COLLECTIVE_TYPE_REDUCE =? reduce_choice)) then ret (- EINVAL) else
  l <- gets (fun w => mb_IdToInjFifo (system_bcast w)) ;;
  d <- gets (fun w => mb_iMemoryFifoDescriptor (system_bcast w)) ;;
  desc_count <- InjFifoInjectReduce P l d type payload_paddr payload_length op_code
                  torus_destination reduce_choice class_route BcastSent ;;
  wait_desc P (spin_fuel P) l desc_count ;;;
  ret 0.

(** The lock of the broadcast is the lock of its injection FIFO. *)
Definition mudm_bcast_RDMA_write (mrb : mudm_rdma_bcast) : MW Z :=
  bro <- get_bro ;;
  let payload_physAddr := b_rdma_object_pa bro + OFF_bcast_counter_info in
  l <- gets (fun w => mb_IdToInjFifo (system_bcast w)) ;;
  SPIN_LOCK (InjLock l) ;;;
  if negb (b_state bro =? BCAST_INACTIVE) then
    SPIN_UNLOCK (InjLock l) ;;; ret (- EBUSY)
  else
    upd_bro (fun b => b <| b_state := BCAST_SETUP |>) ;;;
    SPIN_UNLOCK (InjLock l) ;;;
    upd_bro (fun b => b <| b_counter_info ::= fun r => r <| rbsc_mrb := mrb |> |>) ;;;
    upd_mue l (b_mu_counter_bcast_addr bro) (fun m => m <| mu_counter := mrb_payload_length mrb |>) ;;;
    node <- gets myTorusAddress ;;
    upd_bro (fun b => b <| b_counter_info ::= fun r => r <| rbsc_origination_node := node |> |>) ;;;
    bro <- get_bro ;;
    ctx_store payload_physAddr (DataBcast (b_counter_info bro)) ;;;
    r <- mudm_bcast_memfifo MUDM_RDY_RDMA_BCAST payload_physAddr SIZEOF_rdma_bcast_set_counter
           (mrb_class_route mrb) ;;
    ret (- EINPROGRESS).

Definition count_CN_in_block : MW unit :=
  modify (fun w => w <| num_compute_nodes := 1 |>) ;;;
  pa <- gets mudm_context_phys_addr ;;
  r <- mudm_bcast_reduce MUDM_REDUCE_ALL MUHWI_COLLECTIVE_OP_CODE_UNSIGNED_ADD
         (pa + off_num_compute_nodes P) 8 0 15 MUHWI_COLLECTIVE_TYPE_ALLREDUCE ;;
  ret tt.

Definition largest_node_corner_in_block : MW unit :=
  modify (fun w => w <| largest_node_corner := myTorusAddress w |>) ;;;
  pa <- gets mudm_context_phys_addr ;;
  r <- mudm_bcast_reduce MUDM_REDUCE_ALL_LNC MUHWI_COLLECTIVE_OP_CODE_UNSIGNED_MAX
         (pa + off_largest_node_corner P) 8 0 15 MUHWI_COLLECTIVE_TYPE_ALLREDUCE ;;
  ret tt.

(** ** Receiving (mudm_poll_bcast.c) *)

Definition InjFifoBcastDirectPut (l : nat) (desc : MUHWI_Descriptor)
    (bytes source_physaddr dest_physaddr Rec_Counter_Offset class_route : Z) : MW Z :=
  SPIN_LOCK (InjLock l) ;;;
  r <- reduce_desc_loop P (spin_fuel P) l ;;
  d <- deref (set_counter_directput Rec_Counter_Offset
                (set_dma_directput bytes source_physaddr dest_physaddr desc)) ;;
  fill_slot l (snd r) (set_hdr h_Byte2 (u8 (Z.shiftl class_route 4)) d) ;;;
  SPIN_UNLOCK (InjLock l) ;;;
  ret (fst r).

(** Report request [ref_req_id] as done. *)
Definition report_bcast (ref_req_id : Z) : MW unit :=
  when (negb (ref_req_id =? 0)) (r <- status_cb P [(ref_req_id, 0)] ;; ret tt).

(** The request ID is taken from the packet, and cleared there. *)
Definition clear_rdma_bcast_receive_atomic (pkt : list Z) : MW Z :=
  ref_req_id <- peek rb_requestID pkt ;;
  upd_bro (fun b => b <| b_state := BCAST_INACTIVE |>) ;;;
  report_bcast ref_req_id ;;; ret 0.

Definition clear_rdma_bcast_receive_reduce : MW Z :=
  bro <- get_bro ;;
  let ref_req_id := mrb_requestID (rbsc_mrb (b_counter_info bro)) in
  upd_bro (fun b => b <| b_counter_info ::= fun r => r <| rbsc_mrb ::= fun m => m <| mrb_requestID := 0 |> |> |>
                      <| b_state := BCAST_INACTIVE |>) ;;;
  report_bcast ref_req_id ;;; ret 0.

(** Take part in a reduce that counts the nodes of the class route. *)
Definition bcast_vote (type reduce_choice : Z) : MW Z :=
  bro <- get_bro ;;
  upd_bro (fun b => b <| b_num_compute_nodes_in_class_route := 1 |>) ;;;
  ctx_store (b_rdma_object_pa bro + OFF_num_compute_nodes_in_class_route)
    (DataBytes (be_split 8 1)) ;;;
  mudm_bcast_reduce type MUHWI_COLLECTIVE_OP_CODE_UNSIGNED_ADD
    (b_rdma_object_pa bro + OFF_num_compute_nodes_in_class_route) 8
    (b_origin_bcast_node bro) (b_class_route4bcast bro) reduce_choice.

Definition ready_rdma_bcast_receive_reduce (pkt : list Z) : MW Z :=
  bro <- get_bro ;;
  l <- gets (fun w => mb_IdToInjFifo (system_bcast w)) ;;
  len <- peek rb_payload_length pkt ;;
  upd_mue l (b_mu_counter_bcast_addr bro) (fun m => m <| mu_counter := len |>) ;;;
  node <- peek rb_origination_node pkt ;;
  route <- peek rb_class_route pkt ;;
  smem <- peek rb_status_mem pkt ;;
  sval <- peek rb_status_val pkt ;;
  upd_bro (fun b => b <| b_origin_bcast_node := node |> <| b_class_route4bcast := route |>
                      <| b_local_status_address := smem |> <| b_local_status_value := sval |>) ;;;
  when (negb (len =? 0)) (r <- bcast_vote MUDM_REDUCE_BCAST_ORIGIN MUHWI_COLLECTIVE_TYPE_REDUCE ;; ret tt) ;;;
  upd_bro (fun b => b <| b_state := BCAST_RECEIVER |>) ;;;
  ret 0.

Definition start_bcast : MW unit :=
  bro <- get_bro ;;
  l <- gets (fun w => mb_IdToInjFifo (system_bcast w)) ;;
  let mrb := rbsc_mrb (b_counter_info bro) in
  when (negb (mrb_payload_length mrb =? 0))
    (r <- InjFifoBcastDirectPut l (b_iDirectPutDescriptor bro) (mrb_payload_length mrb)
            (mrb_source_payload_paddr mrb) (mrb_dest_payload_paddr mrb)
            (rbsc_mu_counter_offset (b_counter_info bro)) (mrb_class_route mrb) ;; ret tt).

Definition mudm_recv_bcast (pkt : list Z) : MW Z :=
  type <- peek (in_hdr sb_type) pkt ;;
  (if type =? MUDM_RDY_RDMA_BCAST then r <- ready_rdma_bcast_receive_reduce pkt ;; ret tt
   else if type =? MUDM_CLR_RDMA_BCAST then r <- clear_rdma_bcast_receive_atomic pkt ;; ret tt
   else if type =? MUDM_REDUCE_BCAST_ORIGIN then start_bcast
   else if type =? MUDM_REDUCE_BCAST_FINISH then r <- clear_rdma_bcast_receive_reduce ;; ret tt
   else r <- recv_cb P (slice SW_OFF SW_LEN pkt) (DataBytes (drop 32 pkt)) ;; ret tt) ;;;
  ret 0.

Definition rdma_bcast_poll_reduce : MW Z :=
  bro <- get_bro ;;
  l <- gets (fun w => mb_IdToInjFifo (system_bcast w)) ;;
  mue <- get_mue l (b_mu_counter_bcast_addr bro) ;;
  if negb (mu_counter mue =? 0) then ret (- EINPROGRESS) else
  if negb (b_state bro =? BCAST_RECEIVER) then ret (- EINPROGRESS) else
  when (negb (b_local_status_address bro =? 0))
    (emit (EvStatusMem (b_local_status_address bro) (b_local_status_value bro))) ;;;
  r <- bcast_vote MUDM_REDUCE_BCAST_FINISH MUHWI_COLLECTIVE_TYPE_ALLREDUCE ;;
  upd_bro (fun b => b <| b_state := BCAST_WAIT4CLEAR |>) ;;;
  ret 0.
End with_platform.

(** ** Rules for the injections *)

Section rules.
Context (P : platform) `{!MuLive P}.

(** On an active FIFO the two loops that look for a slot agree. *)
Lemma reduce_desc_loop_active fuel l w :
  inj_state w l <> 0 -> reduce_desc_loop P fuel l w = next_desc_loop P fuel l w.
Proof.
  revert w. induction fuel as [|fuel IH]; intros w Hs; cbn [reduce_desc_loop next_desc_loop];
    unfold bind, gets; destruct (next_desc_step l w) as (i & fs & -> & _); wsimp;
    rewrite (proj2 (Z.eqb_neq _ _) Hs), andb_true_r; [done|].
  destruct (fst _ =? u64_max); [|done]. unfold modify. rewrite IH; [done|by wsimp].
Qed.

Lemma wp_get_reduce_slot {A} (k : Z * option Z -> MW A) (Q : A -> world -> Prop) l n w :
  inj_ready l (S n) w ->
  (forall i h fs, hw_evolves P (hw w) h ->
    i l = (inj w l) <| if_freeSpace := fs |> -> (forall l', l' <> l -> i l' = inj w l') ->
    wp (k (if_numInjected (inj w l) + 1, Some (if_va_tail (inj w l)))) Q
       (w <| held ::= cons (InjLock l) |> <| inj := i |> <| hw := h |>)) ->
  wp (SPIN_LOCK (InjLock l) ;;; r <- reduce_desc_loop P (spin_fuel P) l ;; k r) Q w.
Proof.
  intros [Hl Hs Hg [Hr1 Hr2]] HQ. apply wp_bind, wp_lock; [done|].
  destruct (free_live l) as (rank & Hr & Hdec). apply wp_bind.
  destruct (next_desc_loop_ok P (spin_fuel P) l (w <| held ::= cons (InjLock l) |>) rank)
    as (i & h & fs & Hev & E & Hi & Hi'); [done|done|by wsimp|split; wsimp; lia|].
  rewrite <- reduce_desc_loop_active in E by by wsimp.
  wsimp_at Hi. revert Hev E Hi'. wsimp. intros Hev E Hi'.
  eapply wp_intro; [exact E|]. by apply (HQ i h fs).
Qed.

Lemma wp_InjFifoInjectReduce (Q : Z -> world -> Prop) l n d type pa len op dest rv cr loc sent w :
  inj_ready l (S n) w -> read_count loc w = Some sent ->
  (forall w', inject1 P l (edit_reduce type pa len op dest rv cr sent d) (incr_count loc w) w' ->
              Q (if_numInjected (inj w l) + 1) w') ->
  wp (InjFifoInjectReduce P l d type pa len op dest rv cr loc) Q w.
Proof.
  intros Hr Hc HQ. apply (wp_get_reduce_slot _ _ _ n); [done|]. intros i h fs Hev Hi Hi'. cbn [fst snd].
  by eapply (wp_count_fill_unlock P _ _ _ _ (fun k => edit_reduce _ _ _ _ _ _ _ k d)).
Qed.

Lemma wp_InjFifoBcastDirectPut (Q : Z -> world -> Prop) l n d d' bytes src dst ctr cr w :
  inj_ready l (S n) w ->
  set_counter_directput ctr (set_dma_directput bytes src dst d) = Some d' ->
  (forall w', inject1 P l (set_hdr h_Byte2 (u8 (Z.shiftl cr 4)) d') w w' ->
     Q (if_numInjected (inj w l) + 1) w') ->
  wp (InjFifoBcastDirectPut P l d bytes src dst ctr cr) Q w.
Proof.
  intros Hr Hd HQ. apply (wp_get_reduce_slot _ _ _ n); [done|]. intros i h fs Hev Hi Hi'.
  rewrite Hd. apply wp_bind, wp_ret. by eapply wp_fill_unlock.
Qed.

(** Inject, then wait until the packet has left. *)
Definition sent_one (l : nat) (d : MUHWI_Descriptor) (w w' : world) : Prop :=
  exists w1, inject1 P l d (incr_count BcastSent w) w1 /\ polled P l w1 w'.

Lemma sent_one_facts l d w w' : sent_one l d w w' ->
  trace w' = trace w ++ [EvInject l d (mem w !! Pa_Payload d)] /\ mem w' = mem w /\
  bro_of w' = bro_of w /\ held w' = held w /\ hw_evolves P (hw w) (hw w').
Proof.
  intros (w1 & (i & h & fs & Hev & -> & _) & (i2 & h2 & d2 & Hev2 & -> & _)).
  revert Hev Hev2. unfold bro_of. cbn [incr_count]. wsimp. intros.
  split_and!; [done|done|by destruct w as [? ? ? ? ? ? ? ? ? ? ? ? ? ? ? ? ? ? ? ? ? ? ? ? ? ? ? []]|done|by eapply hw_evolves_trans].
Qed.
End rules.

(** ** Properties *)

(** Counting bits over a list of positions. *)
Lemma b2z_nonneg b : 0 <= Z.b2z b.
Proof. by destruct b. Qed.
Lemma bit_sum_cons v i l : bit_sum v (i :: l) = bit_sum v l + Z.b2z (Z.testbit v (Z.of_nat i)).
Proof. done. Qed.
Lemma bit_sum_nonneg v l : 0 <= bit_sum v l.
Proof.
  induction l as [|i l IH]; [done|]. rewrite bit_sum_cons. destruct (Z.testbit _ _); cbn [Z.b2z]; lia.
Qed.
Lemma bit_sum_one v l i : i ∈ l -> Z.testbit v (Z.of_nat i) = true -> 1 <= bit_sum v l.
Proof.
  intros Hi Hv. induction l as [|j l IH]; [by apply elem_of_nil in Hi|]. rewrite bit_sum_cons.
  apply elem_of_cons in Hi as [<-|Hi]; [rewrite Hv; pose proof (bit_sum_nonneg v l); cbn [Z.b2z]; lia|].
  specialize (IH Hi). pose proof (b2z_nonneg (Z.testbit v (Z.of_nat j))). lia.
Qed.
Lemma bit_sum_two v l i j : i ∈ l -> j ∈ l -> i <> j ->
  Z.testbit v (Z.of_nat i) = true -> Z.testbit v (Z.of_nat j) = true -> 2 <= bit_sum v l.
Proof.
  intros Hi Hj Hne Hvi Hvj. induction l as [|k l IH]; [by apply elem_of_nil in Hi|]. rewrite bit_sum_cons.
  apply elem_of_cons in Hi as [->|Hi]; apply elem_of_cons in Hj as [->|Hj]; [done| | |].
  - pose proof (bit_sum_one v l j Hj Hvj). rewrite Hvi. cbn [Z.b2z]. lia.
  - pose proof (bit_sum_one v l i Hi Hvi). rewrite Hvj. cbn [Z.b2z]. lia.
  - specialize (IH Hi Hj). pose proof (b2z_nonneg (Z.testbit v (Z.of_nat k))). lia.
Qed.

Lemma popcnt64_two v i j : (i < 64)%nat -> (j < 64)%nat -> i <> j ->
  Z.testbit v (Z.of_nat i) = true -> Z.testbit v (Z.of_nat j) = true -> 2 <= popcnt64 v.
Proof.
  intros Hi Hj Hne Hvi Hvj. unfold popcnt64.
  assert (Hsi : i ∈ seq 0 64) by (apply elem_of_seq; lia).
  assert (Hsj : j ∈ seq 0 64) by (apply elem_of_seq; lia).
  revert Hsi Hsj. generalize (seq 0 64). intros l' Hsi Hsj.
  exact (bit_sum_two v l' i j Hsi Hsj Hne Hvi Hvj).
Qed.

(** A word with at most one bit set is 0 or a power of two. *)
Lemma popcnt64_pow2 k : 0 <= k < 64 -> popcnt64 (2 ^ k) = 1.
Proof.
  intros Hk. assert (H : forallb (fun k => popcnt64 (2 ^ k) =? 1) (seqZ 0 64) = true) by by vm_compute.
  rewrite forallb_forall in H. apply Z.eqb_eq, H, list_elem_of_In, elem_of_seqZ. lia.
Qed.
Lemma popcnt64_single v : 0 < v < 2 ^ 64 -> popcnt64 v <= 1 -> v = 2 ^ Z.log2 v.
Proof.
  intros Hv Hp. destruct (Z.log2_spec v) as [L1 L2]; [lia|]. pose proof (Z.log2_nonneg v) as L0.
  destruct (Z.eq_dec v (2 ^ Z.log2 v)) as [?|Hne]; [done|]. exfalso.
  destruct (ex_intro (fun r => r = v - 2 ^ Z.log2 v) _ eq_refl) as [r Er]. assert (Hr : 0 < r < 2 ^ Z.log2 v).
  { rewrite Z.pow_succ_r in L2 by lia. set (q := 2 ^ Z.log2 v) in *. clearbody q. lia. }
  assert (Lr : Z.log2 r < Z.log2 v) by (apply Z.log2_lt_pow2; lia).
  assert (L64 : Z.log2 v < 64) by (apply Z.log2_lt_pow2; lia).
  pose proof (Z.log2_nonneg r) as Lr0.
  assert (Bv : Z.testbit v (Z.log2 v) = true) by (apply Z.bit_log2; lia).
  assert (Br : Z.testbit v (Z.log2 r) = true).
  { replace v with (r + 1 * 2 ^ Z.log2 v) by lia.
    rewrite <- (Z.mod_pow2_bits_low _ (Z.log2 v)) by lia.
    rewrite Z_mod_plus_full, Z.mod_small by lia. apply Z.bit_log2. lia. }
  assert (H2 : 2 <= popcnt64 v).
  { apply (popcnt64_two v (Z.to_nat (Z.log2 v)) (Z.to_nat (Z.log2 r)));
      rewrite ?Z2Nat.id by lia; lia || done. }
  lia.
Qed.

(** For a power of two the length is its exponent. *)
Lemma length_field_all : Forall (fun k => length_field (2 ^ k) = (k - 2) mod 8) (seqZ 2 14).
Proof. apply (bool_decide_unpack _). by vm_compute. Qed.

Lemma reduce_size_spec len : 0 <= len < 2 ^ 16 ->
  (popcnt64 len >? 1) = false /\ (len <? 4) = false <-> exists k, 2 <= k < 16 /\ len = 2 ^ k.
Proof.
  intros Hl. split.
  - intros [H1 H2%Z.ltb_ge]. rewrite Z.gtb_ltb in H1. apply Z.ltb_ge in H1.
    pose proof (popcnt64_single len ltac:(lia) H1) as E. exists (Z.log2 len). split; [|done].
    split; [apply Z.log2_le_pow2; lia|apply Z.log2_lt_pow2; lia].
  - intros (k & Hk & ->). rewrite popcnt64_pow2 by lia. split; [done|]. apply Z.ltb_ge.
    change 4 with (2 ^ 2). apply Z.pow_le_mono_r; lia.
Qed.

Lemma length_field_pow2 k : 2 <= k < 16 -> length_field (2 ^ k) = (k - 2) mod 8.
Proof.
  intros Hk. refine (proj1 (list.Forall_forall _ _) length_field_all k _).
  apply elem_of_seqZ. lia.
Qed.

Section properties.
Context (P : platform) `{!MuLive P} (w : world).
Abbreviation l := (mb_IdToInjFifo (system_bcast w)).
Abbreviation mb := (system_bcast w).

Definition reduce_choice_ok (choice : Z) : Prop :=
  choice = MUHWI_COLLECTIVE_TYPE_ALLREDUCE \/ choice = MUHWI_COLLECTIVE_TYPE_REDUCE.

Lemma inject1_num l' d w1 w2 : inj_room 1 (inj w1 l') -> inject1 P l' d w1 w2 ->
  if_numInjected (inj w2 l') = if_numInjected (inj w1 l') + 1.
Proof. intros _ (i & h & fs & _ & -> & Hi & _). wsimp. by rewrite Hi. Qed.

Lemma wp_bcast_reduce (Q : Z -> world -> Prop) type op pa len dest cr choice k w0 :
  2 <= k < 16 -> len = 2 ^ k -> reduce_choice_ok choice ->
  inj_ready (mb_IdToInjFifo (system_bcast w0)) 1 w0 ->
  (forall w', sent_one P (mb_IdToInjFifo (system_bcast w0))
     (edit_reduce type pa len op dest choice cr (mb_send_count (system_bcast w0))
        (mb_iMemoryFifoDescriptor (system_bcast w0))) w0 w' -> Q 0 w') ->
  wp (mudm_bcast_reduce P type op pa len dest cr choice) Q w0.
Proof.
  intros Hk Hl Hch Hr HQ. assert (Hb : 0 <= len < 2 ^ 16).
  { subst len. split; [apply Z.pow_nonneg; lia|]. apply Z.pow_lt_mono_r; lia. }
  destruct (proj2 (reduce_size_spec len Hb) ltac:(by exists k)) as [E1 E2].
  unfold mudm_bcast_reduce. rewrite E1, E2.
  assert (E3 : (MUHWI_COLLECTIVE_TYPE_ALLREDUCE =? choice) || (MUHWI_COLLECTIVE_TYPE_REDUCE =? choice) = true)
    by (by destruct Hch as [-> | ->]).
  rewrite E3. cbn [negb]. do 2 (apply wp_bind, wp_gets). apply wp_bind.
  eapply (wp_InjFifoInjectReduce P _ _ 0 _ _ _ _ _ _ _ _ BcastSent); [done|done|].
  intros w1 Hi. apply wp_bind, (wp_wait_desc P).
  - assert (E : inj (incr_count BcastSent w0) = inj w0) by done.
    rewrite (inject1_num _ _ _ _ ltac:(rewrite E; apply Hr) Hi), E. lia.
  - intros w2 Hp. apply wp_ret, HQ. by exists w1.
Qed.

(** A reduce is accepted exactly for the lengths [2^k] with [k >= 2]; it
    then sends one collective packet whose header says [k - 2], cut to
    three bits, in front of the operation, and waits until it has left.
    Any other length is refused with nothing sent. *)
Theorem bcast_reduce_correct type op pa len dest cr choice :
  0 <= len < 2 ^ 16 -> 0 <= op < 2 ^ 8 -> reduce_choice_ok choice -> inj_ready l 1 w ->
  hdr_ok (mb_iMemoryFifoDescriptor mb) ->
  (forall k, 2 <= k < 16 -> len = 2 ^ k ->
     wp (mudm_bcast_reduce P type op pa len dest cr choice)
        (fun r w' => r = 0 /\ exists d, sent_one P l d w w' /\ Pa_Payload d = pa /\
           Message_Length d = len /\
           rd h_Byte1 (PacketHeader d) = Z.lor ((k - 2) mod 8) op) w) /\
  ((forall k, 2 <= k < 16 -> len <> 2 ^ k) ->
     mudm_bcast_reduce P type op pa len dest cr choice w = Ok (- EINVAL) w).
Proof.
  intros Hl Hop Hch Hr Hh. split.
  - intros k Hk E. eapply wp_bcast_reduce; [done..|]. intros w' Hs. split; [done|].
    eexists. split; [exact Hs|]. split; [done|]. split; [done|].
    unfold edit_reduce. rewrite E, length_field_pow2 by done. rewrite <- E.
    unfold set_hdr, upd_hdr, h_set_Class_Route, bf_update, hdr_ok in *. cbn [PacketHeader upd_field].
    repeat rd_step. apply Z.mod_small.
    pose proof (Z.mod_pos_bound (k - 2) 8 ltac:(lia)) as Hm. split.
    { apply Z.lor_nonneg. lia. }
    destruct (Z.eq_dec (Z.lor ((k - 2) mod 8) op) 0) as [->|Hz]; [done|].
    apply Z.log2_lt_cancel. change (Z.log2 (2 ^ (8 * Z.of_nat (f_len h_Byte1)))) with 8.
    rewrite Z.log2_lor by lia. apply Z.max_lub_lt.
    + pose proof (Z.log2_le_mono ((k - 2) mod 8) 7 ltac:(lia)) as H7. change (Z.log2 7) with 2 in H7. lia.
    + pose proof (Z.log2_le_mono op 255 ltac:(lia)) as H8. change (Z.log2 255) with 7 in H8. lia.
  - intros Hn. unfold mudm_bcast_reduce.
    destruct (popcnt64 len >? 1) eqn:E1; [done|]. destruct (len <? 4) eqn:E2; [done|].
    destruct (proj1 (reduce_size_spec len Hl) (conj E1 E2)) as (k & Hk & E). by destruct (Hn k).
Qed.

Lemma wp_bcast_memfifo (Q : Z -> world -> Prop) type pa len cr w0 :
  mb_IdToInjFifo (system_bcast w0) = 0%nat -> inj_ready 0 1 w0 ->
  (forall w', sent_one P 0 (edit_bcast type pa len cr (mb_send_count (system_bcast w0))
        (mb_iMemoryFifoDescriptor (system_bcast w0))) w0 w' -> Q 0 w') ->
  wp (mudm_bcast_memfifo P type pa len cr) Q w0.
Proof.
  intros Hz Hr HQ. unfold mudm_bcast_memfifo. apply wp_bind, wp_gets, wp_bind.
  eapply (wp_InjFifoInjectMemFifoBcast P _ _ 0 _ _ _ _ _ BcastSent); [done|done|].
  intros w1 Hi. apply wp_bind, wp_gets, wp_bind.
  assert (Hz1 : mb_IdToInjFifo (system_bcast w1) = 0%nat).
  { destruct Hi as (i & h & fs & _ & -> & _). cbn [incr_count]. wsimp. exact Hz. }
  rewrite Hz1. apply (wp_wait_desc P).
  - assert (E : inj (incr_count BcastSent w0) = inj w0) by done.
    rewrite (inject1_num _ _ _ _ ltac:(rewrite E; apply Hr) Hi), E. lia.
  - intros w2 Hp. apply wp_ret, HQ. by exists w1.
Qed.

(** A broadcast is started only when none is under way: otherwise
    [-EBUSY] and nothing changes.  When it is started, the counter of the
    origin is set to the length, and one packet goes out on the class route
    of the request with the request and the address of the origin in it. *)
Theorem bcast_RDMA_write_correct mrb :
  l = 0%nat -> inj_ready 0 1 w -> held w = [] ->
  (b_state (bro_of w) = BCAST_INACTIVE ->
    wp (mudm_bcast_RDMA_write P mrb) (fun r w' => r = - EINPROGRESS /\
      let info := (b_counter_info (bro_of w)) <| rbsc_mrb := mrb |>
                    <| rbsc_origination_node := myTorusAddress w |> in
      let pa := b_rdma_object_pa (bro_of w) + OFF_bcast_counter_info in
      trace w' = trace w ++ [EvInject 0
        (edit_bcast MUDM_RDY_RDMA_BCAST pa SIZEOF_rdma_bcast_set_counter (mrb_class_route mrb)
           (mb_send_count mb) (mb_iMemoryFifoDescriptor mb)) (Some (DataBcast info))] /\
      b_state (bro_of w') = BCAST_SETUP /\ b_counter_info (bro_of w') = info /\
      exists h0, hw_evolves P h0 (hw w') /\
        mu_counter (hw_mue h0 0 (b_mu_counter_bcast_addr (bro_of w))) = mrb_payload_length mrb) w) /\
  (b_state (bro_of w) <> BCAST_INACTIVE -> mudm_bcast_RDMA_write P mrb w = Ok (- EBUSY) w).
Proof.
  intros Hz Hr Hh. split; intros Hst.
  - unfold mudm_bcast_RDMA_write, get_bro. apply wp_bind, wp_gets, wp_bind, wp_gets. rewrite Hz.
    apply wp_bind, wp_lock; [apply Hr|]. rewrite Hst. cbn [negb Z.eqb BCAST_INACTIVE].
    apply wp_bind, wp_modify, wp_bind, wp_modify.
    match goal with |- wp _ _ ?x => set (w1 := x) end.
    assert (E1 : w1 = w <| system_bcast ::= fun b => b <| RDMA_bcast_control ::= fun b =>
      b <| b_state := BCAST_SETUP |> |> |>).
    { unfold w1. apply (unlock_eq (InjLock 0)
        (w <| system_bcast ::= fun b => b <| RDMA_bcast_control ::= fun b =>
        b <| b_state := BCAST_SETUP |> |> |>)); [apply Hr|by destruct w..]. }
    clearbody w1. subst w1.
    apply wp_bind, wp_modify, wp_bind, wp_modify, wp_bind, wp_gets, wp_bind, wp_modify, wp_bind, wp_gets,
      wp_bind, wp_modify, wp_bind.
    apply wp_bcast_memfifo; [exact Hz|by eapply inj_ready_ext, Hr|].
    intros w' Hs. apply wp_ret. pose proof Hs as (T & M & B & L & Ev)%sent_one_facts.
    split; [done|]. split_and!.
    + rewrite T. f_equal. cbn. by rewrite lookup_insert_eq.
    + by rewrite B.
    + by rewrite B.
    + eexists. split; [exact Ev|]. cbn. by rewrite !fn_lookup_insert.
  - unfold mudm_bcast_RDMA_write, get_bro, bind, gets, SPIN_LOCK. rewrite Hz.
    rewrite decide_False by apply Hr. rewrite (proj2 (Z.eqb_neq _ _) Hst). cbn [negb].
    unfold SPIN_UNLOCK, modify, ret. f_equal.
    apply (unlock_eq (InjLock 0) w); [apply Hr|by destruct w..].
Qed.

Lemma edit_reduce_type type pa len op dest rv cr n d : hdr_ok d ->
  rd (in_hdr sb_type) (PacketHeader (edit_reduce type pa len op dest rv cr n d)) = u16 type.
Proof.
  intros Hh. unfold edit_reduce, set_hdr, upd_hdr, h_set_Class_Route, bf_update, hdr_ok in *.
  cbn [PacketHeader upd_field]. by repeat rd_step.
Qed.

Lemma wp_bcast_vote (Q : Z -> world -> Prop) type choice w0 :
  inj_ready (mb_IdToInjFifo (system_bcast w0)) 1 w0 -> hdr_ok (mb_iMemoryFifoDescriptor (system_bcast w0)) ->
  reduce_choice_ok choice ->
  (forall d w', rd (in_hdr sb_type) (PacketHeader d) = u16 type ->
     trace w' = trace w0 ++ [EvInject (mb_IdToInjFifo (system_bcast w0)) d
       (Some (DataBytes [0; 0; 0; 0; 0; 0; 0; 1]))] ->
     bro_of w' = (bro_of w0) <| b_num_compute_nodes_in_class_route := 1 |> ->
     held w' = held w0 -> hw_evolves P (hw w0) (hw w') -> Q 0 w') ->
  wp (bcast_vote P type choice) Q w0.
Proof.
  intros Hr Hh Hch HQ. unfold bcast_vote, get_bro.
  apply wp_bind, wp_gets, wp_bind, wp_modify, wp_bind, wp_modify.
  apply (wp_bcast_reduce _ _ _ _ _ _ _ _ 3); [lia|done|done|by eapply inj_ready_ext, Hr|].
  intros w' Hs. pose proof Hs as (T & M & B & L & Ev)%sent_one_facts.
  eapply HQ; [by apply edit_reduce_type| |by rewrite B|by rewrite L|exact Ev].
  rewrite T. f_equal. cbn -[edit_reduce]. unfold edit_reduce. cbn [Pa_Payload upd_field set_hdr upd_hdr].
  by rewrite lookup_insert_eq.
Qed.

(** C27: polling the broadcast does nothing until the counter is zero on a
    node that was announced the broadcast.  Then the status word the user
    asked for is written, once, the node takes part in the final reduce,
    and later polls do nothing until the broadcast is cleared. *)
Theorem bcast_poll_correct :
  inj_ready l 1 w -> hdr_ok (mb_iMemoryFifoDescriptor mb) ->
  let bro := bro_of w in
  (mu_counter (hw_mue (hw w) l (b_mu_counter_bcast_addr bro)) = 0 -> b_state bro = BCAST_RECEIVER ->
   wp (rdma_bcast_poll_reduce P) (fun r w' => r = 0 /\
         (exists d, trace w' = trace w ++
           (if decide (b_local_status_address bro = 0) then []
            else [EvStatusMem (b_local_status_address bro) (b_local_status_value bro)]) ++
           [EvInject l d (Some (DataBytes [0; 0; 0; 0; 0; 0; 0; 1]))] /\
           rd (in_hdr sb_type) (PacketHeader d) = MUDM_REDUCE_BCAST_FINISH) /\
         b_state (bro_of w') = BCAST_WAIT4CLEAR /\
         rdma_bcast_poll_reduce P w' = Ok (- EINPROGRESS) w') w) /\
  (~ (mu_counter (hw_mue (hw w) l (b_mu_counter_bcast_addr bro)) = 0 /\ b_state bro = BCAST_RECEIVER) ->
   rdma_bcast_poll_reduce P w = Ok (- EINPROGRESS) w).
Proof.
  intros Hr Hh bro. subst bro. cbv zeta. unfold rdma_bcast_poll_reduce at 1 3, get_bro, get_mue. split.
  - intros Hm Hst. do 3 (apply wp_bind, wp_gets). rewrite Hm, Hst. cbn [Z.eqb negb].
    assert (Hvote : forall w0 T, mb = system_bcast w0 -> held w0 = held w -> inj_state w0 = inj_state w ->
      inj w0 = inj w -> trace w0 = trace w ++ T ->
      wp (r <- bcast_vote P MUDM_REDUCE_BCAST_FINISH MUHWI_COLLECTIVE_TYPE_ALLREDUCE ;;
          upd_bro (fun b => b <| b_state := BCAST_WAIT4CLEAR |>) ;;; ret 0)
        (fun r w' => r = 0 /\ (exists d, trace w' = trace w ++ T ++
           [EvInject l d (Some (DataBytes [0; 0; 0; 0; 0; 0; 0; 1]))] /\
           rd (in_hdr sb_type) (PacketHeader d) = MUDM_REDUCE_BCAST_FINISH) /\
         b_state (bro_of w') = BCAST_WAIT4CLEAR /\
         rdma_bcast_poll_reduce P w' = Ok (- EINPROGRESS) w') w0).
    { intros w0 T E1 E2 E3 E4 E5. apply wp_bind, wp_bcast_vote.
      - rewrite <- E1. by eapply inj_ready_ext, Hr.
      - by rewrite <- E1.
      - by left.
      - intros d w1 Ht Htr Hb _ _. apply wp_bind, wp_modify, wp_ret. split_and!; [done| |done|].
        + exists d. split; [|exact Ht]. wsimp. rewrite Htr, E5, <- E1, <- app_assoc. done.
        + unfold rdma_bcast_poll_reduce, get_bro, get_mue, bind, gets. cbn -[hw_mue].
          by destruct (mu_counter _ =? 0). }
    case_decide as Ha.
    + rewrite Ha. cbn [Z.eqb negb when]. apply wp_bind, wp_ret.
      eapply wp_mono; [by apply (Hvote w []); rewrite ?app_nil_r|]. done.
    + rewrite (proj2 (Z.eqb_neq _ _) Ha). cbn [negb when]. apply wp_bind, wp_modify.
      by apply (Hvote _ [EvStatusMem _ _]).
  - intros Hd. unfold bind, gets. destruct (Z.eqb_spec (mu_counter (hw_mue (hw w) l (b_mu_counter_bcast_addr (bro_of w)))) 0)
      as [E1|E1]; cbn [negb]; [|done].
    destruct (Z.eqb_spec (b_state (bro_of w)) BCAST_RECEIVER); cbn [negb]; [|done]. by destruct Hd.
Qed.

(** The final reduce clears the broadcast: the node is free for the next
    one, the request of the origin is reported once as done, and a second
    clear reports nothing. *)
Theorem bcast_clear_reports_once `{!QuietStatus P} :
  held w = [] ->
  wp (clear_rdma_bcast_receive_reduce P) (fun r w' => r = 0 /\
    b_state (bro_of w') = BCAST_INACTIVE /\
    trace w' = trace w ++ (if decide (mrb_requestID (rbsc_mrb (b_counter_info (bro_of w))) = 0) then []
      else [EvStatus [(mrb_requestID (rbsc_mrb (b_counter_info (bro_of w))), 0)]]) /\
    wp (clear_rdma_bcast_receive_reduce P) (fun _ w'' => trace w'' = trace w') w') w.
Proof.
  intros Hh.
  assert (Hagain : forall w1, mrb_requestID (rbsc_mrb (b_counter_info (bro_of w1))) = 0 ->
    wp (clear_rdma_bcast_receive_reduce P) (fun _ w'' => trace w'' = trace w1) w1).
  { intros w1 E. unfold clear_rdma_bcast_receive_reduce, get_bro. apply wp_bind, wp_gets.
    rewrite E. by apply wp_bind, wp_modify, wp_bind, wp_ret, wp_ret. }
  unfold clear_rdma_bcast_receive_reduce at 1, get_bro, report_bcast.
  apply wp_bind, wp_gets, wp_bind, wp_modify, wp_bind. case_decide as E.
  - rewrite E. cbn [Z.eqb negb when]. apply wp_ret, wp_ret.
    split_and!; [done|done|by rewrite app_nil_r|by apply Hagain].
  - rewrite (proj2 (Z.eqb_neq _ _) E). cbn [negb when]. apply wp_bind, (wp_status_cb P); [done|].
    intros r h Hm. apply wp_ret, wp_ret. split_and!; [done|done|done|by apply Hagain].
Qed.
End properties.

(** ** Witnesses *)

Lemma demo_mb_ready : inj_ready (mb_IdToInjFifo (system_bcast demo_world)) 1 demo_world.
Proof. exact (demo_inj_ready 0 1 eq_refl). Qed.

Lemma demo_mb_hdr : hdr_ok (mb_iMemoryFifoDescriptor (system_bcast demo_world)).
Proof. done. Qed.

Lemma demo_choice : reduce_choice_ok MUHWI_COLLECTIVE_TYPE_ALLREDUCE.
Proof. by left. Qed.

Lemma bcast_reduce_correct_witness :
  wp (mudm_bcast_reduce demo_platform MUDM_REDUCE_ALL 0x40 0x40008 (2 ^ 10) 0 15 MUHWI_COLLECTIVE_TYPE_ALLREDUCE)
     (fun r w' => r = 0 /\ exists d, sent_one demo_platform (mb_IdToInjFifo (system_bcast demo_world)) d demo_world w' /\
        Pa_Payload d = 0x40008 /\ Message_Length d = 2 ^ 10 /\
        rd h_Byte1 (PacketHeader d) = Z.lor ((10 - 2) mod 8) 0x40) demo_world.
Proof.
  assert (H1 : 0 <= 2 ^ 10 < 2 ^ 16) by lia.
  assert (H2 : 0 <= 0x40 < 2 ^ 8) by lia.
  assert (H3 : 2 <= 10 < 16) by lia.
  exact (proj1 (bcast_reduce_correct demo_platform demo_world MUDM_REDUCE_ALL 0x40 0x40008 (2 ^ 10) 0 15
    MUHWI_COLLECTIVE_TYPE_ALLREDUCE H1 H2 demo_choice demo_mb_ready demo_mb_hdr) 10 H3 eq_refl).
Defined.

Definition demo_mrb : mudm_rdma_bcast := mkMrb 77 0x1000 0x2000 4096 8 15 0x3000 1.

Lemma bcast_RDMA_write_correct_witness :
  wp (mudm_bcast_RDMA_write demo_platform demo_mrb) (fun r w' => r = - EINPROGRESS /\
    b_state (bro_of w') = BCAST_SETUP) demo_world.
Proof.
  eapply wp_mono.
  - exact (proj1 (bcast_RDMA_write_correct demo_platform demo_world demo_mrb eq_refl
      (demo_inj_ready 0 1 eq_refl) eq_refl) eq_refl).
  - by intros r w' (E & _ & A & _).
Defined.

Definition demo_received : world := demo_world <| system_bcast ::= fun b => b <| RDMA_bcast_control ::=
  fun o => o <| b_state := BCAST_RECEIVER |> <| b_local_status_address := 0x3000 |>
             <| b_local_status_value := 1 |> <| b_counter_info ::= fun r => r <| rbsc_mrb := demo_mrb |> |> |> |>.

Lemma bcast_poll_correct_witness :
  wp (rdma_bcast_poll_reduce demo_platform) (fun r w' => r = 0 /\
    (exists d, trace w' = [EvStatusMem 0x3000 1; EvInject 0 d (Some (DataBytes [0; 0; 0; 0; 0; 0; 0; 1]))]) /\
    rdma_bcast_poll_reduce demo_platform w' = Ok (- EINPROGRESS) w') demo_received.
Proof.
  assert (Hr : inj_ready (mb_IdToInjFifo (system_bcast demo_received)) 1 demo_received)
    by (eapply inj_ready_ext, (demo_inj_ready 0 1); done).
  eapply wp_mono.
  - exact (proj1 (bcast_poll_correct demo_platform demo_received Hr eq_refl) eq_refl eq_refl).
  - intros r w' (E & (d & A & _) & _ & B). split_and!; [done|by exists d|done].
Defined.

Lemma bcast_clear_reports_once_witness :
  wp (clear_rdma_bcast_receive_reduce demo_platform) (fun r w' => r = 0 /\
    trace w' = [EvStatus [(77, 0)]]) demo_received.
Proof.
  eapply wp_mono; [apply (bcast_clear_reports_once demo_platform demo_received eq_refl)|].
  by intros r w' (E & _ & A & _).
Defined.
