(* ===== verification/RecFifo.v ===== *)
(** * Reception FIFO

    The reception FIFO is a ring in memory: the message unit writes
    packets at the hardware tail, the driver takes them at the head.
    include/spi/include/mu/RecFifo.h and Fifo.h, and the polling loop of
    bgmudm/mudm.c over them.  The loop is written for any receive
    function; [Receive] supplies the one of the driver. *)

From Stdlib Require Import FunctionalExtensionality.
From S2P Require Import Prelude Chain Bytes Descriptor State Inject Concrete.

Definition REC_MAX_PACKET := 544.

Definition MUSPI_assert (b : bool) : MW unit := if b then ret tt else fault.

Definition upd_rec (l : nat) (u : MUSPI_RecFifo -> MUSPI_RecFifo) : MW unit :=
  modify (fun w => w <| recf ::= fun f => <[l := u (f l)]> f |>).

(** [n] bytes of the ring from an offset, and reading them: the FIFO
    memory ends at [va_end]. *)
Definition ring_bytes (h : hw_state) (l : nat) (off : Z) (n : nat) : list Z :=
  map (fun k => hw_rec_mem h l (off + Z.of_nat k)) (seq 0 n).
Definition read_ring (l : nat) (va bytes : Z) : MW (list Z) :=
  w <- get ;;
  let f := recf w l in
  if (rf_va_start f <=? va) && (va + bytes <=? rf_va_end f)
  then ret (ring_bytes (hw w) l (va - rf_va_start f) (Z.to_nat bytes)) else fault.

(** The bytes from the head that can be processed, and whether the first
    packet may wrap. *)
Definition MUSPI_getAvailableBytes (l : nat) (wrap : Z) : MW (Z * Z) :=
  f <- gets (fun w => recf w l) ;;
  let va_head := rf_va_head f in
  let va_end := rf_va_end f in
  pa_tail <- gets (fun w => hw_rec_tail (hw w) l) ;;
  let va_tail := u64 (pa_tail - rf_pa_start f + rf_va_start f) in
  MUSPI_assert (va_tail mod 32 =? 0) ;;;
  upd_rec l (fun f => f <| rf_va_tail := va_tail |>) ;;;
  if va_tail =? va_head then ret (0, wrap)
  else if va_tail >? va_head then ret (u32 (va_tail - va_head), 0)
  else if va_head <? u64 (va_end - REC_MAX_PACKET)
  then ret (u32 (va_end - va_head - REC_MAX_PACKET), 0)
  else ret (u32 (va_end - va_head), 1).

(** [*pbytes]: the header says how many 32-byte chunks follow it. *)
Definition packet_bytes (hdr : list Z) : Z := Z.shiftl (h_Size hdr + 1) 5.

Definition MUSPI_getNextPacketOptimized (l : nat) : MW (list Z) :=
  f <- gets (fun w => recf w l) ;;
  let va_head := rf_va_head f in
  MUSPI_assert ((va_head <? rf_va_tail f) || (va_head <? u64 (rf_va_end f - REC_MAX_PACKET))) ;;;
  hdr <- read_ring l va_head 32 ;;
  let pbytes := packet_bytes hdr in
  pkt <- read_ring l va_head pbytes ;;
  upd_rec l (fun f => f <| rf_va_head := u64 (va_head + pbytes) |>) ;;;
  ret pkt.

(** [getNextPacketWrap]: a packet that reaches the end of the FIFO is
    assembled in a buffer of 544 bytes. *)
Definition getNextPacketWrap (l : nat) : MW (list Z) :=
  f <- gets (fun w => recf w l) ;;
  let va_head := rf_va_head f in
  hdr <- read_ring l va_head 32 ;;
  let pbytes := packet_bytes hdr in
  if u64 (va_head + pbytes) <? rf_va_end f then
    upd_rec l (fun f => f <| rf_va_head := u64 (va_head + pbytes) |>) ;;;
    read_ring l va_head pbytes
  else
    let end_bytes := rf_va_end f - va_head in
    let start_bytes := pbytes - end_bytes in
    (if end_bytes + start_bytes <=? REC_MAX_PACKET then ret tt else fault) ;;;
    b1 <- read_ring l va_head end_bytes ;;
    b2 <- read_ring l (rf_va_start f) start_bytes ;;
    upd_rec l (fun f => f <| rf_va_head := u64 (rf_va_start f + start_bytes) |>) ;;;
    ret (b1 ++ b2).

Definition MUSPI_setHwHead (l : nat) (head_offset : Z) : MW unit :=
  f <- gets (fun w => recf w l) ;;
  MUSPI_assert (head_offset <=? rf_va_end f - rf_va_start f - 1) ;;;
  upd_rec l (fun f => f <| rf_pa_head := u64 (rf_pa_start f + head_offset) |>).

Definition MUSPI_syncRecFifoHwHead (l : nat) : MW unit :=
  f <- gets (fun w => recf w l) ;;
  MUSPI_setHwHead l (u64 (rf_va_head f - rf_va_start f)).

Section polling.
Context (P : platform) (recv : list Z -> MW Z).

(** The inner loop: every packet of the [total_bytes]; a packet has at
    least 32 bytes. *)
Fixpoint packets_loop (fuel l : nat) (total_bytes cumulative_bytes packets_done : Z) : MW Z :=
  if negb (cumulative_bytes <? total_bytes) then ret packets_done else
  match fuel with
  | O => hang
  | S fuel =>
      pkt <- MUSPI_getNextPacketOptimized l ;;
      r <- recv pkt ;;
      packets_loop fuel l total_bytes (u32 (cumulative_bytes + packet_bytes pkt)) (u64 (packets_done + 1))
  end.

(** [mudm_fifo_poll]: until the FIFO is empty; the message unit may add
    packets at every round. *)
Fixpoint fifo_poll_loop (fuel l : nat) (wrap packets_done : Z) : MW Z :=
  r <- MUSPI_getAvailableBytes l wrap ;;
  let '(total_bytes, wrap) := r in
  if total_bytes =? 0 then ret packets_done else
  match fuel with
  | O => hang
  | S fuel =>
      done <- (if wrap =? 0 then packets_loop (Z.to_nat (total_bytes / 32 + 1)) l total_bytes 0 packets_done
               else pkt <- getNextPacketWrap l ;; r <- recv pkt ;; ret (u64 (packets_done + 1))) ;;
      MUSPI_syncRecFifoHwHead l ;;;
      modify (fun w => w <| hw := hw_step P w |>) ;;;
      fifo_poll_loop fuel l wrap done
  end.
Definition fifo_poll (l : nat) : MW Z := fifo_poll_loop (spin_fuel P) l 0 0.
End polling.

(** ** The ring as a queue of packets *)

Definition rsize (f : MUSPI_RecFifo) : Z := rf_va_end f - rf_va_start f.
Definition roff (f : MUSPI_RecFifo) : Z := rf_va_head f - rf_va_start f.

Record rec_geom (f : MUSPI_RecFifo) : Prop := mkRecGeom {
  rg_start : 0 <= rf_va_start f /\ rf_va_start f mod 32 = 0;
  rg_end : rf_va_end f + REC_MAX_PACKET < 2 ^ 64;
  rg_size : (REC_MAX_PACKET <= rsize f /\ rsize f + REC_MAX_PACKET < 2 ^ 32) /\ rsize f mod 32 = 0;
  rg_pa : 0 <= rf_pa_start f /\ rf_pa_start f + rsize f < 2 ^ 64 }.

Definition packet_ok (p : list Z) : Prop :=
  Z.of_nat (length p) = packet_bytes p /\ packet_bytes p <= REC_MAX_PACKET.

Definition plen (ps : list (list Z)) : Z := Z.of_nat (length (concat ps)).

(** [n] bytes of the ring from an offset, going round its end. *)
Definition round_bytes (h : hw_state) (l : nat) (f : MUSPI_RecFifo) (off : Z) (n : nat) : list Z :=
  map (fun k => hw_rec_mem h l ((off + Z.of_nat k) mod rsize f)) (seq 0 n).

(** The FIFO holds the packets [ps], each of the kind [K]. *)
Record rec_holds (K : list Z -> Prop) (l : nat) (f : MUSPI_RecFifo) (h : hw_state)
    (ps : list (list Z)) : Prop := mkHolds {
  rh_geom : rec_geom f;
  rh_head : 0 <= roff f < rsize f /\ roff f mod 32 = 0;
  rh_tail : hw_rec_tail h l = rf_pa_start f + (roff f + plen ps) mod rsize f;
  rh_room : plen ps < rsize f;
  rh_bytes : round_bytes h l f (roff f) (length (concat ps)) = concat ps;
  rh_ok : Forall (fun p => packet_ok p /\ K p) ps }.

Lemma packet_bytes_range p : 32 <= packet_bytes p /\ packet_bytes p mod 32 = 0.
Proof.
  unfold packet_bytes. rewrite Z.shiftl_mul_pow2 by lia. change (2 ^ 5) with 32.
  pose proof (bf_get_range 0 5 (rd h_Byte8 p) ltac:(lia)) as H. unfold h_Size.
  split; [lia|]. apply Z_mod_mult.
Qed.

Lemma plen_cons p ps : plen (p :: ps) = Z.of_nat (length p) + plen ps.
Proof. unfold plen. cbn [concat]. rewrite length_app. lia. Qed.

Lemma plen_app ps qs : plen (ps ++ qs) = plen ps + plen qs.
Proof. unfold plen. rewrite concat_app, length_app. lia. Qed.

Lemma plen_32 K ps : Forall (fun p => packet_ok p /\ K p) ps -> plen ps mod 32 = 0.
Proof.
  induction 1 as [|p ps [[Hp _] _] _ IH]; [done|]. rewrite plen_cons, Hp.
  destruct (packet_bytes_range p) as [_ E]. rewrite Z.add_mod, E, IH by lia. done.
Qed.

Lemma map_seq_app {A} (g : nat -> A) n m :
  map g (seq 0 (n + m)) = map g (seq 0 n) ++ map (fun k => g (n + k)%nat) (seq 0 m).
Proof.
  rewrite seq_app, map_app. f_equal. pose proof (fmap_add_seq n 0 m) as E.
  rewrite Nat.add_0_r in E. cbn [Nat.add]. rewrite <- E.
  change (Nat.add n <$> seq 0 m) with (map (Nat.add n) (seq 0 m)). by rewrite map_map.
Qed.

Section ring.
Context (K : list Z -> Prop) (l : nat).
Implicit Types (f : MUSPI_RecFifo) (h : hw_state).

Lemma length_ring_bytes h off n : length (ring_bytes h l off n) = n.
Proof. unfold ring_bytes. by rewrite length_map, length_seq. Qed.

Lemma ring_round h f off n : 0 <= off -> off + Z.of_nat n <= rsize f ->
  ring_bytes h l off n = round_bytes h l f off n.
Proof.
  intros H1 H2. apply map_ext_in. intros k [_ Hk]%in_seq. rewrite Z.mod_small; [done|lia].
Qed.

Lemma round_app h f off n m :
  round_bytes h l f off (n + m) = round_bytes h l f off n ++ round_bytes h l f (off + Z.of_nat n) m.
Proof.
  unfold round_bytes. rewrite map_seq_app. f_equal. apply map_ext. intros k. do 2 f_equal. lia.
Qed.

Lemma round_mod h f off n : round_bytes h l f (off mod rsize f) n = round_bytes h l f off n.
Proof. apply map_ext. intros k. by rewrite Zplus_mod_idemp_l. Qed.

Lemma round_head h f p ps :
  round_bytes h l f (roff f) (length (concat (p :: ps))) = concat (p :: ps) ->
  round_bytes h l f (roff f) (length p) = p /\
  round_bytes h l f (roff f + Z.of_nat (length p)) (length (concat ps)) = concat ps.
Proof.
  cbn [concat]. rewrite length_app, round_app. intros E.
  apply app_inj_1 in E as [E1 E2]; [done|]. unfold round_bytes. by rewrite length_map, length_seq.
Qed.

(** Reading the first packet, in one piece or in two. *)
Lemma read_piece h f p ps :
  rec_holds K l f h (p :: ps) -> roff f + Z.of_nat (length p) <= rsize f ->
  ring_bytes h l (roff f) (length p) = p.
Proof. intros [] Hle. rewrite (ring_round h f) by lia. by eapply round_head. Qed.

Lemma read_wrapped h f p ps :
  rec_holds K l f h (p :: ps) -> rsize f <= roff f + Z.of_nat (length p) ->
  ring_bytes h l (roff f) (Z.to_nat (rsize f - roff f)) ++
  ring_bytes h l 0 (Z.to_nat (Z.of_nat (length p) - (rsize f - roff f))) = p.
Proof.
  intros H Hle. pose proof (rh_room _ _ _ _ _ H) as Hr. rewrite plen_cons in Hr.
  pose proof (rh_head _ _ _ _ _ H) as [Hh _]. unfold plen in Hr.
  rewrite !(ring_round h f) by lia.
  assert (E0 : forall n, round_bytes h l f 0 n =
    round_bytes h l f (roff f + Z.of_nat (Z.to_nat (rsize f - roff f))) n).
  { intros n. replace (roff f + _) with (rsize f) by lia.
    by rewrite <- (round_mod h f (rsize f)), Z_mod_same_full. }
  rewrite E0, <- round_app.
  replace (_ + _)%nat with (length p) by lia. by eapply round_head, rh_bytes.
Qed.

(** The header of the first packet never wraps. *)
Lemma take_ring h off n m : (m <= n)%nat -> take m (ring_bytes h l off n) = ring_bytes h l off m.
Proof.
  intros H. unfold ring_bytes. replace n with (m + (n - m))%nat by lia.
  rewrite map_seq_app, take_app_le by (rewrite length_map, length_seq; lia).
  rewrite take_ge; [done|]. rewrite length_map, length_seq. lia.
Qed.

Lemma h_Size_take p : (32 <= length p)%nat -> packet_bytes (take 32 p) = packet_bytes p.
Proof.
  intros H. unfold packet_bytes, h_Size, rd, slice. do 4 f_equal. cbn [f_off f_len h_Byte8].
  rewrite skipn_firstn_comm, take_take. by rewrite Nat.min_l by lia.
Qed.

Lemma read_header h f p ps :
  rec_holds K l f h (p :: ps) ->
  packet_bytes (ring_bytes h l (roff f) 32) = packet_bytes p /\ roff f + 32 <= rsize f.
Proof.
  intros H. destruct H as [Hg [Hh Ha] Ht Hr Hb [[[Hp Hm] _] _]%list.Forall_cons].
  pose proof (packet_bytes_range p) as [Hp32 _].
  destruct Hg as [_ _ [_ Hs] _]. assert (Hle : roff f + 32 <= rsize f).
  { pose proof (Z.div_mod (rsize f) 32 ltac:(lia)). pose proof (Z.div_mod (roff f) 32 ltac:(lia)). lia. }
  split; [|done]. rewrite <- (h_Size_take p) by lia. f_equal.
  destruct (round_head _ _ _ _ Hb) as [E _]. rewrite <- E at 1.
  rewrite (ring_round h f) by lia. symmetry.
  replace (length p) with (32 + (length p - 32))%nat by lia.
  rewrite round_app, take_app_le, take_ge; unfold round_bytes; rewrite ?length_map, ?length_seq; done || lia.
Qed.

(** Taking the first packet off. *)
Definition pop_head (n : Z) f : MUSPI_RecFifo :=
  f <| rf_va_head := rf_va_start f + (roff f + n) mod rsize f |>.

Lemma holds_pop h f p ps :
  rec_holds K l f h (p :: ps) -> rec_holds K l (pop_head (Z.of_nat (length p)) f) h ps.
Proof.
  intros [Hg [Hh Ha] Ht Hr Hb [[Hp _] Hps]%list.Forall_cons]. rewrite plen_cons in *.
  assert (E : roff (pop_head (Z.of_nat (length p)) f) = (roff f + Z.of_nat (length p)) mod rsize f).
  { exact (Z.add_simpl_l _ _). }
  assert (Hpos : 0 < rsize f) by lia.
  split; [by destruct Hg| | | |rewrite E|done]; change (rsize (pop_head _ f)) with (rsize f);
    try rewrite E.
  - split; [by apply Z.mod_pos_bound|]. destruct Hg as [_ _ [_ Hs] _], Hp as [Hp _].
    pose proof (packet_bytes_range p) as [_ E32]. rewrite <- Hp in E32.
    assert (Hx : (roff f + Z.of_nat (length p)) mod 32 = 0) by (by rewrite Z.add_mod, Ha, E32 by lia).
    pose proof (Z.div_mod (roff f + Z.of_nat (length p)) (rsize f) ltac:(lia)) as D.
    replace ((roff f + Z.of_nat (length p)) mod rsize f) with
      (roff f + Z.of_nat (length p) - rsize f * ((roff f + Z.of_nat (length p)) / rsize f)) by lia.
    rewrite Zminus_mod, Hx, Zmult_mod, Hs. done.
  - rewrite Ht. change (rf_pa_start (pop_head _ f)) with (rf_pa_start f).
    rewrite Zplus_mod_idemp_l. do 2 f_equal. lia.
  - lia.
  - destruct (round_head _ _ _ _ Hb) as [_ E2].
    change (round_bytes h l (pop_head _ f)) with (round_bytes h l f). by rewrite round_mod.
Qed.

(** Only the shadow of the tail differs. *)
Lemma holds_ext h h' f f' ps :
  rf_pa_start f' = rf_pa_start f -> rf_va_start f' = rf_va_start f -> rf_va_end f' = rf_va_end f ->
  rf_va_head f' = rf_va_head f -> hw_rec_tail h' = hw_rec_tail h -> hw_rec_mem h' = hw_rec_mem h ->
  rec_holds K l f h ps -> rec_holds K l f' h' ps.
Proof.
  intros E1 E2 E3 E4 E5 E6 [[A1 A2 A3 A4] B C D E F].
  assert (Es : rsize f' = rsize f) by (unfold rsize; congruence).
  assert (Eo : roff f' = roff f) by (unfold roff; congruence).
  split; [split| | | | |done]; unfold round_bytes; rewrite ?E1, ?E2, ?E3, ?Es, ?Eo, ?E5, ?E6; done.
Qed.
End ring.

(** ** The operations on such a ring *)

Definition set_rec (l : nat) (f : MUSPI_RecFifo) (w : world) : world :=
  w <| recf := <[l := f]> (recf w) |>.

Section op_rules.
Context (K : list Z -> Prop) (l : nat).

Lemma wp_read_ring va n (Q : list Z -> world -> Prop) w :
  rf_va_start (recf w l) <= va -> va + n <= rf_va_end (recf w l) ->
  Q (ring_bytes (hw w) l (va - rf_va_start (recf w l)) (Z.to_nat n)) w ->
  wp (read_ring l va n) Q w.
Proof.
  intros H1 H2 HQ. unfold wp, read_ring, bind, get.
  by rewrite (proj2 (Z.leb_le _ _) H1), (proj2 (Z.leb_le _ _) H2).
Qed.

Lemma wp_assert b (Q : unit -> world -> Prop) w : b = true -> Q tt w -> wp (MUSPI_assert b) Q w.
Proof. by intros ->. Qed.

Lemma wp_upd_rec u (Q : unit -> world -> Prop) w :
  Q tt (set_rec l (u (recf w l)) w) -> wp (upd_rec l u) Q w.
Proof. done. Qed.

(** The head after a packet that ends before the end of the FIFO. *)
Lemma pop_short f n : rec_geom f -> 0 <= roff f -> 0 <= n -> roff f + n < rsize f ->
  f <| rf_va_head := u64 (rf_va_head f + n) |> = pop_head n f.
Proof.
  intros [[Hs _] He _ _] H0 Hn Hlt. unfold roff, rsize in *.
  rewrite u64_small by (unfold REC_MAX_PACKET in *; lia). unfold pop_head, roff, rsize. rewrite Z.mod_small by lia.
  f_equal. f_equal. extensionality x. lia.
Qed.

Lemma wp_next_optimized p ps (Q : list Z -> world -> Prop) w :
  let f := recf w l in
  rec_holds K l f (hw w) (p :: ps) -> roff f + Z.of_nat (length p) < rsize f ->
  rf_va_head f < rf_va_tail f \/ roff f < rsize f - REC_MAX_PACKET ->
  Q p (set_rec l (pop_head (Z.of_nat (length p)) f) w) ->
  wp (MUSPI_getNextPacketOptimized l) Q w.
Proof.
  intros f H Hlt Ha HQ. pose proof (read_header _ _ _ _ _ _ H) as [Eh Hh32].
  pose proof (rh_head _ _ _ _ _ H) as [Hh _]. pose proof (rh_geom _ _ _ _ _ H) as Hg.
  pose proof (rh_ok _ _ _ _ _ H) as [[[Hp _] _] _]%list.Forall_cons.
  pose proof Hg as [[Hs _] He [[Hm _] _] _]. unfold roff, rsize in *.
  unfold MUSPI_getNextPacketOptimized. apply wp_bind, wp_gets. fold f.
  apply wp_bind, wp_assert.
  { destruct Ha as [Ha|Ha]; [by rewrite (proj2 (Z.ltb_lt _ _) Ha)|].
    rewrite u64_small by (unfold REC_MAX_PACKET in *; lia). rewrite (proj2 (Z.ltb_lt (rf_va_head f) (rf_va_end f - REC_MAX_PACKET))) by lia.
    apply orb_true_r. }
  apply wp_bind, wp_read_ring; fold f; [lia..|]. change (Z.to_nat 32) with 32%nat. rewrite Eh, <- Hp.
  apply wp_bind, wp_read_ring; fold f; [lia..|]. rewrite Nat2Z.id.
  fold (roff f). rewrite (read_piece _ _ _ _ _ _ H) by (unfold roff, rsize; lia).
  apply wp_bind, wp_upd_rec, wp_ret. fold f. by rewrite pop_short by (unfold roff, rsize; done || lia).
Qed.

Lemma wp_next_wrap p ps (Q : list Z -> world -> Prop) w :
  let f := recf w l in
  rec_holds K l f (hw w) (p :: ps) ->
  Q p (set_rec l (pop_head (Z.of_nat (length p)) f) w) ->
  wp (getNextPacketWrap l) Q w.
Proof.
  intros f H HQ. pose proof (read_header _ _ _ _ _ _ H) as [Eh Hh32].
  pose proof (rh_head _ _ _ _ _ H) as [Hh _]. pose proof (rh_geom _ _ _ _ _ H) as Hg.
  pose proof (rh_ok _ _ _ _ _ H) as [[[Hp Hpm] _] _]%list.Forall_cons.
  pose proof (rh_room _ _ _ _ _ H) as Hr. rewrite plen_cons in Hr.
  pose proof Hg as [[Hs _] He [Hm _] _].
  unfold getNextPacketWrap. apply wp_bind, wp_gets. fold f.
  apply wp_bind, wp_read_ring; fold f; [unfold roff, rsize in *; lia..|].
  change (Z.to_nat 32) with 32%nat. fold (roff f). rewrite Eh, <- Hp, u64_small by (unfold roff, rsize, REC_MAX_PACKET in *; lia).
  unfold plen in Hr. case (Z.ltb_spec (rf_va_head f + Z.of_nat (length p)) (rf_va_end f)); intros Hc.
  - apply wp_bind, wp_upd_rec. fold f.
    rewrite <- (u64_small (rf_va_head f + _)) by (unfold roff, rsize in *; lia).
    rewrite pop_short by (unfold roff, rsize in *; done || lia).
    apply wp_read_ring; unfold set_rec; wsimp; rewrite fn_lookup_insert; cbn;
      [unfold roff, rsize in *; lia..|].
    rewrite Nat2Z.id. fold (roff f). by rewrite (read_piece _ _ _ _ _ _ H) by (unfold roff, rsize in *; lia).
  - apply wp_bind. rewrite (proj2 (Z.leb_le _ _)) by lia. apply wp_ret.
    apply wp_bind, wp_read_ring; fold f; [unfold roff, rsize in *; lia..|].
    apply wp_bind, wp_read_ring; fold f; [unfold roff, rsize in *; lia..|].
    apply wp_bind, wp_upd_rec, wp_ret. fold f. fold (roff f). rewrite Z.sub_diag.
    replace (rf_va_end f - rf_va_head f) with (rsize f - roff f) by (unfold roff, rsize; lia).
    rewrite (read_wrapped _ _ _ _ _ _ H) by (unfold roff, rsize in *; lia).
    rewrite u64_small by (unfold roff, rsize in *; lia).
    unfold pop_head in HQ. replace ((roff f + Z.of_nat (length p)) mod rsize f) with
      (Z.of_nat (length p) - (rsize f - roff f)) in HQ; [exact HQ|].
    apply Z.mod_unique with 1; unfold roff, rsize in *; lia.
Qed.

(** What [MUSPI_getAvailableBytes] answers, by where the tail is. *)
Inductive available (off size len : Z) : Z -> Z -> Prop :=
| AvNone wrap : len = 0 -> available off size len 0 wrap
| AvStraight : 0 < len -> off + len < size -> available off size len len 0
| AvBeforeEnd : size <= off + len -> off < size - REC_MAX_PACKET ->
    available off size len (size - REC_MAX_PACKET - off) 0
| AvWrap n : size <= off + len -> size - REC_MAX_PACKET <= off -> 0 < n ->
    available off size len n 1.

Lemma wp_getAvailableBytes ps wrap (Q : Z * Z -> world -> Prop) w :
  let f := recf w l in
  rec_holds K l f (hw w) ps ->
  (forall n wr, available (roff f) (rsize f) (plen ps) n wr -> 0 <= n < 2 ^ 32 ->
     Q (n, wr) (set_rec l (f <| rf_va_tail := rf_va_start f + (roff f + plen ps) mod rsize f |>) w)) ->
  wp (MUSPI_getAvailableBytes l wrap) Q w.
Proof.
  intros f H HQ. pose proof H as [[[Hs Hs32] He [[Hm Hm'] Hm32] [Hpa _]] [Hh Hh32] Ht Hr _ Hok].
  pose proof (plen_32 _ _ Hok) as Hl32. assert (Hpos : 0 < rsize f) by lia.
  pose proof (Z.mod_pos_bound (roff f + plen ps) (rsize f) Hpos) as Hb.
  assert (Hl0 : 0 <= plen ps) by (unfold plen; lia).
  set (t := (roff f + plen ps) mod rsize f) in *.
  assert (Ht32 : t mod 32 = 0).
  { subst t. pose proof (Z.div_mod (roff f + plen ps) (rsize f) ltac:(lia)) as D.
    replace ((roff f + plen ps) mod rsize f) with
      (roff f + plen ps - rsize f * ((roff f + plen ps) / rsize f)) by lia.
    by rewrite Zminus_mod, Z.add_mod, Zmult_mod, Hh32, Hl32, Hm32 by lia. }
  unfold MUSPI_getAvailableBytes. apply wp_bind, wp_gets. fold f. apply wp_bind, wp_gets. rewrite Ht.
  replace (rf_pa_start f + t - rf_pa_start f + rf_va_start f) with (rf_va_start f + t) by lia.
  rewrite (u64_small (rf_va_start f + t)) by (unfold roff, rsize, REC_MAX_PACKET in *; lia).
  apply wp_bind, wp_assert; [apply Z.eqb_eq; by rewrite Z.add_mod, Hs32, Ht32 by lia|].
  apply wp_bind, wp_upd_rec. fold f.
  replace (rf_va_head f) with (rf_va_start f + roff f) by (unfold roff; lia).
  replace (rf_va_end f) with (rf_va_start f + rsize f) by (unfold rsize; lia).
  rewrite u64_small by (unfold roff, rsize, REC_MAX_PACKET in *; lia).
  assert (Hcase : roff f + plen ps < rsize f /\ t = roff f + plen ps \/
                  rsize f <= roff f + plen ps /\ t = roff f + plen ps - rsize f).
  { destruct (Z.lt_ge_cases (roff f + plen ps) (rsize f)) as [Hc|Hc]; [left|right]; split; [done| |done|].
    - unfold t. apply Z.mod_small. lia.
    - unfold t. symmetry. apply Z.mod_unique with 1; lia. }
  destruct Hcase as [[C E]|[C E]].
  - destruct (Z.eqb_spec (rf_va_start f + t) (rf_va_start f + roff f)) as [E0|E0];
      [apply wp_ret, HQ; [apply AvNone; lia|lia]|].
    rewrite Z.gtb_ltb, (proj2 (Z.ltb_lt _ _)) by lia. apply wp_ret.
    replace (rf_va_start f + t - (rf_va_start f + roff f)) with (plen ps) by lia.
    rewrite u32_small by (unfold REC_MAX_PACKET in *; lia). apply HQ; [apply AvStraight; lia|unfold REC_MAX_PACKET in *; lia].
  - rewrite (proj2 (Z.eqb_neq _ _)), Z.gtb_ltb, (proj2 (Z.ltb_ge _ _)) by lia.
    unfold REC_MAX_PACKET in *.
    destruct (Z.ltb_spec (rf_va_start f + roff f) (rf_va_start f + rsize f - 544)) as [C2|C2]; apply wp_ret;
      rewrite u32_small by lia; apply HQ; try lia.
    + replace (rf_va_start f + rsize f - (rf_va_start f + roff f) - 544)
        with (rsize f - REC_MAX_PACKET - roff f) by (unfold REC_MAX_PACKET; lia).
      apply AvBeforeEnd; unfold REC_MAX_PACKET; lia.
    + apply AvWrap; unfold REC_MAX_PACKET; lia.
Qed.
End op_rules.

(** ** Draining the FIFO *)

(** What the polling loop needs of a receive function and of the hardware
    around it, for packets of the kind [K]: the function takes packet [p]
    with the observable effect [out p]; it, and a step of the hardware, may
    see packets arrive behind those in the FIFO, [arr] bounding how many
    still will. *)
Class Receiver (P : platform) (K : list Z -> Prop) (l : nat) (recv : list Z -> MW Z)
    (Inv : world -> Prop) (out : list Z -> list event) (arr : hw_state -> nat) : Prop := {
  rc_recv p ps w : packet_ok p -> K p -> rec_holds K l (recf w l) (hw w) ps -> Inv w ->
    wp (recv p) (fun _ w' => Inv w' /\ trace w' = trace w ++ out p /\ recf w' l = recf w l /\
      exists qs, rec_holds K l (recf w' l) (hw w') (ps ++ qs) /\
                 (arr (hw w') + length qs <= arr (hw w))%nat) w;
  rc_hw ps w : rec_holds K l (recf w l) (hw w) ps -> Inv w ->
    Inv (w <| hw := hw_step P w |>) /\
    exists qs, rec_holds K l (recf w l) (hw_step P w) (ps ++ qs) /\
               (arr (hw_step P w) + length qs <= arr (hw w))%nat;
  rc_rec f w : Inv w -> Inv (set_rec l f w) }.

Section drain.
Context (P : platform) (K : list Z -> Prop) (l : nat) (recv : list Z -> MW Z)
  (Inv : world -> Prop) (out : list Z -> list event) (arr : hw_state -> nat)
  `{!Receiver P K l recv Inv out arr}.

Definition ready (ps : list (list Z)) (w : world) : Prop :=
  rec_holds K l (recf w l) (hw w) ps /\ Inv w.

(** From [ps] in the FIFO, [ds] were delivered and [rest] is left. *)
Definition delivered (ps ds rest : list (list Z)) (w w' : world) : Prop :=
  ready rest w' /\ trace w' = trace w ++ concat (map out ds) /\
  exists qs, ps ++ qs = ds ++ rest /\ (arr (hw w') + length qs <= arr (hw w))%nat.

Lemma delivered_refl ps w : ready ps w -> delivered ps [] ps w w.
Proof.
  intros H. split; [done|]. split; [by rewrite app_nil_r|]. exists []. by rewrite app_nil_r, Nat.add_0_r.
Qed.

Lemma delivered_trans ps ds rest ds' rest' w1 w2 w3 :
  delivered ps ds rest w1 w2 -> delivered rest ds' rest' w2 w3 ->
  delivered ps (ds ++ ds') rest' w1 w3.
Proof.
  intros (_ & T & qs & E & A) (R & T' & qs' & E' & A'). split; [done|]. split.
  - by rewrite T', T, map_app, concat_app, <- app_assoc.
  - exists (qs ++ qs'). rewrite app_assoc, E, <- app_assoc, E', app_assoc, length_app. split; [done|lia].
Qed.

(** A packet taken off the FIFO and handed over. *)
Lemma wp_deliver p ps w :
  ready (p :: ps) w ->
  wp (recv p) (fun _ w' => exists qs, delivered (p :: ps) [p] (ps ++ qs) w w' /\
      recf w' l = pop_head (Z.of_nat (length p)) (recf w l))
     (set_rec l (pop_head (Z.of_nat (length p)) (recf w l)) w).
Proof.
  intros [H HI]. pose proof (rh_ok _ _ _ _ _ H) as [[Hp HK] _]%list.Forall_cons.
  assert (Hr : rec_holds K l (recf (set_rec l (pop_head (Z.of_nat (length p)) (recf w l)) w) l)
    (hw w) ps).
  { unfold set_rec. wsimp. rewrite fn_lookup_insert. by apply holds_pop. }
  eapply wp_mono; [by eapply (rc_recv (Receiver := Receiver0)); [..|eapply rc_rec]|].
  intros r w' (HI' & T & E & qs & Hh & Ha). exists qs. split_and!.
  - split; [by split|]. split; [by rewrite T; unfold set_rec; wsimp; cbn; rewrite app_nil_r|]. by exists qs.
  - rewrite E. unfold set_rec. wsimp. by rewrite fn_lookup_insert.
Qed.

(** What is left of the [total_bytes] the inner loop was given: whole
    packets up to the shadow tail, or all but the last 544 bytes of the
    FIFO. *)
Definition batch (f : MUSPI_RecFifo) (ps : list (list Z)) (rem : Z) : Prop :=
  (exists ps1 ps2, ps = ps1 ++ ps2 /\ plen ps1 = rem /\ rf_va_tail f = rf_va_head f + rem /\
     roff f + rem < rsize f) \/
  (rsize f <= roff f + plen ps /\ rem = rsize f - REC_MAX_PACKET - roff f).

Lemma packets_loop_ok fuel total cum n ps w :
  ready ps w -> batch (recf w l) ps (total - cum) -> 0 <= cum -> total < 2 ^ 32 - REC_MAX_PACKET ->
  total - cum <= 32 * Z.of_nat fuel -> u64 n = n ->
  wp (packets_loop recv fuel l total cum n) (fun n' w' => exists ds rest,
     delivered ps ds rest w w' /\ n' = u64 (n + Z.of_nat (length ds)) /\
     (cum < total -> ds <> [])) w.
Proof.
  revert cum n ps w. induction fuel as [|fuel IH]; intros cum n ps w Hr Hb Hc Ht Hf Hn; cbn [packets_loop].
  all: destruct (Z.ltb_spec cum total) as [Hlt|Hge]; cbn [negb].
  2, 4: apply wp_ret; exists [], ps; split; [by apply delivered_refl|]; cbn; rewrite Z.add_0_r; split; [done|lia].
  { lia. }
  pose proof Hr as [Hh HI]. pose proof (rh_head _ _ _ _ _ Hh) as [Ho _].
  assert (Hne : exists p ps', ps = p :: ps' /\ roff (recf w l) + Z.of_nat (length p) < rsize (recf w l) /\
    Z.of_nat (length p) <= REC_MAX_PACKET /\
    (rf_va_head (recf w l) < rf_va_tail (recf w l) \/ roff (recf w l) < rsize (recf w l) - REC_MAX_PACKET) /\
    forall qs, batch (pop_head (Z.of_nat (length p)) (recf w l)) (ps' ++ qs) (total - (cum + Z.of_nat (length p)))).
  { pose proof (rh_ok _ _ _ _ _ Hh) as Hok. destruct Hb as [(ps1 & ps2 & -> & E1 & E2 & E3)|[E1 E2]].
    - destruct ps1 as [|p ps1]; [unfold plen in E1; cbn in E1; lia|].
      rewrite plen_cons in E1. assert (0 <= plen ps1) by (unfold plen; lia).
      cbn in Hok. apply list.Forall_cons in Hok as [[[Hp Hm] _] _].
      exists p, (ps1 ++ ps2). split_and!; [done|lia|lia|left|].
      { pose proof (packet_bytes_range p). lia. }
      intros qs. left. exists ps1, (ps2 ++ qs). split; [by rewrite app_assoc|]. split; [lia|].
      unfold pop_head, roff, rsize in *. cbn. rewrite Z.mod_small by lia. lia.
    - destruct ps as [|p ps']; [unfold plen in E1; cbn in E1; lia|]. rewrite plen_cons in E1.
      apply list.Forall_cons in Hok as [[[Hp Hm] _] _].
      exists p, ps'. split_and!; [done|lia|lia|right; lia|].
      intros qs. right. rewrite plen_app. assert (0 <= plen qs) by (unfold plen; lia).
      unfold pop_head, roff, rsize in *. cbn. rewrite Z.mod_small by lia. lia. }
  destruct Hne as (p & ps' & -> & H1 & H2 & H3 & H4).
  apply wp_bind, (wp_next_optimized K l p ps'); [done..|]. apply wp_bind.
  eapply wp_mono; [by apply wp_deliver|]. intros r w1 (qs & D & Er).
  assert (Hp : packet_bytes p = Z.of_nat (length p)).
  { pose proof (rh_ok _ _ _ _ _ Hh) as [[[Hp _] _] _]%list.Forall_cons. done. }
  assert (Hp32 := packet_bytes_range p).
  rewrite Hp, u32_small by lia.
  eapply wp_mono; [apply IH; [apply D|rewrite Er; apply H4|lia..|apply Zmod_mod]|].
  intros n' w2 (ds & rest & D2 & -> & _). exists (p :: ds), rest.
  split; [by apply (delivered_trans _ [p] _ ds _ _ _ _ D D2)|]. split; [|done].
  cbn [length]. unfold u64. rewrite Zplus_mod_idemp_l. f_equal. lia.
Qed.

(** One round: the available packets, at least one, are delivered and the
    hardware gets the new head. *)
Lemma ready_tail ps f' w : ready ps w ->
  f' = (recf w l) <| rf_va_tail := rf_va_tail f' |> -> ready ps (set_rec l f' w).
Proof.
  intros [H HI] E. split; [|by eapply rc_rec]. unfold set_rec. wsimp. rewrite fn_lookup_insert.
  eapply holds_ext; [..|exact H]; try done; by rewrite E.
Qed.

Definition synced (f : MUSPI_RecFifo) : Prop := rf_pa_head f = rf_pa_start f + roff f.

Lemma wp_sync ps (Q : unit -> world -> Prop) w :
  ready ps w ->
  (forall f', ready ps (set_rec l f' w) -> synced f' -> Q tt (set_rec l f' w)) ->
  wp (MUSPI_syncRecFifoHwHead l) Q w.
Proof.
  intros [H HI] HQ. pose proof (rh_head _ _ _ _ _ H) as [Ho _].
  pose proof (rh_geom _ _ _ _ _ H) as [[Hs _] He [Hm _] [Hp Hp']]. unfold REC_MAX_PACKET in *.
  unfold MUSPI_syncRecFifoHwHead, MUSPI_setHwHead. apply wp_bind, wp_gets, wp_bind, wp_gets.
  fold (roff (recf w l)). rewrite u64_small by lia.
  apply wp_bind, wp_assert; [apply Z.leb_le; unfold rsize in *; lia|]. apply wp_upd_rec, HQ.
  - split; [|by eapply rc_rec]. unfold set_rec. wsimp. rewrite fn_lookup_insert.
    by eapply holds_ext; [..|exact H].
  - unfold synced. cbn. by rewrite u64_small by lia.
Qed.

Lemma set_rec_twice f g w : set_rec l g (set_rec l f w) = set_rec l g w.
Proof.
  destruct w. unfold set_rec, upd_field. cbn. f_equal. extensionality i.
  destruct (decide (i = l)) as [->|]; by rewrite ?fn_lookup_insert, ?fn_lookup_insert_ne.
Qed.

(** An update of the FIFO shadow is not observable. *)
Lemma delivered_set_rec ps ds rest f w w' :
  delivered ps ds rest (set_rec l f w) w' -> delivered ps ds rest w w'.
Proof. done. Qed.

Lemma delivered_step ps ds rest w w' : delivered ps ds rest w w' ->
  exists rest', delivered ps ds rest' w (w' <| hw := hw_step P w' |>).
Proof.
  intros ([Hh HI] & T & qs & E & A). destruct (rc_hw rest w' Hh HI) as (HI' & qs' & Hh' & A').
  exists (rest ++ qs'). split; [by split|]. split; [done|]. exists (qs ++ qs').
  rewrite app_assoc, E, <- app_assoc, length_app. split; [done|]. wsimp. lia.
Qed.

Lemma round_ok n total wr ps w (k : Z -> MW Z) (Q : Z -> world -> Prop) :
  ready ps w -> available (roff (recf w l)) (rsize (recf w l)) (plen ps) total wr ->
  total <> 0 -> 0 <= total < 2 ^ 32 -> u64 n = n ->
  rf_va_tail (recf w l) = rf_va_start (recf w l) + (roff (recf w l) + plen ps) mod rsize (recf w l) ->
  (forall ds rest w', ds <> [] -> delivered ps ds rest w w' -> synced (recf w' l) ->
     wp (k (u64 (n + Z.of_nat (length ds)))) Q w') ->
  wp (done <- (if wr =? 0 then packets_loop recv (Z.to_nat (total / 32 + 1)) l total 0 n
               else pkt <- getNextPacketWrap l ;; r <- recv pkt ;; ret (u64 (n + 1))) ;;
      MUSPI_syncRecFifoHwHead l ;;; modify (fun w => w <| hw := hw_step P w |>) ;;; k done) Q w.
Proof.
  intros Hr Hav Hnz Ht Hn Htail Hk. pose proof Hr as [Hh HI].
  pose proof (rh_geom _ _ _ _ _ Hh) as [_ _ [[Hm Hm'] _] _]. pose proof (rh_head _ _ _ _ _ Hh) as [Ho _].
  assert (Hfin : forall ds rest w', ds <> [] -> delivered ps ds rest w w' ->
    wp (MUSPI_syncRecFifoHwHead l ;;; modify (fun w => w <| hw := hw_step P w |>) ;;;
        k (u64 (n + Z.of_nat (length ds)))) Q w').
  { intros ds rest w' Hd D. apply wp_bind, (wp_sync rest); [apply D|]. intros f' Hr' Hs.
    apply wp_bind, wp_modify. destruct (delivered_step ps ds rest w (set_rec l f' w')) as [rest' D'].
    { destruct D as (_ & T & qs & E & A). split; [done|]. split; [done|]. by exists qs. }
    eapply Hk; [done|exact D'|]. unfold set_rec. wsimp. by rewrite fn_lookup_insert. }
  assert (Hfu : total - 0 <= 32 * Z.of_nat (Z.to_nat (total / 32 + 1))).
  { pose proof (Z.div_mod total 32 ltac:(lia)). pose proof (Z.mod_pos_bound total 32 ltac:(lia)). lia. }
  inversion Hav as [wr' E0|E1 E2|E1 E2|n' E1 E2 E3]; subst; cbn [Z.eqb]; try lia.
  3: { destruct ps as [|p ps']; [unfold plen in E1; cbn in E1; lia|].
    apply wp_bind, wp_bind, (wp_next_wrap K l p ps'); [done|]. apply wp_bind.
    eapply wp_mono; [by apply wp_deliver|]. intros r w1 (qs & D & _). apply wp_ret.
    by apply (Hfin [p] (ps' ++ qs)). }
  all: apply wp_bind; eapply wp_mono; [eapply (packets_loop_ok _ _ 0 n ps w Hr);
    [|lia|unfold REC_MAX_PACKET in *; lia|exact Hfu|done]|].
  1, 3: rewrite Z.sub_0_r.
  - left. exists ps, []. rewrite app_nil_r. rewrite Htail. rewrite Z.mod_small by lia.
    unfold roff, rsize in *. split_and!; [done|done|lia|lia].
  - right. done.
  - intros n' w' (ds & rest & D & -> & Hd). apply (Hfin ds rest); [apply Hd; lia|done].
  - intros n' w' (ds & rest & D & -> & Hd). apply (Hfin ds rest); [apply Hd; lia|done].
Qed.

Lemma fifo_poll_loop_ok fuel wrap n ps w :
  ready ps w -> (length ps + arr (hw w) <= fuel)%nat -> u64 n = n ->
  wp (fifo_poll_loop P recv fuel l wrap n) (fun n' w' => exists ds, delivered ps ds [] w w' /\
    n' = u64 (n + Z.of_nat (length ds)) /\
     (ds <> [] \/ synced (recf w l) -> synced (recf w' l))) w.
Proof.
  revert wrap n ps w. induction fuel as [|fuel IH]; intros wrap n ps w Hr Hf Hn; cbn [fifo_poll_loop].
  all: apply wp_bind, (wp_getAvailableBytes K l ps); [apply Hr|]; intros total wr Hav Ht;
    match goal with |- wp _ _ (set_rec l ?f ?x) => set (f' := f) end;
    assert (Hr' : ready ps (set_rec l f' w)) by (by apply ready_tail).
  all: destruct (Z.eqb_spec total 0) as [E0|E0].
  1, 3: assert (ps = []) as ->; [|apply wp_ret; exists []; split; [by apply (delivered_set_rec _ _ _ f'), delivered_refl|];
          split; [by rewrite Z.add_0_r|]; intros [?|Hs]; [done|];
          unfold set_rec; wsimp; rewrite fn_lookup_insert; exact Hs].
  1, 2: destruct ps as [|p ps']; [done|exfalso]; destruct Hr as [Hh _];
    pose proof (rh_ok _ _ _ _ _ Hh) as [[[Hp _] _] _]%list.Forall_cons;
    pose proof (packet_bytes_range p); pose proof (rh_head _ _ _ _ _ Hh) as [? _];
    assert (0 < plen (p :: ps')) by (rewrite plen_cons; unfold plen; lia);
    inversion Hav; subst; lia.
  - destruct ps as [|p ps']; [|cbn in Hf; lia]. exfalso.
    pose proof (rh_head _ _ _ _ _ (proj1 Hr)) as [? _].
    inversion Hav; subst; change (plen []) with 0 in *; lia.
  - eapply round_ok; [exact Hr'| |done|done|done| |].
    1, 2: unfold set_rec; wsimp; rewrite fn_lookup_insert; done.
    intros ds rest w' Hd D Hs. pose proof D as (Hr2 & _ & qs & Eq & Ha).
    eapply wp_mono; [apply IH; [exact Hr2| |apply Zmod_mod]|].
    + apply (f_equal length) in Eq. rewrite !length_app in Eq. destruct ds; [done|].
      revert Ha. unfold set_rec. wsimp. cbn in Eq. lia.
    + intros n' w2 (ds' & D' & -> & Hs'). exists (ds ++ ds').
      split; [by eapply (delivered_set_rec _ _ _ f'), delivered_trans|]. split.
      * unfold u64. rewrite Zplus_mod_idemp_l, length_app. f_equal. lia.
      * intros _. apply Hs'. auto.
Qed.

Lemma fifo_poll_ok ps w :
  rec_holds K l (recf w l) (hw w) ps -> Inv w -> (length ps + arr (hw w) <= spin_fuel P)%nat ->
  wp (fifo_poll P recv l) (fun n w' => exists qs,
      n = u64 (Z.of_nat (length (ps ++ qs))) /\ (length qs <= arr (hw w))%nat /\
      trace w' = trace w ++ concat (map out (ps ++ qs)) /\
      rec_holds K l (recf w' l) (hw w') [] /\ Inv w' /\
      (ps ++ qs <> [] -> rf_pa_head (recf w' l) = hw_rec_tail (hw w') l)) w.
Proof.
  intros Hh HI Hf. eapply wp_mono; [by apply (fifo_poll_loop_ok _ _ _ ps)|].
  intros n w' (ds & ([Hh' HI'] & T & qs & E & A) & -> & Hs). rewrite app_nil_r in E. subst ds.
  exists qs. split_and!; [done|lia|done|done|done|]. intros Hne. rewrite (Hs (or_introl Hne)).
  pose proof (rh_tail _ _ _ _ _ Hh') as Et. pose proof (rh_head _ _ _ _ _ Hh') as [Ho _].
  rewrite Et. unfold plen. cbn. by rewrite Z.add_0_r, Z.mod_small by lia.
Qed.

(** C28: polling terminates with an empty FIFO: every packet that was in it,
    and every packet that arrived meanwhile, has been handed to the receive
    function once, in order, those that go round the end of the ring
    included; no byte outside the ring is read and no assertion of the SPI
    fails; and the hardware has been told that the FIFO is empty. *)
Theorem fifo_poll_drains ps w :
  rec_holds K l (recf w l) (hw w) ps -> Inv w -> (length ps + arr (hw w) <= spin_fuel P)%nat ->
  wp (fifo_poll P recv l) (fun n w' => exists qs,
      n = u64 (Z.of_nat (length (ps ++ qs))) /\ (length qs <= arr (hw w))%nat /\
      trace w' = trace w ++ concat (map out (ps ++ qs)) /\
      rec_holds K l (recf w' l) (hw w') [] /\ Inv w' /\
      (ps ++ qs <> [] -> rf_pa_head (recf w' l) = hw_rec_tail (hw w') l)) w.
Proof. apply fifo_poll_ok. Qed.
End drain.

(** ** Witness

    A ring of 1024 bytes with the head at 992: a packet of 64 bytes that
    goes round the end, then one of 32 bytes. *)
Definition demo_packet (size : nat) (tag : Z) : list Z :=
  wr h_Byte8 (Z.of_nat size) (wr h_Data_Packet_Type 0x55 (replicate (32 * (size + 1)) tag)).
Definition demo_ring : list Z := demo_packet 1 1 ++ demo_packet 0 2.
Definition demo_rec : MUSPI_RecFifo := mkRec 0x9000 0x2000 0x2400 (0x2000 + 992) (0x2000 + 992) (0x9000 + 992).
Definition demo_arrived : world := demo_world
  <| recf := fun _ => demo_rec |>
  <| hw ::= fun h => h <| hw_rec_tail := fun _ => 0x9000 + 64 |>
      <| hw_rec_mem := fun _ off => nth (Z.to_nat ((off - 992) mod 1024)) demo_ring 0 |> |>.

Lemma demo_holds (K : list Z -> Prop) : K (demo_packet 1 1) -> K (demo_packet 0 2) ->
  rec_holds K 0 demo_rec (hw demo_arrived) [demo_packet 1 1; demo_packet 0 2].
Proof.
  intros K1 K2. split; [split|..].
  1-8: by vm_compute.
  repeat constructor; done || by vm_compute.
Qed.

Definition demo_recv (p : list Z) : MW Z := emit (EvStatus [(rd (Field 31 1) p, 0)]) ;;; ret 0.

#[export] Instance demo_receiver (K : list Z -> Prop) :
  Receiver demo_platform K 0 demo_recv (fun _ => True)
    (fun p => [EvStatus [(rd (Field 31 1) p, 0)]]) (fun _ => 0%nat).
Proof.
  split; [|intros ps w H _; split; [done|]; exists []; rewrite app_nil_r; split; [by destruct H|done]|done].
  intros p ps w _ _ H _. apply wp_bind, wp_modify, wp_ret. split_and!; [done..|].
  exists []. by rewrite app_nil_r.
Qed.

Lemma fifo_poll_drains_witness :
  wp (fifo_poll demo_platform demo_recv 0) (fun n w' => n = 2 /\
    trace w' = [EvStatus [(1, 0)]; EvStatus [(2, 0)]]) demo_arrived.
Proof.
  eapply wp_mono.
  - exact (fifo_poll_drains demo_platform (fun _ => True) 0 demo_recv (fun _ => True) _ (fun _ => 0%nat)
      [demo_packet 1 1; demo_packet 0 2] demo_arrived (demo_holds _ I I) I
      (proj1 (Nat.leb_le 2 4) eq_refl)).
  - intros n w' (qs & -> & Hq & -> & _). cbn [length] in Hq.
    destruct qs; [by vm_compute|]. cbn in Hq. lia.
Defined.
