(* ===== verification/Receive.v ===== *)
(** * Receiving packets

    bgmudm/mudm.c: the dispatch on the type of a received packet, the
    direct puts that arrive as descriptors in a packet and are injected
    here (the "remote get" of the data mover), the packets that are
    rejected, and the polling of one I/O link. *)

From S2P Require Import Prelude Chain Bytes Descriptor State Inject Concrete Pools Pkt Rdma ConnList Connect Transfer Bcast RecFifo.

(** Packet types (bgmudm/common.h, include/mudm/include/mudm.h). *)
Definition MUDM_CNK2CNK_FIFO := 0x1AA1.
Definition MUDM_PKT_ERROR := 0xE000.
Definition MUDM_PKT_ENOTCONN := 0xE06B.
Definition MUDM_PKT_EILSEQ := 0xE054.
Definition MUDM_PKT_DATA_IMM := 0x1bc1.

(** ** A descriptor as the 64 bytes of [MUHWI_Descriptor_t] *)

Definition bytes_of_desc (d : MUHWI_Descriptor) : list Z :=
  be_split 4 (Half_Word0 d) ++ be_split 4 (Half_Word1 d) ++ be_split 8 (Pa_Payload d) ++
  be_split 8 (Message_Length d) ++ be_split 8 (Torus_FIFO_Map d) ++ PacketHeader d.
#[global] Arguments bytes_of_desc : simpl never.
Definition desc_of_bytes (bs : list Z) : MUHWI_Descriptor :=
  mkDesc (rd (Field 0 4) bs) (rd (Field 4 4) bs) (rd (Field 8 8) bs) (rd (Field 16 8) bs)
    (rd (Field 24 8) bs) (slice 32 32 bs).

(** The software bytes of a packet and what follows its header. *)
Definition payload_of (pkt : list Z) : list Z := drop 32 pkt.

Section with_platform.
Context (P : platform).

Definition InjFifoInject_rget_emulation (l : nat) (desc : MUHWI_Descriptor) : MW Z :=
  SPIN_LOCK (InjLock l) ;;;
  o <- MUDM_GET_NEXT_DESC P l ;;
  match o with
  | None => ret u64_max
  | Some (desc_count, slot) =>
      fill_slot l slot desc ;;;
      SPIN_UNLOCK (InjLock l) ;;;
      ret desc_count
  end.

(** Descriptors [i], [i+1], ... of the payload. *)
Fixpoint put_loop (n i l : nat) (pkt : list Z) : MW unit :=
  match n with
  | O => ret tt
  | S n =>
      bs <- peek_bytes (32 + 64 * i) 64 pkt ;;
      desc_count <- InjFifoInject_rget_emulation l (desc_of_bytes bs) ;;
      put_loop n (S i) l pkt
  end.
Definition multi_directput (l : nat) (pkt : list Z) : MW Z :=
  let num_descriptors := Z.shiftr (h_Size pkt) 1 in
  put_loop (Z.to_nat num_descriptors) 0 l pkt ;;; ret 0.

(** The type a rejected packet goes back with. *)
Definition reject_type (return_code : Z) : Z :=
  if return_code =? - ENOTCONN then MUDM_PKT_ENOTCONN
  else if (return_code =? - EPROTO) || (return_code =? - EILSEQ) then MUDM_PKT_EILSEQ
  else MUDM_PKT_ERROR.

(** The software bytes of the reply; the received type goes in the unused
    length. *)
Definition reject_bytes (sw : SoftwareBytes_t) (return_code : Z) : SoftwareBytes_t :=
  let sb := replicate SW_LEN 0 in
  let sb := wr sb_torus_source_node (rd sb_torus_dest_node sw) sb in
  let sb := wr sb_torus_dest_node (rd sb_torus_source_node sw) sb in
  let sb := wr sb_source_qpn (rd sb_dest_qpn sw) sb in
  let sb := wr sb_dest_qpn (rd sb_source_qpn sw) sb in
  let sb := wr sb_payload_length (rd sb_type sw) sb in
  let sb := wr sb_sequence_number (rd sb_sequence_number sw) sb in
  wr sb_type (reject_type return_code) sb.

Definition reject_packet (pkt : list Z) (return_code : Z) : MW Z :=
  let sb := reject_bytes (addressSoftwareBytes pkt) return_code in
  let direction := set_direction_request (rd sb_torus_source_node sb) (rd sb_torus_dest_node sb) in
  if CN2IONODE =? direction then
    w <- get ;;
    md <- deref (InitPt2PtMemoryFIFODescriptor sb 0 0 (mybridgingCNnode w) direction 0
                   (sys_rec_fifo_id w 0%nat)) ;;
    desc_count <- InjFifoInject P 0 md ;;
    ret 0
  else ret (- ENOSYS).

Definition mudm_recv_packet (pkt : list Z) : MW Z :=
  let sw := addressSoftwareBytes pkt in
  let type := rd sb_type sw in
  let message := recv_cb P sw (DataBytes (payload_of pkt)) in
  (if type =? MUDM_DPUT then
     fifo_id <- gets (fun w => sys_rec_fifo_id w 0%nat) ;;
     if h_Rec_FIFO_Id pkt =? fifo_id then multi_directput 0 pkt
     else if (1 <? NUM_IO_LINKS)%nat then multi_directput 1 pkt else ret 0
   else if (type =? MUDM_PKT_DATA_IMM) || (type =? MUDM_PKT_DATA_REMOTE) then
     rc <- message ;;
     if rc <? 0 then reject_packet pkt rc else ret 0
   else if type =? MUDM_CONN_REQUEST then connect_request P pkt
   else if type =? MUDM_CONN_REPLY then connect_reply P pkt
   else if type =? MUDM_DISCONNECTED then disconnect_request P pkt
   else if type =? MUDM_CNK2CNK_FIFO then ret 0
   else if (type =? MUDM_PKT_EILSEQ) || (type =? MUDM_PKT_ERROR) || (type =? MUDM_PKT_ENOTCONN) then ret 0
   else message) ;;;
  ret 0.

(** The receive function of [mudm_fifo_poll]. *)
Definition recv_any (pkt : list Z) : MW Z :=
  if rd h_Data_Packet_Type pkt =? MUHWI_PT2PT_DATA_PACKET_TYPE then mudm_recv_packet pkt
  else mudm_recv_bcast P pkt.
Definition mudm_fifo_poll (l : nat) : MW Z := fifo_poll P recv_any l.

(** ** Polling a link *)

(** One minute of cycles. *)
Definition CONN_TIMEOUT := 96000000000.

Definition active (l : nat) : MW bool := st <- gets (fun w => inj_state w l) ;; ret (negb (st =? 0)).
Definition poll_pool (p : pool_id) : MW Z :=
  on <- active (pool_link p) ;;
  h <- get_active (pkt_pool p) ;;
  if on then match h with Some _ => poll_pkt_message P p | None => ret 0 end else ret 0.

Definition poll_iolink (l : nat) : MW Z :=
  n1 <- poll_pool (PacketControls l) ;;
  n2 <- poll_pool (SmallpaObjCtls l) ;;
  let outstanding_pkt_reqid := u64 (n1 + n2) in
  on <- active l ;;
  received_pkt <- (if on then mudm_fifo_poll l else ret 0) ;;
  on <- active l ;;
  counters_pending <- (if on then rdma_poll_rdma_counter P l else ret 0) ;;
  if negb (counters_pending =? 0) then ret 0
  else if negb (outstanding_pkt_reqid =? 0) then ret 1
  else
    p <- gets (fun w => conn_pendlist w l) ;;
    match p with
    | None => ret 0
    | Some c =>
        cc <- get_conn c ;;
        when (negb (my_timestamp cc =? 0))
          (now_timestamp <- GetTimeBase2 ;;
           when (u64 (now_timestamp - my_timestamp cc) >? CONN_TIMEOUT)
             (upd_conn c (fun x => x <| my_timestamp := 0 |>))) ;;;
        ret 2
    end.

Definition mudm_poll_iolink (l : nat) : MW Z := r <- poll_iolink l ;; ret 0.

(** The state of the broadcast says whether it is polled. *)
Definition poll_bcast : MW unit :=
  bro <- get_bro ;;
  when (negb (b_state bro =? 0)) (r <- rdma_bcast_poll_reduce P ;; ret tt).

(** [mudm_poll_iolink_wakeup]: until [mudm_terminate] clears the state.
    [EvArm] stands for clearing the interrupts and arming the wakeup unit. *)
Fixpoint wakeup_loop (fuel l : nat) : MW unit :=
  st <- gets m_state ;;
  if st =? 0 then ret tt else
  match fuel with
  | O => hang
  | S fuel =>
      emit (EvArm l) ;;;
      last_poll_value <- poll_iolink l ;;
      poll_bcast ;;;
      (if negb (last_poll_value =? 0) then ret tt else wakeup_wait P) ;;;
      wakeup_loop fuel l
  end.
Definition mudm_poll_iolink_wakeup (l : nat) : MW Z :=
  wakeup_loop (spin_fuel P) l ;;; emit (EvDisarm l) ;;; ret 0.

Definition mudm_start_poll : MW Z :=
  modify (fun w => w <| poll_active := 1 |>) ;;;
  wa <- gets wakeupActive ;;
  (if wa =? 0 then
     mudm_poll_iolink 0 ;;; mudm_poll_iolink 1 ;;; poll_bcast
   else
     mudm_poll_iolink_wakeup 0 ;;; mudm_poll_iolink_wakeup 1 ;;; ret tt) ;;;
  modify (fun w => w <| poll_active := 0 |>) ;;;
  ret 0.
End with_platform.

(** ** Direct puts that arrive in a packet *)

Definition desc_wf (d : MUHWI_Descriptor) : Prop :=
  0 <= Half_Word0 d < 2 ^ 32 /\ 0 <= Half_Word1 d < 2 ^ 32 /\ 0 <= Pa_Payload d < 2 ^ 64 /\
  0 <= Message_Length d < 2 ^ 64 /\ 0 <= Torus_FIFO_Map d < 2 ^ 64 /\ hdr_ok d.

Lemma slice_app_skip n m a b : slice (length a + n) m (a ++ b) = slice n m b.
Proof. unfold slice. by rewrite drop_app_add. Qed.

Lemma rd_app_skip n m a b : rd (Field (length a + n) m) (a ++ b) = rd (Field n m) b.
Proof. unfold rd. cbn [f_off f_len]. by rewrite slice_app_skip. Qed.

Lemma rd_split_here n v b : 0 <= v < 2 ^ (8 * Z.of_nat n) -> rd (Field 0 n) (be_split n v ++ b) = v.
Proof.
  intros Hv. unfold rd, slice. cbn [f_off f_len]. rewrite drop_0, take_app_length' by (by rewrite length_be_split).
  rewrite be_comb_split. by apply Z.mod_small.
Qed.

Lemma rd_skip_split k n v m b :
  rd (Field (k + n) m) (be_split k v ++ b) = rd (Field n m) b.
Proof. rewrite <- (length_be_split k v) at 1. apply rd_app_skip. Qed.

Lemma desc_roundtrip d rest : desc_wf d -> desc_of_bytes (bytes_of_desc d ++ rest) = d.
Proof.
  intros (H0 & H1 & H2 & H3 & H4 & H5). destruct d as [a b p m t h].
  unfold hdr_ok in *. cbn [Half_Word0 Half_Word1 Pa_Payload Message_Length Torus_FIFO_Map PacketHeader] in *.
  unfold desc_of_bytes, bytes_of_desc. cbn [Half_Word0 Half_Word1 Pa_Payload Message_Length Torus_FIFO_Map PacketHeader].
  rewrite <- !app_assoc. f_equal.
  - by apply rd_split_here.
  - change (Field 4 4) with (Field (4 + 0) 4). rewrite rd_skip_split. by apply rd_split_here.
  - change (Field 8 8) with (Field (4 + (4 + 0)) 8). rewrite !rd_skip_split. by apply rd_split_here.
  - change (Field 16 8) with (Field (4 + (4 + (8 + 0))) 8). rewrite !rd_skip_split. by apply rd_split_here.
  - change (Field 24 8) with (Field (4 + (4 + (8 + (8 + 0)))) 8). rewrite !rd_skip_split. by apply rd_split_here.
  - unfold slice.
    replace 32%nat with (length (be_split 4 a ++ be_split 4 b ++ be_split 8 p ++ be_split 8 m ++ be_split 8 t))
      at 2 by (rewrite !length_app, !length_be_split; done).
    rewrite !app_assoc, <- (app_assoc _ h rest), drop_app_length.
    rewrite take_app_length'; [done|by rewrite H5].
Qed.

Lemma length_bytes_of_desc d : desc_wf d -> length (bytes_of_desc d) = 64%nat.
Proof.
  intros (_ & _ & _ & _ & _ & H5). unfold bytes_of_desc. rewrite !length_app, !length_be_split, H5. done.
Qed.

Section receive.
Context (P : platform) `{!MuLive P}.

Lemma wp_rget_emulation (Q : Z -> world -> Prop) l n d w :
  inj_ready l (S n) w ->
  (forall w', inject1 P l d w w' -> Q (if_numInjected (inj w l) + 1) w') ->
  wp (InjFifoInject_rget_emulation P l d) Q w.
Proof. exact (wp_InjFifoInject P Q l n d w). Qed.

Lemma put_loop_ok l hdr ds0 ds tl w :
  length hdr = 32%nat -> Forall desc_wf (ds0 ++ ds) -> inj_ready l (length ds) w ->
  wp (put_loop P (length ds) (length ds0) l (hdr ++ concat (map bytes_of_desc (ds0 ++ ds)) ++ tl))
     (fun _ w' => sends P l ds w w') w.
Proof.
  revert ds0 w. induction ds as [|d ds IH]; intros ds0 w Hh Hwf Hr; cbn [put_loop length].
  { apply wp_ret, sends_nil. }
  assert (El : length (concat (map bytes_of_desc ds0)) = (64 * length ds0)%nat).
  { apply list.Forall_app in Hwf as [Hwf _]. clear -Hwf. induction Hwf as [|x l Hx _ IH]; [done|].
    cbn. rewrite length_app, IH, length_bytes_of_desc by done. lia. }
  pose proof (proj1 (list.Forall_app _ _ _) Hwf) as [_ [Hd _]%list.Forall_cons].
  assert (Es : slice (32 + 64 * length ds0) 64 (hdr ++ concat (map bytes_of_desc (ds0 ++ d :: ds)) ++ tl)
    = bytes_of_desc d).
  { rewrite map_app, concat_app, <- app_assoc. 
    replace (32 + 64 * length ds0)%nat
      with (length hdr + (length (concat (map bytes_of_desc ds0)) + 0))%nat by lia.
    rewrite !slice_app_skip. cbn [map concat]. rewrite <- app_assoc.
    unfold slice. rewrite drop_0, take_app_length'; [done|by rewrite length_bytes_of_desc]. }
  apply wp_bind. unfold peek_bytes. rewrite decide_True.
  - apply wp_ret, wp_bind. rewrite Es, <- (app_nil_r (bytes_of_desc d)), desc_roundtrip by done.
    apply (wp_rget_emulation _ l (length ds)); [done|]. intros w1 H1.
    pose proof (IH (ds0 ++ [d]) w1 Hh) as IH1. rewrite <- app_assoc, length_app, Nat.add_1_r in IH1.
    eapply wp_mono; [apply IH1; [done|by eapply inject1_ready]|].
    intros [] w' H2. by eapply sends_cons.
  - rewrite map_app, concat_app. cbn [map concat]. rewrite !length_app, El, length_bytes_of_desc by done. lia.
Qed.
End receive.

Lemma size_of_puts pkt n : packet_ok pkt -> length pkt = (32 + 64 * n)%nat ->
  Z.to_nat (Z.shiftr (h_Size pkt) 1) = n.
Proof.
  intros [H _] E. rewrite E in H. unfold packet_bytes in H. rewrite Z.shiftl_mul_pow2 in H by lia.
  rewrite Z.shiftr_div_pow2 by lia. change (2 ^ 5) with 32 in H. change (2 ^ 1) with 2.
  replace (h_Size pkt) with (Z.of_nat n * 2) by lia. rewrite Z.div_mul by lia. lia.
Qed.

(** A callback that decides what to answer for a packet and lets time pass,
    while no packet lands in the reception FIFOs. *)
Definition answers (P : platform) (pkt : list Z) (rc : Z) : Prop := forall w,
  wp (cb_recv P (addressSoftwareBytes pkt) (DataBytes (payload_of pkt))) (fun r w' => r = rc /\
    exists h, hw_evolves P (hw w) h /\ hw_rec_tail h = hw_rec_tail (hw w) /\
      hw_rec_mem h = hw_rec_mem (hw w) /\ w' = w <| hw := h |>) w.

Definition type_of (pkt : list Z) : Z := rd sb_type (addressSoftwareBytes pkt).

(** Packets that go to the user: not those of the driver's own protocols. *)
Definition user_packet (pkt : list Z) : Prop :=
  rd h_Data_Packet_Type pkt = MUHWI_PT2PT_DATA_PACKET_TYPE /\
  Forall (fun t => type_of pkt <> t) [MUDM_DPUT; MUDM_CONN_REQUEST; MUDM_CONN_REPLY; MUDM_DISCONNECTED;
    MUDM_CNK2CNK_FIFO; MUDM_PKT_EILSEQ; MUDM_PKT_ERROR; MUDM_PKT_ENOTCONN].

Definition recv_event (pkt : list Z) : event :=
  EvRecv (addressSoftwareBytes pkt) (DataBytes (payload_of pkt)).

Lemma reject_bytes_ok sw rc : Forall (fun b => 0 <= b < 256) sw ->
  let sb := reject_bytes sw rc in length sb = SW_LEN /\
  rd sb_type sb = reject_type rc /\ rd sb_torus_source_node sb = rd sb_torus_dest_node sw /\
  rd sb_torus_dest_node sb = rd sb_torus_source_node sw /\
  rd sb_sequence_number sb = rd sb_sequence_number sw /\
  rd sb_payload_length sb = rd sb_type sw.
Proof.
  intros Hb. cbv zeta. unfold reject_bytes. split_and!.
  1: unfold SW_LEN; wr_len.
  all: repeat rd_step; apply Z.mod_small; try exact (rd_range _ sw Hb).
  unfold reject_type. destruct (_ =? _); [done|]. by destruct (_ || _).
Qed.

Section receive_properties.
Context (P : platform).

Lemma wp_recv_cb pkt rc (Q : Z -> world -> Prop) w :
  answers P pkt rc ->
  (forall h, hw_evolves P (hw w) h -> hw_rec_tail h = hw_rec_tail (hw w) ->
     hw_rec_mem h = hw_rec_mem (hw w) ->
     Q rc (w <| trace ::= fun t => t ++ [recv_event pkt] |> <| hw := h |>)) ->
  wp (recv_cb P (addressSoftwareBytes pkt) (DataBytes (payload_of pkt))) Q w.
Proof.
  intros Ha HQ. apply wp_bind, wp_modify. eapply wp_mono; [apply Ha|].
  intros r w' (-> & h & He & E1 & E2 & ->). by apply HQ.
Qed.

(** The dispatch on a type that is none of the driver's own. *)
Lemma recv_user pkt : Forall (fun t => type_of pkt <> t) [MUDM_DPUT; MUDM_CONN_REQUEST; MUDM_CONN_REPLY;
    MUDM_DISCONNECTED; MUDM_CNK2CNK_FIFO; MUDM_PKT_EILSEQ; MUDM_PKT_ERROR; MUDM_PKT_ENOTCONN] ->
  mudm_recv_packet P pkt =
    ((if (type_of pkt =? MUDM_PKT_DATA_IMM) || (type_of pkt =? MUDM_PKT_DATA_REMOTE) then
       rc <- recv_cb P (addressSoftwareBytes pkt) (DataBytes (payload_of pkt)) ;;
       if rc <? 0 then reject_packet P pkt rc else ret 0
     else recv_cb P (addressSoftwareBytes pkt) (DataBytes (payload_of pkt))) ;;; ret 0).
Proof.
  intros H. unfold mudm_recv_packet. fold (type_of pkt).
  repeat (apply list.Forall_cons in H as [?%Z.eqb_neq H]).
  repeat match goal with E : (type_of pkt =? ?t) = false |- _ => rewrite E; clear E end.
  by destruct (_ || _).
Qed.

Context `{!MuLive P}.

(** C35: a packet of direct puts: the descriptors in its payload are
    injected, in order and as they were written by the sender, on the link
    of the reception FIFO the packet names; nothing else happens. *)
Theorem recv_direct_puts hdr ds l w :
  let pkt := hdr ++ concat (map bytes_of_desc ds) in
  length hdr = 32%nat -> packet_ok pkt -> Forall desc_wf ds -> type_of pkt = MUDM_DPUT ->
  l = (if h_Rec_FIFO_Id pkt =? sys_rec_fifo_id w 0%nat then 0%nat else 1%nat) ->
  inj_ready l (length ds) w ->
  wp (mudm_recv_packet P pkt) (fun r w' => r = 0 /\ sends P l ds w w') w.
Proof.
  intros pkt Hh Hok Hwf Ht Hl Hr. unfold mudm_recv_packet. fold (type_of pkt). rewrite Ht. cbn [Z.eqb MUDM_DPUT].
  apply wp_bind, wp_bind, wp_gets.
  assert (Hlen : length pkt = (32 + 64 * length ds)%nat).
  { subst pkt. rewrite length_app, Hh. f_equal. clear -Hwf. induction Hwf as [|x l Hx _ IH]; [done|].
    cbn [map concat length]. rewrite length_app, IH, length_bytes_of_desc by done. lia. }
  assert (Hput : wp (multi_directput P l pkt) (fun r w' => wp (ret 0)
    (fun r w' => r = 0 /\ sends P l ds w w') w') w).
  { unfold multi_directput. rewrite (size_of_puts pkt (length ds)) by done. apply wp_bind.
    pose proof (put_loop_ok P l hdr [] ds [] w Hh Hwf Hr) as H. cbn [app] in H. rewrite app_nil_r in H.
    eapply wp_mono; [exact H|]. intros [] w' Hs. by do 2 apply wp_ret. }
  cbn [Nat.ltb Nat.leb NUM_IO_LINKS]. destruct (h_Rec_FIFO_Id pkt =? sys_rec_fifo_id w 0); by subst l.
Qed.

(** C36: a data packet that the user refuses with [rc < 0].  When the
    packet came from an I/O node, one packet goes back through the
    bridging node: it tells the error by its type, swaps source and
    destination, repeats the sequence number and carries the type that was
    refused.  Any other sender is not told. *)
Theorem refused_packet_is_returned pkt rc w :
  let sw := addressSoftwareBytes pkt in
  (32 <= length pkt)%nat -> Forall (fun b => 0 <= b < 256) pkt ->
  type_of pkt = MUDM_PKT_DATA_IMM \/ type_of pkt = MUDM_PKT_DATA_REMOTE ->
  answers P pkt rc -> rc < 0 -> inj_ready 0 1 w ->
  wp (mudm_recv_packet P pkt) (fun r w' => r = 0 /\
    ((set_direction_request (rd sb_torus_dest_node sw) (rd sb_torus_source_node sw) = CN2IONODE /\
      exists d, trace w' = trace w ++ [recv_event pkt; EvInject 0 d (mem w !! 0)] /\
        let sb := addressSoftwareBytes (PacketHeader d) in
        rd sb_type sb = reject_type rc /\
        rd sb_torus_source_node sb = rd sb_torus_dest_node sw /\
        rd sb_torus_dest_node sb = rd sb_torus_source_node sw /\
        rd sb_sequence_number sb = rd sb_sequence_number sw /\
        rd sb_payload_length sb = type_of pkt /\
        rd h_Destination (PacketHeader d) = mybridgingCNnode w mod 2 ^ 32) \/
     (set_direction_request (rd sb_torus_dest_node sw) (rd sb_torus_source_node sw) <> CN2IONODE /\
      trace w' = trace w ++ [recv_event pkt]))) w.
Proof.
  intros sw Hlen Hby Ht Ha Hrc Hr.
  assert (Hsw : Forall (fun b => 0 <= b < 256) sw) by (by apply Forall_take, Forall_drop).
  assert (Huser : Forall (fun t => type_of pkt <> t) [MUDM_DPUT; MUDM_CONN_REQUEST; MUDM_CONN_REPLY;
    MUDM_DISCONNECTED; MUDM_CNK2CNK_FIFO; MUDM_PKT_EILSEQ; MUDM_PKT_ERROR; MUDM_PKT_ENOTCONN])
    by (destruct Ht as [-> | ->]; repeat constructor; done).
  assert (Et : (type_of pkt =? MUDM_PKT_DATA_IMM) || (type_of pkt =? MUDM_PKT_DATA_REMOTE) = true)
    by (by destruct Ht as [-> | ->]).
  rewrite recv_user, Et by done.
  apply wp_bind, wp_bind, (wp_recv_cb pkt rc); [done|]. intros h He _ _.
  rewrite (proj2 (Z.ltb_lt _ _) Hrc). set (sb := reject_bytes sw rc).
  destruct (reject_bytes_ok sw rc Hsw) as (L & R1 & R2 & R3 & R4 & R5). fold sb in L, R1, R2, R3, R4, R5.
  unfold reject_packet. fold sw sb. rewrite R2, R3.
  destruct (Z.eqb_spec CN2IONODE (set_direction_request (rd sb_torus_dest_node sw) (rd sb_torus_source_node sw)))
    as [Ed|Ed].
  - apply wp_bind, wp_gets. wsimp. rewrite <- Ed.
    destruct (memfifo_descriptor_ok sb 0 0 (mybridgingCNnode w) CN2IONODE 0 (sys_rec_fifo_id w 0%nat) L)
      as [[Hn _] Hd].
    destruct (InitPt2PtMemoryFIFODescriptor sb 0 0 (mybridgingCNnode w) CN2IONODE 0 (sys_rec_fifo_id w 0%nat))
      as [d|]; [|by destruct (Hn eq_refl)].
    destruct (Hd d eq_refl) as (_ & Hpa & _ & Hs & Hdst & _).
    apply wp_bind, wp_ret, wp_bind, (wp_InjFifoInject P _ 0 0); [by eapply inj_ready_ext, Hr|].
    intros w' (i & h' & fs & _ & -> & _). apply wp_ret, wp_ret. split; [done|]. left. split; [done|].
    exists d. split; [wsimp; rewrite Hpa; by rewrite <- app_assoc|]. cbv zeta. rewrite Hs. by split_and!.
  - apply wp_ret, wp_ret. split; [done|]. right. split; [congruence|]. by wsimp.
Qed.
End receive_properties.

(** ** Polling the FIFO *)

(** Packets of kind [K] arrive in the FIFO of link [l], at most [arr] more. *)
Class Arrivals (P : platform) (K : list Z -> Prop) (l : nat) (arr : hw_state -> nat) : Prop := {
  arr_mono w : (arr (hw_step P w) <= arr (hw w))%nat;
  arr_step ps w : rec_holds K l (recf w l) (hw w) ps ->
    exists qs, rec_holds K l (recf w l) (hw_step P w) (ps ++ qs) /\
               (arr (hw_step P w) + length qs <= arr (hw w))%nat }.

(** A packet the user takes. *)
Definition taken (P : platform) (pkt : list Z) : Prop :=
  user_packet pkt /\ exists rc, 0 <= rc /\ answers P pkt rc.

#[export] Instance user_receiver P l arr `{!Arrivals P (taken P) l arr} :
  Receiver P (taken P) l (recv_any P) (fun _ => True) (fun pkt => [recv_event pkt]) arr.
Proof.
  split; [|intros ps w H _; split; [done|by apply arr_step]|done].
  intros pkt ps w Hok [[Hd Hu] (rc & Hrc & Ha)] Hh _. unfold recv_any. rewrite Hd, Z.eqb_refl, recv_user by done.
  assert (Hpost : forall h, hw_evolves P (hw w) h -> hw_rec_tail h = hw_rec_tail (hw w) ->
    hw_rec_mem h = hw_rec_mem (hw w) ->
    let w' := w <| trace ::= fun t => t ++ [recv_event pkt] |> <| hw := h |> in
    True /\ trace w' = trace w ++ [recv_event pkt] /\ recf w' l = recf w l /\
    exists qs, rec_holds (taken P) l (recf w' l) (hw w') (ps ++ qs) /\
               (arr (hw w') + length qs <= arr (hw w))%nat).
  { intros h He E1 E2. split_and!; [done..|]. exists []. rewrite app_nil_r, Nat.add_0_r. wsimp. split.
    - by eapply (holds_ext _ _ (hw w)).
    - apply (He (fun h => (arr h <= arr (hw w))%nat)); [|done]. intros w1 H1.
      pose proof (arr_mono w1). lia. }
  destruct (_ || _); apply wp_bind.
  - apply wp_bind, (wp_recv_cb P pkt rc); [done|]. intros h He E1 E2.
    rewrite (proj2 (Z.ltb_ge _ _) Hrc). apply wp_ret, wp_ret. by apply Hpost.
  - apply (wp_recv_cb P pkt rc); [done|]. intros h He E1 E2. apply wp_ret. by apply Hpost.
Qed.

(** C34: the packets in the reception FIFO, and those that arrive while it
    is polled, are handed to the user once each and in order, with the
    software bytes and the payload they were sent with; then the poll
    returns their number and the FIFO is empty. *)
Theorem user_packets_delivered P l arr `{!Arrivals P (taken P) l arr} ps w :
  rec_holds (taken P) l (recf w l) (hw w) ps -> (length ps + arr (hw w) <= spin_fuel P)%nat ->
  wp (mudm_fifo_poll P l) (fun n w' => exists qs,
      n = u64 (Z.of_nat (length (ps ++ qs))) /\ (length qs <= arr (hw w))%nat /\
      trace w' = trace w ++ map recv_event (ps ++ qs) /\
      rec_holds (taken P) l (recf w' l) (hw w') []) w.
Proof.
  intros Hh Hf. eapply wp_mono; [exact (fifo_poll_ok P (taken P) l (recv_any P) (fun _ => True)
    (fun pkt => [recv_event pkt]) arr ps w Hh I Hf)|].
  intros n w' (qs & -> & Hq & T & Hh' & _). exists qs. split_and!; [done|done| |done]. rewrite T. f_equal.
  clear. induction (ps ++ qs) as [|x xs IH]; [done|]. cbn. by rewrite IH.
Qed.

(** ** Witnesses *)

Lemma demo_taken size tag : user_packet (demo_packet size tag) -> taken demo_platform (demo_packet size tag).
Proof.
  intros Hu. split; [done|]. exists 0. split; [done|]. intros w. cbn. split; [done|].
  exists (hw w). split_and!; [auto with mudm|done|done|by destruct w].
Qed.

#[export] Instance demo_arrivals K l : Arrivals demo_platform K l (fun _ => 0%nat).
Proof.
  split; [done|]. intros ps w H. exists []. rewrite app_nil_r. split; [by destruct H|done].
Qed.

Lemma user_packets_delivered_witness :
  wp (mudm_fifo_poll demo_platform 0) (fun n w' => n = 2 /\
    trace w' = [recv_event (demo_packet 1 1); recv_event (demo_packet 0 2)]) demo_arrived.
Proof.
  assert (U1 : user_packet (demo_packet 1 1)) by (split; [done|repeat constructor; done]).
  assert (U2 : user_packet (demo_packet 0 2)) by (split; [done|repeat constructor; done]).
  eapply wp_mono.
  - exact (user_packets_delivered demo_platform 0 (fun _ => 0%nat) [demo_packet 1 1; demo_packet 0 2]
      demo_arrived (demo_holds _ (demo_taken 1 1 U1) (demo_taken 0 2 U2)) (proj1 (Nat.leb_le 2 4) eq_refl)).
  - intros n w' (qs & -> & Hq & -> & _). cbn [length] in Hq.
    destruct qs; [by vm_compute|]. cbn in Hq. lia.
Defined.

(** A packet with two puts, as the sender bundles them. *)
Definition demo_puts : list MUHWI_Descriptor := [demo_put_desc; demo_put_desc <| Message_Length := 100 |>].
Definition demo_put_hdr : list Z :=
  wr (in_hdr sb_type) MUDM_DPUT (wr h_Byte8 4 (wr h_MU_Half (3 * 2 ^ 6) (replicate 32 0))).

Lemma recv_direct_puts_witness :
  wp (mudm_recv_packet demo_platform (demo_put_hdr ++ concat (map bytes_of_desc demo_puts)))
    (fun r w' => r = 0 /\ trace w' = map (fun d => EvInject 0 d None) demo_puts) demo_world.
Proof.
  assert (Hw : Forall desc_wf demo_puts) by (repeat (apply list.Forall_cons; split); [| |done]; split_and!; by vm_compute).
  assert (Hok : packet_ok (demo_put_hdr ++ concat (map bytes_of_desc demo_puts))) by (by vm_compute).
  assert (Ht : type_of (demo_put_hdr ++ concat (map bytes_of_desc demo_puts)) = MUDM_DPUT) by (by vm_compute).
  assert (Hl : 0%nat = (if h_Rec_FIFO_Id (demo_put_hdr ++ concat (map bytes_of_desc demo_puts)) =?
    sys_rec_fifo_id demo_world 0%nat then 0%nat else 1%nat)) by (by vm_compute).
  eapply wp_mono.
  - exact (recv_direct_puts demo_platform demo_put_hdr demo_puts 0 demo_world eq_refl Hok Hw Ht Hl
      (demo_inj_ready 0 2 eq_refl)).
  - intros r w' (-> & i & h & _ & -> & _). done.
Defined.

Definition demo_refusing : platform := mkPlatform (hw_step demo_platform) (fun _ _ => ret (- ENOTCONN))
  (cb_recv_conn demo_platform) (cb_status demo_platform) (cb_allocate demo_platform) (cb_free demo_platform)
  (wakeup_wait demo_platform) 1600 4096 4160 4224 8 (buf_image demo_platform) 4.
#[export] Instance demo_refusing_live : MuLive demo_refusing.
Proof. destruct demo_live as [A B]. by split. Qed.

(** A data packet from the I/O node. *)
Definition demo_data : list Z :=
  wr (in_hdr sb_type) MUDM_PKT_DATA_IMM (wr (in_hdr sb_torus_source_node) 0x80000001
    (wr (in_hdr sb_sequence_number) 9 (replicate 64 0))).

Lemma refused_packet_is_returned_witness :
  wp (mudm_recv_packet demo_refusing demo_data) (fun r w' => exists d,
    trace w' = [recv_event demo_data; EvInject 0 d None] /\
    rd sb_type (addressSoftwareBytes (PacketHeader d)) = MUDM_PKT_ENOTCONN /\
    rd sb_sequence_number (addressSoftwareBytes (PacketHeader d)) = 9) demo_world.
Proof.
  assert (Hb : Forall (fun b => 0 <= b < 256) demo_data)
    by (apply (bool_decide_unpack _); vm_compute; reflexivity).
  assert (Ha : answers demo_refusing demo_data (- ENOTCONN)).
  { intros w. cbn. split; [done|]. exists (hw w). split_and!; [auto with mudm|done|done|by destruct w]. }
  eapply wp_mono.
  - exact (refused_packet_is_returned demo_refusing demo_data (- ENOTCONN) demo_world
      (proj1 (Nat.leb_le 32 64) eq_refl) Hb (or_introl eq_refl) Ha eq_refl (demo_inj_ready 0 1 eq_refl)).
  - intros r w' (_ & [(_ & d & T & A1 & _ & _ & A2 & _)|[Hn _]]); [|by destruct Hn].
    exists d. split_and!; [exact T|exact A1|exact A2].
Defined.
