(* ===== verification/Msg.v ===== *)
(** * Messages without a connection

    bgmudm/mudm_msg.c: single packets and RDMA to any node of the torus;
    mudm_atomic.c: remote atomic operations, built on direct puts and on
    [mudm_send_msg]; mudm_ip.c: [mudm_pkt_imm]. *)

From S2P Require Import Prelude Chain Bytes Descriptor State Inject Concrete Pools Pkt Rdma Connect Transfer.

(** Options of [mudm_send_msg] (include/mudm/include/mudm.h). *)
Definition MUDM_NO_IOLINK := 0.
Definition MUDM_CNB2IONODE := 1.
Definition MUDM_USE_DEFAULT_IO_LINK := 2.
Definition MUDM_IOLINK_PORT6 := 0x08.
Definition MUDM_IOLINK_PORT7 := 0x10.
Definition MUDM_IOLINK_PORT10 := 0x18.
Definition MUDM_IOLINK_ALL_PORTS := 255.

(** [struct remoteget_atomic_controls] and [struct directput_atomic_controls];
    [scratch_area] is the packet buffer at [paddr_here]. *)
Record remoteget_atomic_controls := mkRga {
  ra_local_counter : Z; ra_returned_val : Z; ra_remote_paddr : Z; ra_paddr_here : Z;
  ra_atomic_op : Z; ra_torus_destination : Z; ra_test1_reserved : Z; ra_test2_reserved : Z }.
#[export] Instance FieldsOf_rga : FieldsOf remoteget_atomic_controls := fun a =>
  mkRga (ra_local_counter a) (ra_returned_val a) (ra_remote_paddr a) (ra_paddr_here a)
    (ra_atomic_op a) (ra_torus_destination a) (ra_test1_reserved a) (ra_test2_reserved a).
Record directput_atomic_controls := mkDpa {
  da_source_val : Z; da_remote_counter_physAddr : Z; da_remote_paddr : Z; da_paddr_here : Z;
  da_atomic_op : Z; da_torus_destination : Z }.
Definition OFF_local_counter := 64.
Definition OFF_returned_val := 72.
Definition OFF_test1_reserved := 112.
Definition OFF_source_val := 64.

(** Link, direction and I/O port that the options choose. *)
Definition msg_route (options my_port : Z) : nat * Z * Z :=
  if (options =? MUDM_IOLINK_PORT6) || (options =? MUDM_IOLINK_PORT7) then (1%nat, IONODE2CN, options)
  else if options =? MUDM_IOLINK_PORT10 then (0%nat, IONODE2CN, options)
  else if (options =? MUDM_IOLINK_ALL_PORTS) || (options =? MUDM_USE_DEFAULT_IO_LINK)
  then (0%nat, IONODE2CN, my_port)
  else if options =? MUDM_CNB2IONODE then (0%nat, CN2IONODE, my_port)
  else (0%nat, NODE2NODE, MUHWI_PACKET_RETURN_FROM_IO_NODE_USING_IO_PORT).

(** The software bytes; [sw0] is what the stack held, the sequence number
    is not set. *)
Definition msg_bytes (sw0 : SoftwareBytes_t) (node dest type options payload_length : Z) : SoftwareBytes_t :=
  let sw := wr sb_torus_source_node node sw0 in
  let sw := wr sb_torus_dest_node dest sw in
  let sw := wr sb_payload_length payload_length sw in
  let sw := wr sb_type type sw in
  let sw := wr sb_options options sw in
  let sw := wr sb_port_info MUHWI_PACKET_RETURN_FROM_IO_NODE_USING_IO_PORT sw in
  wr sb_reserved (-1) sw.

Section with_platform.
Context (P : platform).

Definition mudm_send_msg (sw0 : SoftwareBytes_t) (dest type options payload_paddr payload_length : Z) : MW Z :=
  w <- get ;;
  let sw := msg_bytes sw0 (myTorusAddress w) dest type options payload_length in
  let '(l, direction, io_port) := msg_route options (my_using_IO_port w) in
  if payload_length >? TORUS_MAX_PAYLOAD_SIZE then ret (- EINVAL) else
  let destination := if CN2IONODE =? direction then mybridgingCNnode w else dest in
  d <- deref (InitPt2PtMemoryFIFODescriptor sw payload_paddr payload_length destination direction
                io_port (sys_rec_fifo_id w l)) ;;
  desc_count <- InjFifoInject P l d ;;
  wait_desc P (spin_fuel P) l desc_count ;;;
  ret 0.

Definition SIZEOF_descriptor := 64.

(** Ask [torus_destination] to put [bytes_xfer] bytes here. *)
Definition send_rget (pa torus_destination : Z) : MW Z :=
  d <- gets m_iMemoryFifoDescriptor ;;
  InjFifoInjectMemFifo_withDest P 0 d torus_destination MUDM_DPUT pa SIZEOF_descriptor CtxRgetSent.

Definition mudm_rdma_read_on_torus (torus_destination bytes_xfer counter_paddr local_paddr remote_paddr : Z)
    : MW Z :=
  mg <- gets magic ;;
  if negb (mg =? MUDM_MAGIC) then ret (- EFAULT) else
  let p := SmallpaObjCtls 0 in
  pktd <- alloc_pkt_message p ;;
  match pktd with
  | None => ret (- EBUSY)
  | Some i =>
    pk <- get_node (pkt_pool p) i ;;
    node <- gets myTorusAddress ;;
    if counter_paddr =? 0 then
      rdma_obj_item <- allocate_rdma_object 0 ;;
      match rdma_obj_item with
      | None => release_pkt_to_free p i 0 ;;; ret (- EBUSY)
      | Some o =>
        r <- get_node (rdma_pool 0) o ;;
        upd_mue 0 (ro_mue r) (fun m => m <| mu_counter := bytes_xfer |> <| mu_error := 0 |>) ;;;
        d <- deref (initPt2PtDirectPutDescriptor remote_paddr bytes_xfer node NODE2NODE 0
                      (rdma_object_pa r) local_paddr) ;;
        buf_store (message_pa pk) (DataDescs [d]) ;;;
        desc_count <- send_rget (message_pa pk) torus_destination ;;
        active <- gets poll_active ;;
        if active =? 0 then
          spin_until P (spin_fuel P) (fun w => mu_counter (hw_mue (hw w) 0 (ro_mue r)) =? 0) ;;;
          release_pkt_to_free p i 0 ;;;
          free_rdma_obj 0 o ;;;
          ret 0
        else
          release_pkt_to_free p i 0 ;;;
          release_rdma_obj_to_poll 0 o ;;;
          ret (- EFAULT)
      end
    else
      d <- deref (initPt2PtDirectPutDescriptor remote_paddr bytes_xfer node NODE2NODE 0
                    counter_paddr local_paddr) ;;
      buf_store (message_pa pk) (DataDescs [d]) ;;;
      desc_count <- send_rget (message_pa pk) torus_destination ;;
      release_pkt_to_poll p i desc_count ;;;
      ret 0
  end.

Definition mudm_rdma_write_on_torus (torus_destination bytes_xfer counter_paddr local_paddr remote_paddr : Z)
    : MW Z :=
  mg <- gets magic ;;
  if negb (mg =? MUDM_MAGIC) then ret (- EFAULT) else
  ctx_pa <- gets mudm_context_phys_addr ;;
  let phys_counter_addr := if counter_paddr =? 0 then ctx_pa + off_dummy_counter P else counter_paddr in
  d <- deref (initPt2PtDirectPutDescriptor local_paddr bytes_xfer torus_destination NODE2NODE 0
                phys_counter_addr remote_paddr) ;;
  desc_count <- InjFifoInjectDirectPut P 0 d bytes_xfer local_paddr remote_paddr phys_counter_addr ;;
  ret 0.

(** ** Remote atomic operations *)

Definition atomic_address (paddr op : Z) : Z :=
  Z.lor paddr (Z.lor MUHWI_ATOMIC_ADDRESS_INDICATOR (Z.land op 7)).

(** Returns the controls as the call leaves them. *)
Definition mudm_remoteget_load_atomic (sw0 : SoftwareBytes_t) (atc : remoteget_atomic_controls)
    : MW (Z * remoteget_atomic_controls) :=
  let payload_phys_addr := atomic_address (ra_remote_paddr atc) (ra_atomic_op atc) in
  let atc := atc <| ra_local_counter := 8 |> in
  node <- gets myTorusAddress ;;
  d <- deref (initPt2PtDirectPutDescriptor payload_phys_addr 8 node CN2CN 0
                (ra_paddr_here atc + OFF_local_counter) (ra_paddr_here atc + OFF_returned_val)) ;;
  buf_store (ra_paddr_here atc) (DataDescs [d]) ;;;
  r <- mudm_send_msg sw0 (ra_torus_destination atc) MUDM_DPUT MUDM_NO_IOLINK (ra_paddr_here atc) 64 ;;
  ret (0, atc).

Definition mudm_directput_store_atomic (atc : directput_atomic_controls) : MW Z :=
  let source_physaddr := da_paddr_here atc + OFF_source_val in
  let dest_physaddr := atomic_address (da_remote_paddr atc) (da_atomic_op atc) in
  d <- deref (initPt2PtDirectPutDescriptor source_physaddr 8 (da_torus_destination atc) CN2CN 0
                (da_remote_counter_physAddr atc) dest_physaddr) ;;
  buf_store (da_paddr_here atc) (DataDescs [d]) ;;;
  desc_count <- InjFifoInject P 0 d ;;
  ret 0.

Definition run_atomic_tests (sw0 : SoftwareBytes_t) : MW remoteget_atomic_controls :=
  w <- get ;;
  let here := mudm_context_phys_addr w + off_rgatc P in
  let atc := mkRga 8 u64_max (here + OFF_test1_reserved) here MUHWI_ATOMIC_OPCODE_LOAD_INCREMENT
               (myTorusAddress w) 1 u64_max in
  r <- mudm_remoteget_load_atomic sw0 atc ;; ret (snd r).

(** ** Immediate packets

    The pieces of [sgl] by their contents.  The copy does not check the
    size of the buffer: past its end it writes into what follows. *)
Definition mudm_pkt_imm (data_length : Z) (sgl : list (list Z)) : MW Z :=
  mg <- gets magic ;;
  if negb (mg =? MUDM_MAGIC) then ret (- EFAULT) else
  let p := PacketControls 0 in
  pktd <- alloc_pkt_message p ;;
  match pktd with
  | None => ret (- EBUSY)
  | Some i =>
    pk <- get_node (pkt_pool p) i ;;
    size <- gets (fun w => packet_size (pools w p)) ;;
    let bytes := concat sgl in
    (if Z.of_nat (length bytes) <=? size then buf_store (message_pa pk) (DataBytes bytes) else fault) ;;;
    let payload_length := u16 (Z.of_nat (length bytes)) in
    if negb (payload_length =? data_length) then release_pkt_to_free p i 0 ;;; ret (- EFAULT)
    else ret (- EINVAL)
  end.
End with_platform.

(** ** Properties *)

(** The way of a message, as mudm.h describes the options: the link whose
    injection FIFO takes it, whether it goes to the I/O node and by which
    exit it leaves an I/O node (1 for port 6, 2 for port 7, 3 for the I/O
    port), the torus FIFOs it may use, and whether the bridging node comes
    first. *)
Record msg_path := mkPath { mp_link : nat; mp_to_io : Z; mp_exit : Z; mp_fifos : Z; mp_bridge : bool }.
Definition port_path (l : nat) (port : Z) : msg_path :=
  mkPath l 0 (port / 8) (if port =? 8 then 0x200 else if port =? 16 then 0x100 else 4) false.
Definition msg_paths (my_port : Z) : list (Z * msg_path) :=
  [(1, mkPath 0 1 0 4 true); (2, port_path 0 my_port); (8, mkPath 1 0 1 0x200 false); (16, mkPath 1 0 2 0x100 false);
   (24, mkPath 0 0 3 4 false); (255, port_path 0 my_port)].
Definition path_of (options my_port : Z) : msg_path :=
  from_option snd (mkPath 0 0 0 4 false) (List.find (fun x => options =? fst x) (msg_paths my_port)).

Definition takes_path (path : msg_path) (d : MUHWI_Descriptor) : Prop :=
  bf_get 5 1 (rd h_Byte2 (PacketHeader d)) = mp_to_io path /\ bf_get 3 2 (rd h_Byte2 (PacketHeader d)) = mp_exit path /\
  Torus_FIFO_Map d = mp_fifos path.

(** The port of this node is named where it is used. *)
Definition port_named (options my_port : Z) : Prop :=
  options = MUDM_USE_DEFAULT_IO_LINK \/ options = MUDM_IOLINK_ALL_PORTS -> io_port_ok my_port = true.

Lemma io_port_cases port : io_port_ok port = true -> port = 24 \/ port = 8 \/ port = 16.
Proof. unfold io_port_ok. intros [[H|H]%orb_true_iff|H]%orb_true_iff; apply Z.eqb_eq in H; auto. Qed.

(** The choice of [msg_route] is that way. *)
Lemma msg_route_path options my_port : port_named options my_port ->
  let '(l, direction, io_port) := msg_route options my_port in
  let path := path_of options my_port in
  l = mp_link path /\ mp_bridge path = bool_decide (direction = CN2IONODE) /\
  (direction = IONODE2CN -> io_port_ok io_port = true) /\
  forall d, rd h_Byte2 (PacketHeader d) = bf_set 0 1 1 (direction_byte2 direction io_port mod 2 ^ 8) mod 2 ^ 8 ->
    Torus_FIFO_Map d = direction_fifo_map direction io_port -> takes_path path d.
Proof.
  unfold port_named, MUDM_USE_DEFAULT_IO_LINK, MUDM_IOLINK_ALL_PORTS. intros Hp.
  unfold msg_route, path_of, msg_paths, MUDM_IOLINK_PORT6, MUDM_IOLINK_PORT7, MUDM_IOLINK_PORT10, MUDM_IOLINK_ALL_PORTS,
    MUDM_USE_DEFAULT_IO_LINK, MUDM_CNB2IONODE. cbn [List.find fst].
  destruct (Z.eqb_spec options 1) as [->|]; [by split_and!; [..|intros d E1 E2; unfold takes_path; rewrite E1, E2]|].
  destruct (Z.eqb_spec options 2) as [->|].
  { specialize (Hp (or_introl eq_refl)). cbn [Z.eqb Pos.eqb orb from_option snd fst]. split_and!; [done|done|done|]. intros d E1 E2. unfold takes_path. rewrite E1, E2.
    by destruct (io_port_cases _ Hp) as [-> |[-> | ->]]. }
  destruct (Z.eqb_spec options 8) as [->|]; [by split_and!; [..|intros d E1 E2; unfold takes_path; rewrite E1, E2]|].
  destruct (Z.eqb_spec options 16) as [->|]; [by split_and!; [..|intros d E1 E2; unfold takes_path; rewrite E1, E2]|].
  destruct (Z.eqb_spec options 24) as [->|]; [by split_and!; [..|intros d E1 E2; unfold takes_path; rewrite E1, E2]|].
  destruct (Z.eqb_spec options 255) as [->|].
  { specialize (Hp (or_intror eq_refl)). cbn [Z.eqb Pos.eqb orb from_option snd fst]. split_and!; [done|done|done|]. intros d E1 E2. unfold takes_path. rewrite E1, E2.
    by destruct (io_port_cases _ Hp) as [-> |[-> | ->]]. }
  by split_and!; [..|intros d E1 E2; unfold takes_path; rewrite E1, E2].
Qed.

Section msg_rules.
Context (P : platform) `{!MuLive P} (w : world).

(** The message goes out on link [l]; when the call returned the hardware
    had counted its descriptor. *)
Definition departed (l : nat) (w' : world) : Prop := if_numInjected (inj w l) < hw_descCount (hw w') l.
Definition sent_on (l : nat) (d : MUHWI_Descriptor) (w' : world) : Prop :=
  exists w1, inject1 P l d w w1 /\ polled P l w1 w' /\ departed l w'.
(** The shadow of the count is not ahead of what was injected. *)
Definition count_ok (l : nat) : Prop := if_descCount (inj w l) <= if_numInjected (inj w l).

Lemma sent_on_trace l d w' : sent_on l d w' ->
  trace w' = trace w ++ [EvInject l d (mem w !! Pa_Payload d)] /\ mem w' = mem w.
Proof.
  intros (w1 & (i & h & fs & _ & -> & _) & (i2 & h2 & d2 & _ & -> & _) & _). by wsimp.
Qed.

Lemma wp_inject_wait l d (Q : Z -> world -> Prop) :
  inj_ready l 1 w -> count_ok l -> (forall w', sent_on l d w' -> Q 0 w') ->
  wp (desc_count <- InjFifoInject P l d ;; wait_desc P (spin_fuel P) l desc_count ;;; ret 0) Q w.
Proof.
  unfold count_ok. intros Hr Hd HQ. apply wp_bind, (wp_InjFifoInject P _ l 0); [done|]. intros w1 Hi.
  assert (Hn : if_numInjected (inj w l) + 1 <= if_numInjected (inj w1 l) /\ if_descCount (inj w1 l) = if_descCount (inj w l)).
  { destruct Hi as (i & h & fs & _ & -> & Hi & _). wsimp. rewrite Hi. cbn. split; [lia|done]. }
  destruct Hn as [Hn Hs]. apply wp_bind, (wp_wait_desc_done P); [done|lia|].
  intros w2 Hp Hc. apply wp_ret, HQ. exists w1. split_and!; [done|done|unfold departed; lia].
Qed.

Lemma msg_bytes_ok sw0 node dest type options len : length sw0 = SW_LEN ->
  let sw := msg_bytes sw0 node dest type options len in
  length sw = SW_LEN /\ rd sb_type sw = u16 type /\ rd sb_torus_dest_node sw = u32 dest /\
  rd sb_torus_source_node sw = u32 node /\ rd sb_payload_length sw = u16 len.
Proof.
  intros H. unfold SW_LEN in H. cbv zeta. unfold msg_bytes. split_and!; [unfold SW_LEN; wr_len| | | |]; by repeat rd_step.
Qed.

Lemma wp_send_msg sw0 dest type options pa len (Q : Z -> world -> Prop) :
  length sw0 = SW_LEN -> let path := path_of options (my_using_IO_port w) in let l := mp_link path in
  port_named options (my_using_IO_port w) -> len <= TORUS_MAX_PAYLOAD_SIZE -> inj_ready l 1 w -> count_ok l ->
  (forall d w', sent_on l d w' -> Pa_Payload d = pa -> Message_Length d = len ->
     addressSoftwareBytes (PacketHeader d) = msg_bytes sw0 (myTorusAddress w) dest type options len ->
     rd h_Destination (PacketHeader d) = u32 (if mp_bridge path then mybridgingCNnode w else dest) ->
     h_Rec_FIFO_Id (PacketHeader d) = sys_rec_fifo_id w l mod 2 ^ 9 -> takes_path path d -> Q 0 w') ->
  wp (mudm_send_msg P sw0 dest type options pa len) Q w.
Proof.
  intros Hsw path l Hp Hl Hr Hc HQ. pose proof (msg_route_path options (my_using_IO_port w) Hp) as R.
  unfold mudm_send_msg. apply wp_bind, wp_gets. destruct (msg_route options (my_using_IO_port w)) as [[l0 direction] io_port].
  fold path in R. destruct R as (-> & Rb & Rp & Rd). fold l. rewrite Z.gtb_ltb, (proj2 (Z.ltb_ge _ _) Hl).
  set (dst := if CN2IONODE =? direction then mybridgingCNnode w else dest).
  assert (Edst : dst = if mp_bridge path then mybridgingCNnode w else dest).
  { subst dst. rewrite Rb. case_bool_decide as E; [by rewrite E|]. by rewrite (proj2 (Z.eqb_neq _ _)) by congruence. }
  pose proof (msg_bytes_ok sw0 (myTorusAddress w) dest type options len Hsw) as (Hlen & _).
  destruct (memfifo_descriptor_ok _ pa len dst direction io_port (sys_rec_fifo_id w l) Hlen) as [[Hn _] Hd].
  destruct (InitPt2PtMemoryFIFODescriptor _ pa len dst direction io_port (sys_rec_fifo_id w l)) as [d|] eqn:Ed.
  2: { destruct (Hn eq_refl) as [E1 E2]. by rewrite Rp in E2. }
  destruct (Hd d eq_refl) as (_ & D1 & D2 & D3 & D4 & _ & D5 & _).
  destruct (memfifo_descriptor_route _ _ _ _ _ _ _ _ Hlen Ed) as [D6 D7].
  apply wp_bind, wp_ret, wp_inject_wait; [done|done|]. intros w' Hs.
  eapply HQ; [exact Hs|done|done|done|by rewrite D4, Edst|done|by apply Rd].
Qed.

End msg_rules.

Section msg_properties.
Context (P : platform) `{!MuLive P} (w : world).

(** C38: [mudm_send_msg] sends exactly one packet and returns when the
    hardware has counted its descriptor as complete.  The packet takes the
    way the options name: link, bit for the I/O node, exit port and torus
    FIFOs are those of the table [msg_paths], and a message to the I/O node
    goes through the bridging node; the software bytes say type, nodes and
    length.  A payload over 512 bytes is refused with nothing sent. *)
Theorem send_msg_correct sw0 dest type options pa len :
  length sw0 = SW_LEN -> let path := path_of options (my_using_IO_port w) in let l := mp_link path in
  port_named options (my_using_IO_port w) -> inj_ready l 1 w -> count_ok w l ->
  (len > TORUS_MAX_PAYLOAD_SIZE -> mudm_send_msg P sw0 dest type options pa len w = Ok (- EINVAL) w) /\
  (len <= TORUS_MAX_PAYLOAD_SIZE ->
   wp (mudm_send_msg P sw0 dest type options pa len) (fun r w' => r = 0 /\
     if_numInjected (inj w l) < hw_descCount (hw w') l /\
     exists d, trace w' = trace w ++ [EvInject l d (mem w !! pa)] /\ Message_Length d = len /\ takes_path path d /\
       rd h_Destination (PacketHeader d) = u32 (if mp_bridge path then mybridgingCNnode w else dest) /\
       h_Rec_FIFO_Id (PacketHeader d) = sys_rec_fifo_id w l mod 2 ^ 9 /\
       let sb := addressSoftwareBytes (PacketHeader d) in
       rd sb_type sb = u16 type /\ rd sb_torus_dest_node sb = u32 dest /\
       rd sb_torus_source_node sb = u32 (myTorusAddress w) /\ rd sb_payload_length sb = u16 len) w).
Proof.
  intros Hsw path l Hp Hr Hc. split; intros Hl.
  - unfold mudm_send_msg, bind, get. destruct (msg_route _ _) as [[l0 direction] io_port].
    by rewrite Z.gtb_ltb, (proj2 (Z.ltb_lt _ _)) by lia.
  - apply wp_send_msg; [done..|]. intros d w' Hs D1 D2 D3 D4 D5 D6. split; [done|].
    pose proof Hs as (w1 & _ & _ & Hdep). split; [exact Hdep|]. exists d.
    destruct (sent_on_trace _ _ _ _ _ Hs) as [T _]. rewrite D1 in T.
    destruct (msg_bytes_ok sw0 (myTorusAddress w) dest type options len Hsw) as (_ & F).
    cbv zeta. rewrite D3. by destruct F as (? & ? & ? & ?); split_and!.
Qed.

(** A remote atomic load sends the other node one direct put: it reads
    eight bytes from the atomic address of the operation there, writes
    them to [returned_val] here and then counts [local_counter] down from
    eight. *)
Theorem remote_load_atomic_correct sw0 atc :
  length sw0 = SW_LEN -> inj_ready 0 1 w -> count_ok w 0 ->
  Z.land (ra_paddr_here atc + OFF_local_counter) 7 = 0 -> 0 <= ra_paddr_here atc < 2 ^ 36 - 128 ->
  wp (mudm_remoteget_load_atomic P sw0 atc) (fun r w' =>
    r = (0, atc <| ra_local_counter := 8 |>) /\ exists d dp,
      trace w' = trace w ++ [EvInject 0 d (Some (DataDescs [dp]))] /\
      rd sb_type (addressSoftwareBytes (PacketHeader d)) = MUDM_DPUT /\
      rd h_Destination (PacketHeader d) = u32 (ra_torus_destination atc) /\ Message_Length d = 64 /\
      view_put dp = mkPut (atomic_address (ra_remote_paddr atc) (ra_atomic_op atc))
        (ra_paddr_here atc + OFF_returned_val) 8 (ra_paddr_here atc + OFF_local_counter + 2 ^ 36 + 3) /\
      rd h_Destination (PacketHeader dp) = u32 (myTorusAddress w)) w.
Proof.
  intros Hsw Hr Hcn Hal Hpa. unfold mudm_remoteget_load_atomic. apply wp_bind, wp_gets.
  destruct (put_descriptor_ok (atomic_address (ra_remote_paddr atc) (ra_atomic_op atc)) 8 (myTorusAddress w)
    CN2CN 0 (ra_paddr_here atc + OFF_local_counter) (ra_paddr_here atc + OFF_returned_val))
    as (dp & E & V & _ & D); [by left|done|unfold OFF_local_counter; lia|unfold OFF_returned_val; lia|].
  change (ra_paddr_here (atc <| ra_local_counter := 8 |>)) with (ra_paddr_here atc).
  change (ra_remote_paddr (atc <| ra_local_counter := 8 |>)) with (ra_remote_paddr atc).
  rewrite E. apply wp_bind, wp_ret, wp_bind, wp_modify, wp_bind.
  match goal with |- wp _ _ ?x => set (w1 := x) end.
  assert (Hr1 : inj_ready 0 1 w1) by (by eapply inj_ready_ext, Hr).
  apply (wp_send_msg P w1 sw0 (ra_torus_destination atc) MUDM_DPUT MUDM_NO_IOLINK (ra_paddr_here atc) 64);
    [done|by intros [?|?]|by unfold TORUS_MAX_PAYLOAD_SIZE|done|done|]. intros d w' Hs D1 D2 D3 D4 _ _.
  apply wp_ret. split; [done|]. exists d, dp. destruct (sent_on_trace _ _ _ _ _ Hs) as [T _].
  split_and!; [|by rewrite D3; apply (msg_bytes_ok sw0)|exact D4|done|done|done].
  rewrite T, D1. unfold w1. wsimp. by rewrite lookup_insert_eq.
Qed.

(** An RDMA write on the torus is one direct put of the whole transfer,
    counted down in the counter given, or in a dummy counter of the remote
    context when none is given. *)
Theorem write_on_torus_correct dest bytes ctr local_pa remote_pa :
  let c := if decide (ctr = 0) then mudm_context_phys_addr w + off_dummy_counter P else ctr in
  inj_ready 0 1 w -> Z.land c 7 = 0 -> 0 <= c < 2 ^ 36 -> 0 <= remote_pa < 2 ^ 37 ->
  (magic w = MUDM_MAGIC ->
   wp (mudm_rdma_write_on_torus P dest bytes ctr local_pa remote_pa) (fun r w' => r = 0 /\
     exists d, trace w' = trace w ++ [EvInject 0 d (mem w !! local_pa)] /\
       view_put d = mkPut local_pa remote_pa bytes (c + 2 ^ 36 + 3) /\
       rd h_Destination (PacketHeader d) = u32 dest) w) /\
  (magic w <> MUDM_MAGIC ->
   mudm_rdma_write_on_torus P dest bytes ctr local_pa remote_pa w = Ok (- EFAULT) w).
Proof.
  intros c Hr Hal Hc Hpa. split; intros Hm.
  - unfold mudm_rdma_write_on_torus. apply wp_bind, wp_gets. rewrite Hm. cbn [Z.eqb negb].
    assert (Hneg : negb (MUDM_MAGIC =? MUDM_MAGIC) = false) by done. rewrite Hneg.
    apply wp_bind, wp_gets. change (if ctr =? 0 then ?a else ctr) with (if ctr =? 0 then a else ctr).
    assert (Ec : (if ctr =? 0 then mudm_context_phys_addr w + off_dummy_counter P else ctr) = c).
    { subst c. case_decide as E; [by rewrite E|]. by rewrite (proj2 (Z.eqb_neq _ _)). }
    rewrite Ec.
    destruct (put_descriptor_ok local_pa bytes dest NODE2NODE 0 c remote_pa) as (d & E & V & Hd & D);
      [by left|done|done|done|].
    rewrite E. apply wp_bind, wp_ret, wp_bind.
    destruct (set_counter_directput_Some c (set_dma_directput bytes local_pa remote_pa d) Hal) as [d' E'].
    eapply (wp_InjFifoInjectDirectPut P _ 0 0); [done|exact E'|].
    intros w' (i & h & fs & _ & -> & _). apply wp_ret. split; [done|]. exists d'.
    destruct (view_directput bytes local_pa remote_pa c d d' Hd Hpa Hc E') as [V' _].
    split_and!; [|done|].
    + wsimp. by rewrite (f_equal pt_src V' : Pa_Payload d' = local_pa).
    + unfold set_counter_directput in E'. rewrite Hal in E'. injection E' as <-.
      unfold set_dma_directput.
      destruct (set_put_offset_keeps remote_pa (d <| Pa_Payload := local_pa |> <| Message_Length := bytes |>) Hd)
        as (C0 & _ & _ & C3).
      etransitivity; [apply rd_wr_other; [field_lia|rewrite C0; field_lia]|].
      exact (eq_trans C3 D).
  - unfold mudm_rdma_write_on_torus, bind, gets. by rewrite (proj2 (Z.eqb_neq _ _) Hm).
Qed.

(** [mudm_pkt_imm] never sends: with pieces of the stated length it
    copies them, returns [-EINVAL] and the packet buffer is on no list any
    more; with any other length the buffer goes back to the free list. *)
Theorem pkt_imm_leaks data_length sgl i fl al :
  let O := pkt_pool (PacketControls 0) in
  pool_wf O w (i :: fl) al -> magic w = MUDM_MAGIC ->
  Z.of_nat (length (concat sgl)) <= packet_size (pools w (PacketControls 0)) ->
  wp (mudm_pkt_imm data_length sgl) (fun r w' => trace w' = trace w /\
    if decide (u16 (Z.of_nat (length (concat sgl))) = data_length)
    then r = - EINVAL /\ pool_wf O w' fl al
    else r = - EFAULT /\ pool_wf O w' (i :: fl) al) w.
Proof.
  intros O Hw Hm Hl. unfold mudm_pkt_imm. apply wp_bind, wp_gets. rewrite Hm.
  assert (Hneg : negb (MUDM_MAGIC =? MUDM_MAGIC) = false) by done. rewrite Hneg.
  apply wp_bind. eapply wp_alloc_pkt_message; [exact Hw|done|]. intros i' fl' w1 [= <- <-] Hw1 Hf1 (d & Hd & _).
  apply wp_bind. eapply wp_get_node; [exact Hd|]. apply wp_bind, wp_gets, wp_bind.
  destruct Hf1 as [[v Ev] _].
  assert (Es : packet_size (pools w1 (PacketControls 0)) = packet_size (pools w (PacketControls 0)) /\
               trace w1 = trace w) by (rewrite Ev; cbn; by rewrite fn_lookup_insert).
  destruct Es as [-> Et]. rewrite (proj2 (Z.leb_le _ _) Hl). apply wp_modify.
  set (w2 := w1 <| mem ::= _ |>).
  assert (Hw2 : pool_wf O w2 fl al) by (by eapply pool_wf_ext, Hw1).
  assert (Et2 : trace w2 = trace w) by done.
  assert (Hd2 : is_Some (heap_of O w2 !! i)) by (by exists d).
  clearbody w2. case_decide as Ec.
  - rewrite Ec, Z.eqb_refl. by apply wp_ret.
  - rewrite (proj2 (Z.eqb_neq _ _) Ec). cbn [negb]. apply wp_bind.
    eapply wp_release_pkt_to_free; [exact Hw2| |exact Hd2|].
    { by pose proof (wf_nodup _ _ _ _ Hw) as [? _]%list.NoDup_cons. }
    intros w3 Hw3 [[v3 ->] _]. apply wp_ret. split_and!; [exact Et2|done|done].
Qed.
End msg_properties.

(** ** Witnesses *)

Lemma demo_count_ok l : count_ok demo_world l.
Proof. by vm_compute. Qed.
Lemma send_msg_correct_witness :
  mudm_send_msg demo_platform (replicate 18 0) 0x77 MUDM_DPUT MUDM_NO_IOLINK 0x9000 600 demo_world
    = Ok (- EINVAL) demo_world /\
  wp (mudm_send_msg demo_platform (replicate 18 0) 0x77 MUDM_DPUT MUDM_IOLINK_PORT7 0x9000 64)
    (fun r w' => r = 0 /\ exists d, trace w' = [EvInject 1 d None] /\ Torus_FIFO_Map d = 0x100) demo_world.
Proof.
  assert (Hp : forall o, o = 0 \/ o = 16 -> port_named o (my_using_IO_port demo_world)) by (intros o [-> | ->] [?|?]; done).
  split.
  - exact (proj1 (send_msg_correct demo_platform demo_world (replicate 18 0) 0x77 MUDM_DPUT MUDM_NO_IOLINK
      0x9000 600 eq_refl (Hp _ (or_introl eq_refl)) (demo_inj_ready 0 1 eq_refl) (demo_count_ok 0)) eq_refl).
  - eapply wp_mono.
    + refine (proj2 (send_msg_correct demo_platform demo_world (replicate 18 0) 0x77 MUDM_DPUT MUDM_IOLINK_PORT7
        0x9000 64 eq_refl (Hp _ (or_intror eq_refl)) (demo_inj_ready 1 1 eq_refl) (demo_count_ok 1)) _). by unfold TORUS_MAX_PAYLOAD_SIZE.
    + intros r w' (-> & _ & d & T & _ & (_ & _ & F) & _). split; [done|]. exists d. split; [exact T|exact F].
Defined.

Definition demo_atc : remoteget_atomic_controls := mkRga 0 0 0x7000 0x48000 2 0x1234 0 0.

Lemma remote_load_atomic_correct_witness :
  wp (mudm_remoteget_load_atomic demo_platform (replicate 18 0) demo_atc) (fun r w' => exists d dp,
    trace w' = [EvInject 0 d (Some (DataDescs [dp]))] /\
    view_put dp = mkPut (0x7000 + 2 ^ 36 + 2) (0x48000 + 72) 8 (0x48000 + 64 + 2 ^ 36 + 3)) demo_world.
Proof.
  assert (Hb : 0 <= ra_paddr_here demo_atc < 2 ^ 36 - 128) by (by vm_compute).
  eapply wp_mono.
  - exact (remote_load_atomic_correct demo_platform demo_world (replicate 18 0) demo_atc eq_refl
      (demo_inj_ready 0 1 eq_refl) (demo_count_ok 0) eq_refl Hb).
  - intros r w' (_ & d & dp & T & _ & _ & _ & V & _). exists d, dp. split; [exact T|exact V].
Defined.

Lemma write_on_torus_correct_witness :
  wp (mudm_rdma_write_on_torus demo_platform 0x1234 4096 0 0x9000 0xa000) (fun r w' => r = 0 /\
    exists d, trace w' = [EvInject 0 d None] /\
      view_put d = mkPut 0x9000 0xa000 4096 (0x40000 + 4096 + 2 ^ 36 + 3)) demo_world.
Proof.
  assert (Hc : 0 <= 0x40000 + 4096 < 2 ^ 36) by lia. assert (Hr : 0 <= 0xa000 < 2 ^ 37) by lia.
  eapply wp_mono.
  - exact (proj1 (write_on_torus_correct demo_platform demo_world 0x1234 4096 0 0x9000 0xa000
      (demo_inj_ready 0 1 eq_refl) eq_refl Hc Hr) eq_refl).
  - intros r w' (-> & d & T & V & _). split; [done|]. exists d. split; [exact T|exact V].
Defined.

Lemma pkt_imm_leaks_witness :
  wp (mudm_pkt_imm 3 [[1]; [2; 3]]) (fun r w' => r = - EINVAL /\
    pool_wf (pkt_pool (PacketControls 0)) w' [1%nat; 2%nat] []) demo_world.
Proof.
  eapply wp_mono.
  - exact (pkt_imm_leaks demo_world 3 [[1]; [2; 3]] 0 [1%nat; 2%nat] [] demo_pool_wf
      eq_refl ltac:(by vm_compute)).
  - intros r w' [_ H]. exact H.
Defined.

(** On a link that is not active the packet is not sent, and [mudm_send_msg]
    waits for a descriptor that does not exist. *)
Example send_msg_inactive_hangs :
  mudm_send_msg demo_platform (replicate 18 0) 0x77 MUDM_DPUT MUDM_NO_IOLINK 0x9000 64
    (demo_world <| inj_state := fun _ => 0 |>) = Hang.
Proof. by vm_compute. Qed.

(** The pieces are copied without regard to the size of the buffer. *)
Example pkt_imm_overflow : mudm_pkt_imm 513 [replicate 513 0] demo_world = Fault.
Proof. by vm_compute. Qed.
