(* ===== verification/Lock.v ===== *)
(** * The spin lock under concurrency

    bgmudm/mudm_lock.c and mudm_lock.h at the level of their memory
    accesses: [lwarx] takes a reservation, any store to the word takes it
    away from every thread, [stwcx.] stores only with a reservation.  The
    threads interleave freely.  The rest of the development uses
    [SPIN_LOCK] and [SPIN_UNLOCK] of [State], the view of one thread. *)

From S2P Require Import Prelude.

(** Where a thread is in [lock] and [unlock]; [freeValue] is the local
    variable of [lock], [tmp_val] that of [comp_and_swap]. *)
Inductive pc :=
| Idle
| AtLoad (freeValue : Z)             (* comp_and_swap: before the load *)
| AtCompare (freeValue tmp_val : Z)  (* *pOldValue != tmp_val ? *)
| AtStore (freeValue : Z)            (* before the conditional store *)
| AtSpin (freeValue : Z)             (* while (pLock->atom) {} *)
| InCritical                         (* lock has returned *)
| AtRelease.                         (* unlock: after msync, before the store *)

Record lstate := mkL { atom : Z; reserved : nat -> bool; at_pc : nat -> pc }.
#[export] Instance FieldsOf_lstate : FieldsOf lstate := fun s =>
  mkL (atom s) (reserved s) (at_pc s).

Section lock.
Context (pir : nat -> Z). (* processor ID register of a thread *)

Definition ProcessorID (t : nat) : Z := Z.land (pir t) 0x3FF.
Definition my_unique_index (t : nat) : Z := u32 (u64 (ProcessorID t + 1)).

Definition goto (t : nat) (p : pc) (s : lstate) : lstate := s <| at_pc ::= <[t := p]> |>.

(** A store by anyone: all reservations are lost. *)
Definition store (v : Z) (s : lstate) : lstate := s <| atom := v |> <| reserved := fun _ => false |>.

Definition myLoadReserved32 (t : nat) (s : lstate) : Z * lstate :=
  (atom s, s <| reserved ::= <[t := true]> |>).

(** [kept]: whether the reservation, if it still holds, survived until the
    store; the hardware may also drop it for reasons of its own. *)
Definition myStoreConditional32 (t : nat) (v : Z) (kept : bool) (s : lstate) : bool * lstate :=
  if reserved s t && kept then (true, store v s) else (false, s <| reserved ::= <[t := false]> |>).

(** One memory access or test of thread [t]; from [Idle] it calls [lock],
    from the critical section [unlock]. *)
Definition thread_step (t : nat) (kept : bool) (s : lstate) : lstate :=
  match at_pc s t with
  | Idle => goto t (AtLoad 0) s
  | AtLoad old => let '(tmp_val, s) := myLoadReserved32 t s in goto t (AtCompare old tmp_val) s
  | AtCompare old tmp_val =>
      if negb (old =? tmp_val) then goto t (AtSpin tmp_val) s else goto t (AtStore old) s
  | AtStore old =>
      let '(ok, s) := myStoreConditional32 t (my_unique_index t) kept s in
      if ok then goto t InCritical s else goto t (AtLoad old) s
  | AtSpin old => if negb (atom s =? 0) then s else goto t (AtLoad 0) s
  | InCritical => goto t AtRelease s
  | AtRelease => goto t Idle (store 0 s)
  end.

Inductive lock_step : lstate -> lstate -> Prop :=
| Lock_step t kept s : lock_step s (thread_step t kept s).

Definition lock_init : lstate := mkL 0 (fun _ => false) (fun _ => Idle).

Inductive reachable : lstate -> Prop :=
| Reach_init : reachable lock_init
| Reach_step s s' : reachable s -> lock_step s s' -> reachable s'.

(** [t] has the lock until its [unlock] has stored. *)
Definition holds (s : lstate) (t : nat) : Prop := at_pc s t = InCritical \/ at_pc s t = AtRelease.

(** ** The invariant *)

Lemma index_nonzero t : my_unique_index t <> 0.
Proof.
  unfold my_unique_index, ProcessorID. change 0x3FF with (Z.ones 10). rewrite Z.land_ones by lia.
  pose proof (Z.mod_pos_bound (pir t) (2 ^ 10) ltac:(lia)).
  rewrite u64_small, u32_small by lia. lia.
Qed.

(** A free word has no holder, a taken one is the index of its only
    holder; a thread with a reservation still sees the word it loaded, and
    only compares with zero. *)
Record lock_inv (s : lstate) : Prop := mkInv {
  inv_free : atom s = 0 -> forall t, ~ holds s t;
  inv_one : forall t1 t2, holds s t1 -> holds s t2 -> t1 = t2;
  inv_owner : forall t, holds s t -> atom s = my_unique_index t;
  inv_load : forall t old, at_pc s t = AtLoad old -> old = 0;
  inv_cmp : forall t old tmp, at_pc s t = AtCompare old tmp ->
    old = 0 /\ (reserved s t = true -> tmp = atom s);
  inv_store : forall t old, at_pc s t = AtStore old -> old = 0 /\ (reserved s t = true -> atom s = 0) }.

Lemma lock_inv_init : lock_inv lock_init.
Proof. split; unfold holds; cbn; naive_solver. Qed.

(** Case analysis on whether a thread is the one that moved. *)
Ltac threads :=
  repeat match goal with
  | H : context [<[?t := _]> _ ?u] |- _ =>
      destruct (decide (t = u)) as [<-|];
      [rewrite fn_lookup_insert in H|rewrite fn_lookup_insert_ne in H by done]
  | |- context [<[?t := _]> _ ?u] =>
      destruct (decide (t = u)) as [<-|];
      [rewrite fn_lookup_insert|rewrite fn_lookup_insert_ne by done]
  end.

Lemma lock_inv_step t kept s : lock_inv s -> lock_inv (thread_step t kept s).
Proof.
  intros [F O W L C S]. pose proof (index_nonzero t) as Hi. unfold thread_step.
  destruct (at_pc s t) as [|old|old tmp|old|old| |] eqn:E.
  - split; unfold holds, goto in *; cbn; intros; threads; naive_solver.
  - apply L in E as E0. split; unfold holds, goto, myLoadReserved32 in *; cbn; intros; threads; naive_solver.
  - destruct (C _ _ _ E) as [-> Ht]. destruct (Z.eqb_spec 0 tmp) as [<-|]; cbn [negb];
      split; unfold holds, goto in *; cbn; intros; threads; naive_solver.
  - destruct (S _ _ E) as [-> Ht]. unfold myStoreConditional32.
    destruct (reserved s t && kept) eqn:Er.
    + apply andb_prop in Er as [Er _]. specialize (Ht Er). specialize (F Ht).
      split; unfold holds, goto, store in *; cbn; intros; threads; naive_solver.
    + split; unfold holds, goto in *; cbn; intros; threads; naive_solver.
  - destruct (Z.eqb_spec (atom s) 0) as [Ea|]; cbn [negb]; [|by split].
    split; unfold holds, goto in *; cbn; intros; threads; naive_solver.
  - split; unfold holds, goto in *; cbn; intros; threads; naive_solver.
  - assert (Ho : forall u, holds s u -> u = t) by (intros u Hu; apply O; [done|by right]).
    split; unfold holds, goto, store in *; cbn; intros; threads; naive_solver.
Qed.

Lemma reachable_inv s : reachable s -> lock_inv s.
Proof.
  induction 1 as [|s s' _ IH Hs]; [apply lock_inv_init|]. destruct Hs. by apply lock_inv_step.
Qed.

(** ** Properties *)

(** C39: however the threads interleave and whichever conditional stores
    fail, at most one thread is between [lock] and the end of [unlock], and
    the word then holds one more than the processor ID of that thread. *)
Theorem lock_mutual_exclusion s t1 t2 :
  reachable s -> holds s t1 -> holds s t2 -> t1 = t2 /\ atom s = my_unique_index t1.
Proof. intros [F O W L C S]%reachable_inv H1 H2. eauto. Qed.

(** [n] steps of thread [t] alone, its conditional stores not disturbed. *)
Definition run_alone (n : nat) (t : nat) (s : lstate) : lstate := Nat.iter n (thread_step t true) s.

Lemma alone_load s t : atom s = 0 -> at_pc s t = AtLoad 0 -> at_pc (run_alone 3 t s) t = InCritical.
Proof.
  intros Ha E.
  change (run_alone 3 t s) with (thread_step t true (thread_step t true (thread_step t true s))).
  assert (E1 : thread_step t true s = goto t (AtCompare 0 0) (s <| reserved ::= <[t := true]> |>)).
  { unfold thread_step. rewrite E. cbn [myLoadReserved32]. by rewrite Ha. }
  rewrite E1. unfold thread_step at 2. cbn. rewrite !fn_lookup_insert. cbn.
  unfold thread_step. cbn. rewrite !fn_lookup_insert. cbn.
  unfold myStoreConditional32. cbn. rewrite !fn_lookup_insert. cbn. by rewrite fn_lookup_insert.
Qed.

Lemma alone_next s p t : thread_step t true s = goto t (AtLoad 0) p -> atom p = 0 ->
  at_pc (run_alone 4 t s) t = InCritical.
Proof.
  intros E Hp. unfold run_alone. rewrite Nat.iter_succ_r, E.
  apply alone_load; cbn; [done|by rewrite fn_lookup_insert].
Qed.

Lemma alone_store s t : atom s = 0 -> at_pc s t = AtStore 0 ->
  exists n, (n <= 4)%nat /\ at_pc (run_alone n t s) t = InCritical.
Proof.
  intros Ha E. destruct (reserved s t) eqn:Er.
  - exists 1%nat. split; [lia|]. change (run_alone 1 t s) with (thread_step t true s). unfold thread_step.
    rewrite E. unfold myStoreConditional32. rewrite Er. cbn. by rewrite fn_lookup_insert.
  - exists 4%nat. split; [lia|]. apply (alone_next _ (s <| reserved ::= <[t := false]> |>)); [|done].
    unfold thread_step. rewrite E. unfold myStoreConditional32. by rewrite Er.
Qed.

(** A thread that calls [lock], waits in it or is about to retry gets
    the lock within five of its own steps when nobody has it and nobody
    else moves, whatever happened before. *)
Theorem lock_acquires s t :
  reachable s -> atom s = 0 -> exists n, (n <= 5)%nat /\ at_pc (run_alone n t s) t = InCritical.
Proof.
  intros [F O W L C St]%reachable_inv Ha.
  destruct (at_pc s t) as [|old|old tmp|old|old| |] eqn:E.
  - exists 4%nat. split; [lia|]. apply (alone_next s s); [|done]. unfold thread_step. by rewrite E.
  - exists 3%nat. split; [lia|]. apply alone_load; [done|]. by rewrite E, (L _ _ E).
  - destruct (C _ _ _ E) as [-> Ht]. destruct (decide (tmp = 0)) as [->|Hn].
    + (* the compare succeeds; without its reservation the store fails once *)
      assert (E1 : thread_step t true s = goto t (AtStore 0) s) by (unfold thread_step; by rewrite E).
      destruct (alone_store (goto t (AtStore 0) s) t) as (n & Hn & Hc); [done|cbn; by rewrite fn_lookup_insert|].
      exists (S n). split; [lia|]. unfold run_alone. by rewrite Nat.iter_succ_r, E1.
    + exists 5%nat. split; [lia|]. unfold run_alone. rewrite Nat.iter_succ_r.
      assert (E1 : thread_step t true s = goto t (AtSpin tmp) s).
      { unfold thread_step. rewrite E. by rewrite (proj2 (Z.eqb_neq 0 tmp)) by congruence. }
      rewrite E1. apply (alone_next _ (goto t (AtSpin tmp) s)); [|done].
      unfold thread_step. cbn. rewrite fn_lookup_insert. by rewrite Ha.
  - destruct (St _ _ E) as [-> _]. destruct (alone_store s t) as (n & Hn & Hc); [done..|]. exists n. split; [lia|done].
  - exists 4%nat. split; [lia|]. apply (alone_next s s); [|done]. unfold thread_step. by rewrite E, Ha.
  - exists 0%nat. split; [lia|done].
  - destruct (F Ha t). by right.
Qed.
End lock.

(** ** Witnesses: two threads, the second one waits *)

Definition demo_contended : lstate :=
  thread_step (fun t => Z.of_nat t) 1 true (run_alone (fun t => Z.of_nat t) 4 0 lock_init).

Lemma demo_contended_reachable : reachable (fun t => Z.of_nat t) demo_contended.
Proof.
  unfold demo_contended, run_alone. cbn [Nat.iter].
  repeat (eapply Reach_step; [|apply Lock_step]). apply Reach_init.
Qed.

Lemma lock_mutual_exclusion_witness :
  holds demo_contended 0 /\ atom demo_contended = my_unique_index (fun t => Z.of_nat t) 0.
Proof.
  assert (H : holds demo_contended 0) by (by left). split; [done|].
  exact (proj2 (lock_mutual_exclusion _ demo_contended 0 0 demo_contended_reachable H H)).
Defined.

Lemma lock_acquires_witness :
  exists n, (n <= 5)%nat /\ at_pc (run_alone (fun t => Z.of_nat t) n 1 lock_init) 1 = InCritical.
Proof. exact (lock_acquires _ lock_init 1 (Reach_init _) eq_refl). Defined.
