(* ===== verification/Kernel.v ===== *)
(** * Allocation of message unit resources

    include/MU_impl.h and the end of include/spi/include/kernel/MU.h: the
    routines with which injection FIFOs, reception FIFOs and base address
    table entries of a subgroup are allocated, initialised, enabled and
    given back.  Their state is the registers of the message unit: a FIFO
    is free when its start register is zero, a table entry when it is all
    ones, and who may use one is a bit of a device control register (DCR). *)

From Stdlib Require Import FunctionalExtensionality.
From S2P Require Import Prelude.

Definition EACCES := 13.
Definition BGQ_MU_NUM_FIFO_GROUPS : nat := 17.
Definition BGQ_MU_NUM_FIFO_SUBGROUPS : nat := 4.
Definition BGQ_MU_NUM_FIFO_SUBGROUPS_PER_NODE : nat := 68.
Definition BGQ_MU_NUM_INJ_FIFOS_PER_SUBGROUP : nat := 8.
Definition BGQ_MU_NUM_REC_FIFOS_PER_SUBGROUP : nat := 4.
Definition NUM_DATA_COUNTERS_PER_SUBGROUP : nat := 8.
Definition BGQ_MU_MIN_INJFIFO_SIZE_IN_BYTES := 128.
Definition BGQ_MU_MIN_RECFIFO_SIZE_IN_BYTES := 576.
Definition FREE_BAT := 0x1FFFFFFFFF.

(** [_BN(b)]: bit [b], counted from the left. *)
Definition BN (b : Z) : Z := Z.shiftl 1 (63 - b).

(** ** Registers *)

Inductive dcr_name :=
| IMFIFO_RGET | IMFIFO_SYSTEM | IMFIFO_THOLD_INT_EN
| RMFIFO_EN | RMFIFO_SYSTEM | RMFIFO_THOLD_INT_EN | RMFIFO_PACKET_INT_EN
| RPUTBASE_SYSTEM0 | RPUTBASE_SYSTEM1
| IMU_THOLD | RGET_THOLD | RMU_THOLD
| GIP_INT_EN_0_7 | GIP_INT_EN_8_15 | GIP_INT_EN_16.
#[export] Instance dcr_name_eq : EqDecision dcr_name.
Proof. solve_decision. Defined.

(** [MUHWI_Fifo_t] *)
Record fifo_regs := mkFr { fr_pa_start : Z; fr_pa_head : Z; fr_pa_tail : Z; fr_size_1 : Z }.
#[export] Instance FieldsOf_fr : FieldsOf fifo_regs := fun r =>
  mkFr (fr_pa_start r) (fr_pa_head r) (fr_pa_tail r) (fr_size_1 r).

(** Keys: a FIFO or a table entry is (subgroup, index), a DCR is (name,
    group) with group 0 for those there is one of. *)
Record mu_regs := mkMu {
  mu_inj : nat * nat -> fifo_regs;
  mu_rec : nat * nat -> fifo_regs;
  mu_freeSpace : nat * nat -> Z;
  mu_isEnabled : nat -> Z;
  mu_priority : nat -> Z;
  mu_bat : nat * nat -> Z;
  mu_dcr : dcr_name * nat -> Z }.
#[export] Instance FieldsOf_mu : FieldsOf mu_regs := fun m =>
  mkMu (mu_inj m) (mu_rec m) (mu_freeSpace m) (mu_isEnabled m) (mu_priority m) (mu_bat m) (mu_dcr m).

Definition MU (A : Type) : Type := M mu_regs A.

Definition MUSPI_assert (b : bool) : MU unit := if b then ret tt else fault.
Definition read_dcr (n : dcr_name) (g : nat) : MU Z := gets (fun m => mu_dcr m (n, g)).
Definition write_dcr (n : dcr_name) (g : nat) (v : Z) : MU unit :=
  modify (fun m => m <| mu_dcr ::= <[(n, g) := v]> |>).
Definition upd_inj_regs (k : nat * nat) (u : fifo_regs -> fifo_regs) : MU unit :=
  modify (fun m => m <| mu_inj ::= fun f => <[k := u (f k)]> f |>).
Definition upd_rec_regs (k : nat * nat) (u : fifo_regs -> fifo_regs) : MU unit :=
  modify (fun m => m <| mu_rec ::= fun f => <[k := u (f k)]> f |>).

(** ** The structures of the caller *)

(** [MUSPI_Fifo_t] with the [freeSpace] of [MUSPI_InjFifo_t]; [hwfifo]
    points to the registers of a FIFO, with or without the privileged bit
    of the address. *)
Record fifo_shadow := mkSh {
  sh_pa_start : Z; sh_va_start : Z; sh_size_1 : Z; sh_va_head : Z; sh_va_tail : Z; sh_va_end : Z;
  sh_hwfifo : option (nat * nat * bool); sh_freeSpace : Z }.
#[export] Instance FieldsOf_sh : FieldsOf fifo_shadow := fun s =>
  mkSh (sh_pa_start s) (sh_va_start s) (sh_size_1 s) (sh_va_head s) (sh_va_tail s) (sh_va_end s)
    (sh_hwfifo s) (sh_freeSpace s).
Definition zero_shadow : fifo_shadow := mkSh 0 0 0 0 0 0 None 0.

(** [MUSPI_InjFifoSubGroup_t] and [MUSPI_RecFifoSubGroup_t]; of the pointer
    [groupStatus] the subgroup is [subgroupid], this is its privileged bit. *)
Record fifo_subgroup := mkSg { sg_fifos : nat -> fifo_shadow; sg_privileged : bool; subgroupid : nat }.
#[export] Instance FieldsOf_sg : FieldsOf fifo_subgroup := fun s =>
  mkSg (sg_fifos s) (sg_privileged s) (subgroupid s).

(** [MUSPI_BaseAddressTableSubGroup_t] *)
Record bat_subgroup := mkBat {
  bat_subgrpid : nat; bat_permissions : Z; bat_privileged : bool; sw_bat : nat -> Z }.
#[export] Instance FieldsOf_bat : FieldsOf bat_subgroup := fun b =>
  mkBat (bat_subgrpid b) (bat_permissions b) (bat_privileged b) (sw_bat b).

Record Kernel_InjFifoAttributes := mkIa { RemoteGet : Z; ia_System : Z; Priority : Z }.
Record Kernel_RecFifoAttributes := mkRa { ra_System : Z }.
Record Kernel_InjFifoInterrupts := mkIi { ii_Threshold_Crossing : Z }.
Record Kernel_RecFifoInterrupts := mkRi { ri_Threshold_Crossing : Z; ri_Packet_Arrival : Z }.

(** ** Which are free *)

Definition gid_of (subgrpid : nat) : nat := subgrpid / BGQ_MU_NUM_FIFO_SUBGROUPS.
Definition sgid_of (subgrpid : nat) : nat := subgrpid mod BGQ_MU_NUM_FIFO_SUBGROUPS.

#[global] Arguments gid_of : simpl never.
#[global] Arguments sgid_of : simpl never.

Definition Kernel_QueryInjFifos (subgrpid : nat) : MU (list nat) := gets (fun m =>
  filter (fun i => fr_pa_start (mu_inj m (subgrpid, i)) = 0) (seq 0 BGQ_MU_NUM_INJ_FIFOS_PER_SUBGROUP)).
Definition Kernel_QueryRecFifos (subgrpid : nat) : MU (list nat) := gets (fun m =>
  filter (fun i => fr_pa_start (mu_rec m (subgrpid, i)) = 0) (seq 0 BGQ_MU_NUM_REC_FIFOS_PER_SUBGROUP)).
Definition Kernel_QueryBaseAddressTable (subgrpid : nat) : MU (list nat) :=
  MUSPI_assert (subgrpid <? BGQ_MU_NUM_FIFO_SUBGROUPS_PER_NODE)%nat ;;;
  gets (fun m => filter (fun i => mu_bat m (subgrpid, i) = FREE_BAT) (seq 0 NUM_DATA_COUNTERS_PER_SUBGROUP)).

(** Are all requested numbers free?  Stops at the first one that is not;
    numbers out of range are assertion failures. *)
Fixpoint all_free (limit : nat) (free ids : list nat) : MU bool :=
  match ids with
  | [] => ret true
  | fifoid :: ids =>
      MUSPI_assert (fifoid <? limit)%nat ;;;
      if decide (fifoid ∈ free) then all_free limit free ids else ret false
  end.

(** ** Masks

    The bits of the FIFOs whose attributes satisfy [p]; the bit of a FIFO in
    its group is 31 less its number in the group in the enable and priority
    registers and bit [32 + number] from the left in the DCRs. *)
Definition inj_bit (sgid fifoid : nat) : Z :=
  Z.shiftl 1 (31 - Z.of_nat (fifoid + sgid * BGQ_MU_NUM_INJ_FIFOS_PER_SUBGROUP)).
Definition inj_dcr_bit (sgid fifoid : nat) : Z :=
  BN (32 + Z.of_nat (sgid * BGQ_MU_NUM_INJ_FIFOS_PER_SUBGROUP + fifoid)).
Definition rec_dcr_bit (sgid fifoid : nat) : Z :=
  BN (48 + Z.of_nat (sgid * BGQ_MU_NUM_REC_FIFOS_PER_SUBGROUP + fifoid)).

Definition mask_of {A} (bit : nat -> Z) (p : A -> bool) (reqs : list (nat * A)) : Z :=
  foldl (fun mask r => if p (snd r) then Z.lor mask (bit (fst r)) else mask) 0 reqs.

(** ** Injection FIFOs *)

(** Each allocated FIFO gets the address of its registers and a start
    register that is not zero. *)
Fixpoint mark_inj (subgrpid : nat) (reqs : list (nat * Kernel_InjFifoAttributes)) (sg : fifo_subgroup)
    : MU fifo_subgroup :=
  match reqs with
  | [] => ret sg
  | (fifoid, attrs) :: reqs =>
      let sg := sg <| sg_fifos ::= fun f => <[fifoid := (f fifoid)
        <| sh_hwfifo := Some (subgrpid, fifoid, negb (ia_System attrs =? 0)) |>]> f |> in
      upd_inj_regs (subgrpid, fifoid) (fun r => r <| fr_pa_start := 0x40 |>) ;;;
      mark_inj subgrpid reqs sg
  end.

(** The request of FIFO [fifoid] with [attrs] is an element of [reqs]. *)
Definition Kernel_AllocateInjFifos (subgrpid : nat) (sg : fifo_subgroup)
    (reqs : list (nat * Kernel_InjFifoAttributes)) : MU (Z * fifo_subgroup) :=
  MUSPI_assert (subgrpid <? BGQ_MU_NUM_FIFO_SUBGROUPS_PER_NODE)%nat ;;;
  MUSPI_assert (length reqs <=? BGQ_MU_NUM_INJ_FIFOS_PER_SUBGROUP)%nat ;;;
  free <- Kernel_QueryInjFifos subgrpid ;;
  if (length free <? length reqs)%nat then ret (EAGAIN, sg) else
  found <- all_free BGQ_MU_NUM_INJ_FIFOS_PER_SUBGROUP free (map fst reqs) ;;
  if negb found then ret (EAGAIN, sg) else
  let system := existsb (fun r => ia_System (snd r) =? 1) reqs in
  let sg := mkSg (fun _ => zero_shadow) system subgrpid in
  let gid := gid_of subgrpid in
  let sgid := sgid_of subgrpid in
  let hi := mask_of (inj_bit sgid) (fun a => Priority a =? 1) reqs in
  let normal := mask_of (inj_bit sgid) (fun a => negb (Priority a =? 1)) reqs in
  let rget := mask_of (inj_dcr_bit sgid) (fun a => RemoteGet a =? 1) reqs in
  let not_rget := mask_of (inj_dcr_bit sgid) (fun a => negb (RemoteGet a =? 1)) reqs in
  let user := mask_of (inj_dcr_bit sgid) (fun a => ia_System a =? 0) reqs in
  let sys := mask_of (inj_dcr_bit sgid) (fun a => negb (ia_System a =? 0)) reqs in
  when (negb (hi =? 0) || negb (normal =? 0))
    (modify (fun m => m <| mu_priority ::= fun f => <[gid := Z.lor (Z.ldiff (f gid) normal) hi]> f |>)) ;;;
  when (negb (rget =? 0) || negb (not_rget =? 0))
    (v <- read_dcr IMFIFO_RGET gid ;; write_dcr IMFIFO_RGET gid (Z.lor (Z.ldiff v not_rget) rget)) ;;;
  when (negb (user =? 0) || negb (sys =? 0))
    (v <- read_dcr IMFIFO_SYSTEM gid ;; write_dcr IMFIFO_SYSTEM gid (Z.ldiff (Z.lor v sys) user)) ;;;
  sg <- mark_inj subgrpid reqs sg ;;
  ret (0, sg).

Fixpoint clear_inj (subgrpid : nat) (fifoids : list nat) : MU unit :=
  match fifoids with
  | [] => ret tt
  | fifoid :: fifoids =>
      MUSPI_assert (fifoid <? BGQ_MU_NUM_INJ_FIFOS_PER_SUBGROUP)%nat ;;;
      upd_inj_regs (subgrpid, fifoid) (fun r => r <| fr_pa_start := 0 |>) ;;;
      clear_inj subgrpid fifoids
  end.

(** The bits of a set of FIFOs. *)
Definition bits_of (bit : nat -> Z) (fifoids : list nat) : Z :=
  mask_of bit (fun _ => true) (map (fun i => (i, tt)) fifoids).

Definition Kernel_DeallocateInjFifos (sg : fifo_subgroup) (fifoids : list nat) : MU Z :=
  let gid := gid_of (subgroupid sg) in
  let sgid := sgid_of (subgroupid sg) in
  clear_inj (subgroupid sg) fifoids ;;;
  let priority_bits := bits_of (inj_bit sgid) fifoids in
  let rget_bits := bits_of (inj_dcr_bit sgid) fifoids in
  let system_bits := bits_of (inj_dcr_bit sgid) fifoids in
  when (negb (priority_bits =? 0))
    (modify (fun m => m <| mu_priority ::= fun f => <[gid := Z.ldiff (f gid) priority_bits]> f |>)) ;;;
  when (negb (rget_bits =? 0))
    (v <- read_dcr IMFIFO_RGET gid ;; write_dcr IMFIFO_RGET gid (Z.ldiff v rget_bits)) ;;;
  when (negb (system_bits =? 0))
    (v <- read_dcr IMFIFO_SYSTEM gid ;; write_dcr IMFIFO_SYSTEM gid (Z.lor v system_bits)) ;;;
  ret 0.

(** [memregion]: virtual address, physical address, size. *)
Definition Kernel_InjFifoInit (sg : fifo_subgroup) (fifoid : nat) (BaseVa BasePa Bytes startoffset size_1 : Z)
    : MU (Z * fifo_subgroup) :=
  MUSPI_assert (fifoid <? BGQ_MU_NUM_INJ_FIFOS_PER_SUBGROUP)%nat ;;;
  let va_start := u64 (BaseVa + startoffset) in
  let pa_start := u64 (BasePa + startoffset) in
  MUSPI_assert (Z.land va_start 0xFFFFFFFFFFFFFFC0 =? va_start) ;;;
  MUSPI_assert (u64 (size_1 + 1) >=? BGQ_MU_MIN_INJFIFO_SIZE_IN_BYTES) ;;;
  MUSPI_assert (Z.land (u64 (size_1 + 1)) 0x3F =? 0) ;;;
  MUSPI_assert (va_start <? u64 (BaseVa + Bytes)) ;;;
  hw <- deref (sh_hwfifo (sg_fifos sg fifoid)) ;;
  upd_inj_regs (fst hw) (fun _ => mkFr pa_start pa_start pa_start size_1) ;;;
  free <- gets (fun m => mu_freeSpace m (fst hw)) ;;
  ret (0, sg <| sg_fifos ::= fun f => <[fifoid := mkSh pa_start va_start size_1 va_start va_start
             (u64 (va_start + size_1 + 1)) (Some hw) free]> f |>).

Fixpoint check_inj_ids (fifoids : list nat) : MU unit :=
  match fifoids with
  | [] => ret tt
  | i :: fifoids => MUSPI_assert (i <? BGQ_MU_NUM_INJ_FIFOS_PER_SUBGROUP)%nat ;;; check_inj_ids fifoids
  end.

(** A write to [enable] or [disable] of the status registers. *)
Definition Kernel_InjFifoActivate (sg : fifo_subgroup) (fifoids : list nat) (activate : bool) : MU Z :=
  check_inj_ids fifoids ;;;
  let bits := bits_of (inj_bit (sgid_of (subgroupid sg))) fifoids in
  let gid := gid_of (subgroupid sg) in
  modify (fun m => m <| mu_isEnabled ::= fun f =>
    <[gid := if activate then Z.lor (f gid) bits else Z.ldiff (f gid) bits]> f |>) ;;;
  ret 0.

(** ** Reception FIFOs *)

(** A number past the array of the structure is a fault. *)
Fixpoint mark_rec (subgrpid : nat) (reqs : list (nat * Kernel_RecFifoAttributes)) (sg : fifo_subgroup)
    : MU fifo_subgroup :=
  match reqs with
  | [] => ret sg
  | (fifoid, attrs) :: reqs =>
      let sg := sg <| sg_fifos ::= fun f => <[fifoid := (f fifoid)
        <| sh_hwfifo := Some (subgrpid, fifoid, negb (ra_System attrs =? 0)) |>]> f |> in
      (if (fifoid <? BGQ_MU_NUM_REC_FIFOS_PER_SUBGROUP)%nat then ret tt else fault) ;;;
      upd_rec_regs (subgrpid, fifoid) (fun r => r <| fr_pa_start := 0x240 |>) ;;;
      mark_rec subgrpid reqs sg
  end.

(** The loop that validates the numbers reads [fifoids[idx]] with [idx]
    still 0, so it checks the first number once for every request. *)
Definition Kernel_AllocateRecFifos (subgrpid : nat) (sg : fifo_subgroup)
    (reqs : list (nat * Kernel_RecFifoAttributes)) : MU (Z * fifo_subgroup) :=
  MUSPI_assert (subgrpid <? BGQ_MU_NUM_FIFO_SUBGROUPS_PER_NODE)%nat ;;;
  MUSPI_assert (length reqs <=? BGQ_MU_NUM_REC_FIFOS_PER_SUBGROUP)%nat ;;;
  free <- Kernel_QueryRecFifos subgrpid ;;
  if (length free <? length reqs)%nat then ret (EAGAIN, sg) else
  found <- all_free BGQ_MU_NUM_REC_FIFOS_PER_SUBGROUP free
             (match reqs with [] => [] | (fifoid0, _) :: _ => repeat fifoid0 (length reqs) end) ;;
  if negb found then ret (EAGAIN, sg) else
  let system := existsb (fun r => ra_System (snd r) =? 1) reqs in
  let sg := mkSg (fun _ => zero_shadow) system subgrpid in
  let gid := gid_of subgrpid in
  let sgid := sgid_of subgrpid in
  let user := mask_of (rec_dcr_bit sgid) (fun a => ra_System a =? 0) reqs in
  let sys := mask_of (rec_dcr_bit sgid) (fun a => negb (ra_System a =? 0)) reqs in
  when (negb (user =? 0) || negb (sys =? 0))
    (v <- read_dcr RMFIFO_SYSTEM gid ;; write_dcr RMFIFO_SYSTEM gid (Z.ldiff (Z.lor v sys) user)) ;;;
  sg <- mark_rec subgrpid reqs sg ;;
  ret (0, sg).

Fixpoint clear_rec (subgrpid : nat) (fifoids : list nat) : MU unit :=
  match fifoids with
  | [] => ret tt
  | fifoid :: fifoids =>
      MUSPI_assert (fifoid <? BGQ_MU_NUM_REC_FIFOS_PER_SUBGROUP)%nat ;;;
      upd_rec_regs (subgrpid, fifoid) (fun r => r <| fr_pa_start := 0 |>) ;;;
      clear_rec subgrpid fifoids
  end.
Definition Kernel_DeallocateRecFifos (sg : fifo_subgroup) (fifoids : list nat) : MU Z :=
  let gid := gid_of (subgroupid sg) in
  clear_rec (subgroupid sg) fifoids ;;;
  let system_bits := bits_of (rec_dcr_bit (sgid_of (subgroupid sg))) fifoids in
  when (negb (system_bits =? 0))
    (v <- read_dcr RMFIFO_SYSTEM gid ;; write_dcr RMFIFO_SYSTEM gid (Z.lor v system_bits)) ;;;
  ret 0.

Definition Kernel_RecFifoInit (sg : fifo_subgroup) (fifoid : nat) (BaseVa BasePa startoffset size_1 : Z)
    : MU (Z * fifo_subgroup) :=
  MUSPI_assert (fifoid <? BGQ_MU_NUM_REC_FIFOS_PER_SUBGROUP)%nat ;;;
  let va_start := u64 (BaseVa + startoffset) in
  let pa_start := u64 (BasePa + startoffset) in
  MUSPI_assert (Z.land va_start 0xFFFFFFFFFFFFFFE0 =? va_start) ;;;
  MUSPI_assert (u64 (size_1 + 1) >=? BGQ_MU_MIN_RECFIFO_SIZE_IN_BYTES) ;;;
  MUSPI_assert (Z.land (u64 (size_1 + 1)) 0x1F =? 0) ;;;
  hw <- deref (sh_hwfifo (sg_fifos sg fifoid)) ;;
  upd_rec_regs (fst hw) (fun _ => mkFr pa_start pa_start pa_start size_1) ;;;
  ret (0, sg <| sg_fifos ::= fun f => <[fifoid := mkSh pa_start va_start size_1 va_start va_start
             (u64 (va_start + size_1 + 1)) (Some hw) (sh_freeSpace (f fifoid))]> f |>).

Definition Kernel_RecFifoEnable (groupid : nat) (enableBits : Z) : MU Z :=
  MUSPI_assert (groupid <? BGQ_MU_NUM_FIFO_GROUPS)%nat ;;;
  MUSPI_assert (negb (enableBits =? 0)) ;;;
  v <- read_dcr RMFIFO_EN groupid ;;
  write_dcr RMFIFO_EN groupid (Z.lor v enableBits) ;;; ret 0.
Definition Kernel_RecFifoDisable (groupid : nat) (disableBits : Z) : MU Z :=
  MUSPI_assert (groupid <? BGQ_MU_NUM_FIFO_GROUPS)%nat ;;;
  MUSPI_assert (negb (disableBits =? 0)) ;;;
  v <- read_dcr RMFIFO_EN groupid ;;
  write_dcr RMFIFO_EN groupid (Z.ldiff v disableBits) ;;; ret 0.

(** ** Interrupts and thresholds *)

(** [old | enable & ~disable] *)
Definition update_dcr (n : dcr_name) (gid : nat) (enable disable : Z) : MU unit :=
  when (negb (Z.lor enable disable =? 0))
    (v <- read_dcr n gid ;; write_dcr n gid (Z.ldiff (Z.lor v enable) disable)).

Definition Kernel_ConfigureInjFifoInterrupts (sg : fifo_subgroup)
    (reqs : list (nat * Kernel_InjFifoInterrupts)) : MU Z :=
  MUSPI_assert (length reqs <=? BGQ_MU_NUM_INJ_FIFOS_PER_SUBGROUP)%nat ;;;
  check_inj_ids (map fst reqs) ;;;
  let bit := inj_dcr_bit (sgid_of (subgroupid sg)) in
  update_dcr IMFIFO_THOLD_INT_EN (gid_of (subgroupid sg))
    (mask_of bit (fun a => ii_Threshold_Crossing a =? 1) reqs)
    (mask_of bit (fun a => negb (ii_Threshold_Crossing a =? 1)) reqs) ;;;
  ret 0.

Fixpoint check_rec_ids (fifoids : list nat) : MU unit :=
  match fifoids with
  | [] => ret tt
  | i :: fifoids => MUSPI_assert (i <? BGQ_MU_NUM_REC_FIFOS_PER_SUBGROUP)%nat ;;; check_rec_ids fifoids
  end.

Definition Kernel_ConfigureRecFifoInterrupts (sg : fifo_subgroup)
    (reqs : list (nat * Kernel_RecFifoInterrupts)) : MU Z :=
  MUSPI_assert (length reqs <=? BGQ_MU_NUM_REC_FIFOS_PER_SUBGROUP)%nat ;;;
  check_rec_ids (map fst reqs) ;;;
  let bit := rec_dcr_bit (sgid_of (subgroupid sg)) in
  let gid := gid_of (subgroupid sg) in
  update_dcr RMFIFO_THOLD_INT_EN gid
    (mask_of bit (fun a => ri_Threshold_Crossing a =? 1) reqs)
    (mask_of bit (fun a => negb (ri_Threshold_Crossing a =? 1)) reqs) ;;;
  update_dcr RMFIFO_PACKET_INT_EN gid
    (mask_of bit (fun a => ri_Packet_Arrival a =? 1) reqs)
    (mask_of bit (fun a => negb (ri_Packet_Arrival a =? 1)) reqs) ;;;
  ret 0.

Definition opt_write (n : dcr_name) (v : option Z) : MU unit :=
  match v with Some v => write_dcr n 0 v | None => ret tt end.
Definition Kernel_ConfigureInjFifoThresholds (normalThreshold remoteGetThreshold : option Z) : MU Z :=
  opt_write IMU_THOLD normalThreshold ;;; opt_write RGET_THOLD remoteGetThreshold ;;; ret 0.
Definition Kernel_ConfigureRecFifoThreshold (threshold : Z) : MU Z :=
  write_dcr RMU_THOLD 0 threshold ;;; ret 0.

(** Which of three DCRs and which bit route the interrupts of a subgroup. *)
Definition gea_dcr_bit (subgrpid : nat) : dcr_name * Z :=
  let s := Z.of_nat subgrpid in
  if (gid_of subgrpid <=? 7)%nat then (GIP_INT_EN_0_7, BN (32 + s))
  else if (gid_of subgrpid <=? 15)%nat then (GIP_INT_EN_8_15, BN (32 + (s - 32)))
  else (GIP_INT_EN_16, BN (60 + (s - 32 - 32))).
Definition Kernel_Configure_MU_GEA (subgrpid : nat) (go_to_gea : bool) : MU Z :=
  let '(n, bit) := gea_dcr_bit subgrpid in
  v <- read_dcr n 0 ;;
  write_dcr n 0 (if go_to_gea then Z.lor v bit else Z.ldiff v bit) ;;; ret 0.

(** ** Base address table *)

(** The DCR and the bit that make the entries of a subgroup "system". *)
Definition bat_mode (subgrpid : nat) : dcr_name * Z :=
  if (subgrpid <? (BGQ_MU_NUM_FIFO_GROUPS - 1) * BGQ_MU_NUM_FIFO_SUBGROUPS)%nat
  then (RPUTBASE_SYSTEM0, BN (Z.of_nat subgrpid))
  else (RPUTBASE_SYSTEM1,
        BN (Z.of_nat subgrpid - Z.of_nat ((BGQ_MU_NUM_FIFO_GROUPS - 1) * BGQ_MU_NUM_FIFO_SUBGROUPS))).

(** [_BN(batid) >> 56] *)
Definition bat_bit (batid : nat) : Z := Z.shiftr (BN (Z.of_nat batid)) 56.

Definition set_hw_bat (subgrpid batid : nat) (v : Z) : MU unit :=
  modify (fun m => m <| mu_bat ::= <[(subgrpid, batid) := v]> |>).

Fixpoint mark_bat (subgrpid : nat) (batids : list nat) (bat : bat_subgroup) : MU bat_subgroup :=
  match batids with
  | [] => ret bat
  | batid :: batids =>
      let bat := bat <| bat_permissions ::= fun p => Z.lor p (bat_bit batid) |>
                     <| sw_bat ::= <[batid := 0]> |> in
      set_hw_bat subgrpid batid 0 ;;;
      mark_bat subgrpid batids bat
  end.

(** Is the subgroup in system use?  Decided by its mode when some of its
    entries are allocated, else as the caller wants. *)
Definition bat_system_status (subgrpid : nat) (system : Z) (numFree : nat) : MU Z :=
  if (numFree <? NUM_DATA_COUNTERS_PER_SUBGROUP)%nat then
    v <- read_dcr (fst (bat_mode subgrpid)) 0 ;;
    ret (if Z.land v (snd (bat_mode subgrpid)) =? 0 then 0 else 1)
  else ret system.

Definition Kernel_AllocateBaseAddressTable (subgrpid : nat) (bat : bat_subgroup) (batids : list nat)
    (system : Z) : MU (Z * bat_subgroup) :=
  MUSPI_assert (subgrpid <? BGQ_MU_NUM_FIFO_SUBGROUPS_PER_NODE)%nat ;;;
  MUSPI_assert (length batids <=? NUM_DATA_COUNTERS_PER_SUBGROUP)%nat ;;;
  MUSPI_assert (0 <? length batids)%nat ;;;
  MUSPI_assert ((system =? 0) || (system =? 1)) ;;;
  free <- Kernel_QueryBaseAddressTable subgrpid ;;
  if (length free <? length batids)%nat then ret (EAGAIN, bat) else
  systemStatus <- bat_system_status subgrpid system (length free) ;;
  if negb (system =? systemStatus) then ret (EACCES, bat) else
  found <- all_free NUM_DATA_COUNTERS_PER_SUBGROUP free batids ;;
  if negb found then ret (EAGAIN, bat) else
  let '(n, bit) := bat_mode subgrpid in
  v <- read_dcr n 0 ;;
  write_dcr n 0 (if system =? 0 then Z.ldiff v bit else Z.lor v bit) ;;;
  bat <- mark_bat subgrpid batids
           (bat <| bat_subgrpid := subgrpid |> <| bat_privileged := negb (system =? 0) |>
                <| bat_permissions := 0 |>) ;;
  ret (0, bat).

Fixpoint clear_bat (batids : list nat) (bat : bat_subgroup) : MU bat_subgroup :=
  match batids with
  | [] => ret bat
  | batid :: batids =>
      MUSPI_assert (batid <? NUM_DATA_COUNTERS_PER_SUBGROUP)%nat ;;;
      let bat := bat <| bat_permissions ::= fun p => Z.ldiff p (bat_bit batid) |>
                     <| sw_bat ::= <[batid := 0]> |> in
      set_hw_bat (bat_subgrpid bat) batid FREE_BAT ;;;
      clear_bat batids bat
  end.
Definition Kernel_DeallocateBaseAddressTable (bat : bat_subgroup) (batids : list nat) : MU (Z * bat_subgroup) :=
  MUSPI_assert (length batids <=? NUM_DATA_COUNTERS_PER_SUBGROUP)%nat ;;;
  MUSPI_assert (0 <? length batids)%nat ;;;
  bat <- clear_bat batids bat ;;
  free <- Kernel_QueryBaseAddressTable (bat_subgrpid bat) ;;
  when (length free =? NUM_DATA_COUNTERS_PER_SUBGROUP)%nat
    (let '(n, bit) := bat_mode (bat_subgrpid bat) in
     v <- read_dcr n 0 ;; write_dcr n 0 (Z.lor v bit)) ;;;
  ret (0, bat).

(** include/spi/include/mu/Addressing_inlines.h *)
Definition MUSPI_SetBaseAddress (bat : bat_subgroup) (entryid : nat) (baseAddress : Z) : MU (Z * bat_subgroup) :=
  MUSPI_assert (entryid <? NUM_DATA_COUNTERS_PER_SUBGROUP)%nat ;;;
  MUSPI_assert (negb (Z.land (bat_permissions bat) (bat_bit entryid) =? 0)) ;;;
  set_hw_bat (bat_subgrpid bat) entryid baseAddress ;;;
  ret (0, bat <| sw_bat ::= <[entryid := baseAddress]> |>).

(** ** Masks, bit by bit *)

Lemma mask_testbit {A} (bit : nat -> Z) (p : A -> bool) reqs n :
  Z.testbit (mask_of bit p reqs) n = existsb (fun r => p (snd r) && Z.testbit (bit (fst r)) n) reqs.
Proof.
  unfold mask_of. assert (H : forall acc, Z.testbit (foldl (fun mask r =>
      if p (snd r) then Z.lor mask (bit (fst r)) else mask) acc reqs) n
    = Z.testbit acc n || existsb (fun r => p (snd r) && Z.testbit (bit (fst r)) n) reqs).
  { induction reqs as [|[i a] reqs IH]; intros acc; cbn; [by rewrite orb_false_r|].
    rewrite IH. destruct (p a); cbn; [by rewrite Z.lor_spec, orb_assoc|done]. }
  rewrite H. by rewrite Z.bits_0.
Qed.

(** Bit [n] belongs to one of the numbers. *)
Definition in_bits (bit : nat -> Z) (ids : list nat) (n : Z) : bool :=
  existsb (fun i => Z.testbit (bit i) n) ids.

Lemma bits_of_testbit bit ids n : Z.testbit (bits_of bit ids) n = in_bits bit ids n.
Proof.
  unfold bits_of, in_bits. rewrite mask_testbit. induction ids as [|i ids IH]; [done|]. cbn in *. by rewrite IH.
Qed.

Lemma mask_split {A} bit (p : A -> bool) reqs n :
  Z.testbit (mask_of bit p reqs) n || Z.testbit (mask_of bit (fun a => negb (p a)) reqs) n
  = in_bits bit (map fst reqs) n.
Proof.
  rewrite !mask_testbit. unfold in_bits. induction reqs as [|[i a] reqs IH]; [done|]. cbn. rewrite <- IH.
  destruct (p a), (Z.testbit (bit i) n); cbn; try done; by rewrite orb_true_r.
Qed.

(** Writing attributes and taking the bits back restores a register whose
    bits of these FIFOs were off, or on. *)
Lemma restore_off {A} bit (p : A -> bool) reqs v :
  (forall n, in_bits bit (map fst reqs) n = true -> Z.testbit v n = false) ->
  Z.ldiff (Z.lor (Z.ldiff v (mask_of bit (fun a => negb (p a)) reqs)) (mask_of bit p reqs))
          (bits_of bit (map fst reqs)) = v.
Proof.
  intros H. apply Z.bits_inj'. intros n _. rewrite Z.ldiff_spec, Z.lor_spec, Z.ldiff_spec, bits_of_testbit.
  specialize (H n). rewrite <- (mask_split bit p) in *.
  destruct (Z.testbit v n), (Z.testbit (mask_of bit p reqs) n),
    (Z.testbit (mask_of bit (fun a => negb (p a)) reqs) n); cbn in *; intuition congruence.
Qed.
Lemma restore_on {A} bit (p : A -> bool) reqs v :
  (forall n, in_bits bit (map fst reqs) n = true -> Z.testbit v n = true) ->
  Z.lor (Z.ldiff (Z.lor v (mask_of bit (fun a => negb (p a)) reqs)) (mask_of bit p reqs))
        (bits_of bit (map fst reqs)) = v.
Proof.
  intros H. apply Z.bits_inj'. intros n _. rewrite Z.lor_spec, Z.ldiff_spec, Z.lor_spec, bits_of_testbit.
  specialize (H n). rewrite <- (mask_split bit p) in *.
  destruct (Z.testbit v n), (Z.testbit (mask_of bit p reqs) n),
    (Z.testbit (mask_of bit (fun a => negb (p a)) reqs) n); cbn in *; intuition congruence.
Qed.

Lemma inj_bit_testbit sgid i n : (i < 8)%nat -> (sgid < 4)%nat ->
  Z.testbit (inj_bit sgid i) n = (n =? 31 - Z.of_nat (i + sgid * 8)).
Proof.
  intros Hi Hs. unfold inj_bit, BGQ_MU_NUM_INJ_FIFOS_PER_SUBGROUP. rewrite Z.shiftl_1_l.
  destruct (Z.eqb_spec n (31 - Z.of_nat (i + sgid * 8))) as [->|Hn].
  - apply Z.pow2_bits_true. lia.
  - apply Z.pow2_bits_false. congruence.
Qed.
Lemma inj_dcr_bit_eq sgid i : inj_dcr_bit sgid i = inj_bit sgid i.
Proof. unfold inj_dcr_bit, inj_bit, BN. f_equal. lia. Qed.
Lemma mask_ext {A} b1 b2 (p : A -> bool) reqs : (forall i, b1 i = b2 i) -> mask_of b1 p reqs = mask_of b2 p reqs.
Proof. intros H. apply Z.bits_inj'. intros n _. rewrite !mask_testbit. induction reqs as [|[i a] reqs IH]; [done|].
  cbn. by rewrite H, IH. Qed.

Lemma sgid_lt s : (sgid_of s < 4)%nat.
Proof. unfold sgid_of, BGQ_MU_NUM_FIFO_SUBGROUPS. apply Nat.mod_upper_bound. lia. Qed.

(** The bit of a FIFO in a mask is its own attribute. *)
Lemma mask_own {A} sgid (p : A -> bool) reqs i a : (sgid < 4)%nat ->
  NoDup (map fst reqs) -> (forall j, j ∈ map fst reqs -> (j < 8)%nat) -> (i, a) ∈ reqs ->
  Z.testbit (mask_of (inj_bit sgid) p reqs) (31 - Z.of_nat (i + sgid * 8)) = p a.
Proof.
  intros Hs Hnd Hr Hin. rewrite mask_testbit.
  assert (Hb : forall j, j ∈ map fst reqs -> Z.testbit (inj_bit sgid j) (31 - Z.of_nat (i + sgid * 8)) = bool_decide (i = j)).
  { intros j Hj. rewrite inj_bit_testbit by auto. case_bool_decide; [subst; by rewrite Z.eqb_refl|].
    apply Z.eqb_neq. lia. }
  clear Hr. induction reqs as [|[j b] reqs IH]; [by apply elem_of_nil in Hin|].
  cbn in *. apply list.NoDup_cons in Hnd as [Hj Hnd]. rewrite (Hb j) by left.
  assert (Hb' : forall j, j ∈ map fst reqs -> Z.testbit (inj_bit sgid j) (31 - Z.of_nat (i + sgid * 8)) = bool_decide (i = j))
    by (intros k Hk; apply Hb; by right).
  apply elem_of_cons in Hin as [[= <- <-]|Hin].
  - rewrite bool_decide_eq_true_2, andb_true_r by done. destruct (p a); [done|]. cbn.
    apply not_true_is_false. intros ([k c] & Hk & Ht)%existsb_exists. cbn in Ht.
    apply andb_prop in Ht as [_ Ht]. apply list_elem_of_In in Hk.
    assert (Hk' : k ∈ map fst reqs) by (apply list_elem_of_fmap; by exists (k, c)).
    rewrite Hb' in Ht by done. apply bool_decide_eq_true in Ht as ->. done.
  - assert (Hi : i ∈ map fst reqs) by (apply list_elem_of_fmap; by exists (i, a)).
    rewrite bool_decide_eq_false_2 by congruence. rewrite andb_false_r. cbn. by apply IH.
Qed.

(** ** What the operations do *)

Lemma fn_insert_id {K V} `{!EqDecision K} (f : K -> V) k : <[k := f k]> f = f.
Proof.
  extensionality x. destruct (decide (k = x)) as [->|]; [by rewrite fn_lookup_insert|by rewrite fn_lookup_insert_ne].
Qed.
Lemma fn_insert_insert {K V} `{!EqDecision K} (f : K -> V) k a b : <[k := a]> (<[k := b]> f) = <[k := a]> f.
Proof.
  extensionality x. destruct (decide (k = x)) as [->|]; [by rewrite !fn_lookup_insert|by rewrite !fn_lookup_insert_ne].
Qed.

Definition set_dcr (n : dcr_name) (g : nat) (v : Z) (m : mu_regs) : mu_regs := m <| mu_dcr ::= <[(n, g) := v]> |>.
Definition set_priority (g : nat) (v : Z) (m : mu_regs) : mu_regs := m <| mu_priority ::= <[g := v]> |>.

(** The test that skips a write only skips writes without effect. *)
Lemma run_dcr (c : bool) n g (F : Z -> Z) m :
  (c = false -> F (mu_dcr m (n, g)) = mu_dcr m (n, g)) ->
  when c (v <- read_dcr n g ;; write_dcr n g (F v)) m = Ok tt (set_dcr n g (F (mu_dcr m (n, g))) m).
Proof.
  intros H. destruct c; [done|]. cbn. unfold ret, set_dcr. rewrite H by done. destruct m. unfold upd_field. cbn.
  by rewrite fn_insert_id.
Qed.
Lemma run_priority (c : bool) g (F : Z -> Z) m :
  (c = false -> F (mu_priority m g) = mu_priority m g) ->
  when c (modify (fun m => m <| mu_priority ::= fun f => <[g := F (f g)]> f |>)) m
    = Ok tt (set_priority g (F (mu_priority m g)) m).
Proof.
  intros H. destruct c; [done|]. cbn. unfold ret, set_priority. rewrite H by done. destruct m. unfold upd_field. cbn.
  by rewrite fn_insert_id.
Qed.

(** The start registers of some FIFOs of a subgroup set to one value. *)
Definition set_starts (s : nat) (ids : list nat) (v : Z) (f : nat * nat -> fifo_regs) (k : nat * nat) : fifo_regs :=
  if decide (fst k = s /\ snd k ∈ ids) then (f k) <| fr_pa_start := v |> else f k.

Lemma set_starts_cons s i ids v f :
  set_starts s ids v (<[(s, i) := (f (s, i)) <| fr_pa_start := v |>]> f) = set_starts s (i :: ids) v f.
Proof.
  extensionality k. unfold set_starts. destruct k as [s' j]. cbn. destruct (decide ((s, i) = (s', j))) as [E|E].
  - injection E as <- <-. rewrite fn_lookup_insert. rewrite (decide_True (P := s = s /\ i ∈ i :: ids)) by (split; [done|by left]).
    by case_decide.
  - rewrite fn_lookup_insert_ne by done. f_equal.
    destruct (decide (s' = s /\ j ∈ ids)) as [[-> H]|H1]; [rewrite decide_True; [done|split; [done|by right]]|].
    rewrite decide_False; [done|]. intros [-> [->|H]%elem_of_cons]; [done|by apply H1].
Qed.

Definition with_inj (F : (nat * nat -> fifo_regs) -> nat * nat -> fifo_regs) (m : mu_regs) : mu_regs :=
  m <| mu_inj ::= F |>.
Lemma with_inj_with_inj F G m : with_inj F (with_inj G m) = with_inj (fun f => F (G f)) m.
Proof. done. Qed.
Lemma with_inj_ext F G m : (forall f, F f = G f) -> with_inj F m = with_inj G m.
Proof. intros H. destruct m. unfold with_inj, upd_field. cbn. by rewrite H. Qed.
Lemma with_inj_id m : with_inj (fun f => f) m = m.
Proof. by destruct m. Qed.
Lemma set_starts_nil s v f : set_starts s [] v f = f.
Proof. extensionality k. unfold set_starts. by rewrite decide_False by (intros [_ []%elem_of_nil]). Qed.

Definition marked (s : nat) (reqs : list (nat * Kernel_InjFifoAttributes)) (sg : fifo_subgroup) : fifo_subgroup :=
  foldl (fun sg r => sg <| sg_fifos ::= fun f => <[fst r := (f (fst r))
    <| sh_hwfifo := Some (s, fst r, negb (ia_System (snd r) =? 0)) |>]> f |>) sg reqs.

Lemma mark_inj_ok s reqs sg m :
  mark_inj s reqs sg m = Ok (marked s reqs sg) (with_inj (set_starts s (map fst reqs) 0x40) m).
Proof.
  revert sg m. induction reqs as [|[i a] reqs IH]; intros sg m.
  - cbn [mark_inj map foldl marked]. unfold ret. rewrite (with_inj_ext _ (fun f => f)); [by rewrite with_inj_id|apply set_starts_nil].
  - cbn [mark_inj map fst]. unfold bind, upd_inj_regs, modify. rewrite IH.
    change (upd_field (f := mu_inj) ?F m) with (with_inj F m). rewrite with_inj_with_inj.
    by rewrite (with_inj_ext _ (set_starts s (i :: map fst reqs) 0x40)) by (intros f; apply set_starts_cons).
Qed.

Lemma clear_inj_ok s ids m : (forall i, i ∈ ids -> (i < 8)%nat) ->
  clear_inj s ids m = Ok tt (with_inj (set_starts s ids 0) m).
Proof.
  revert m. induction ids as [|i ids IH]; intros m H.
  - cbn. unfold ret. rewrite (with_inj_ext _ (fun f => f)); [by rewrite with_inj_id|apply set_starts_nil].
  - cbn [clear_inj]. unfold bind, MUSPI_assert.
    rewrite (proj2 (Nat.ltb_lt _ _)) by (apply H; by left). cbn [ret]. unfold ret, upd_inj_regs, modify.
    rewrite IH by (intros j Hj; apply H; by right).
    change (upd_field (f := mu_inj) ?F m) with (with_inj F m). rewrite with_inj_with_inj.
    by rewrite (with_inj_ext _ (set_starts s (i :: ids) 0)) by (intros f; apply set_starts_cons).
Qed.

Lemma all_free_ok {limit free ids} m : (forall i, i ∈ ids -> (i < limit)%nat) ->
  all_free limit free ids m = Ok (bool_decide (Forall (fun i => i ∈ free) ids)) m.
Proof.
  induction ids as [|i ids IH]; intros H; [by cbn|]. cbn [all_free]. unfold bind, MUSPI_assert.
  rewrite (proj2 (Nat.ltb_lt _ _)) by (apply H; by left). cbn [ret].
  case_decide as Hi.
  - rewrite IH by (intros j Hj; apply H; by right). f_equal. apply bool_decide_ext. rewrite list.Forall_cons. tauto.
  - unfold ret. f_equal. symmetry. apply bool_decide_eq_false. by rewrite list.Forall_cons; intros [? _].
Qed.

Lemma query_inj s m : exists free, Kernel_QueryInjFifos s m = Ok free m /\
  forall i, i ∈ free <-> (i < 8)%nat /\ fr_pa_start (mu_inj m (s, i)) = 0.
Proof.
  eexists. split; [done|]. intros i. rewrite list_elem_of_filter, elem_of_seq.
  unfold BGQ_MU_NUM_INJ_FIFOS_PER_SUBGROUP. split; [intros [? ?]; split; [lia|done]|intros [? ?]; split; [done|lia]].
Qed.

(** The registers after an allocation. *)
Definition inj_allocated (s : nat) (reqs : list (nat * Kernel_InjFifoAttributes)) (m : mu_regs) : mu_regs :=
  let bit := inj_bit (sgid_of s) in
  let g := gid_of s in
  let m := set_priority g (Z.lor (Z.ldiff (mu_priority m g) (mask_of bit (fun a => negb (Priority a =? 1)) reqs))
             (mask_of bit (fun a => Priority a =? 1) reqs)) m in
  let m := set_dcr IMFIFO_RGET g (Z.lor (Z.ldiff (mu_dcr m (IMFIFO_RGET, g))
             (mask_of bit (fun a => negb (RemoteGet a =? 1)) reqs)) (mask_of bit (fun a => RemoteGet a =? 1) reqs)) m in
  let m := set_dcr IMFIFO_SYSTEM g (Z.ldiff (Z.lor (mu_dcr m (IMFIFO_SYSTEM, g))
             (mask_of bit (fun a => negb (ia_System a =? 0)) reqs)) (mask_of bit (fun a => ia_System a =? 0) reqs)) m in
  with_inj (set_starts s (map fst reqs) 0x40) m.

Lemma both_zero a b : negb (a =? 0) || negb (b =? 0) = false -> a = 0 /\ b = 0.
Proof. intros [Ha Hb]%orb_false_elim. split; by apply Z.eqb_eq, negb_false_iff. Qed.

(** Numbers an allocation does not fail an assertion on. *)
Definition ids_ok (limit : nat) (ids : list nat) : Prop :=
  (length ids <= limit)%nat /\ forall i, i ∈ ids -> (i < limit)%nat.

Lemma ids_ok_NoDup limit ids : NoDup ids -> (forall i, i ∈ ids -> (i < limit)%nat) -> ids_ok limit ids.
Proof.
  intros Hnd Hi. split; [|done]. assert (H : ids ⊆+ seq 0 limit)
    by (apply NoDup_submseteq; [done|]; intros i H; apply elem_of_seq; specialize (Hi i H); lia).
  apply submseteq_length in H. by rewrite length_seq in H.
Qed.

Lemma alloc_inj_eq s sg reqs m : (s < 68)%nat -> ids_ok 8 (map fst reqs) -> exists free,
  (forall i, i ∈ free <-> (i < 8)%nat /\ fr_pa_start (mu_inj m (s, i)) = 0) /\
  Kernel_AllocateInjFifos s sg reqs m =
    if (length free <? length reqs)%nat || negb (bool_decide (Forall (fun i => i ∈ free) (map fst reqs)))
    then Ok (EAGAIN, sg) m
    else Ok (0, marked s reqs (mkSg (fun _ => zero_shadow) (existsb (fun r => ia_System (snd r) =? 1) reqs) s))
            (inj_allocated s reqs m).
Proof.
  intros Hs [Hlen Hids]. rewrite length_map in Hlen. destruct (query_inj s m) as (free & Hq & Hfree).
  exists free. split; [done|]. unfold Kernel_AllocateInjFifos. unfold bind at 1. unfold MUSPI_assert at 1.
  rewrite (proj2 (Nat.ltb_lt _ _)) by done. unfold ret at 1. unfold bind at 1, MUSPI_assert at 1.
  rewrite (proj2 (Nat.leb_le _ _)) by done. unfold ret at 1. unfold bind at 1. rewrite Hq.
  destruct (length free <? length reqs)%nat; [done|]. cbn [orb].
  unfold bind at 1. rewrite all_free_ok by done. destruct (bool_decide _); [|done]. cbn [negb].
  rewrite !(mask_ext (inj_dcr_bit (sgid_of s)) (inj_bit (sgid_of s))) by apply inj_dcr_bit_eq.
  unfold bind at 1. rewrite (run_priority _ _ (fun v => Z.lor (Z.ldiff v _) _))
    by (intros [-> ->]%both_zero; by rewrite Z.ldiff_0_r, Z.lor_0_r).
  unfold bind at 1. rewrite (run_dcr _ _ _ (fun v => Z.lor (Z.ldiff v _) _))
    by (intros [-> ->]%both_zero; by rewrite Z.ldiff_0_r, Z.lor_0_r).
  unfold bind at 1. rewrite (run_dcr _ _ _ (fun v => Z.ldiff (Z.lor v _) _))
    by (intros [-> ->]%both_zero; by rewrite Z.ldiff_0_r, Z.lor_0_r).
  unfold bind. rewrite mark_inj_ok. reflexivity.
Qed.

Lemma alloc_inj_ok s sg reqs m :
  (s < 68)%nat -> NoDup (map fst reqs) ->
  (forall i, i ∈ map fst reqs -> (i < 8)%nat /\ fr_pa_start (mu_inj m (s, i)) = 0) ->
  Kernel_AllocateInjFifos s sg reqs m
  = Ok (0, marked s reqs (mkSg (fun _ => zero_shadow) (existsb (fun r => ia_System (snd r) =? 1) reqs) s))
       (inj_allocated s reqs m).
Proof.
  intros Hs Hnd Hids. destruct (alloc_inj_eq s sg reqs m Hs) as (free & Hfree & ->).
  { apply ids_ok_NoDup; [done|]. intros i Hi. by apply Hids. }
  assert (Hsub : map fst reqs ⊆+ free) by (apply NoDup_submseteq; [done|]; intros i Hi; by apply Hfree, Hids).
  apply submseteq_length in Hsub. rewrite length_map in Hsub. rewrite (proj2 (Nat.ltb_ge _ _)) by done.
  by rewrite bool_decide_eq_true_2 by (apply list.Forall_forall; intros i Hi; by apply Hfree, Hids).
Qed.

Lemma marked_id s reqs sg : subgroupid (marked s reqs sg) = subgroupid sg.
Proof. unfold marked. revert sg. induction reqs as [|r reqs IH]; intros sg; [done|]. cbn [foldl]. by rewrite IH. Qed.
Lemma marked_off s reqs sg i : i ∉ map fst reqs -> sg_fifos (marked s reqs sg) i = sg_fifos sg i.
Proof.
  unfold marked. revert sg. induction reqs as [|[j b] reqs IH]; intros sg Hi; [done|]. cbn [foldl map fst snd] in *.
  apply not_elem_of_cons in Hi as [Hj Hi]. rewrite IH by done. cbn. by rewrite fn_lookup_insert_ne.
Qed.
Lemma marked_at s reqs sg i a : NoDup (map fst reqs) -> (i, a) ∈ reqs ->
  sh_hwfifo (sg_fifos (marked s reqs sg) i) = Some (s, i, negb (ia_System a =? 0)).
Proof.
  unfold marked. revert sg. induction reqs as [|[j b] reqs IH]; intros sg Hnd Hin; [by apply elem_of_nil in Hin|].
  cbn in *. apply list.NoDup_cons in Hnd as [Hj Hnd]. apply elem_of_cons in Hin as [[= <- <-]|Hin]; [|by apply IH].
  fold (marked s reqs (sg <| sg_fifos ::= fun f => <[i := (f i) <| sh_hwfifo := Some (s, i, negb (ia_System a =? 0)) |>]> f |>)).
  rewrite marked_off by done. cbn. by rewrite fn_lookup_insert.
Qed.

Lemma dealloc_inj_ok sg ids m : (forall i, i ∈ ids -> (i < 8)%nat) ->
  let g := gid_of (subgroupid sg) in
  let bits := bits_of (inj_bit (sgid_of (subgroupid sg))) ids in
  Kernel_DeallocateInjFifos sg ids m
  = Ok 0 (set_dcr IMFIFO_SYSTEM g (Z.lor (mu_dcr m (IMFIFO_SYSTEM, g)) bits)
      (set_dcr IMFIFO_RGET g (Z.ldiff (mu_dcr m (IMFIFO_RGET, g)) bits)
        (set_priority g (Z.ldiff (mu_priority m g) bits)
          (with_inj (set_starts (subgroupid sg) ids 0) m)))).
Proof.
  intros Hids. unfold Kernel_DeallocateInjFifos. unfold bind at 1. rewrite clear_inj_ok by done.
  assert (Eb : bits_of (inj_dcr_bit (sgid_of (subgroupid sg))) ids = bits_of (inj_bit (sgid_of (subgroupid sg))) ids)
    by apply mask_ext, inj_dcr_bit_eq.
  rewrite Eb. set (bits := bits_of _ ids).
  assert (Hz : negb (bits =? 0) = false -> bits = 0) by (intros H; by apply Z.eqb_eq, negb_false_iff).
  unfold bind at 1. rewrite (run_priority _ _ (fun v => Z.ldiff v _)) by (intros ->%Hz; apply Z.ldiff_0_r).
  unfold bind at 1. rewrite (run_dcr _ _ _ (fun v => Z.ldiff v _)) by (intros ->%Hz; apply Z.ldiff_0_r).
  unfold bind at 1. rewrite (run_dcr _ _ _ (fun v => Z.lor v _)) by (intros ->%Hz; apply Z.lor_0_r).
  reflexivity.
Qed.

(** Look up every key in a register file with some keys written. *)
Ltac at_keys := repeat first [rewrite fn_lookup_insert | rewrite fn_lookup_insert_ne by congruence].

Lemma mu_regs_eq m m' :
  mu_inj m = mu_inj m' -> mu_rec m = mu_rec m' -> mu_freeSpace m = mu_freeSpace m' ->
  mu_isEnabled m = mu_isEnabled m' -> mu_priority m = mu_priority m' -> mu_bat m = mu_bat m' ->
  mu_dcr m = mu_dcr m' -> m = m'.
Proof. destruct m, m'. cbn. congruence. Qed.

(** Taking back the bits and the start registers restores the registers. *)
Lemma inj_restored s reqs m :
  (forall i, i ∈ map fst reqs -> fr_pa_start (mu_inj m (s, i)) = 0) ->
  let g := gid_of s in
  let bits := bits_of (inj_bit (sgid_of s)) (map fst reqs) in
  (forall n, in_bits (inj_bit (sgid_of s)) (map fst reqs) n = true ->
     Z.testbit (mu_priority m g) n = false /\ Z.testbit (mu_dcr m (IMFIFO_RGET, g)) n = false /\
     Z.testbit (mu_dcr m (IMFIFO_SYSTEM, g)) n = true) ->
  let m1 := inj_allocated s reqs m in
  set_dcr IMFIFO_SYSTEM g (Z.lor (mu_dcr m1 (IMFIFO_SYSTEM, g)) bits)
    (set_dcr IMFIFO_RGET g (Z.ldiff (mu_dcr m1 (IMFIFO_RGET, g)) bits)
      (set_priority g (Z.ldiff (mu_priority m1 g) bits)
        (with_inj (set_starts s (map fst reqs) 0) m1))) = m.
Proof.
  intros Hst g bits Hb m1. apply mu_regs_eq; [|reflexivity|reflexivity|reflexivity| |reflexivity|].
  - extensionality k. cbn. unfold set_starts. destruct k as [s' i]. cbn.
    destruct (decide (s' = s /\ i ∈ map fst reqs)) as [[-> Hi]|]; [|done].
    specialize (Hst i Hi). cbn in Hst. by destruct (mu_inj m (s, i)); cbn in *; subst.
  - cbn. fold g. rewrite fn_lookup_insert, fn_insert_insert. unfold bits.
    rewrite restore_off by (intros n Hn; by apply Hb). apply fn_insert_id.
  - extensionality k. destruct k as [nm g']. cbn. fold g.
    destruct (decide ((nm, g') = (IMFIFO_SYSTEM, g))) as [->|H1].
    + at_keys. unfold bits. apply restore_on. intros n Hn. by apply Hb.
    + destruct (decide ((nm, g') = (IMFIFO_RGET, g))) as [->|H2]; at_keys; [|done].
      unfold bits. apply restore_off. intros n Hn. by apply Hb.
Qed.

(** ** Giving resources back *)

(** What was free stays free. *)
Record frees (m m' : mu_regs) : Prop := mkFrees {
  frees_inj : forall k, fr_pa_start (mu_inj m k) = 0 -> fr_pa_start (mu_inj m' k) = 0;
  frees_rec : forall k, fr_pa_start (mu_rec m k) = 0 -> fr_pa_start (mu_rec m' k) = 0;
  frees_bat : forall k, mu_bat m k = FREE_BAT -> mu_bat m' k = FREE_BAT }.
#[export] Instance frees_preorder : PreOrder frees.
Proof. split; [by split|]. intros m m1 m2 [A B C] [A' B' C']. split; auto. Qed.

Lemma wp_change_dcr (c : bool) n g (F : Z -> Z) (Q : unit -> mu_regs -> Prop) m :
  (forall m', frees m m' -> Q tt m') -> wp (when c (v <- read_dcr n g ;; write_dcr n g (F v))) Q m.
Proof. intros HQ. destruct c; apply HQ; [by split|done]. Qed.

Lemma wp_InjFifoActivate sg ids b (Q : Z -> mu_regs -> Prop) m : (forall i, i ∈ ids -> (i < 8)%nat) ->
  (forall m', frees m m' -> Q 0 m') -> wp (Kernel_InjFifoActivate sg ids b) Q m.
Proof.
  intros Hi HQ. apply wp_bind. apply (wp_mono _ (fun _ m' => m' = m)).
  - clear HQ. induction ids as [|i ids IH]; [done|]. cbn [check_inj_ids]. apply wp_bind. unfold MUSPI_assert.
    rewrite (proj2 (Nat.ltb_lt _ _)) by (apply Hi; by left). apply wp_ret, IH. intros j Hj. apply Hi. by right.
  - intros [] m' ->. by apply wp_bind, wp_modify, wp_ret, HQ.
Qed.

Lemma wp_DeallocateInjFifos sg ids (Q : Z -> mu_regs -> Prop) m : (forall i, i ∈ ids -> (i < 8)%nat) ->
  (forall m', frees m m' -> (forall i, i ∈ ids -> fr_pa_start (mu_inj m' (subgroupid sg, i)) = 0) -> Q 0 m') ->
  wp (Kernel_DeallocateInjFifos sg ids) Q m.
Proof.
  intros Hi HQ. unfold wp. rewrite dealloc_inj_ok by done. apply HQ.
  - split; [|done..]. intros k Hk. cbn. unfold set_starts. by case_decide.
  - intros i Hin. cbn. unfold set_starts. by rewrite decide_True.
Qed.

Lemma wp_clear_rec s ids m : (forall i, i ∈ ids -> (i < 4)%nat) ->
  wp (clear_rec s ids) (fun _ m' => frees m m' /\
    forall i, i ∈ ids -> fr_pa_start (mu_rec m' (s, i)) = 0) m.
Proof.
  revert m. induction ids as [|i ids IH]; intros m Hi.
  - by apply wp_ret; split; [|intros i []%elem_of_nil].
  - cbn [clear_rec]. apply wp_bind. unfold MUSPI_assert.
    rewrite (proj2 (Nat.ltb_lt _ _)) by (apply Hi; by left). apply wp_ret, wp_bind, wp_modify.
    set (m1 := m <| mu_rec ::= _ |>).
    assert (F : frees m m1 /\ fr_pa_start (mu_rec m1 (s, i)) = 0).
    { split; [split; [done| |done]|cbn; by rewrite fn_lookup_insert]. intros k Hk. cbn.
      destruct (decide ((s, i) = k)) as [<-|]; [by rewrite fn_lookup_insert|by rewrite fn_lookup_insert_ne]. }
    destruct F as [F F0]. eapply wp_mono; [apply IH; intros j Hj; apply Hi; by right|].
    intros [] m2 [F2 H2]. split; [by etrans|]. intros j [->|Hj]%elem_of_cons; [by apply F2|by apply H2].
Qed.

Lemma wp_DeallocateRecFifos sg ids (Q : Z -> mu_regs -> Prop) m : (forall i, i ∈ ids -> (i < 4)%nat) ->
  (forall m', frees m m' -> (forall i, i ∈ ids -> fr_pa_start (mu_rec m' (subgroupid sg, i)) = 0) -> Q 0 m') ->
  wp (Kernel_DeallocateRecFifos sg ids) Q m.
Proof.
  intros Hi HQ. unfold Kernel_DeallocateRecFifos. apply wp_bind. eapply wp_mono; [by apply wp_clear_rec|].
  intros [] m1 [F H]. apply wp_bind. apply (wp_change_dcr _ _ _ (fun v => Z.lor v _)). intros m2 F2.
  apply wp_ret, HQ; [by etrans|]. intros i Hin. by apply F2, H.
Qed.

Lemma wp_RecFifoDisable g bits (Q : Z -> mu_regs -> Prop) m : (g < 17)%nat -> bits <> 0 ->
  (forall m', frees m m' -> Q 0 m') -> wp (Kernel_RecFifoDisable g bits) Q m.
Proof.
  intros Hg Hb HQ. unfold Kernel_RecFifoDisable. apply wp_bind. unfold MUSPI_assert at 1.
  rewrite (proj2 (Nat.ltb_lt _ _)) by done. apply wp_ret, wp_bind. unfold MUSPI_assert.
  rewrite (proj2 (Z.eqb_neq _ _)) by done. apply wp_ret, wp_bind, wp_gets, wp_bind, wp_modify, wp_ret, HQ. by split.
Qed.

Lemma wp_clear_bat ids bat m : (forall i, i ∈ ids -> (i < 8)%nat) ->
  wp (clear_bat ids bat) (fun bat' m' => bat_subgrpid bat' = bat_subgrpid bat /\ frees m m' /\
    forall i, i ∈ ids -> mu_bat m' (bat_subgrpid bat, i) = FREE_BAT) m.
Proof.
  revert bat m. induction ids as [|i ids IH]; intros bat m Hi.
  - by apply wp_ret; split_and!; [| |intros i []%elem_of_nil].
  - cbn [clear_bat]. apply wp_bind. unfold MUSPI_assert.
    rewrite (proj2 (Nat.ltb_lt _ _)) by (apply Hi; by left). apply wp_ret, wp_bind, wp_modify.
    set (m1 := m <| mu_bat ::= _ |>).
    assert (F : frees m m1 /\ mu_bat m1 (bat_subgrpid bat, i) = FREE_BAT).
    { split; [split; [done..|]|cbn; by rewrite fn_lookup_insert]. intros k Hk. cbn.
      destruct (decide ((bat_subgrpid bat, i) = k)) as [<-|]; [by rewrite fn_lookup_insert|by rewrite fn_lookup_insert_ne]. }
    destruct F as [F F0]. eapply wp_mono; [apply IH; intros j Hj; apply Hi; by right|].
    intros bat' m2 (E & F2 & H2). cbn in E. split_and!; [done|by etrans|].
    intros j [->|Hj]%elem_of_cons; [by apply F2|by apply H2].
Qed.

Lemma wp_DeallocateBaseAddressTable bat ids (Q : Z * bat_subgroup -> mu_regs -> Prop) m :
  (forall i, i ∈ ids -> (i < 8)%nat) -> (0 < length ids <= 8)%nat -> (bat_subgrpid bat < 68)%nat ->
  (forall m' bat', bat_subgrpid bat' = bat_subgrpid bat -> frees m m' ->
     (forall i, i ∈ ids -> mu_bat m' (bat_subgrpid bat, i) = FREE_BAT) -> Q (0, bat') m') ->
  wp (Kernel_DeallocateBaseAddressTable bat ids) Q m.
Proof.
  intros Hi Hl Hs HQ. unfold Kernel_DeallocateBaseAddressTable, Kernel_QueryBaseAddressTable, MUSPI_assert.
  apply wp_bind. rewrite (proj2 (Nat.leb_le _ _)) by apply Hl. apply wp_ret, wp_bind.
  rewrite (proj2 (Nat.ltb_lt _ _)) by apply Hl. apply wp_ret, wp_bind.
  eapply wp_mono; [by apply wp_clear_bat|]. intros bat' m1 (E & F & H). apply wp_bind, wp_bind.
  rewrite E, (proj2 (Nat.ltb_lt _ _)) by done. apply wp_ret, wp_gets, wp_bind.
  destruct (bat_mode (bat_subgrpid bat)) as [n bit].
  apply (wp_change_dcr _ _ _ (fun v => Z.lor v bit)). intros m2 F2. apply wp_ret, HQ; [done|by etrans|].
  intros i Hin. by apply F2, H.
Qed.

(** ** Properties *)

(** Bit of FIFO [i] of subgroup [s] in the registers of its group. *)
Definition fifo_pos (s i : nat) : Z := 31 - Z.of_nat (i + sgid_of s * 8).

(** C40: allocating distinct free injection FIFOs of a subgroup succeeds, gives
    the caller the registers of exactly these FIFOs, marks them taken and
    sets the priority, remote-get and system bits of each to its own
    attributes; deallocating them then restores every register of the
    message unit, when their bits had their reset values before. *)
Theorem inj_alloc_roundtrip s sg reqs m :
  (s < 68)%nat -> NoDup (map fst reqs) ->
  (forall i, i ∈ map fst reqs -> (i < 8)%nat /\ fr_pa_start (mu_inj m (s, i)) = 0) ->
  (forall i, i ∈ map fst reqs ->
     Z.testbit (mu_priority m (gid_of s)) (fifo_pos s i) = false /\
     Z.testbit (mu_dcr m (IMFIFO_RGET, gid_of s)) (fifo_pos s i) = false /\
     Z.testbit (mu_dcr m (IMFIFO_SYSTEM, gid_of s)) (fifo_pos s i) = true) ->
  exists sg' m1, Kernel_AllocateInjFifos s sg reqs m = Ok (0, sg') m1 /\
    (forall i a, (i, a) ∈ reqs ->
       sh_hwfifo (sg_fifos sg' i) = Some (s, i, negb (ia_System a =? 0)) /\
       fr_pa_start (mu_inj m1 (s, i)) <> 0 /\
       Z.testbit (mu_priority m1 (gid_of s)) (fifo_pos s i) = (Priority a =? 1) /\
       Z.testbit (mu_dcr m1 (IMFIFO_RGET, gid_of s)) (fifo_pos s i) = (RemoteGet a =? 1) /\
       Z.testbit (mu_dcr m1 (IMFIFO_SYSTEM, gid_of s)) (fifo_pos s i) = negb (ia_System a =? 0)) /\
    Kernel_DeallocateInjFifos sg' (map fst reqs) m1 = Ok 0 m.
Proof.
  intros Hs Hnd Hids Hbits. do 2 eexists. split; [by apply alloc_inj_ok|]. split.
  - intros i a Hin. assert (Hi : i ∈ map fst reqs) by (apply list_elem_of_fmap; by exists (i, a)).
    pose proof (sgid_lt s) as Hsg. destruct (Hbits i Hi) as (B1 & B2 & B3).
    split; [by apply marked_at|]. unfold inj_allocated, with_inj, set_dcr, set_priority. cbn. split_and!.
    + unfold set_starts. by rewrite decide_True by done.
    + rewrite fn_lookup_insert, Z.lor_spec, Z.ldiff_spec. unfold fifo_pos in *.
      rewrite !(mask_own _ _ reqs i a) by (done || intros; by apply Hids). by rewrite B1.
    + rewrite fn_lookup_insert_ne, fn_lookup_insert by done. rewrite Z.lor_spec, Z.ldiff_spec. unfold fifo_pos in *.
      rewrite !(mask_own _ _ reqs i a) by (done || intros; by apply Hids). by rewrite B2.
    + rewrite fn_lookup_insert, fn_lookup_insert_ne by done. rewrite Z.ldiff_spec, Z.lor_spec. unfold fifo_pos in *.
      rewrite !(mask_own _ _ reqs i a) by (done || intros; by apply Hids). rewrite B3. by destruct (ia_System a =? 0).
  - rewrite dealloc_inj_ok by (intros i Hi; by apply Hids). rewrite marked_id. cbn [subgroupid]. f_equal.
    apply inj_restored; [intros i Hi; by apply Hids|]. intros n (i & Hi & Hn)%existsb_exists.
    apply list_elem_of_In in Hi. rewrite inj_bit_testbit in Hn by (apply sgid_lt || by apply Hids).
    apply Z.eqb_eq in Hn as ->. by apply Hbits.
Qed.

(** No two allocations hold the same injection FIFO: while one has it,
    every request of the subgroup that names it is refused with [EAGAIN]
    and changes no register. *)
Theorem inj_alloc_exclusive s sg1 reqs1 sg2 reqs2 sg1' m m1 i :
  (s < 68)%nat -> ids_ok 8 (map fst reqs1) -> ids_ok 8 (map fst reqs2) ->
  Kernel_AllocateInjFifos s sg1 reqs1 m = Ok (0, sg1') m1 -> i ∈ map fst reqs1 -> i ∈ map fst reqs2 ->
  Kernel_AllocateInjFifos s sg2 reqs2 m1 = Ok (EAGAIN, sg2) m1.
Proof.
  intros Hs H1 H2 Ha Hi1 Hi2. destruct (alloc_inj_eq s sg1 reqs1 m Hs H1) as (free & _ & E).
  rewrite Ha in E. destruct (_ || _); [done|]. injection E as _ ->.
  destruct (alloc_inj_eq s sg2 reqs2 (inj_allocated s reqs1 m) Hs H2) as (free2 & Hfree2 & ->).
  assert (Hn : i ∉ free2).
  { rewrite Hfree2. intros [_ H]. revert H. unfold inj_allocated, with_inj, set_starts. cbn.
    by rewrite decide_True by done. }
  rewrite bool_decide_eq_false_2; [by rewrite orb_true_r|]. intros H. apply Hn.
  exact (proj1 (list.Forall_forall _ _) H i Hi2).
Qed.

(** Of the reception FIFOs a caller asks for only the first one is
    checked: when it is free and so is any other one, a second FIFO that
    somebody else is using is handed out as well. *)
Theorem rec_alloc_second_unchecked s sg i j k a b m :
  (s < 68)%nat -> (i < 4)%nat -> (j < 4)%nat -> (k < 4)%nat -> i <> k ->
  fr_pa_start (mu_rec m (s, i)) = 0 -> fr_pa_start (mu_rec m (s, k)) = 0 ->
  fr_pa_start (mu_rec m (s, j)) <> 0 ->
  exists sg' m1, Kernel_AllocateRecFifos s sg [(i, a); (j, b)] m = Ok (0, sg') m1 /\
    sh_hwfifo (sg_fifos sg' j) = Some (s, j, negb (ra_System b =? 0)) /\
    fr_pa_start (mu_rec m1 (s, j)) = 0x240.
Proof.
  intros Hs Hi Hj Hk Hik Fi Fk Fj. unfold Kernel_AllocateRecFifos. unfold bind at 1, MUSPI_assert at 1.
  rewrite (proj2 (Nat.ltb_lt _ _)) by done. unfold ret at 1.
  change (length [(i, a); (j, b)]) with 2%nat. unfold bind at 1, MUSPI_assert at 1.
  change (2 <=? BGQ_MU_NUM_REC_FIFOS_PER_SUBGROUP)%nat with true. unfold ret at 1.
  unfold bind at 1, Kernel_QueryRecFifos, gets. set (free := filter _ _).
  assert (Hfree : forall x, (x < 4)%nat -> fr_pa_start (mu_rec m (s, x)) = 0 -> x ∈ free).
  { intros x Hx Hx0. apply list_elem_of_filter. split; [done|]. apply elem_of_seq.
    unfold BGQ_MU_NUM_REC_FIFOS_PER_SUBGROUP. lia. }
  assert (Hlen : (2 <= length free)%nat).
  { assert (H : [i; k] ⊆+ free).
    { apply NoDup_submseteq.
      - apply list.NoDup_cons. split; [by rewrite list_elem_of_singleton|apply NoDup_singleton].
      - intros x [->| ->%list_elem_of_singleton]%elem_of_cons; by apply Hfree. }
    apply submseteq_length in H. done. }
  rewrite (proj2 (Nat.ltb_ge _ _)) by done. unfold bind at 1.
  rewrite all_free_ok by (cbn; intros x [->|[->|[]%elem_of_nil]%elem_of_cons]%elem_of_cons; done).
  rewrite bool_decide_eq_true_2 by (cbn; repeat constructor; by apply Hfree). cbn [negb].
  unfold bind at 1. rewrite (run_dcr _ _ _ (fun v => Z.ldiff (Z.lor v _) _))
    by (intros [-> ->]%both_zero; by rewrite Z.ldiff_0_r, Z.lor_0_r).
  cbn [mark_rec]. unfold BGQ_MU_NUM_REC_FIFOS_PER_SUBGROUP. rewrite !(proj2 (Nat.ltb_lt _ 4)) by done.
  do 2 eexists. split; [reflexivity|]. cbn. by rewrite !fn_lookup_insert.
Qed.

(** ** Witnesses: the message unit after reset, two callers *)

Definition reset_mu : mu_regs := mkMu (fun _ => mkFr 0 0 0 0) (fun _ => mkFr 0 0 0 0) (fun _ => 512)
  (fun _ => 0) (fun _ => 0) (fun _ => FREE_BAT) (fun k => match fst k with
    | IMFIFO_SYSTEM | RMFIFO_SYSTEM | RPUTBASE_SYSTEM0 | RPUTBASE_SYSTEM1 => u64_max | _ => 0 end).
Definition no_subgroup : fifo_subgroup := mkSg (fun _ => zero_shadow) false 0.
Definition demo_reqs : list (nat * Kernel_InjFifoAttributes) := [(0%nat, mkIa 0 1 0); (3%nat, mkIa 1 0 1)].

Lemma demo_reqs_range i : i ∈ map fst demo_reqs -> i = 0%nat \/ i = 3%nat.
Proof. intros [->|[->|[]%elem_of_nil]%elem_of_cons]%elem_of_cons; auto. Qed.

Lemma inj_alloc_roundtrip_witness :
  exists sg' m1, Kernel_AllocateInjFifos 66 no_subgroup demo_reqs reset_mu = Ok (0, sg') m1 /\
    sh_hwfifo (sg_fifos sg' 3) = Some (66%nat, 3%nat, false) /\
    Z.testbit (mu_dcr m1 (IMFIFO_SYSTEM, 16%nat)) (31 - 19) = false /\
    Kernel_DeallocateInjFifos sg' [0; 3]%nat m1 = Ok 0 reset_mu.
Proof.
  destruct (inj_alloc_roundtrip 66 no_subgroup demo_reqs reset_mu) as (sg' & m1 & E & H & R).
  - lia.
  - by apply (bool_decide_unpack _).
  - intros i [-> | ->]%demo_reqs_range; split; done || lia.
  - intros i [-> | ->]%demo_reqs_range; by vm_compute.
  - exists sg', m1. destruct (H 3%nat (mkIa 1 0 1)) as (P & _ & _ & _ & S); [by right; left|]. by split_and!.
Defined.

Lemma inj_alloc_exclusive_witness :
  exists sg' m1, Kernel_AllocateInjFifos 66 no_subgroup demo_reqs reset_mu = Ok (0, sg') m1 /\
    Kernel_AllocateInjFifos 66 no_subgroup [(3%nat, mkIa 0 1 0)] m1 = Ok (EAGAIN, no_subgroup) m1.
Proof.
  assert (E := alloc_inj_ok 66 no_subgroup demo_reqs reset_mu). do 2 eexists. split.
  - apply E; [lia|by apply (bool_decide_unpack _)|]. intros i [-> | ->]%demo_reqs_range; split; done || lia.
  - eapply (inj_alloc_exclusive 66 no_subgroup demo_reqs _ _ _ reset_mu _ 3).
    + lia.
    + split; [apply Nat.leb_le; reflexivity|]. intros i [-> | ->]%demo_reqs_range; apply Nat.ltb_lt; reflexivity.
    + split; [apply Nat.leb_le; reflexivity|]. intros i [->|[]%elem_of_nil]%elem_of_cons; apply Nat.ltb_lt; reflexivity.
    + apply E; [lia|by apply (bool_decide_unpack _)|]. intros i [-> | ->]%demo_reqs_range; split; done || lia.
    + by right; left.
    + by left.
Defined.

Lemma rec_alloc_second_unchecked_witness :
  exists sg' m1, Kernel_AllocateRecFifos 66 no_subgroup [(0%nat, mkRa 1); (1%nat, mkRa 1)]
    (reset_mu <| mu_rec ::= <[(66, 1)%nat := mkFr 0x5000 0 0 0]> |>) = Ok (0, sg') m1 /\
    fr_pa_start (mu_rec m1 (66, 1)%nat) = 0x240.
Proof.
  destruct (rec_alloc_second_unchecked 66 no_subgroup 0 1 2 (mkRa 1) (mkRa 1)
    (reset_mu <| mu_rec ::= <[(66, 1)%nat := mkFr 0x5000 0 0 0]> |>)) as (sg' & m1 & E & _ & F);
    [lia|lia|lia|lia|lia|done|done|done|]. by exists sg', m1.
Defined.
