(* ===== verification/Reset.v ===== *)
(** * The reset sequence of the message unit and the network

    include/spi/include/mu/Reset.h: a link is brought down and up again by
    calling [MUSPI_Reset] until it no longer returns [EAGAIN]; every call
    runs the steps of one sequence number.  The state is the message unit
    of Kernel.v with the device control registers (DCRs) of the message unit
    and the network that the sequence uses. *)

From S2P Require Import Prelude Kernel.

Definition ND_RESE_DCR_num : nat := 11.
Definition BGQ_COLL_CLASS_MAX_CLASSROUTES : nat := 16.
Definition BGQ_CLASS_INPUT_LINK_LOCAL := 1.
Definition BGQ_MU_NUM_INJ_FIFOS_PER_GROUP := 32.
Definition BGQ_MU_NUM_REC_FIFOS_PER_GROUP := 16.

(** ** Fields: [w] bits that end at bit [b], counted from the left *)

Definition BGQ_SET (w b v : Z) : Z := u64 (Z.shiftl (Z.land v (Z.ones w)) (63 - b)).
Definition BGQ_GET (w b x : Z) : Z := Z.land (Z.shiftr x (63 - b)) (Z.ones w).
Definition BGQ_INSERT (w b x v : Z) : Z :=
  Z.lor (Z.ldiff x (Z.shiftl (Z.ones w) (63 - b))) (BGQ_SET w b v).

(** ** Registers *)

Inductive mu_int := MASTER_PORT0 | MASTER_PORT1 | MASTER_PORT2 | SLAVE_PORT | MMREGS | FIFO_INT | MCSRAM
  | RCSRAM | RPUTSRAM | RME0 | RME1 | ICSRAM | MISC | IMU_ECC | RMU_ECC | RMU_ECC_CORR.
Inductive rese_reg := RESE_RESET | RESE_CTRL | RESE_CLEAR | RE_VC0_PKT_CNT | RE_VC1_STATE | RE_VC2_STATE
  | SE_TOKENS | FATAL_ERR_ENABLE.
Inductive reg :=
| RME_ENABLE | RME_STATE (i : nat) | MU_RESET
| MIN_USR_ADDR_RANGE (i : nat) | MAX_USR_ADDR_RANGE (i : nat) | USR_INJ_RANGE
| MU_INTERRUPTS (i : mu_int) | SYS_BARRIER | BARRIER_INT_EN | MCSRAM_BD_FETCHING_DESC | IME_STATE
| ND500_RESET | CTRL_COLL_CLASS (i : nat) | CTRL_GI_CLASS (i : nat) | CTRL_CLEAR0
| INJ_FIFO_HEAD (i : nat) | INJ_FIFO_TAIL (i : nat) | RCP_FIFO_HEAD (i : nat) | RCP_FIFO_TAIL (i : nat)
| RESE (link : nat) (r : rese_reg)
| INT_STATUS (g : nat) | GI_CONTROL (r : nat).
#[export] Instance mu_int_eq : EqDecision mu_int.
Proof. solve_decision. Defined.
#[export] Instance rese_reg_eq : EqDecision rese_reg.
Proof. solve_decision. Defined.
#[export] Instance reg_eq : EqDecision reg.
Proof. solve_decision. Defined.

Record chip := mkChip { c_mu : mu_regs; c_desc_counter : nat * nat -> Z; c_reg : reg -> Z }.
#[export] Instance FieldsOf_chip : FieldsOf chip := fun c => mkChip (c_mu c) (c_desc_counter c) (c_reg c).

Definition MC (A : Type) : Type := M chip A.

Definition DCRReadPriv (r : reg) : MC Z := gets (fun c => c_reg c r).
Definition DCRWritePriv (r : reg) (v : Z) : MC unit := modify (fun c => c <| c_reg ::= <[r := v]> |>).
Definition upd_mu (u : mu_regs -> mu_regs) : MC unit := modify (fun c => c <| c_mu ::= u |>).

(** [MUSPI_RESET_t]; the flags are zero or not. *)
Record MUSPI_RESET := mkReset {
  sequence : Z; old_classroutes : nat -> Z; nd_linkmask : Z; nd_holdreset : bool; skip_collectives : bool;
  clear_user : bool; clear_system : bool; clear_allsubgroups : bool; clear_subgroup : nat;
  lastSequenceID : Z }.
#[export] Instance FieldsOf_reset : FieldsOf MUSPI_RESET := fun r =>
  mkReset (sequence r) (old_classroutes r) (nd_linkmask r) (nd_holdreset r) (skip_collectives r)
    (clear_user r) (clear_system r) (clear_allsubgroups r) (clear_subgroup r) (lastSequenceID r).

Definition MUSPI_InitReset : MC MUSPI_RESET :=
  routes <- gets (fun c => fun x => c_reg c (CTRL_COLL_CLASS x)) ;;
  ret (mkReset 1 routes (Z.shiftl 1 (Z.of_nat ND_RESE_DCR_num) - 1) false false true false true 0 0xff).
Definition MUSPI_InitResetHold (subgroup link : nat) : MC MUSPI_RESET :=
  reset <- MUSPI_InitReset ;;
  ret (reset <| nd_linkmask := Z.shiftl 1 (Z.of_nat link) |> <| skip_collectives := true |>
             <| clear_system := true |> <| clear_allsubgroups := false |>
             <| clear_subgroup := subgroup |> <| lastSequenceID := 7 |>).
Definition MUSPI_InitResetRelease (subgroup link : nat) : MC MUSPI_RESET :=
  reset <- MUSPI_InitReset ;;
  ret (reset <| nd_linkmask := Z.shiftl 1 (Z.of_nat link) |> <| skip_collectives := true |>
             <| clear_system := true |> <| clear_allsubgroups := false |>
             <| clear_subgroup := subgroup |> <| nd_holdreset := true |> <| sequence := 8 |>).

(** ** Loops *)

Fixpoint for_each {S} (l : list nat) (body : nat -> M S unit) : M S unit :=
  match l with
  | [] => ret tt
  | x :: l => body x ;;; for_each l body
  end.

(** The links whose DCRs are not held in reset and that are in the mask. *)
Definition for_links (reset : MUSPI_RESET) (body : nat -> MC unit) : MC unit :=
  for_each (seq 0 ND_RESE_DCR_num) (fun x =>
    v <- DCRReadPriv (RESE x RESE_RESET) ;;
    when ((BGQ_GET 1 0 v =? 0) && Z.testbit (nd_linkmask reset) (Z.of_nat x)) (body x)).
Definition rese_insert (x : nat) (r : rese_reg) (w b v : Z) : MC unit :=
  old <- DCRReadPriv (RESE x r) ;; DCRWritePriv (RESE x r) (BGQ_INSERT w b old v).

(** The groups and subgroups a reset is about. *)
Definition for_groups (reset : MUSPI_RESET) (body : nat -> MC unit) : MC unit :=
  for_each (seq 0 BGQ_MU_NUM_FIFO_GROUPS) (fun g =>
    when (clear_allsubgroups reset || (g =? clear_subgroup reset / BGQ_MU_NUM_FIFO_SUBGROUPS)%nat) (body g)).
Definition for_subgroups (reset : MUSPI_RESET) (body : nat -> MC unit) : MC unit :=
  for_each (seq 0 BGQ_MU_NUM_FIFO_SUBGROUPS) (fun sg =>
    when (clear_allsubgroups reset || (sg =? clear_subgroup reset mod BGQ_MU_NUM_FIFO_SUBGROUPS)%nat) (body sg)).

(** ** The steps *)

Definition MUSPI_ResetIdle (reset : MUSPI_RESET) : MC Z := ret 0.

Section with_chip.
(** What the hardware does between two looks at it, and how often a wait
    looks. *)
Context (chip_step : chip -> chip) (fuel : nat).

(** One look at the states of the 16 rMEs: are those concerned idle, and
    which of them must be reset? *)
Definition rme_state (c : chip) (rMEID : nat) : Z :=
  BGQ_GET 5 (24 + 4 + 5 * Z.of_nat (rMEID mod 8)) (c_reg c (RME_STATE (rMEID / 8))).
Definition rme_concerned (reset : MUSPI_RESET) (rMEID : nat) : bool :=
  let sys := (rMEID =? 13)%nat || (rMEID =? 15)%nat in
  negb (negb (clear_system reset) && sys || negb (clear_user reset) && negb sys).
Definition rme_busy (state : Z) : bool := negb (state =? 0) && ((state <? 0x10) || (state >? 0x12)).
Definition rme_poll (reset : MUSPI_RESET) (c : chip) : bool * Z :=
  let ids := filter (fun x => rme_concerned reset x = true) (seq 0 16) in
  (forallb (fun x => negb (rme_busy (rme_state c x))) ids,
   foldl (fun map x => if rme_state c x =? 0x12 then Z.lor map (BGQ_SET 16 47 (Z.shiftr 0x8000 (Z.of_nat x))) else map) 0 ids).

Fixpoint rme_wait (fuel : nat) (reset : MUSPI_RESET) : MC Z := fun c =>
  let '(wait_done, reset_rME_map) := rme_poll reset c in
  if wait_done then Ok reset_rME_map c else
  match fuel with
  | O => Hang
  | S fuel => rme_wait fuel reset (chip_step c)
  end.

(** The delay of 200 instructions is left out. *)
Definition MUSPI_ResetCleanupStuckRmes (reset : MUSPI_RESET) : MC Z :=
  let e := 0xffff in
  let e := if clear_user reset then Z.land e 0x0005 else e in
  let e := if clear_system reset then Z.ldiff e 0x0005 else e in
  DCRWritePriv RME_ENABLE (BGQ_SET 16 15 e) ;;;
  map <- rme_wait fuel reset ;;
  DCRWritePriv MU_RESET map ;;;
  DCRWritePriv MU_RESET 0 ;;;
  ret 0.

Definition get_dcr (n : dcr_name) (g : nat) : MC Z := gets (fun c => mu_dcr (c_mu c) (n, g)).
Definition set_dcr' (n : dcr_name) (g : nat) (v : Z) : MC unit := upd_mu (fun m => m <| mu_dcr ::= <[(n, g) := v]> |>).

(** The dummy reads at its end are left out. *)
Definition MUSPI_ResetDisableUserReception (reset : MUSPI_RESET) : MC Z :=
  for_groups reset (fun g =>
    let sg := Z.of_nat (clear_subgroup reset mod BGQ_MU_NUM_FIFO_SUBGROUPS) in
    s <- get_dcr IMFIFO_SYSTEM g ;;
    let value := 0xffffffff in
    let value := if clear_user reset then value else Z.land value s in
    let value := if clear_system reset
                 then if clear_allsubgroups reset then value else Z.land value (BGQ_SET 8 (32 + 7 + 8 * sg) (-1))
                 else Z.ldiff value s in
    upd_mu (fun m => m <| mu_isEnabled ::= fun f => <[g := Z.ldiff (f g) value]> f |>) ;;;
    s <- get_dcr RMFIFO_SYSTEM g ;;
    let value := 0xffff in
    let value := if clear_user reset then value else Z.ldiff value s in
    let value := if clear_system reset
                 then if clear_allsubgroups reset then value else Z.ldiff value (BGQ_SET 4 (48 + 3 + 4 * sg) (-1))
                 else Z.land value s in
    en <- get_dcr RMFIFO_EN g ;;
    set_dcr' RMFIFO_EN g (Z.land value en)) ;;;
  ret 0.

Definition MUSPI_ResetEnableUserRmes (reset : MUSPI_RESET) : MC Z :=
  DCRWritePriv RME_ENABLE (BGQ_SET 16 15 0xffff) ;;; ret 0.

(** Start or stop dropping the packets of a link's sender. *)
Definition drop_packets (reset : MUSPI_RESET) (x : nat) (v : Z) : MC unit :=
  nd_ctrl <- DCRReadPriv (RESE x RESE_CTRL) ;;
  let nd_ctrl := if clear_user reset then BGQ_INSERT 1 5 nd_ctrl v else nd_ctrl in
  let nd_ctrl := if clear_system reset then BGQ_INSERT 1 6 nd_ctrl v else nd_ctrl in
  DCRWritePriv (RESE x RESE_CTRL) nd_ctrl.
Definition MUSPI_ResetDisableNDSenders (reset : MUSPI_RESET) : MC Z :=
  for_links reset (fun x => rese_insert x RESE_CLEAR 1 63 1 ;;; drop_packets reset x 1) ;;; ret 0.
Definition MUSPI_ResetPermitNDSenders (reset : MUSPI_RESET) : MC Z :=
  for_links reset (fun x => drop_packets reset x 0 ;;; rese_insert x RESE_CLEAR 1 63 0) ;;; ret 0.

(** *** Collectives *)

Definition unless (b : bool) (m : MC unit) : MC Z := when (negb b) m ;;; ret 0.
Definition nd500_coll (v : Z) : MC unit :=
  nd_ctrl <- DCRReadPriv ND500_RESET ;; DCRWritePriv ND500_RESET (BGQ_INSERT 1 34 nd_ctrl v).
Definition MUSPI_ResetCollectiveUnit (reset : MUSPI_RESET) : MC Z := unless (skip_collectives reset) (nd500_coll 1).
Definition MUSPI_ResetCollectiveUnitRelease (reset : MUSPI_RESET) : MC Z :=
  unless (skip_collectives reset) (nd500_coll 0).
(** Two neighbouring bits of the reset register of each link. *)
Definition rese_two (reset : MUSPI_RESET) (b v : Z) : MC unit :=
  for_links reset (fun x =>
    old <- DCRReadPriv (RESE x RESE_RESET) ;;
    DCRWritePriv (RESE x RESE_RESET) (BGQ_INSERT 1 (b + 1) (BGQ_INSERT 1 b old v) v)).
Definition MUSPI_ResetCollectiveVC (reset : MUSPI_RESET) : MC Z := unless (skip_collectives reset) (rese_two reset 6 1).
Definition MUSPI_ResetCollectiveTokens (reset : MUSPI_RESET) : MC Z :=
  unless (skip_collectives reset) (rese_two reset 13 1).
Definition MUSPI_ResetReleaseVC (reset : MUSPI_RESET) : MC Z := unless (skip_collectives reset) (rese_two reset 6 0).
Definition loopback_route : Z :=
  Z.lor (Z.lor (Z.lor (BGQ_SET 2 3 0) (BGQ_SET 12 15 BGQ_CLASS_INPUT_LINK_LOCAL))
               (Z.lor (BGQ_SET 12 31 0) (BGQ_SET 2 35 0)))
        (Z.lor (BGQ_SET 12 47 BGQ_CLASS_INPUT_LINK_LOCAL) (BGQ_SET 12 63 0)).
Definition MUSPI_ResetCollectiveLoopback (reset : MUSPI_RESET) : MC Z :=
  unless (skip_collectives reset)
    (for_each (seq 0 (BGQ_COLL_CLASS_MAX_CLASSROUTES / 2)) (fun x => DCRWritePriv (CTRL_COLL_CLASS x) loopback_route)).

(** Have the message unit and the network come to rest? *)
Definition link_clear (c : chip) (x : nat) : bool :=
  (c_reg c (RESE x RE_VC0_PKT_CNT) =? 0) &&
  (BGQ_GET 7 6 (c_reg c (RESE x RE_VC1_STATE)) =? 0) && (BGQ_GET 7 6 (c_reg c (RESE x RE_VC2_STATE)) =? 0) &&
  (Z.land (c_reg c (RESE x SE_TOKENS)) 0xfffff00f =? 0x07e77007).
Definition collective_clear (reset : MUSPI_RESET) (c : chip) : bool :=
  (BGQ_GET 1 63 (c_reg c MCSRAM_BD_FETCHING_DESC) =? 0) &&
  (Z.ldiff (c_reg c IME_STATE) 0x249249249249 =? 0) &&
  (c_reg c (RME_STATE 0) =? 0) && (c_reg c (RME_STATE 1) =? 0) &&
  forallb (fun x => c_reg c (INJ_FIFO_HEAD x) =? c_reg c (INJ_FIFO_TAIL x)) (seq 0 2) &&
  forallb (fun x => c_reg c (RCP_FIFO_HEAD x) =? c_reg c (RCP_FIFO_TAIL x)) (seq 0 4) &&
  forallb (fun x => negb ((BGQ_GET 1 0 (c_reg c (RESE x RESE_RESET)) =? 0) && Z.testbit (nd_linkmask reset) (Z.of_nat x))
                    || link_clear c x) (seq 0 ND_RESE_DCR_num).
Fixpoint clear_wait (fuel : nat) (reset : MUSPI_RESET) : MC unit := fun c =>
  if collective_clear reset c then Ok tt c else
  match fuel with
  | O => Hang
  | S fuel => clear_wait fuel reset (chip_step c)
  end.
Definition MUSPI_ResetWaitCollectiveClear (reset : MUSPI_RESET) : MC Z :=
  unless (skip_collectives reset) (clear_wait fuel reset).

(** *** The registers of the message unit *)

Definition upd_dcr (n : dcr_name) (g : nat) (u : Z -> Z) : MC unit := v <- get_dcr n g ;; set_dcr' n g (u v).

(** An interrupt status is cleared by writing ones. *)
Definition MUSPI_ResetClearMMIOIntMU (g : nat) (bitmask : Z) : MC unit :=
  v <- DCRReadPriv (INT_STATUS g) ;;
  let high_bits := Z.land v bitmask in
  when (negb (high_bits =? 0)) (DCRWritePriv (INT_STATUS g) (Z.ldiff v high_bits)).
Definition clear_dcr_int (i : mu_int) (written : Z) : MC unit :=
  v <- DCRReadPriv (MU_INTERRUPTS i) ;; DCRWritePriv (MU_INTERRUPTS i) (Z.ldiff v written).
Definition MUSPI_ResetClearDcrIntMU (i : mu_int) (bitmask : Z) : MC unit :=
  v <- DCRReadPriv (MU_INTERRUPTS i) ;;
  let high_bits := Z.land v bitmask in
  when (negb (high_bits =? 0)) (clear_dcr_int i high_bits).

(** Is a FIFO with this bit in the system register reset? *)
Definition reset_fifo (reset : MUSPI_RESET) (system fifo_bitmask : Z) : bool :=
  (clear_system reset && negb (Z.land system fifo_bitmask =? 0)) ||
  (clear_user reset && (Z.land system fifo_bitmask =? 0)).

Definition reset_inj (reset : MUSPI_RESET) (g sg i : nat) : MC unit :=
  let fifo_bitmask := BN (64 - 32 + Z.of_nat (sg * BGQ_MU_NUM_INJ_FIFOS_PER_SUBGROUP + i)) in
  system <- get_dcr IMFIFO_SYSTEM g ;;
  when (reset_fifo reset system fifo_bitmask)
    (let k := ((g * BGQ_MU_NUM_FIFO_SUBGROUPS + sg)%nat, i) in
     upd_mu (fun m => m <| mu_inj ::= <[k := mkFr 0 0 0 0x3f]> |>) ;;;
     modify (fun c => c <| c_desc_counter ::= <[k := 0]> |>) ;;;
     upd_mu (fun m => m <| mu_priority ::= fun f => <[g := Z.ldiff (f g) fifo_bitmask]> f |>) ;;;
     upd_dcr IMFIFO_THOLD_INT_EN g (fun v => Z.ldiff v fifo_bitmask) ;;;
     upd_dcr IMFIFO_RGET g (fun v => Z.ldiff v fifo_bitmask) ;;;
     MUSPI_ResetClearMMIOIntMU g (u64 (Z.shiftl fifo_bitmask 32))).
Definition MUSPI_ResetInitInjFifoSubgroupMU (reset : MUSPI_RESET) (g sg : nat) : MC unit :=
  for_each (seq 0 BGQ_MU_NUM_INJ_FIFOS_PER_SUBGROUP) (reset_inj reset g sg).

Definition reset_rec (reset : MUSPI_RESET) (g sg i : nat) : MC unit :=
  let fifo_bitmask := BN (64 - 16 + Z.of_nat (sg * BGQ_MU_NUM_REC_FIFOS_PER_SUBGROUP + i)) in
  system <- get_dcr RMFIFO_SYSTEM g ;;
  when (reset_fifo reset system fifo_bitmask)
    (upd_mu (fun m => m <| mu_rec ::= <[((g * BGQ_MU_NUM_FIFO_SUBGROUPS + sg)%nat, i) := mkFr 0 0 0 0x1f]> |>) ;;;
     upd_dcr RMFIFO_THOLD_INT_EN g (fun v => Z.ldiff v fifo_bitmask) ;;;
     upd_dcr RMFIFO_PACKET_INT_EN g (fun v => Z.ldiff v fifo_bitmask) ;;;
     MUSPI_ResetClearMMIOIntMU g (Z.lor fifo_bitmask (Z.shiftl fifo_bitmask 16))).
Definition MUSPI_ResetInitRecFifoSubgroupMU (reset : MUSPI_RESET) (g sg : nat) : MC unit :=
  for_each (seq 0 BGQ_MU_NUM_REC_FIFOS_PER_SUBGROUP) (reset_rec reset g sg).

(** The entries of a subgroup in user mode. *)
Definition reset_bat (g sg : nat) : MC unit :=
  mode <- get_dcr (if (g / 16 =? 0)%nat then RPUTBASE_SYSTEM0 else RPUTBASE_SYSTEM1) 0 ;;
  when (Z.land mode (Z.shiftr 0x8000000000000000 (Z.of_nat ((g mod 16) * BGQ_MU_NUM_FIFO_SUBGROUPS + sg))) =? 0)
    (for_each (seq 0 NUM_DATA_COUNTERS_PER_SUBGROUP) (fun i =>
       upd_mu (fun m => m <| mu_bat ::= <[((g * BGQ_MU_NUM_FIFO_SUBGROUPS + sg)%nat, i) := 0x1fffffffff]> |>))).

(** Bits [x] to [y], counted from the left. *)
Definition MUSPI_ResetBN_XtoY (x y : Z) : Z := u64 (u64 (Z.shiftl (BN x) 1) - BN y).
Definition BNs (l : list Z) : Z := foldr (fun b v => Z.lor (BN b) v) 0 l.

Definition MUSPI_ResetClearAllDcrIntMU : MC unit :=
  MUSPI_ResetClearDcrIntMU MASTER_PORT0 (MUSPI_ResetBN_XtoY 24 25) ;;;
  MUSPI_ResetClearDcrIntMU MASTER_PORT1 (MUSPI_ResetBN_XtoY 24 25) ;;;
  MUSPI_ResetClearDcrIntMU MASTER_PORT2 (MUSPI_ResetBN_XtoY 24 25) ;;;
  MUSPI_ResetClearDcrIntMU SLAVE_PORT (MUSPI_ResetBN_XtoY 21 27) ;;;
  MUSPI_ResetClearDcrIntMU MMREGS (MUSPI_ResetBN_XtoY 9 18) ;;;
  MUSPI_ResetClearDcrIntMU FIFO_INT (BN 63) ;;;
  MUSPI_ResetClearDcrIntMU MCSRAM (Z.lor (MUSPI_ResetBN_XtoY 15 27) (MUSPI_ResetBN_XtoY 31 32)) ;;;
  MUSPI_ResetClearDcrIntMU RCSRAM (MUSPI_ResetBN_XtoY 12 15) ;;;
  MUSPI_ResetClearDcrIntMU RPUTSRAM (MUSPI_ResetBN_XtoY 8 13) ;;;
  MUSPI_ResetClearDcrIntMU RME0 (BNs [5; 11; 17; 23; 29; 35; 41; 47]) ;;;
  MUSPI_ResetClearDcrIntMU RME1 (BNs [4; 10; 16; 22; 28; 34; 40; 46]) ;;;
  MUSPI_ResetClearDcrIntMU ICSRAM (MUSPI_ResetBN_XtoY 20 23) ;;;
  MUSPI_ResetClearDcrIntMU MISC (MUSPI_ResetBN_XtoY 3 5).

Definition reset_subgroup (reset : MUSPI_RESET) (g sg : nat) : MC unit :=
  MUSPI_ResetInitInjFifoSubgroupMU reset g sg ;;;
  MUSPI_ResetInitRecFifoSubgroupMU reset g sg ;;;
  reset_bat g sg.
Definition reset_group (reset : MUSPI_RESET) (g : nat) : MC unit :=
  for_subgroups reset (reset_subgroup reset g) ;;;
  when (clear_user reset)
    (set_dcr' IMFIFO_SYSTEM g (Z.shiftl 1 32 - 1) ;;; set_dcr' RMFIFO_SYSTEM g (Z.shiftl 1 16 - 1)).
Definition user_ranges : MC unit :=
  for_each (seq 0 16) (fun i =>
    DCRWritePriv (MIN_USR_ADDR_RANGE i) u64_max ;;; DCRWritePriv (MAX_USR_ADDR_RANGE i) 0) ;;;
  DCRWritePriv USR_INJ_RANGE 0.
(** The pointer to the table modes is only set inside the loop over the
    groups. *)
Definition MUSPI_ResetRestoreMU (reset : MUSPI_RESET) : MC Z :=
  when (clear_user reset) user_ranges ;;;
  for_groups reset (reset_group reset) ;;;
  when (clear_user reset)
    ((if clear_allsubgroups reset || (clear_subgroup reset / BGQ_MU_NUM_FIFO_SUBGROUPS <? BGQ_MU_NUM_FIFO_GROUPS)%nat
      then set_dcr' RPUTBASE_SYSTEM0 0 u64_max ;;; set_dcr' RPUTBASE_SYSTEM1 0 u64_max
      else fault) ;;;
     MUSPI_ResetClearAllDcrIntMU) ;;;
  ret 0.

(** *** The registers of the network *)

Definition MUSPI_ResetDeallocUserGI (sysgi : Z) (class_id : nat) : MC unit :=
  when (Z.land (BN (48 + Z.of_nat class_id)) sysgi =? 0)
    (giroute <- DCRReadPriv (CTRL_GI_CLASS (class_id / 2)) ;;
     DCRWritePriv (CTRL_GI_CLASS (class_id / 2))
       (Z.land giroute (Z.shiftl 0xffffffff (32 * Z.of_nat (class_id mod 2)))) ;;;
     DCRWritePriv (GI_CONTROL class_id) 0 ;;;
     giinten <- DCRReadPriv BARRIER_INT_EN ;;
     DCRWritePriv BARRIER_INT_EN (Z.ldiff giinten (Z.shiftr (BGQ_SET 3 3 7) (Z.of_nat class_id * 4)))).

(** Only classroutes of the system are kept. *)
Definition strip_user_routes (old : Z) : Z :=
  let old := if BGQ_GET 2 3 old =? 1 then old else Z.land old 0x00000000ffffffff in
  if BGQ_GET 2 35 old =? 1 then old else Z.land old 0xffffffff00000000.
Definition restore_collectives (reset : MUSPI_RESET) : MC MUSPI_RESET :=
  let routes := fun x => strip_user_routes (old_classroutes reset x) in
  for_each (seq 0 (BGQ_COLL_CLASS_MAX_CLASSROUTES / 2)) (fun x => DCRWritePriv (CTRL_COLL_CLASS x) (routes x)) ;;;
  sysgi <- DCRReadPriv SYS_BARRIER ;;
  for_each (seq 0 16) (MUSPI_ResetDeallocUserGI sysgi) ;;;
  DCRWritePriv SYS_BARRIER 0xffff ;;;
  ret (reset <| old_classroutes := routes |>).

Definition nd_clear0 : Z :=
  Z.lor (Z.lor (BGQ_SET 12 11 0xfff) (BGQ_SET 2 13 3)) (Z.lor (BGQ_SET 8 31 0xf0) (BGQ_SET 32 63 0xf0000000)).
Definition int_to_clear : list mu_int := [FIFO_INT; IMU_ECC; RMU_ECC; ICSRAM; RMU_ECC_CORR; RCSRAM].

Definition MUSPI_ResetRestoreND (reset : MUSPI_RESET) : MC (Z * MUSPI_RESET) :=
  reset <- (if skip_collectives reset then ret reset else restore_collectives reset) ;;
  when (clear_allsubgroups reset)
    (for_each (seq 0 BGQ_MU_NUM_FIFO_GROUPS) (fun g =>
       v <- DCRReadPriv (INT_STATUS g) ;; DCRWritePriv (INT_STATUS g) (Z.ldiff v u64_max))) ;;;
  foldr (fun i k => clear_dcr_int i u64_max ;;; k) (ret tt) int_to_clear ;;;
  DCRWritePriv CTRL_CLEAR0 nd_clear0 ;;;
  DCRWritePriv CTRL_CLEAR0 0 ;;;
  (if nd_holdreset reset then
     for_each (seq 0 ND_RESE_DCR_num) (fun x =>
       when (Z.testbit (nd_linkmask reset) (Z.of_nat x)) (DCRWritePriv (RESE x FATAL_ERR_ENABLE) 0))
   else rese_two reset 13 0) ;;;
  ret (0, reset).

(** *** The driver of the sequence *)

(** [CALL(seq, func)] *)
Definition CALL (seq : Z) (func : MUSPI_RESET -> MC Z) (r : Z * MUSPI_RESET) : MC (Z * MUSPI_RESET) :=
  let '(rc, reset) := r in
  if (sequence reset =? seq) && (rc =? 0) then rc <- func reset ;; ret (rc, reset) else ret r.

Definition MUSPI_Reset (reset : MUSPI_RESET) : MC (Z * MUSPI_RESET) :=
  r <- CALL 1 MUSPI_ResetIdle (0, reset) ;;
  r <- CALL 2 MUSPI_ResetCleanupStuckRmes r ;;
  r <- CALL 2 MUSPI_ResetDisableUserReception r ;;
  r <- CALL 2 MUSPI_ResetEnableUserRmes r ;;
  r <- CALL 3 MUSPI_ResetDisableNDSenders r ;;
  r <- CALL 4 MUSPI_ResetCollectiveUnit r ;;
  r <- CALL 4 MUSPI_ResetCollectiveVC r ;;
  r <- CALL 4 MUSPI_ResetCollectiveTokens r ;;
  r <- CALL 4 MUSPI_ResetCollectiveLoopback r ;;
  r <- CALL 4 MUSPI_ResetCollectiveUnitRelease r ;;
  r <- CALL 5 MUSPI_ResetWaitCollectiveClear r ;;
  r <- CALL 6 MUSPI_ResetWaitCollectiveClear r ;;
  r <- CALL 7 MUSPI_ResetReleaseVC r ;;
  r <- CALL 8 MUSPI_ResetPermitNDSenders r ;;
  r <- CALL 8 MUSPI_ResetRestoreMU r ;;
  r <- (let '(rc, reset) := r in
        if (sequence reset =? 8) && (rc =? 0) then MUSPI_ResetRestoreND reset else ret r) ;;
  r <- CALL 9 MUSPI_ResetIdle r ;;
  let '(rc, reset) := r in
  if (sequence reset =? 10) || (sequence reset =? lastSequenceID reset) then ret (rc, reset) else
  if rc =? 0 then ret (EAGAIN, reset <| sequence ::= fun s => u64 (s + 1) |>) else ret (rc, reset).

(** [do rc = MUSPI_Reset(&reset); while(rc == EAGAIN)] *)
Fixpoint reset_loop (n : nat) (reset : MUSPI_RESET) : MC (Z * MUSPI_RESET) :=
  match n with
  | O => hang
  | S n =>
      r <- MUSPI_Reset reset ;;
      if fst r =? EAGAIN then reset_loop n (snd r) else ret r
  end.
End with_chip.

#[local] Arguments Z.testbit : simpl never.
#[local] Arguments BGQ_INSERT : simpl never.

(** ** Bits of a field *)

Lemma BGQ_INSERT_testbit b x v n : 0 <= b <= 63 -> 0 <= n ->
  Z.testbit (BGQ_INSERT 1 b x v) n = if n =? 63 - b then Z.odd v else Z.testbit x n.
Proof.
  intros Hb Hn. unfold BGQ_INSERT, BGQ_SET, u64. change (Z.ones 1) with 1.
  assert (Ho : Z.land v 1 = Z.b2z (Z.odd v)).
  { change 1 with (Z.ones 1). rewrite Z.land_ones, <- Z.bit0_mod, Z.bit0_odd by lia. done. }
  assert (Hp : 0 < 2 ^ (63 - b) < 2 ^ 64) by (split; [apply Z.pow_pos_nonneg|apply Z.pow_lt_mono_r]; lia).
  rewrite Ho, Z.mod_small.
  2: { rewrite Z.shiftl_mul_pow2 by lia. destruct (Z.odd v); cbn [Z.b2z]; lia. }
  rewrite Z.lor_spec, Z.ldiff_spec, Z.shiftl_1_l, Z.pow2_bits_eqb, Z.shiftl_spec, (Z.eqb_sym (63 - b)) by lia.
  destruct (Z.eqb_spec n (63 - b)) as [->|H].
  - rewrite andb_false_r, Z.sub_diag. by destruct (Z.odd v).
  - rewrite andb_true_r. enough (Z.testbit (Z.b2z (Z.odd v)) (n - (63 - b)) = false) as -> by apply orb_false_r.
    destruct (Z.ltb_spec n (63 - b)); [apply Z.testbit_neg_r; lia|]. destruct (Z.odd v); cbn [Z.b2z]; [|apply Z.bits_0].
    change 1 with (2 ^ 0). rewrite Z.pow2_bits_false; [done|lia].
Qed.

(** ** Loops over links, groups and subgroups of which one is concerned *)

Lemma for_each_skip {S} (l : list nat) (body : nat -> M S unit) s :
  (forall x, x ∈ l -> body x s = Ok tt s) -> for_each l body s = Ok tt s.
Proof.
  induction l as [|x l IH]; intros H; [done|]. cbn. rewrite (bind_ok _ _ _ tt s) by (apply H; left).
  apply IH. intros y Hy. apply H. by right.
Qed.

Lemma wp_for_each_one {S} (l : list nat) (body : nat -> M S unit) k (Q : unit -> S -> Prop) s :
  NoDup l -> k ∈ l -> (forall x s, x <> k -> body x s = Ok tt s) ->
  wp (body k) Q s -> wp (for_each l body) Q s.
Proof.
  intros Hnd Hk H Hw. induction l as [|x l IH]; [by apply elem_of_nil in Hk|].
  apply list.NoDup_cons in Hnd as [Hx Hnd]. cbn. apply wp_bind. destruct (decide (x = k)) as [->|Hxk].
  - eapply wp_mono; [exact Hw|]. intros [] s' HQ. eapply wp_intro; [apply for_each_skip|exact HQ].
    intros y Hy. apply H. by intros ->.
  - apply elem_of_cons in Hk as [?|Hk]; [congruence|]. eapply wp_intro; [by apply H|]. by apply IH.
Qed.

(** A loop whose body establishes a fact per element and keeps those of
    the others. *)
Lemma wp_for_each {S} (I : list nat -> S -> Prop) (l : list nat) (body : nat -> M S unit) s :
  (forall done x rest s, l = done ++ x :: rest -> I done s -> wp (body x) (fun _ s' => I (done ++ [x]) s') s) ->
  I [] s -> wp (for_each l body) (fun _ s' => I l s') s.
Proof.
  intros H. enough (G : forall rest done s, l = done ++ rest -> I done s ->
    wp (for_each rest body) (fun _ s' => I l s') s) by (intros H0; by apply (G l [])).
  induction rest as [|x rest IH]; intros dn s' E Hd; cbn.
  - apply wp_ret. by rewrite E, app_nil_r.
  - apply wp_bind. eapply wp_mono; [by eapply H|]. intros [] s2 H2.
    apply IH with (done := dn ++ [x]); [by rewrite <- app_assoc|done].
Qed.

Lemma one_link_bit link x : Z.testbit (Z.shiftl 1 (Z.of_nat link)) (Z.of_nat x) = (x =? link)%nat.
Proof.
  rewrite Z.shiftl_1_l, Z.pow2_bits_eqb by lia. destruct (Nat.eqb_spec x link) as [->|H]; [apply Z.eqb_refl|].
  apply Z.eqb_neq. lia.
Qed.

(** Are the registers of a link accessible? *)
Definition dcrs_out (c : chip) (link : nat) : bool := negb (BGQ_GET 1 0 (c_reg c (RESE link RESE_RESET)) =? 0).

Lemma wp_for_links reset link body (Q : unit -> chip -> Prop) c :
  nd_linkmask reset = Z.shiftl 1 (Z.of_nat link) -> (link < ND_RESE_DCR_num)%nat ->
  (if dcrs_out c link then Q tt c else wp (body link) Q c) -> wp (for_links reset body) Q c.
Proof.
  intros Hm Hl H. unfold for_links. rewrite Hm. apply (wp_for_each_one _ _ link).
  - apply NoDup_seq.
  - apply list_elem_of_In, in_seq. lia.
  - intros x s Hx. unfold bind, DCRReadPriv, gets. cbn. rewrite one_link_bit.
    apply Nat.eqb_neq in Hx. by rewrite Hx, andb_false_r.
  - apply wp_bind, wp_gets. rewrite one_link_bit, Nat.eqb_refl, andb_true_r. unfold dcrs_out in H.
    destruct (_ =? 0); done.
Qed.
Lemma wp_for_groups reset body (Q : unit -> chip -> Prop) c :
  clear_allsubgroups reset = false -> (clear_subgroup reset < BGQ_MU_NUM_FIFO_SUBGROUPS_PER_NODE)%nat ->
  wp (body (gid_of (clear_subgroup reset))) Q c -> wp (for_groups reset body) Q c.
Proof.
  intros Ha Hs H. unfold for_groups. rewrite Ha. apply (wp_for_each_one _ _ (gid_of (clear_subgroup reset))).
  - apply NoDup_seq.
  - apply list_elem_of_In, in_seq. unfold gid_of, BGQ_MU_NUM_FIFO_GROUPS, BGQ_MU_NUM_FIFO_SUBGROUPS, BGQ_MU_NUM_FIFO_SUBGROUPS_PER_NODE in *.
    split; [lia|]. apply Nat.Div0.div_lt_upper_bound. lia.
  - intros x s Hx. unfold gid_of in Hx. apply Nat.eqb_neq in Hx. by rewrite Hx.
  - unfold gid_of in *. by rewrite Nat.eqb_refl.
Qed.
Lemma wp_for_subgroups reset body (Q : unit -> chip -> Prop) c :
  clear_allsubgroups reset = false ->
  wp (body (sgid_of (clear_subgroup reset))) Q c -> wp (for_subgroups reset body) Q c.
Proof.
  intros Ha H. unfold for_subgroups. rewrite Ha. apply (wp_for_each_one _ _ (sgid_of (clear_subgroup reset))).
  - apply NoDup_seq.
  - apply list_elem_of_In, in_seq. split; [lia|]. unfold sgid_of. by apply Nat.mod_upper_bound.
  - intros x s Hx. unfold sgid_of in Hx. apply Nat.eqb_neq in Hx. by rewrite Hx.
  - unfold sgid_of in *. by rewrite Nat.eqb_refl.
Qed.
Lemma subgroup_split s : (gid_of s * BGQ_MU_NUM_FIFO_SUBGROUPS + sgid_of s)%nat = s.
Proof. unfold gid_of, sgid_of. pose proof (Nat.div_mod_eq s BGQ_MU_NUM_FIFO_SUBGROUPS). lia. Qed.

(** ** Holding a link in reset *)

(** Registers that only software writes. *)
Definition is_control (r : reg) : bool :=
  match r with
  | RME_STATE _ | MU_INTERRUPTS _ | MCSRAM_BD_FETCHING_DESC | IME_STATE
  | INJ_FIFO_HEAD _ | INJ_FIFO_TAIL _ | RCP_FIFO_HEAD _ | RCP_FIFO_TAIL _ | INT_STATUS _ => false
  | RESE _ (RE_VC0_PKT_CNT | RE_VC1_STATE | RE_VC2_STATE | SE_TOKENS) => false
  | _ => true
  end.

Record control_kept (c c' : chip) : Prop := mkCk {
  ck_start : forall k, fr_pa_start (mu_inj (c_mu c') k) = fr_pa_start (mu_inj (c_mu c) k);
  ck_rstart : forall k, fr_pa_start (mu_rec (c_mu c') k) = fr_pa_start (mu_rec (c_mu c) k);
  ck_enabled : mu_isEnabled (c_mu c') = mu_isEnabled (c_mu c);
  ck_priority : mu_priority (c_mu c') = mu_priority (c_mu c);
  ck_bat : mu_bat (c_mu c') = mu_bat (c_mu c);
  ck_dcr : mu_dcr (c_mu c') = mu_dcr (c_mu c);
  ck_reg : forall r, is_control r = true -> c_reg c' r = c_reg c r }.
#[export] Instance control_kept_pre : PreOrder control_kept.
Proof.
  split; [by intros c; split|]. intros c1 c2 c3 [A1 B1 C1 D1 E1 F1 G1] [A2 B2 C2 D2 E2 F2 G2].
  split; [congruence..|]. intros r Hr. by rewrite G2, G1.
Qed.

(** What is documented of the message unit: it does not write control
    registers, and once all rMEs are disabled they come to rest. *)
Class ResetLive (chip_step : chip -> chip) (fuel : nat) : Prop := {
  step_kept : forall c, control_kept c (chip_step c);
  rme_rest : exists rank : chip -> nat, (forall c, (rank c <= fuel)%nat) /\
    forall c, c_reg c RME_ENABLE = 0 -> existsb (fun x => rme_busy (rme_state c x)) (seq 0 16) = true ->
      (rank (chip_step c) < rank c)%nat }.

(** A reset of one subgroup and one link for user and system. *)
Definition link_reset (reset : MUSPI_RESET) (subgroup link : nat) (hold : bool) : Prop :=
  nd_linkmask reset = Z.shiftl 1 (Z.of_nat link) /\ skip_collectives reset = true /\
  clear_user reset = true /\ clear_system reset = true /\ clear_allsubgroups reset = false /\
  clear_subgroup reset = subgroup /\ nd_holdreset reset = hold.

Section hold.
Context (chip_step : chip -> chip) (fuel : nat) `{!ResetLive chip_step fuel}.
Context (reset : MUSPI_RESET) (subgroup link : nat) (hold : bool) (Hr : link_reset reset subgroup link hold)
  (Hs : (subgroup < BGQ_MU_NUM_FIFO_SUBGROUPS_PER_NODE)%nat) (Hl : (link < ND_RESE_DCR_num)%nat).
Let g := gid_of subgroup.
Let sg := sgid_of subgroup.

Lemma rme_poll_busy c : (rme_poll reset c).1 = false ->
  existsb (fun x => rme_busy (rme_state c x)) (seq 0 16) = true.
Proof.
  unfold rme_poll. cbn [fst]. intros H. apply not_true_iff_false in H.
  match goal with |- ?b = true => destruct b eqn:E; [done|] end.
  destruct H. apply forallb_forall. intros x [_ Hx]%list_elem_of_In%list_elem_of_filter. apply list_elem_of_In in Hx.
  destruct (rme_busy (rme_state c x)) eqn:E2; [|done].
  apply not_true_iff_false in E. destruct E. apply existsb_exists. by exists x.
Qed.

Lemma wp_rme_wait n rank c (Q : Z -> chip -> Prop) :
  (forall c, c_reg c RME_ENABLE = 0 -> existsb (fun x => rme_busy (rme_state c x)) (seq 0 16) = true ->
      (rank (chip_step c) < rank c)%nat) ->
  (rank c <= n)%nat -> c_reg c RME_ENABLE = 0 ->
  (forall map c', control_kept c c' -> Q map c') -> wp (rme_wait chip_step n reset) Q c.
Proof.
  intros Hrank. revert c. induction n as [|n IH]; intros c Hn He HQ; unfold wp; cbn [rme_wait];
    pose proof (rme_poll_busy c) as Hb; destruct (rme_poll reset c) as [[] map]; cbn in Hb;
    try (by apply HQ); specialize (Hrank c He (Hb eq_refl)); [lia|].
  apply IH; [lia| |].
  - by rewrite (ck_reg _ _ (step_kept c)).
  - intros map' c' Hk. apply HQ. etrans; [apply step_kept|done].
Qed.

Definition set_reg (r : reg) (v : Z) (c : chip) : chip := c <| c_reg ::= <[r := v]> |>.

Lemma wp_CleanupStuckRmes c (Q : Z -> chip -> Prop) :
  (forall c', control_kept (set_reg MU_RESET 0 (set_reg RME_ENABLE 0 c)) c' -> Q 0 c') ->
  wp (MUSPI_ResetCleanupStuckRmes chip_step fuel reset) Q c.
Proof.
  intros HQ. destruct rme_rest as (rank & Hf & Hrank). unfold MUSPI_ResetCleanupStuckRmes.
  pose proof Hr as (_ & _ & -> & -> & _). apply wp_bind, wp_modify, wp_bind.
  eapply wp_rme_wait; [exact Hrank|apply Hf|done|]. intros map c1 [A B C D E F G].
  wp_steps. apply HQ. split; cbn; try done.
  intros r Hrc. cbn in G. specialize (G r Hrc). destruct (decide (r = MU_RESET)) as [->|H].
  - by rewrite !fn_lookup_insert.
  - rewrite !(fn_lookup_insert_ne _ MU_RESET r) by done. by rewrite G.
Qed.

Definition inj_fifos_of : Z := bits_of (inj_bit sg) (seq 0 BGQ_MU_NUM_INJ_FIFOS_PER_SUBGROUP).
Definition rec_fifos_of : Z := bits_of (rec_dcr_bit sg) (seq 0 BGQ_MU_NUM_REC_FIFOS_PER_SUBGROUP).
Definition fifos_disabled (c : chip) : chip :=
  c <| c_mu ::= fun m =>
    m <| mu_isEnabled ::= fun f => <[g := Z.ldiff (f g) inj_fifos_of]> f |>
      <| mu_dcr ::= fun f => <[(RMFIFO_EN, g) := Z.land (Z.ldiff 0xffff rec_fifos_of) (f (RMFIFO_EN, g))]> f |> |>.

Lemma wp_DisableUserReception c (Q : Z -> chip -> Prop) :
  Q 0 (fifos_disabled c) -> wp (MUSPI_ResetDisableUserReception reset) Q c.
Proof.
  intros HQ. unfold MUSPI_ResetDisableUserReception. pose proof Hr as (_ & _ & Hu & Hsy & Ha & Hsub & _).
  apply wp_bind, wp_for_groups; [done|by rewrite Hsub|]. rewrite Hu, Hsy, Ha, Hsub. cbv zeta.
  assert (Hi : Z.land 0xffffffff (BGQ_SET 8 (32 + 7 + 8 * Z.of_nat sg) (-1)) = inj_fifos_of /\
    Z.ldiff 0xffff (BGQ_SET 4 (48 + 3 + 4 * Z.of_nat sg) (-1)) = Z.ldiff 0xffff rec_fifos_of).
  { unfold inj_fifos_of, rec_fifos_of. assert (Hsg : (sg < 4)%nat) by (by apply Nat.mod_upper_bound).
    clearbody sg. destruct sg as [|[|[|[|?]]]]; [by vm_compute..|lia]. }
  destruct Hi as [H1 H2]. fold (sgid_of subgroup) sg. rewrite H1, H2. fold g.
  unfold get_dcr, set_dcr', upd_mu. repeat (apply wp_bind; first [apply wp_gets|apply wp_modify]).
  exact HQ.
Qed.

(** The sender of the link drops packets, or no longer does. *)
Definition drops (c : chip) (v : bool) : Prop :=
  Z.testbit (c_reg c (RESE link RESE_CTRL)) 58 = v /\ Z.testbit (c_reg c (RESE link RESE_CTRL)) 57 = v.
Definition link_only (c c' : chip) : Prop :=
  c_mu c' = c_mu c /\ c_desc_counter c' = c_desc_counter c /\
  (forall r, r <> RESE link RESE_CTRL -> r <> RESE link RESE_CLEAR -> c_reg c' r = c_reg c r) /\
  (forall n, 0 <= n -> n <> 57 -> n <> 58 ->
     Z.testbit (c_reg c' (RESE link RESE_CTRL)) n = Z.testbit (c_reg c (RESE link RESE_CTRL)) n) /\
  (dcrs_out c link = true -> c' = c).

Lemma wp_drop_packets c v (Q : unit -> chip -> Prop) :
  (forall c', link_only c c' -> c_reg c' (RESE link RESE_CLEAR) = c_reg c (RESE link RESE_CLEAR) ->
     drops c' (Z.odd v) -> Q tt c') -> dcrs_out c link = false -> wp (drop_packets reset link v) Q c.
Proof.
  intros HQ Ho. unfold drop_packets. pose proof Hr as (_ & _ & -> & -> & _). apply wp_bind, wp_gets, wp_modify, HQ.
  - split_and!; cbn; try done; [|intros n Hn H1 H2|congruence].
    + intros r H1 H2. by rewrite fn_lookup_insert_ne.
    + rewrite fn_lookup_insert, !BGQ_INSERT_testbit by lia.
      rewrite (proj2 (Z.eqb_neq n _)), (proj2 (Z.eqb_neq n _)) by lia. done.
  - cbn. by rewrite fn_lookup_insert_ne.
  - split; cbn; rewrite fn_lookup_insert, !BGQ_INSERT_testbit by lia; done.
Qed.

Lemma wp_NDSenders (disable : bool) c (Q : Z -> chip -> Prop) :
  (forall c', link_only c c' -> (dcrs_out c link = false -> drops c' disable) -> Q 0 c') ->
  wp (if disable then MUSPI_ResetDisableNDSenders reset else MUSPI_ResetPermitNDSenders reset) Q c.
Proof.
  intros HQ. pose proof Hr as (Hm & _).
  assert (Hskip : dcrs_out c link = true -> Q 0 c).
  { intros Ho. apply HQ; [by split_and!|congruence]. }
  destruct disable; (apply wp_bind, (wp_for_links _ link); [done..|]);
    (destruct (dcrs_out c link) eqn:Ho; [by apply wp_ret, Hskip|]); apply wp_bind.
  - unfold rese_insert, DCRReadPriv, DCRWritePriv. wp_steps. apply wp_drop_packets; [|].
    + intros c' (Hmu & Hd & Hreg & Hn & _) _ Hdr. apply wp_ret, HQ; [|done]. split_and!; [done|done| | |congruence].
      * intros r H1 H2. rewrite Hreg by done. cbn. by rewrite fn_lookup_insert_ne.
      * intros n H0 H1 H2. rewrite Hn by done. cbn. by rewrite fn_lookup_insert_ne.
    + unfold dcrs_out in *. cbn. by rewrite fn_lookup_insert_ne.
  - apply wp_drop_packets; [|done]. intros c' (Hmu & Hd & Hreg & Hn & _) _ Hdr.
    unfold rese_insert, DCRReadPriv, DCRWritePriv. wp_steps. apply HQ.
    + split_and!; cbn; [done|done| | |congruence].
      * intros r H1 H2. rewrite fn_lookup_insert_ne by done. by apply Hreg.
      * intros n H0 H1 H2. rewrite fn_lookup_insert_ne by done. by apply Hn.
    + intros _. unfold drops in *. cbn. by rewrite !fn_lookup_insert_ne by done.
Qed.

Lemma wp_CALL_no seq func (r : Z * MUSPI_RESET) (Q : Z * MUSPI_RESET -> chip -> Prop) c :
  sequence (snd r) <> seq -> Q r c -> wp (CALL seq func r) Q c.
Proof. destruct r as [rc r]. unfold CALL. cbn. intros H%Z.eqb_neq. by rewrite H. Qed.
Lemma wp_CALL seq func (Q : Z * MUSPI_RESET -> chip -> Prop) c :
  sequence reset = seq -> wp (func reset) (fun rc c' => Q (rc, reset) c') c -> wp (CALL seq func (0, reset)) Q c.
Proof. intros <- H. unfold CALL. rewrite !Z.eqb_refl. by apply wp_bind. Qed.

(** The result of a call whose steps all returned 0. *)
Definition call_result : Z * MUSPI_RESET :=
  if (sequence reset =? 10) || (sequence reset =? lastSequenceID reset) then (0, reset)
  else (EAGAIN, reset <| sequence ::= fun s => u64 (s + 1) |>).

End hold.


Section calls.
Context (chip_step : chip -> chip) (fuel : nat) `{!ResetLive chip_step fuel}.
Context (reset : MUSPI_RESET) (subgroup link : nat) (hold : bool) (Hr : link_reset reset subgroup link hold)
  (Hs : (subgroup < BGQ_MU_NUM_FIFO_SUBGROUPS_PER_NODE)%nat) (Hl : (link < ND_RESE_DCR_num)%nat).

(** The sequence numbers at which a reset of a link does nothing. *)
Lemma reset_idle c : sequence reset ∈ [1; 4; 5; 6; 7; 9; 10] ->
  MUSPI_Reset chip_step fuel reset c = Ok (call_result reset) c.
Proof.
  destruct Hr as (_ & Hsk & _). destruct reset as [sq rts mask hr sk cu cs ca csub last]. cbn in Hsk. subst sk.
  intros H. unfold call_result. cbn [sequence lastSequenceID] in *.
  rewrite !elem_of_cons, elem_of_nil in H.
  destruct_or! H; try done; subst sq; unfold MUSPI_Reset; cbn; repeat case_match; first [done|congruence].
Qed.

Lemma reset_seq2 c (Q : Z * MUSPI_RESET -> chip -> Prop) : sequence reset = 2 ->
  (forall c', control_kept (set_reg MU_RESET 0 (set_reg RME_ENABLE 0 c)) c' ->
     Q (call_result reset) (set_reg RME_ENABLE (BGQ_SET 16 15 0xffff) (fifos_disabled subgroup c'))) ->
  wp (MUSPI_Reset chip_step fuel reset) Q c.
Proof.
  intros E HQ. apply wp_bind, wp_CALL_no; [cbn; lia|].
  apply wp_bind, wp_CALL, (wp_CleanupStuckRmes _ _ _ _ _ _ Hr Hs Hl); [done|]. intros c' Hc'.
  apply wp_bind, wp_CALL, (wp_DisableUserReception _ _ _ _ Hr Hs Hl); [done|].
  apply wp_bind, wp_CALL, wp_bind, wp_modify, wp_ret; [done|].
  repeat (apply wp_bind, wp_CALL_no; [cbn [snd]; lia|]).
  rewrite E. apply wp_bind, wp_ret, wp_bind, wp_CALL_no; [cbn [snd]; lia|].
  specialize (HQ c' Hc'). unfold call_result in HQ. rewrite E in *. by destruct (_ =? lastSequenceID reset).
Qed.

Lemma reset_seq3 c (Q : Z * MUSPI_RESET -> chip -> Prop) : sequence reset = 3 ->
  (forall c', link_only link c c' -> (dcrs_out c link = false -> drops link c' true) -> Q (call_result reset) c') ->
  wp (MUSPI_Reset chip_step fuel reset) Q c.
Proof.
  intros E HQ. repeat (apply wp_bind, wp_CALL_no; [cbn [snd]; lia|]).
  apply wp_bind, wp_CALL, (wp_NDSenders _ _ _ _ Hr Hs Hl true); [done|]. intros c' H1 H2.
  repeat (apply wp_bind, wp_CALL_no; [cbn [snd]; lia|]).
  rewrite E. apply wp_bind, wp_ret, wp_bind, wp_CALL_no; [cbn [snd]; lia|].
  specialize (HQ c' H1 H2). unfold call_result in HQ. rewrite E in *. by destruct (_ =? lastSequenceID reset).
Qed.
End calls.

(** ** Releasing a link *)

Section release.
Context (reset : MUSPI_RESET) (subgroup link : nat) (hold : bool) (Hr : link_reset reset subgroup link hold)
  (Hs : (subgroup < BGQ_MU_NUM_FIFO_SUBGROUPS_PER_NODE)%nat) (Hl : (link < ND_RESE_DCR_num)%nat).
Let g := gid_of subgroup.
Let sg := sgid_of subgroup.

(** The bits of a DCR of the group that belong to the subgroup. *)
Definition subgroup_bits (n : dcr_name) (b : Z) : bool :=
  match n with
  | IMFIFO_RGET | IMFIFO_THOLD_INT_EN => in_bits (inj_dcr_bit sg) (seq 0 BGQ_MU_NUM_INJ_FIFOS_PER_SUBGROUP) b
  | RMFIFO_THOLD_INT_EN | RMFIFO_PACKET_INT_EN => in_bits (rec_dcr_bit sg) (seq 0 BGQ_MU_NUM_REC_FIFOS_PER_SUBGROUP) b
  | _ => false
  end.

(** Only the subgroup is touched. *)
Record sg_only (c c' : chip) : Prop := mkSo {
  so_inj : forall k, fst k <> subgroup -> mu_inj (c_mu c') k = mu_inj (c_mu c) k;
  so_rec : forall k, fst k <> subgroup -> mu_rec (c_mu c') k = mu_rec (c_mu c) k;
  so_bat : forall k, fst k <> subgroup -> mu_bat (c_mu c') k = mu_bat (c_mu c) k;
  so_desc : forall k, fst k <> subgroup -> c_desc_counter c' k = c_desc_counter c k;
  so_enabled : mu_isEnabled (c_mu c') = mu_isEnabled (c_mu c);
  so_prio : forall g', g' <> g -> mu_priority (c_mu c') g' = mu_priority (c_mu c) g';
  so_prio_bits : forall b, in_bits (inj_bit sg) (seq 0 BGQ_MU_NUM_INJ_FIFOS_PER_SUBGROUP) b = false ->
    Z.testbit (mu_priority (c_mu c') g) b = Z.testbit (mu_priority (c_mu c) g) b;
  so_dcr : forall n g', g' <> g -> mu_dcr (c_mu c') (n, g') = mu_dcr (c_mu c) (n, g');
  so_dcr_bits : forall n b, subgroup_bits n b = false ->
    Z.testbit (mu_dcr (c_mu c') (n, g)) b = Z.testbit (mu_dcr (c_mu c) (n, g)) b;
  so_reg : forall r, r <> INT_STATUS g -> c_reg c' r = c_reg c r }.
#[export] Instance sg_only_pre : PreOrder sg_only.
Proof.
  split; [by intros c; split|]. intros c1 c2 c3 [A1 B1 C1 D1 E1 F1 G1 H1 I1 J1] [A2 B2 C2 D2 E2 F2 G2 H2 I2 J2].
  split; intros; first [by rewrite E2|by rewrite A2, A1|by rewrite B2, B1|by rewrite C2, C1|by rewrite D2, D1
    |by rewrite F2, F1|by rewrite G2, G1|by rewrite H2, H1|by rewrite I2, I1|by rewrite J2, J1].
Qed.

(** Registers with no bits of the subgroup are not written. *)
Lemma sg_only_dcr c c' n : sg_only c c' -> (forall b, subgroup_bits n b = false) ->
  forall g', mu_dcr (c_mu c') (n, g') = mu_dcr (c_mu c) (n, g').
Proof.
  intros H Hn g'. destruct (decide (g' = g)) as [->|Hg]; [|by apply (so_dcr _ _ H)].
  apply Z.bits_inj. intros b. by apply (so_dcr_bits _ _ H).
Qed.

Lemma wp_ClearMMIOInt bits c (Q : unit -> chip -> Prop) :
  (forall c', sg_only c c' -> c_mu c' = c_mu c -> c_desc_counter c' = c_desc_counter c -> Q tt c') ->
  wp (MUSPI_ResetClearMMIOIntMU g bits) Q c.
Proof.
  intros HQ. unfold MUSPI_ResetClearMMIOIntMU. apply wp_bind, wp_gets. destruct (negb _); cbn [when].
  - apply wp_modify, HQ; [split|..]; cbn; try done. intros r Hne. by rewrite fn_lookup_insert_ne.
  - apply wp_ret, HQ; reflexivity.
Qed.

Lemma reset_fifo_always system bit : reset_fifo reset system bit = true.
Proof. unfold reset_fifo. destruct Hr as (_ & _ & -> & -> & _). cbn. destruct (_ =? 0); done. Qed.

Definition cleared_inj : fifo_regs := mkFr 0 0 0 0x3f.
Definition cleared_rec : fifo_regs := mkFr 0 0 0 0x1f.

Lemma in_bits_seq bit n i b : (i < n)%nat -> in_bits bit (seq 0 n) b = false -> Z.testbit (bit i) b = false.
Proof.
  intros Hi. rewrite <- !not_true_iff_false. intros H Hb. apply H. apply existsb_exists. exists i.
  split; [apply in_seq; lia|done].
Qed.
Lemma ldiff_off a m b : Z.testbit m b = false -> Z.testbit (Z.ldiff a m) b = Z.testbit a b.
Proof. intros H. by rewrite Z.ldiff_spec, H, andb_true_r. Qed.

Lemma fn_off {A} (f : nat * nat -> A) s i v k : fst k <> s -> <[(s, i) := v]> f k = f k.
Proof. intros H. rewrite fn_lookup_insert_ne; [done|]. by intros <-. Qed.

Lemma wp_reset_inj i c (Q : unit -> chip -> Prop) : (i < BGQ_MU_NUM_INJ_FIFOS_PER_SUBGROUP)%nat ->
  (forall c', sg_only c c' -> mu_inj (c_mu c') = <[(subgroup, i) := cleared_inj]> (mu_inj (c_mu c)) ->
     c_desc_counter c' = <[(subgroup, i) := 0]> (c_desc_counter c) ->
     mu_rec (c_mu c') = mu_rec (c_mu c) -> mu_bat (c_mu c') = mu_bat (c_mu c) -> Q tt c') ->
  wp (reset_inj reset g sg i) Q c.
Proof.
  intros Hi HQ. unfold reset_inj. apply wp_bind, wp_gets. rewrite reset_fifo_always. cbn [when].
  assert (Hk : (g * BGQ_MU_NUM_FIFO_SUBGROUPS + sg)%nat = subgroup) by apply subgroup_split. rewrite Hk.
  assert (Hbit : inj_dcr_bit sg i = BN (64 - 32 + Z.of_nat (sg * BGQ_MU_NUM_INJ_FIFOS_PER_SUBGROUP + i))) by done.
  assert (Hbit2 : inj_bit sg i = inj_dcr_bit sg i).
  { unfold inj_dcr_bit, inj_bit, BN. f_equal. lia. }
  rewrite <- Hbit. unfold upd_mu, upd_dcr, get_dcr, set_dcr', upd_mu.
  repeat (apply wp_bind; first [apply wp_gets|apply wp_modify|apply wp_bind, wp_gets, wp_modify]).
  apply wp_ClearMMIOInt. intros c' Hso Hmu Hd. apply HQ; rewrite ?Hmu, ?Hd; [|done..].
  etrans; [|exact Hso]. clear c' Hso Hmu Hd HQ Q. split; cbn; try done.
  - intros k Hne. by rewrite fn_off.
  - intros k Hne. by rewrite fn_off.
  - intros g' Hg. by rewrite fn_lookup_insert_ne.
  - intros b Hb. rewrite fn_lookup_insert, ldiff_off; [done|]. rewrite <- Hbit2. by apply (in_bits_seq _ _ _ _ Hi).
  - intros n g' Hg. rewrite !fn_lookup_insert_ne by congruence. done.
  - intros n b Hb. destruct n; at_keys; try done.
    all: rewrite ldiff_off; [done|by apply (in_bits_seq _ _ _ _ Hi)].
Qed.

Lemma wp_reset_rec i c (Q : unit -> chip -> Prop) : (i < BGQ_MU_NUM_REC_FIFOS_PER_SUBGROUP)%nat ->
  (forall c', sg_only c c' -> mu_rec (c_mu c') = <[(subgroup, i) := cleared_rec]> (mu_rec (c_mu c)) ->
     c_desc_counter c' = c_desc_counter c ->
     mu_inj (c_mu c') = mu_inj (c_mu c) -> mu_bat (c_mu c') = mu_bat (c_mu c) -> Q tt c') ->
  wp (reset_rec reset g sg i) Q c.
Proof.
  intros Hi HQ. unfold reset_rec. apply wp_bind, wp_gets. rewrite reset_fifo_always. cbn [when].
  assert (Hk : (g * BGQ_MU_NUM_FIFO_SUBGROUPS + sg)%nat = subgroup) by apply subgroup_split. rewrite Hk.
  assert (Hbit : rec_dcr_bit sg i = BN (64 - 16 + Z.of_nat (sg * BGQ_MU_NUM_REC_FIFOS_PER_SUBGROUP + i))) by done.
  rewrite <- Hbit. unfold upd_mu, upd_dcr, get_dcr, set_dcr', upd_mu.
  repeat (apply wp_bind; first [apply wp_gets|apply wp_modify|apply wp_bind, wp_gets, wp_modify]).
  apply wp_ClearMMIOInt. intros c' Hso Hmu Hd. apply HQ; rewrite ?Hmu, ?Hd; [|done..].
  etrans; [|exact Hso]. clear c' Hso Hmu Hd HQ Q. split; cbn; try done.
  - intros k Hne. by rewrite fn_off.
  - intros n g' Hg. rewrite !fn_lookup_insert_ne by congruence. done.
  - intros n b Hb. destruct n; at_keys; try done.
    all: rewrite ldiff_off; [done|by apply (in_bits_seq _ _ _ _ Hi)].
Qed.

(** Is the table of the subgroup in system mode? *)
Definition bat_system (c : chip) : bool :=
  negb (Z.land (mu_dcr (c_mu c) (fst (bat_mode subgroup), 0%nat)) (snd (bat_mode subgroup)) =? 0).

Lemma bat_mode_reset : bat_mode subgroup =
  (if (g / 16 =? 0)%nat then RPUTBASE_SYSTEM0 else RPUTBASE_SYSTEM1,
   Z.shiftr 0x8000000000000000 (Z.of_nat ((g mod 16) * BGQ_MU_NUM_FIFO_SUBGROUPS + sg))).
Proof.
  assert (H : Forall (fun s => bat_mode s = (if (gid_of s / 16 =? 0)%nat then RPUTBASE_SYSTEM0 else RPUTBASE_SYSTEM1,
    Z.shiftr 0x8000000000000000 (Z.of_nat ((gid_of s mod 16) * BGQ_MU_NUM_FIFO_SUBGROUPS + sgid_of s))))
    (seq 0 BGQ_MU_NUM_FIFO_SUBGROUPS_PER_NODE)).
  { repeat (apply Forall_cons_2; [vm_compute; reflexivity|]). apply Forall_nil_2. }
  rewrite list.Forall_forall in H. apply H, list_elem_of_In, in_seq. lia.
Qed.

Lemma wp_reset_bat c (Q : unit -> chip -> Prop) :
  (forall c', sg_only c c' -> mu_inj (c_mu c') = mu_inj (c_mu c) -> mu_rec (c_mu c') = mu_rec (c_mu c) ->
     c_desc_counter c' = c_desc_counter c ->
     (forall i, (i < NUM_DATA_COUNTERS_PER_SUBGROUP)%nat -> mu_bat (c_mu c') (subgroup, i)
        = if bat_system c then mu_bat (c_mu c) (subgroup, i) else FREE_BAT) -> Q tt c') ->
  wp (reset_bat g sg) Q c.
Proof.
  intros HQ. unfold reset_bat. apply wp_bind, wp_gets.
  assert (Hk : (g * BGQ_MU_NUM_FIFO_SUBGROUPS + sg)%nat = subgroup) by apply subgroup_split.
  unfold bat_system in HQ. rewrite bat_mode_reset in HQ. cbn [fst snd] in HQ.
  destruct (_ =? 0); cbn [when negb] in *; [|by apply wp_ret, HQ]. rewrite Hk.
  eapply wp_mono; [apply (wp_for_each (fun done c' => sg_only c c' /\ mu_inj (c_mu c') = mu_inj (c_mu c) /\
    mu_rec (c_mu c') = mu_rec (c_mu c) /\ c_desc_counter c' = c_desc_counter c /\
    forall i, i ∈ done -> mu_bat (c_mu c') (subgroup, i) = FREE_BAT))|].
  - intros dn x rest c' _ (H1 & H2 & H3 & H4 & H5). apply wp_modify. split_and!; try done.
    + etrans; [exact H1|]. split; cbn; try done. intros k Hne. by rewrite fn_off.
    + intros i [Hi| ->%list_elem_of_singleton]%elem_of_app; cbn; [|apply fn_lookup_insert].
      destruct (decide (i = x)) as [->|Hix]; [apply fn_lookup_insert|].
      rewrite fn_lookup_insert_ne by congruence. by apply H5.
  - split_and!; try done. by intros i Hi%elem_of_nil.
  - intros [] c' (H1 & H2 & H3 & H4 & H5). apply HQ; [done..|]. intros i Hi. apply H5, list_elem_of_In, in_seq. lia.
Qed.

(** The whole subgroup. *)
Record subgroup_cleared (c c' : chip) : Prop := mkSc {
  sc_only : sg_only c c';
  sc_inj : forall i, (i < BGQ_MU_NUM_INJ_FIFOS_PER_SUBGROUP)%nat ->
    mu_inj (c_mu c') (subgroup, i) = cleared_inj /\ c_desc_counter c' (subgroup, i) = 0;
  sc_rec : forall i, (i < BGQ_MU_NUM_REC_FIFOS_PER_SUBGROUP)%nat -> mu_rec (c_mu c') (subgroup, i) = cleared_rec;
  sc_bat : forall i, (i < NUM_DATA_COUNTERS_PER_SUBGROUP)%nat -> mu_bat (c_mu c') (subgroup, i)
    = if bat_system c then mu_bat (c_mu c) (subgroup, i) else FREE_BAT }.

Lemma bat_system_same c c' : mu_dcr (c_mu c') (fst (bat_mode subgroup), 0%nat)
  = mu_dcr (c_mu c) (fst (bat_mode subgroup), 0%nat) -> bat_system c' = bat_system c.
Proof. unfold bat_system. by intros ->. Qed.

Lemma sg_only_mode c c' : sg_only c c' -> bat_system c' = bat_system c.
Proof.
  intros H. apply bat_system_same, sg_only_dcr; [done|]. rewrite bat_mode_reset. cbn [fst].
  by destruct (_ =? 0)%nat.
Qed.

Lemma wp_reset_subgroup c (Q : unit -> chip -> Prop) :
  (forall c', subgroup_cleared c c' -> Q tt c') -> wp (reset_subgroup reset g sg) Q c.
Proof.
  intros HQ. apply wp_bind. eapply wp_mono.
  { apply (wp_for_each (fun done c' => sg_only c c' /\ mu_bat (c_mu c') = mu_bat (c_mu c) /\
      forall i, i ∈ done -> mu_inj (c_mu c') (subgroup, i) = cleared_inj /\ c_desc_counter c' (subgroup, i) = 0)).
    - intros dn x rest c1 E (H1 & H2 & H3). apply wp_reset_inj.
      + enough (In x (seq 0 BGQ_MU_NUM_INJ_FIFOS_PER_SUBGROUP)) as [_ H]%in_seq by exact H.
        rewrite E. apply in_app_iff. right. by left.
      + intros c2 S2 I2 D2 _ B2. split_and!; [by etrans|by rewrite B2|]. intros i Hi. rewrite I2, D2.
        destruct (decide (i = x)) as [->|Hix]; [by rewrite !fn_lookup_insert|].
        rewrite !fn_lookup_insert_ne by congruence. apply H3.
        apply elem_of_app in Hi as [?| ->%list_elem_of_singleton]; done.
    - split_and!; [reflexivity|done|]. by intros i Hi%elem_of_nil. }
  intros [] c1 (S1 & B1 & I1). apply wp_bind. eapply wp_mono.
  { apply (wp_for_each (fun done c' => sg_only c1 c' /\ mu_bat (c_mu c') = mu_bat (c_mu c1) /\
      mu_inj (c_mu c') = mu_inj (c_mu c1) /\ c_desc_counter c' = c_desc_counter c1 /\
      forall i, i ∈ done -> mu_rec (c_mu c') (subgroup, i) = cleared_rec)).
    - intros dn x rest c2 E (H1 & H2 & H3 & H4 & H5). apply wp_reset_rec.
      + enough (In x (seq 0 BGQ_MU_NUM_REC_FIFOS_PER_SUBGROUP)) as [_ H]%in_seq by exact H.
        rewrite E. apply in_app_iff. right. by left.
      + intros c3 S3 R3 D3 I3 B3. split_and!; [by etrans|congruence..|]. intros i Hi. rewrite R3.
        destruct (decide (i = x)) as [->|Hix]; [by rewrite fn_lookup_insert|].
        rewrite fn_lookup_insert_ne by congruence. apply H5.
        apply elem_of_app in Hi as [?| ->%list_elem_of_singleton]; done.
    - split_and!; [reflexivity|done..|]. by intros i Hi%elem_of_nil. }
  intros [] c2 (S2 & B2 & I2 & D2 & R2). apply wp_reset_bat. intros c3 S3 I3 R3 D3 B3. apply HQ. split.
  - by do 2 (etrans; [eassumption|]).
  - intros i Hi. rewrite I3, I2, D3, D2. apply I1, list_elem_of_In, in_seq. lia.
  - intros i Hi. rewrite R3. apply R2, list_elem_of_In, in_seq. lia.
  - intros i Hi. rewrite B3, B2, B1 by done. by rewrite (sg_only_mode _ _ S2), (sg_only_mode _ _ S1).
Qed.

(** Neither the message unit nor a link. *)
Record soft_only (c c' : chip) : Prop := mkSoft {
  sf_mu : c_mu c' = c_mu c;
  sf_desc : c_desc_counter c' = c_desc_counter c;
  sf_link : forall x r, c_reg c' (RESE x r) = c_reg c (RESE x r) }.
#[export] Instance soft_only_pre : PreOrder soft_only.
Proof. split; [by intros c; split|]. intros c1 c2 c3 [A1 B1 C1] [A2 B2 C2]. split; intros; congruence. Qed.
Lemma soft_write r v c : (forall x r', r <> RESE x r') -> soft_only c (set_reg r v c).
Proof. intros H. split; cbn; try done. intros x r'. by rewrite fn_lookup_insert_ne. Qed.
Lemma soft_trans c1 c2 c3 : soft_only c2 c3 -> soft_only c1 c2 -> soft_only c1 c3.
Proof. intros H1 H2. by trans c2. Qed.

Lemma wp_user_ranges c : wp user_ranges (fun _ c' => soft_only c c') c.
Proof.
  apply wp_bind. eapply wp_mono; [apply (wp_for_each (fun _ c' => soft_only c c'))|].
  - intros dn x rest c' _ H. apply wp_bind, wp_modify, wp_modify. do 2 (eapply soft_trans; [by apply soft_write|]). done.
  - reflexivity.
  - intros [] c' H. apply wp_modify. eapply soft_trans; [by apply soft_write|done].
Qed.

Lemma wp_clear_dcr_int i bits c (Q : unit -> chip -> Prop) :
  (forall c', soft_only c c' -> Q tt c') -> wp (clear_dcr_int i bits) Q c.
Proof. intros HQ. apply wp_bind, wp_gets, wp_modify, HQ. by apply soft_write. Qed.
Lemma wp_ClearDcrInt i bits c (Q : unit -> chip -> Prop) :
  (forall c', soft_only c c' -> Q tt c') -> wp (MUSPI_ResetClearDcrIntMU i bits) Q c.
Proof.
  intros HQ. apply wp_bind, wp_gets. cbv zeta. match goal with |- wp (when ?b _) _ _ => destruct b end; cbn [when]; [by apply wp_clear_dcr_int|].
  apply wp_ret, HQ. reflexivity.
Qed.

Record restored (c c' : chip) : Prop := mkRs {
  rs_inj : forall i, (i < BGQ_MU_NUM_INJ_FIFOS_PER_SUBGROUP)%nat ->
    mu_inj (c_mu c') (subgroup, i) = cleared_inj /\ c_desc_counter c' (subgroup, i) = 0;
  rs_rec : forall i, (i < BGQ_MU_NUM_REC_FIFOS_PER_SUBGROUP)%nat -> mu_rec (c_mu c') (subgroup, i) = cleared_rec;
  rs_bat : forall i, (i < NUM_DATA_COUNTERS_PER_SUBGROUP)%nat -> mu_bat (c_mu c') (subgroup, i)
    = if bat_system c then mu_bat (c_mu c) (subgroup, i) else FREE_BAT;
  rs_other : forall k, fst k <> subgroup -> mu_inj (c_mu c') k = mu_inj (c_mu c) k /\
    mu_rec (c_mu c') k = mu_rec (c_mu c) k /\ mu_bat (c_mu c') k = mu_bat (c_mu c) k;
  rs_enabled : mu_isEnabled (c_mu c') = mu_isEnabled (c_mu c);
  rs_rec_enabled : forall g', mu_dcr (c_mu c') (RMFIFO_EN, g') = mu_dcr (c_mu c) (RMFIFO_EN, g');
  rs_owner : mu_dcr (c_mu c') (IMFIFO_SYSTEM, g) = 2 ^ 32 - 1 /\ mu_dcr (c_mu c') (RMFIFO_SYSTEM, g) = 2 ^ 16 - 1;
  rs_modes : mu_dcr (c_mu c') (RPUTBASE_SYSTEM0, 0%nat) = u64_max /\ mu_dcr (c_mu c') (RPUTBASE_SYSTEM1, 0%nat) = u64_max }.

Lemma wp_RestoreMU c (Q : Z -> chip -> Prop) :
  (forall c', restored c c' -> (forall x r, c_reg c' (RESE x r) = c_reg c (RESE x r)) -> Q 0 c') ->
  wp (MUSPI_ResetRestoreMU reset) Q c.
Proof.
  intros HQ. unfold MUSPI_ResetRestoreMU, reset_group. pose proof Hr as (_ & _ & Hu & _ & Ha & Hsub & _).
  rewrite Hu. cbn [when]. apply wp_bind. eapply wp_mono; [apply wp_user_ranges|]. intros [] c1 [E1 E2 E3].
  apply wp_bind, wp_for_groups; [done|by rewrite Hsub|]. rewrite Hsub. fold g.
  apply wp_bind, wp_for_subgroups; [done|]. rewrite Hsub. fold sg. apply wp_reset_subgroup. intros c2 [S2 I2 R2 B2].
  cbn [when]. unfold set_dcr', upd_mu. apply wp_bind, wp_modify, wp_modify.
  rewrite Ha. assert ((subgroup / BGQ_MU_NUM_FIFO_SUBGROUPS <? BGQ_MU_NUM_FIFO_GROUPS)%nat = true) as ->.
  { apply Nat.ltb_lt, Nat.Div0.div_lt_upper_bound. unfold BGQ_MU_NUM_FIFO_SUBGROUPS_PER_NODE in Hs.
    unfold BGQ_MU_NUM_FIFO_SUBGROUPS, BGQ_MU_NUM_FIFO_GROUPS. lia. }
  cbn [orb]. apply wp_bind, wp_bind, wp_bind, wp_modify, wp_modify. unfold MUSPI_ResetClearAllDcrIntMU.
  eapply wp_mono with (Q := fun _ c' => soft_only _ c').
  { repeat (apply wp_bind, wp_ClearDcrInt; intros ? ?).
    repeat (eapply soft_trans; [eassumption|]). reflexivity. }
  intros [] c3 [F1 F2 F3]. cbn in F1, F2, F3.
  apply wp_ret, HQ; [|intros x r; by rewrite F3, (so_reg _ _ S2), E3]. split; rewrite ?F1, ?F2; cbn.
  - intros i Hi. by apply I2.
  - intros i Hi. by apply R2.
  - intros i Hi. rewrite B2 by done. rewrite (bat_system_same c c1) by (by rewrite E1). by rewrite E1.
  - intros k Hk. by rewrite (so_inj _ _ S2), (so_rec _ _ S2), (so_bat _ _ S2), E1.
  - by rewrite (so_enabled _ _ S2), E1.
  - intros g'. at_keys. by rewrite (sg_only_dcr _ _ _ S2), E1.
  - split; at_keys; done.
  - split; at_keys; done.
Qed.

(** Of the links, only the error mask of [link]. *)
Record fatal_masked (c c' : chip) : Prop := mkFm {
  fm_mu : c_mu c' = c_mu c;
  fm_desc : c_desc_counter c' = c_desc_counter c;
  fm_fatal : c_reg c' (RESE link FATAL_ERR_ENABLE) = 0;
  fm_link : forall x r, RESE x r <> RESE link FATAL_ERR_ENABLE -> c_reg c' (RESE x r) = c_reg c (RESE x r) }.

Lemma wp_RestoreND c (Q : Z * MUSPI_RESET -> chip -> Prop) : hold = true ->
  (forall c', fatal_masked c c' -> Q (0, reset) c') -> wp (MUSPI_ResetRestoreND reset) Q c.
Proof.
  intros Hh HQ. unfold MUSPI_ResetRestoreND. pose proof Hr as (Hm & Hsk & _ & _ & Ha & _ & Hhold).
  rewrite Hsk. apply wp_bind, wp_ret. rewrite Ha, Hhold, Hh, Hm. cbn [when foldr int_to_clear].
  apply wp_bind, wp_ret, wp_bind. eapply wp_mono with (Q := fun _ c' => soft_only c c').
  { repeat (apply wp_bind, wp_clear_dcr_int; intros ? ?). apply wp_ret.
    repeat (eapply soft_trans; [eassumption|]). reflexivity. }
  intros [] c1 H1. apply wp_bind, wp_modify, wp_bind, wp_modify, wp_bind.
  assert (H2 : soft_only c (set_reg CTRL_CLEAR0 0 (set_reg CTRL_CLEAR0 nd_clear0 c1))).
  { do 2 (eapply soft_trans; [by apply soft_write|]). done. }
  destruct H2 as [A B C]. apply (wp_for_each_one _ _ link).
  - apply NoDup_seq.
  - apply list_elem_of_In, in_seq. lia.
  - intros x s Hx. rewrite one_link_bit. apply Nat.eqb_neq in Hx. by rewrite Hx.
  - rewrite one_link_bit, Nat.eqb_refl. cbn [when]. apply wp_modify, wp_ret, HQ. split.
    + exact A.
    + exact B.
    + cbn. by rewrite fn_lookup_insert.
    + intros x r Hx. rewrite <- C. cbn. by rewrite fn_lookup_insert_ne.
Qed.
End release.

Section sequences.
Context (chip_step : chip -> chip) (fuel : nat) `{!ResetLive chip_step fuel}.
Context (subgroup link : nat) (Hs : (subgroup < BGQ_MU_NUM_FIFO_SUBGROUPS_PER_NODE)%nat)
  (Hl : (link < ND_RESE_DCR_num)%nat).

(** What [MUSPI_Reset] does to the registers at sequence number 8. *)
Record released (c c' : chip) : Prop := mkRl {
  rl_restored : restored subgroup c c';
  rl_drops : dcrs_out c link = false -> drops link c' false;
  rl_ctrl : forall n, 0 <= n -> n <> 57 -> n <> 58 ->
     Z.testbit (c_reg c' (RESE link RESE_CTRL)) n = Z.testbit (c_reg c (RESE link RESE_CTRL)) n;
  rl_fatal : c_reg c' (RESE link FATAL_ERR_ENABLE) = 0;
  rl_links : forall x r, x <> link \/ r ∉ [RESE_CTRL; RESE_CLEAR; FATAL_ERR_ENABLE] ->
     c_reg c' (RESE x r) = c_reg c (RESE x r) }.

Lemma reset_seq8 reset c (Q : Z * MUSPI_RESET -> chip -> Prop) :
  link_reset reset subgroup link true -> sequence reset = 8 ->
  (forall c', released c c' -> Q (call_result reset) c') ->
  wp (MUSPI_Reset chip_step fuel reset) Q c.
Proof.
  intros Hr E HQ. repeat (apply wp_bind, wp_CALL_no; [cbn [snd]; lia|]).
  apply wp_bind, wp_CALL, (wp_NDSenders _ _ _ _ Hr Hs Hl false); [done|]. intros c1 (M1 & D1 & R1 & B1 & Z1) Dr.
  apply wp_bind, wp_CALL, (wp_RestoreMU _ _ _ _ Hr Hs Hl); [done|]. intros c2 H2 Ln.
  apply wp_bind. rewrite E. apply (wp_RestoreND _ _ _ _ Hr Hs Hl); [done|]. intros c3 [M3 D3 F3 L3].
  repeat (apply wp_bind, wp_CALL_no; [cbn [snd]; lia|]).
  assert (HR : released c c3).
  { destruct H2 as [I R B O En Re Ow Mo]. split; [split|..]; rewrite ?M3, ?D3, ?M1 in *; try done.
    - intros i Hi. rewrite B by done. by rewrite (bat_system_same _ c c1) by (by rewrite M1).
    - intros Ho. destruct (Dr Ho) as [X Y]. unfold drops. by rewrite !L3, !Ln by done.
    - intros n H0 H57 H58. rewrite L3, Ln by done. by apply B1.
    - intros x r Hx. rewrite L3, Ln, R1; [done|intros [= -> ->]; destruct Hx as [Hx|Hx]; [done|]; destruct Hx..]; set_solver. }
  specialize (HQ c3 HR). unfold call_result in HQ. apply wp_ret. rewrite E in *.
  by destruct (_ =? lastSequenceID reset).
Qed.

(** *** The loop *)

Definition at_seq (r : MUSPI_RESET) (hold : bool) (s last : Z) : Prop :=
  link_reset r subgroup link hold /\ sequence r = s /\ lastSequenceID r = last.

Lemma call_next r hold s last : at_seq r hold s last -> 0 <= s < 100 -> s <> 10 -> s <> last ->
  exists r', call_result r = (EAGAIN, r') /\ at_seq r' hold (s + 1) last.
Proof.
  intros ((A & B & C & D & E & F & G) & <- & <-) Hr H1%Z.eqb_neq H2%Z.eqb_neq.
  exists (r <| sequence ::= fun s => u64 (s + 1) |>). unfold call_result. rewrite H1, H2. split; [done|].
  split; [by split_and!|]. split; [|done]. apply Z.mod_small. lia.
Qed.
Lemma call_last r hold s last : at_seq r hold s last -> s = 10 \/ s = last -> call_result r = (0, r).
Proof.
  intros (_ & <- & <-) H. unfold call_result.
  by replace ((sequence r =? 10) || (sequence r =? lastSequenceID r)) with true
    by (symmetry; apply orb_true_iff; rewrite !Z.eqb_eq; tauto).
Qed.

Lemma wp_loop n r (Q : Z * MUSPI_RESET -> chip -> Prop) c :
  wp (MUSPI_Reset chip_step fuel r)
    (fun r c => if fst r =? EAGAIN then wp (reset_loop chip_step fuel n (snd r)) Q c else Q r c) c ->
  wp (reset_loop chip_step fuel (S n) r) Q c.
Proof. intros H. apply wp_bind. eapply wp_mono; [exact H|]. intros r' c' H'. cbn beta in H'. destruct (fst r' =? EAGAIN); exact H'. Qed.

Lemma wp_loop_idle n r hold s last (Q : Z * MUSPI_RESET -> chip -> Prop) c :
  at_seq r hold s last -> s ∈ [1; 4; 5; 6; 7; 9] -> s <> last ->
  (forall r', at_seq r' hold (s + 1) last -> wp (reset_loop chip_step fuel n r') Q c) ->
  wp (reset_loop chip_step fuel (S n) r) Q c.
Proof.
  intros Hat Hin Hl' H. apply wp_loop. eapply wp_intro.
  { apply (reset_idle _ _ _ subgroup link hold); [apply Hat|]. destruct Hat as (_ & -> & _). set_solver. }
  rewrite !elem_of_cons, elem_of_nil in Hin. destruct (call_next r hold s last) as (r' & -> & Hr'); [done|lia..|]. by apply H.
Qed.

(** The registers while a link is held in reset. *)
Record held_down (c c' : chip) : Prop := mkHd {
  hd_start : forall k, fr_pa_start (mu_inj (c_mu c') k) = fr_pa_start (mu_inj (c_mu c) k) /\
    fr_pa_start (mu_rec (c_mu c') k) = fr_pa_start (mu_rec (c_mu c) k);
  hd_enabled : mu_isEnabled (c_mu c') = <[gid_of subgroup :=
    Z.ldiff (mu_isEnabled (c_mu c) (gid_of subgroup)) (inj_fifos_of subgroup)]> (mu_isEnabled (c_mu c));
  hd_dcr : mu_dcr (c_mu c') = <[(RMFIFO_EN, gid_of subgroup) :=
    Z.land (Z.ldiff 0xffff (rec_fifos_of subgroup)) (mu_dcr (c_mu c) (RMFIFO_EN, gid_of subgroup))]> (mu_dcr (c_mu c));
  hd_bat : mu_bat (c_mu c') = mu_bat (c_mu c);
  hd_priority : mu_priority (c_mu c') = mu_priority (c_mu c);
  hd_drops : dcrs_out c link = false -> drops link c' true;
  hd_ctrl : forall n, 0 <= n -> n <> 57 -> n <> 58 ->
     Z.testbit (c_reg c' (RESE link RESE_CTRL)) n = Z.testbit (c_reg c (RESE link RESE_CTRL)) n;
  hd_rme : c_reg c' RME_ENABLE = BGQ_SET 16 15 0xffff;
  hd_reg : forall r, is_control r = true -> r ∉ [RME_ENABLE; MU_RESET; RESE link RESE_CTRL; RESE link RESE_CLEAR] ->
     c_reg c' r = c_reg c r }.

Lemma wp_hold k c (Q : Z * MUSPI_RESET -> chip -> Prop) :
  (forall r c', held_down c c' -> Q (0, r) c') ->
  wp (r <- MUSPI_InitResetHold subgroup link ;; reset_loop chip_step fuel (7 + k) r) Q c.
Proof.
  intros HQ. apply wp_bind, wp_bind, wp_bind, wp_gets, wp_ret, wp_ret.
  match goal with |- wp (reset_loop _ _ _ ?r) _ _ => assert (H1 : at_seq r false 1 7) by done; generalize dependent r end.
  intros r1 H1. eapply wp_loop_idle; [done|set_solver|done|]. clear r1 H1. intros r2 H2.
  apply wp_loop, (reset_seq2 _ _ _ subgroup link false); [apply H2|done..|apply H2|]. intros c1 Hk.
  destruct (call_next r2 false 2 7) as (r3 & -> & H3); [done|lia|done..|]. cbn [fst snd Z.eqb Pos.eqb EAGAIN].
  apply wp_loop, (reset_seq3 _ _ _ subgroup link false); [apply H3|done..|apply H3|]. intros c3 Ho Hd.
  destruct (call_next r3 false 3 7) as (r4 & -> & H4); [done|lia|done..|]. cbn [fst snd Z.eqb Pos.eqb EAGAIN].
  eapply wp_loop_idle; [done|set_solver|done|]. intros r5 H5.
  eapply wp_loop_idle; [done|set_solver|done|]. intros r6 H6.
  eapply wp_loop_idle; [done|set_solver|done|]. intros r7 H7.
  apply wp_loop. eapply wp_intro.
  { apply (reset_idle _ _ _ subgroup link false); [apply H7|]. destruct H7 as (_ & -> & _). set_solver. }
  rewrite (call_last _ _ _ _ H7) by (right; done). cbn. apply HQ. clear - Hk Ho Hd.
  destruct Hk as [A B C D E F G], Ho as (Mu & De & Re & Bi & Sa). cbn in A, B, C, D, E, F, G, Mu, De, Re, Bi.
  assert (Hout : dcrs_out (set_reg RME_ENABLE (BGQ_SET 16 15 65535) (fifos_disabled subgroup c1)) link = dcrs_out c link).
  { unfold dcrs_out. cbn. at_keys. by rewrite G. }
  rewrite Hout in Hd, Sa. split; rewrite ?Mu; cbn; rewrite ?C, ?D, ?E, ?F; try done.
  - intros n H0 H57 H58. rewrite Bi by done. at_keys. by rewrite G.
  - rewrite Re by done. by at_keys.
  - intros r Hr Hn. rewrite Re by set_solver. rewrite fn_lookup_insert_ne by set_solver. rewrite G by done.
    rewrite !fn_lookup_insert_ne by set_solver. done.
Qed.

Lemma wp_release k c (Q : Z * MUSPI_RESET -> chip -> Prop) :
  (forall r c', released c c' -> Q (0, r) c') ->
  wp (r <- MUSPI_InitResetRelease subgroup link ;; reset_loop chip_step fuel (3 + k) r) Q c.
Proof.
  intros HQ. apply wp_bind, wp_bind, wp_bind, wp_gets, wp_ret, wp_ret.
  match goal with |- wp (reset_loop _ _ _ ?r) _ _ => assert (H1 : at_seq r true 8 255) by done; generalize dependent r end.
  intros r1 H1. apply wp_loop, reset_seq8; [apply H1..|]. intros c' Hc.
  destruct (call_next r1 true 8 255) as (r2 & -> & H2); [done|lia|done..|]. cbn [fst snd Z.eqb Pos.eqb EAGAIN].
  eapply wp_loop_idle; [done|set_solver|done|]. intros r3 H3. apply wp_loop. eapply wp_intro.
  { apply (reset_idle _ _ _ subgroup link true); [apply H3|]. destruct H3 as (_ & -> & _). set_solver. }
  rewrite (call_last _ _ _ _ H3) by (left; done). cbn. by apply HQ.
Qed.
End sequences.

Lemma filter_all {A} (P : A -> Prop) `{forall x, Decision (P x)} (l : list A) : Forall P l -> filter P l = l.
Proof. induction 1 as [|x l Hx _ IH]; [done|]. by rewrite filter_cons_True, IH. Qed.

(** What the kernel finds afterwards. *)
Lemma released_free subgroup link c c' : released subgroup link c c' ->
  Kernel_QueryInjFifos subgroup (c_mu c') = Ok (seq 0 BGQ_MU_NUM_INJ_FIFOS_PER_SUBGROUP) (c_mu c') /\
  Kernel_QueryRecFifos subgroup (c_mu c') = Ok (seq 0 BGQ_MU_NUM_REC_FIFOS_PER_SUBGROUP) (c_mu c').
Proof.
  intros [[I R _ _ _ _ _ _] _ _ _ _]. unfold Kernel_QueryInjFifos, Kernel_QueryRecFifos, gets.
  split; f_equal; apply filter_all, list.Forall_forall; intros i [_ Hi]%list_elem_of_In%in_seq.
  - by destruct (I i) as [-> _].
  - by rewrite R.
Qed.

(** C22: The reset of a link, as the driver runs it.  Holding takes seven
    calls of [MUSPI_Reset] and returns 0, provided the receiving engines
    come to rest once they are disabled; then exactly the FIFOs of the
    subgroup are disabled and the sender of the link drops packets, and no
    start register, table entry or other control register has changed.
    Releasing takes three calls and returns 0; then all FIFOs of the
    subgroup are cleared and free, still disabled, and their descriptor
    counters are zero; the entries of its base address table are cleared
    only if the table was in user mode; the link no longer drops packets
    and its fatal errors are masked; all FIFOs of the group and all tables
    of the node now belong to the system, and everything else of the other
    subgroups and links is as before. *)
Theorem link_reset_correct (chip_step : chip -> chip) (fuel subgroup link : nat) (c : chip) :
  ResetLive chip_step fuel ->
  (subgroup < BGQ_MU_NUM_FIFO_SUBGROUPS_PER_NODE)%nat -> (link < ND_RESE_DCR_num)%nat ->
  wp (r <- MUSPI_InitResetHold subgroup link ;; reset_loop chip_step fuel 7 r) (fun h c1 =>
    fst h = 0 /\ held_down subgroup link c c1 /\
    wp (r <- MUSPI_InitResetRelease subgroup link ;; reset_loop chip_step fuel 3 r) (fun r c2 =>
      fst r = 0 /\ released subgroup link c1 c2 /\
      Kernel_QueryInjFifos subgroup (c_mu c2) = Ok (seq 0 BGQ_MU_NUM_INJ_FIFOS_PER_SUBGROUP) (c_mu c2) /\
      Kernel_QueryRecFifos subgroup (c_mu c2) = Ok (seq 0 BGQ_MU_NUM_REC_FIFOS_PER_SUBGROUP) (c_mu c2)) c1) c.
Proof.
  intros Hlive Hs Hl. apply (wp_hold _ _ subgroup link Hs Hl 0). intros h c1 H1. split_and!; [done..|].
  apply (wp_release _ _ subgroup link Hs Hl 0). intros r c2 H2. split_and!; [done..|by eapply released_free|].
  by eapply released_free.
Qed.

(** A message unit whose engines are busy until the first look at them. *)
Definition demo_chip_step (c : chip) : chip :=
  c <| c_reg ::= fun f r => match r with RME_STATE _ => 0 | _ => f r end |>.
Definition demo_chip : chip :=
  mkChip (mkMu (fun _ => mkFr 0x40 0x40 0x40 0xfff) (fun _ => mkFr 0x240 0x240 0x240 0xfff) (fun _ => 7)
            (fun _ => 2 ^ 32 - 1) (fun _ => 0) (fun _ => 0) (fun _ => 0)) (fun _ => 3)
    (fun r => match r with RME_STATE _ => 2 ^ 64 - 1 | _ => 0 end).
Lemma demo_reset_live : ResetLive demo_chip_step 1.
Proof.
  split.
  - intros c. split; try done. intros r Hr. by destruct r.
  - exists (fun c => if existsb (fun x => rme_busy (rme_state c x)) (seq 0 16) then 1%nat else 0%nat).
    split; [intros c; by destruct (existsb _ _); lia|]. intros c _ ->. vm_compute. lia.
Qed.

Example link_reset_correct_witness :
  wp (r <- MUSPI_InitResetHold 66 10 ;; reset_loop demo_chip_step 1 7 r) (fun h c1 =>
    fst h = 0 /\ held_down 66 10 demo_chip c1 /\
    wp (r <- MUSPI_InitResetRelease 66 10 ;; reset_loop demo_chip_step 1 3 r) (fun r c2 =>
      fst r = 0 /\ released 66 10 c1 c2 /\
      Kernel_QueryInjFifos 66 (c_mu c2) = Ok (seq 0 BGQ_MU_NUM_INJ_FIFOS_PER_SUBGROUP) (c_mu c2) /\
      Kernel_QueryRecFifos 66 (c_mu c2) = Ok (seq 0 BGQ_MU_NUM_REC_FIFOS_PER_SUBGROUP) (c_mu c2)) c1) demo_chip.
Proof.
  apply (link_reset_correct demo_chip_step 1 66 10 demo_chip); [exact demo_reset_live|..];
    apply Nat.ltb_lt; reflexivity.
Defined.
