(* ===== verification/Cleanup.v ===== *)
(** * Termination of the driver

    bgmudm/mudm_cleanup.c, with the routines of bgmudm/mudm_init.c that
    give FIFOs and base address tables back: [mudm_terminate] stops the
    links, tells the users of all open requests and connections, and then
    walks the cleanup table backwards. *)

From Stdlib Require Import FunctionalExtensionality.
From S2P Require Import Prelude Chain Bytes Descriptor State Inject Concrete Memory Pools Pkt Rdma ConnList Connect Kernel Reset.

Definition SYS_GROUPID : nat := 16.

(** ** The driver and the message unit *)

(** [struct MU_subgroup_memory] *)
Record MU_subgroup_memory := mkMusm {
  ififo_subgroup : fifo_subgroup; rfifo_subgroup : fifo_subgroup; musm_bat : bat_subgroup;
  batids : list nat; batvalues : list Z; rfifoids : nat; ififoid : nat; subgroupID : nat;
  clearInterrupts_mask : Z;
  injRegion : mudm_memory_region; recRegion : mudm_memory_region }.
#[export] Instance FieldsOf_musm : FieldsOf MU_subgroup_memory := fun m =>
  mkMusm (ififo_subgroup m) (rfifo_subgroup m) (musm_bat m) (batids m) (batvalues m) (rfifoids m)
    (ififoid m) (subgroupID m) (clearInterrupts_mask m) (injRegion m) (recRegion m).

(** The state of the routines that start and stop the driver: the driver,
    the registers of the message unit and the network, and
    [MU_subgroup_mem] of each link. *)
Record node := mkNode { drv : world; n_chip : chip; musm : nat -> MU_subgroup_memory }.
#[export] Instance FieldsOf_node : FieldsOf node := fun n => mkNode (drv n) (n_chip n) (musm n).
Notation mu n := (c_mu (n_chip n)).

Definition MN (A : Type) : Type := M node A.

Definition in_drv {A} (m : MW A) : MN A := fun n =>
  match m (drv n) with
  | Ok a w => Ok a (n <| drv := w |>)
  | Fault => Fault
  | Hang => Hang
  end.
Definition in_chip {A} (m : MC A) : MN A := fun n =>
  match m (n_chip n) with
  | Ok a c => Ok a (n <| n_chip := c |>)
  | Fault => Fault
  | Hang => Hang
  end.
Definition in_mu {A} (m : MU A) : MN A := fun n =>
  match m (mu n) with
  | Ok a r => Ok a (n <| n_chip ::= fun c => c <| c_mu := r |> |>)
  | Fault => Fault
  | Hang => Hang
  end.
Definition upd_musm (l : nat) (u : MU_subgroup_memory -> MU_subgroup_memory) : MN unit :=
  modify (fun n => n <| musm ::= fun f => <[l := u (f l)]> f |>).

(** ** Connections of a link that goes down (mudm_cleanup.c) *)

(** [ccontext = ccontext->nextconn] until NULL, [u] on every block. *)
Fixpoint conn_walk (fuel : nat) (u : mudm_connection -> mudm_connection) (ccontext last_ccontext : option nat)
    (num : Z) : MW (option nat * Z) :=
  match ccontext with
  | None => ret (last_ccontext, num)
  | Some c =>
    match fuel with
    | O => hang
    | S fuel =>
      upd_conn c u ;;;
      cc <- get_conn c ;;
      conn_walk fuel u (nextconn cc) (Some c) (num + 1)
    end
  end.

Definition disable_active_connection_list (l : nat) : MW Z :=
  SPIN_LOCK ConnLock ;;;
  ccontext <- gets (fun w => conn_activelist w l) ;;
  n <- gets (fun w => size (conn_list w)) ;;
  conn_walk n (fun x => x <| c_state := CONN_DISCONNECTING |> <| c_activelist := None |>) ccontext None 0 ;;;
  SPIN_UNLOCK ConnLock ;;;
  ret 0.

(** The list is put in front of the abort list; [prevconn] of the block it
    is put in front of is not written. *)
Definition disable_pending_connection_list (l : nat) : MW Z :=
  SPIN_LOCK ConnLock ;;;
  ccontext <- gets (fun w => conn_pendlist w l) ;;
  n <- gets (fun w => size (conn_list w)) ;;
  r <- conn_walk n (fun x => x <| c_state := CONN_ABORTED |>) ccontext None 0 ;;
  match fst r with
  | None => ret tt
  | Some last_ccontext =>
      a <- gets (fun w => conn_abortlist w l) ;;
      upd_conn last_ccontext (set_nx a) ;;;
      p <- gets (fun w => conn_pendlist w l) ;;
      set_abortlist l p ;;;
      set_pendlist l None
  end ;;;
  SPIN_UNLOCK ConnLock ;;;
  ret (snd r).

Section with_platform.
Context (P : platform).

Definition set_inj_state (l : nat) (v : Z) : MW unit := modify (fun w => w <| inj_state ::= <[l := v]> |>).

(** Both loops over the links. *)
Definition quiet_link (l : nat) : MW unit :=
  disable_active_connection_list l ;;;
  disable_pending_connection_list l ;;;
  flush_pkt_reqid P (PacketControls l) ;;;
  flush_pkt_reqid P (SmallpaObjCtls l) ;;;
  flush_rdma_counter_reqid P l ;;;
  flush_iolink_connection_list P l ;;;
  ret tt.
Definition quiet_IOlinks : MW Z :=
  set_inj_state 0 0 ;;; wakeup ;;;
  set_inj_state 1 0 ;;; wakeup ;;;
  quiet_link 0 ;;; quiet_link 1 ;;;
  ret 0.

(** ** Cleanup functions (mudm_init.c) *)

Definition free_MU_inj_region (l : nat) (memregion : mudm_memory_region) : MN Z :=
  m <- gets (fun n => musm n l) ;;
  rc <- in_mu (Kernel_InjFifoActivate (ififo_subgroup m) [ififoid m] false) ;;
  if negb (rc =? 0) then ret (- EFAULT) else
  rc <- in_mu (Kernel_DeallocateInjFifos (ififo_subgroup m) [ififoid m]) ;;
  if negb (rc =? 0) then ret (- EFAULT) else
  in_drv (free_mem P memregion).

Definition deactivate_base_address_table (l : nat) : MN unit :=
  m <- gets (fun n => musm n l) ;;
  r <- in_mu (Kernel_DeallocateBaseAddressTable (musm_bat m) (batids m)) ;;
  upd_musm l (fun m => m <| musm_bat := snd r |>).
Definition free_MU_subgroup_mem (l : nat) (memregion : mudm_memory_region) : MN Z :=
  deactivate_base_address_table l ;;;
  in_drv (free_mem P memregion).

(** Bit of the reception FIFO of a subgroup in the enable register. *)
Definition rec_enable_bit (m : MU_subgroup_memory) : Z :=
  Z.shiftl 1 (15 - Z.of_nat (sgid_of (subgroupID m) * BGQ_MU_NUM_REC_FIFOS_PER_SUBGROUP) - Z.of_nat (rfifoids m)).
Definition deactivate_recfifo (l : nat) : MN Z :=
  m <- gets (fun n => musm n l) ;;
  rc <- in_mu (Kernel_RecFifoDisable SYS_GROUPID (rec_enable_bit m)) ;;
  if negb (rc =? 0) then ret (- EFAULT) else
  rc <- in_mu (Kernel_DeallocateRecFifos (rfifo_subgroup m) [rfifoids m]) ;;
  if negb (rc =? 0) then ret (- EFAULT) else
  ret rc.
Definition free_recfifo (l : nat) (memregion : mudm_memory_region) : MN Z :=
  status_free <- deactivate_recfifo l ;;
  if negb (status_free =? 0) then ret status_free else
  in_drv (free_mem P memregion).

(** ** The cleanup table *)

Definition run_cleanup (e : cleanup_entry) : MN Z :=
  match ce_fn e with
  | None | Some FreeMem => in_drv (free_mem P (ce_region e))
  | Some (FreeMuInjRegion l) => free_MU_inj_region l (ce_region e)
  | Some (FreeMuSubgroupMem l) => free_MU_subgroup_mem l (ce_region e)
  | Some (FreeRecFifo l) => free_recfifo l (ce_region e)
  end.

(** [i] counts down; entries are not removed. *)
Fixpoint cleanup_loop (i : nat) : MN unit :=
  match i with
  | O => ret tt
  | S i =>
      o <- gets (fun n => clean_table (drv n) !! i) ;;
      e <- deref o ;;
      status <- run_cleanup e ;;
      in_drv (modify (fun w => w <| clean_table ::= alter (fun e => mkCe (ce_region e) (ce_fn e) (u64 status)) i |>)) ;;;
      cleanup_loop i
  end.
Definition process_cleanup_table : MN Z :=
  n <- gets (fun n => length (clean_table (drv n))) ;;
  cleanup_loop n ;;;
  ret 0.

(** The last write is to the context, which the table has freed. *)
Definition mudm_terminate : MN Z :=
  m <- gets (fun n => magic (drv n)) ;;
  if negb (m =? MUDM_MAGIC) then ret (- EFAULT) else
  in_drv (modify (fun w => w <| m_state := MUDM_TERMINATING |>)) ;;;
  in_drv quiet_IOlinks ;;;
  process_cleanup_table ;;;
  in_drv (modify (fun w => w <| magic := 0 |>)) ;;;
  ret 0.
End with_platform.

(** ** The connection lists, forwards only

    What termination needs of the lists: following [nextconn] visits the
    blocks of each list, and no block is on two. *)
Record lists_chain (h : gmap nat mudm_connection) (f : option nat) (hd : clist -> option nat)
    (fl : list nat) (ls : clist -> list nat) : Prop := mkLc {
  lc_free : chain h f fl;
  lc_list : forall t, chain h (hd t) (ls t);
  lc_off : forall t i, i ∈ ls t -> i ∉ fl;
  lc_disj : forall t t' i, i ∈ ls t -> i ∈ ls t' -> t = t' }.

Lemma lists_wf_chain h f hd fl ls : lists_wf h f hd fl ls -> lists_chain h f hd fl ls.
Proof. intros [A B C D _]. split; [done|intros t; by eapply dchain_chain|done..]. Qed.

(** Another heap with the same successors. *)
Lemma lists_chain_frame h h' f hd fl ls :
  (forall q l, chain h q l -> chain h' q l) -> lists_chain h f hd fl ls -> lists_chain h' f hd fl ls.
Proof. intros H [A B C D]. split; [auto..|done|done]. Qed.

(** The blocks of list [s] are put in front of list [d]. *)
Definition moved (s d : clist) (ls : clist -> list nat) : clist -> list nat :=
  <[s := []]> (<[d := ls s ++ ls d]> ls).

Lemma moved_nil s d ls : s <> d -> ls s = [] -> moved s d ls = ls.
Proof.
  intros Hsd E. unfold moved. rewrite E. extensionality t. destruct (decide (s = t)) as [<-|].
  - by rewrite fn_lookup_insert, E.
  - rewrite fn_lookup_insert_ne by done. destruct (decide (d = t)) as [<-|].
    + by rewrite fn_lookup_insert.
    + by rewrite fn_lookup_insert_ne.
Qed.
Lemma moved_elem s d ls t i : s <> d -> i ∈ moved s d ls t ->
  exists t', i ∈ ls t' /\ (t' = t /\ t <> s \/ t' = s /\ t = d).
Proof.
  intros Hsd. unfold moved. destruct (decide (s = t)) as [<-|].
  { rewrite fn_lookup_insert. by intros []%elem_of_nil. }
  rewrite fn_lookup_insert_ne by done. destruct (decide (d = t)) as [<-|].
  - rewrite fn_lookup_insert. intros [H|H]%elem_of_app; eauto 6.
  - rewrite fn_lookup_insert_ne by done. eauto 6.
Qed.

Section surgery.
Context (h : gmap nat mudm_connection) (f : option nat) (hd : clist -> option nat)
  (fl : list nat) (ls : clist -> list nat) (Hl : lists_chain h f hd fl ls).

Lemma lc_head_last s : match hd s with
  | None => ls s = []
  | Some _ => exists l k, ls s = l ++ [k] end.
Proof.
  pose proof (lc_list _ _ _ _ _ Hl s) as Hs. destruct (hd s) as [c|]; [|by apply chain_None in Hs].
  destruct (ls s) as [|x l] using rev_ind; [done|eauto].
Qed.

Lemma lists_move s d l k : s <> d -> ls s = l ++ [k] ->
  lists_chain (alter (set_nx (hd d)) k h) f (<[s := None]> (<[d := hd s]> hd)) fl (moved s d ls).
Proof.
  intros Hsd E. destruct Hl as [Hf Hc Ho Hd].
  assert (Hk : k ∈ ls s) by (rewrite E; apply elem_of_app; right; by left).
  assert (Hoff : forall t, t <> s -> k ∉ ls t) by (intros t Ht Hkt; apply Ht; by eapply Hd).
  assert (Hkf : k ∉ fl) by (by eapply Ho).
  split.
  - by apply chain_alter_off.
  - intros t. unfold moved. destruct (decide (s = t)) as [<-|Hst]; [by rewrite !fn_lookup_insert|].
    rewrite !(fn_lookup_insert_ne _ s t) by done. destruct (decide (d = t)) as [<-|Hdt].
    + rewrite !fn_lookup_insert, E, <- app_assoc. cbn [app]. apply chain_splice; [by rewrite <- E|done|by apply Hoff].
    + rewrite !fn_lookup_insert_ne by done. apply chain_alter_off; [by apply Hoff|done].
  - intros t i (t' & Hi & _)%moved_elem; [|done]. by eapply Ho.
  - intros t t' i H1 H2. apply moved_elem in H1 as (t1 & H1 & C1); [|done].
    apply moved_elem in H2 as (t2 & H2 & C2); [|done]. specialize (Hd _ _ _ H1 H2) as ->.
    destruct C1 as [[<- H]|[-> ->]], C2 as [[? H']|[? ->]]; congruence.
Qed.

(** The blocks of list [s] are put in front of the free list. *)
Lemma lists_release s l k : ls s = l ++ [k] ->
  lists_chain (alter (set_nx f) k h) (hd s) (<[s := None]> hd) (ls s ++ fl) (<[s := []]> ls).
Proof.
  intros E. destruct Hl as [Hf Hc Ho Hd].
  assert (Hk : k ∈ ls s) by (rewrite E; apply elem_of_app; right; by left).
  assert (Hin : forall t i, i ∈ <[s := []]> ls t -> t <> s /\ i ∈ ls t).
  { intros t i. destruct (decide (s = t)) as [<-|].
    - rewrite fn_lookup_insert. by intros []%elem_of_nil.
    - rewrite fn_lookup_insert_ne by done. done. }
  split.
  - rewrite E, <- app_assoc. cbn [app]. apply chain_splice; [by rewrite <- E|done|by eapply Ho].
  - intros t. destruct (decide (s = t)) as [<-|Hst]; [by rewrite !fn_lookup_insert|].
    rewrite !fn_lookup_insert_ne by done. apply chain_alter_off; [|done].
    intros Hkt. apply Hst. by eapply Hd.
  - intros t i [Ht Hi]%Hin [H|H]%elem_of_app; [apply Ht; by eapply Hd|by eapply Ho].
  - intros t t' i [_ H1]%Hin [_ H2]%Hin. by eapply Hd.
Qed.
End surgery.

(** ** The walks *)

(** [u] applied to the blocks of a list. *)
Definition alter_all (u : mudm_connection -> mudm_connection) (l : list nat) (h : gmap nat mudm_connection) :=
  foldl (fun h i => alter u i h) h l.

Lemma alter_all_chain u l h q k : (forall n, nx (u n) = nx n) -> chain h q k -> chain (alter_all u l h) q k.
Proof.
  intros Hu. unfold alter_all. revert h. induction l as [|i l IH]; intros h H; [done|]. cbn.
  apply IH. by apply chain_alter_data.
Qed.

Lemma conn_walk_ok fuel u todo h p last num f hd hs w (Q : option nat * Z -> world -> Prop) :
  (forall n, nx (u n) = nx n) -> chain h p todo -> (length todo <= fuel)%nat ->
  Q (match list.last todo with Some k => Some k | None => last end, num + Z.of_nat (length todo))
    (cput hs (alter_all u todo h) f hd w) ->
  wp (conn_walk fuel u p last num) Q (cput hs h f hd w).
Proof.
  intros Hu. revert fuel h p last num. induction todo as [|i todo IH]; intros fuel h p last num Hc Hl HQ.
  - cbn in Hc. subst p. destruct fuel; apply wp_ret; cbn in HQ; by rewrite Z.add_0_r in HQ.
  - destruct Hc as [-> (n & Hn & Hc)]. destruct fuel as [|fuel]; [cbn in Hl; lia|]. cbn [conn_walk].
    apply wp_bind. eapply wp_cupd; [done|]. apply wp_bind.
    apply (wp_cget _ _ _ _ _ _ (u n)); [by rewrite lookup_alter_eq, Hn|].
    change (nextconn (u n)) with (nx (u n)). rewrite Hu. apply IH; [by apply chain_alter_data|cbn in Hl; lia|].
    cbn [length] in HQ. replace (num + 1 + Z.of_nat (length todo)) with (num + Z.of_nat (S (length todo))) by lia.
    cbn [alter_all foldl] in HQ. destruct todo as [|x todo]; [exact HQ|].
    assert (E : forall y : option nat, match list.last (x :: todo) with Some k => Some k | None => y end = list.last (x :: todo)).
    { intros y. destruct (list.last (x :: todo)) eqn:El; [done|]. by apply last_None in El. }
    rewrite E. rewrite E in HQ. exact HQ.
Qed.

Lemma cput_abort hs h f hd w l p :
  (cput hs h f hd w) <| conn_abortlist ::= <[l := p]> |> = cput hs h f (<[LAbort l := p]> hd) w.
Proof.
  unfold cput. destruct w. unfold upd_field. cbn. f_equal. apply (set_head_ext hd LAbort). congruence.
Qed.

(** The trace and the hardware of the world under the lists. *)
Lemma cput_trace hs h f hd w u x :
  (cput hs h f hd w) <| trace ::= u |> <| hw := x |> = cput hs h f hd (w <| trace ::= u |> <| hw := x |>).
Proof. done. Qed.

Lemma trace_trace e evs x x' (w : world) :
  (w <| trace ::= (fun t => t ++ [e]) |> <| hw := x |>) <| trace ::= (fun t => t ++ evs) |> <| hw := x' |>
  = w <| trace ::= (fun t => t ++ e :: evs) |> <| hw := x' |>.
Proof.
  assert (E : (fun t => t ++ e :: evs) = (fun t => (t ++ [e]) ++ evs)) by (extensionality t; by rewrite <- app_assoc).
  by rewrite E.
Qed.

Section walks.
Context (l : nat) (h : gmap nat mudm_connection) (f : option nat) (hd : clist -> option nat)
  (fl : list nat) (ls : clist -> list nat) (w : world) (Hl : lists_chain h f hd fl ls).

Lemma wp_disable_active (Q : Z -> world -> Prop) :
  (forall h', lists_chain h' f hd fl ls -> Q 0 (cput [] h' f hd w)) ->
  wp (disable_active_connection_list l) Q (cput [] h f hd w).
Proof.
  intros HQ. unfold disable_active_connection_list. apply wp_bind, wp_clock, wp_bind, wp_get_act, wp_bind, wp_gets.
  apply wp_bind. eapply conn_walk_ok; [|apply (lc_list _ _ _ _ _ Hl (LAct l))|by eapply chain_length, Hl|].
  { done. }
  apply wp_bind, wp_cunlock, wp_ret, HQ.
  eapply lists_chain_frame; [|exact Hl]. intros q k. by apply alter_all_chain.
Qed.

Lemma wp_disable_pending (Q : Z -> world -> Prop) :
  (forall h' hd', lists_chain h' f hd' fl (moved (LPend l) (LAbort l) ls) ->
     Q (Z.of_nat (length (ls (LPend l)))) (cput [] h' f hd' w)) ->
  wp (disable_pending_connection_list l) Q (cput [] h f hd w).
Proof.
  intros HQ. unfold disable_pending_connection_list.
  apply wp_bind, wp_clock, wp_bind, wp_get_pend, wp_bind, wp_gets.
  apply wp_bind. eapply conn_walk_ok; [|apply (lc_list _ _ _ _ _ Hl (LPend l))|by eapply chain_length, Hl|].
  { done. }
  set (h1 := alter_all _ _ h).
  assert (Hl1 : lists_chain h1 f hd fl ls)
    by (eapply lists_chain_frame; [|exact Hl]; intros q k; by apply alter_all_chain).
  pose proof (lc_head_last _ _ _ _ _ Hl1 (LPend l)) as Hh. destruct (hd (LPend l)) as [c|] eqn:Ec.
  - destruct Hh as (l1 & k & E). pose proof HQ as HQ'. rewrite E in *. rewrite list.last_snoc. cbn [fst snd].
    apply wp_bind. apply wp_bind, wp_gets. cbn [conn_abortlist cput].
    assert (Hk : is_Some (h1 !! k)).
    { eapply chain_is_Some; [apply (lc_list _ _ _ _ _ Hl1 (LPend l))|]. rewrite E. apply elem_of_app. right. by left. }
    destruct Hk as [n Hn]. apply wp_bind. eapply wp_cupd; [done|]. apply wp_bind, wp_get_pend, wp_bind.
    apply wp_modify. rewrite cput_abort. apply wp_set_pend, wp_bind, wp_cunlock, wp_ret.
    apply HQ. by eapply (lists_move _ _ _ _ _ Hl1 _ _ l1).
  - pose proof HQ as HQ'. rewrite Hh in *. cbn [list.last fst snd length]. apply wp_bind, wp_ret, wp_bind, wp_cunlock, wp_ret.
    apply HQ. by rewrite moved_nil.
Qed.
End walks.

(** Telling the user of each connection of the list. *)
Definition told (cs : list nat) (evs : list event) : Prop :=
  Forall2 (fun c e => exists sw, e = EvRecvConn c sw) cs evs.

Section flush_connections.
Context (P : platform) `{!QuietRecvConn P}.

Lemma flush_conn_loop_ok fuel todo h p last f hd w (Q : option nat -> world -> Prop) :
  chain h p todo -> (length todo <= fuel)%nat ->
  (forall h' evs x, (forall q k, chain h q k -> chain h' q k) -> told todo evs ->
     Q (match list.last todo with Some k => Some k | None => last end)
       (cput [] h' f hd (w <| trace ::= (fun t => t ++ evs) |> <| hw := x |>))) ->
  wp (flush_conn_loop P fuel p last) Q (cput [] h f hd w).
Proof.
  revert fuel h p last w. induction todo as [|i todo IH]; intros fuel h p last w Hc Hl HQ.
  - cbn in Hc. subst p.
    assert (E : cput [] h f hd w = cput [] h f hd (w <| trace ::= (fun t => t ++ []) |> <| hw := hw w |>)).
    { destruct w. unfold cput, upd_field. cbn. by rewrite app_nil_r. }
    destruct fuel; apply wp_ret; rewrite E; apply (HQ h []); [done|constructor|done|constructor].
  - destruct Hc as [-> (n & Hn & Hc)]. destruct fuel as [|fuel]; [cbn in Hl; lia|]. cbn [flush_conn_loop].
    apply wp_bind. eapply wp_cupd; [done|]. apply wp_bind. unfold disconnect_indicate.
    apply wp_bind. eapply wp_cget; [by rewrite lookup_alter_eq, Hn|]. apply wp_bind.
    unfold hdr_update. eapply wp_cupd; [by rewrite lookup_alter_eq, Hn|]. apply wp_bind, (wp_recv_conn_cb P); [done|].
    set (sw := addressSoftwareBytes _). clearbody sw. intros r x. rewrite cput_trace. apply wp_bind, wp_ret, wp_ret, wp_bind.
    eapply wp_cupd; [by rewrite !lookup_alter_eq, Hn|]. apply wp_bind.
    eapply wp_cget; [by rewrite !lookup_alter_eq, Hn|]. cbn [nextconn].
    match goal with |- wp _ _ (cput _ ?h1 _ _ _) => set (h2 := h1) end.
    assert (Hch : forall q k, chain h q k -> chain h2 q k) by (intros; by do 3 (apply chain_alter_data; [done|])).
    clearbody h2. apply (IH fuel h2); [by apply Hch|cbn in Hl; lia|]. intros h' evs x' Hh' Ht.
    specialize (HQ h' (EvRecvConn i sw :: evs) x' ltac:(auto) ltac:(constructor; [eauto|done])).
    assert (E : match list.last todo with Some k => Some k | None => Some i end
              = match list.last (i :: todo) with Some k => Some k | None => last end).
    { destruct todo as [|y todo]; [done|]. change (list.last (i :: y :: todo)) with (list.last (y :: todo)).
      destruct (list.last (y :: todo)) eqn:El; [done|]. by apply last_None in El. }
    rewrite E. by rewrite trace_trace.
Qed.

Lemma wp_flush_connections l h f hd fl ls w (Q : Z -> world -> Prop) :
  lists_chain h f hd fl ls ->
  (forall h' f' hd' evs x, lists_chain h' f' hd' (ls (LAct l) ++ fl) (<[LAct l := []]> ls) ->
     told (ls (LAct l)) evs ->
     Q 0 (cput [] h' f' hd' (w <| trace ::= (fun t => t ++ evs) |> <| hw := x |>))) ->
  wp (flush_iolink_connection_list P l) Q (cput [] h f hd w).
Proof.
  intros Hl HQ. pose proof (lc_head_last _ _ _ _ _ Hl (LAct l)) as Hh.
  unfold flush_iolink_connection_list. apply wp_bind, wp_get_act.
  destruct (hd (LAct l)) as [c|] eqn:Ec.
  - destruct Hh as (l1 & k & E). apply wp_bind, wp_gets, wp_bind.
    eapply flush_conn_loop_ok; [rewrite <- Ec; apply (lc_list _ _ _ _ _ Hl (LAct l))|by eapply chain_length, Hl|].
    intros h1 evs x Hch Ht. rewrite E, list.last_snoc.
    assert (Hl1 : lists_chain h1 f hd fl ls) by (by eapply lists_chain_frame).
    assert (Hk : is_Some (h1 !! k)).
    { eapply chain_is_Some; [apply (lc_list _ _ _ _ _ Hl1 (LAct l))|]. rewrite E. apply elem_of_app. right. by left. }
    destruct Hk as [n Hn]. apply wp_bind, wp_clock, wp_bind, wp_ret, wp_bind, wp_get_free, wp_bind.
    eapply wp_cupd; [done|]. apply wp_bind, wp_set_free, wp_bind, wp_set_act, wp_bind, wp_cunlock, wp_ret.
    apply HQ; [|done]. rewrite <- Ec. by eapply lists_release.
  - apply wp_ret.
    assert (Ew : cput [] h f hd w = cput [] h f hd (w <| trace ::= (fun t => t ++ []) |> <| hw := hw w |>))
      by (destruct w; unfold cput, upd_field; cbn; by rewrite app_nil_r).
    rewrite Ew. apply HQ; rewrite Hh; [|constructor].
    assert (Els : <[LAct l := []]> ls = ls) by (rewrite <- Hh; apply fn_insert_id). by rewrite Els.
Qed.
End flush_connections.

(** ** One link going down *)

(** The lists of the pools of a link: free and active ones of the packets,
    the small packets and the RDMA objects. *)
Record link_lists := mkLl {
  ll_pkt_free : list nat; ll_pkt : list nat; ll_small_free : list nat; ll_small : list nat;
  ll_rdma_free : list nat; ll_rdma : list nat }.
Record link_wf (w : world) (l : nat) (L : link_lists) : Prop := mkLk {
  lk_pkt : pool_wf (pkt_pool (PacketControls l)) w (ll_pkt_free L) (ll_pkt L);
  lk_small : pool_wf (pkt_pool (SmallpaObjCtls l)) w (ll_small_free L) (ll_small L);
  lk_rdma : pool_wf (rdma_pool l) w (ll_rdma_free L) (ll_rdma L) }.
Definition conns_ok (w : world) (fl : list nat) (ls : clist -> list nat) : Prop :=
  lists_chain (conn_list w) (conn_freelist w) (head_of w) fl ls.

(** Everything free, every open request cancelled. *)
Definition flushed (L : link_lists) : link_lists :=
  mkLl (ll_pkt L ++ ll_pkt_free L) [] (ll_small L ++ ll_small_free L) [] (ll_rdma L ++ ll_rdma_free L) [].
Definition cancellations (w : world) (l : nat) (L : link_lists) : list event :=
  (ll_pkt L ≫= fun i => cancellation (pktd_at (PacketControls l) w i)) ++
  (ll_small L ≫= fun i => cancellation (pktd_at (SmallpaObjCtls l) w i)) ++
  (ll_rdma L ≫= fun i => rdma_cancellation (ro_at l w i)).
(** No active and no pending connections. *)
Definition quiet_ls (l : nat) (ls : clist -> list nat) : clist -> list nat :=
  <[LAct l := []]> (moved (LPend l) (LAbort l) ls).

(** What is left alone. *)
Record quiets (l : nat) (w w' : world) : Prop := mkQuiets {
  qu_pools : forall p, pool_link p <> l -> pools w' p = pools w p;
  qu_rdma : forall k, k <> l -> rdma w' k = rdma w k;
  qu_table : clean_table w' = clean_table w;
  qu_magic : magic w' = magic w;
  qu_state : m_state w' = m_state w;
  qu_inj : inj_state w' = inj_state w;
  qu_remote : remote_BlockID w' = remote_BlockID w;
  qu_link : link4reset w' = link4reset w;
  qu_fifos : inj w' = inj w /\ recf w' = recf w }.

Lemma touches_quiets (Pk : pool_id -> Prop) (Rd : nat -> Prop) l w w' :
  (forall p, Pk p -> pool_link p = l) -> (forall k, Rd k -> k = l) -> touches Pk Rd w w' -> quiets l w w'.
Proof.
  intros HP HR (E & P1 & R1). split; [intros p Hp; apply P1; intros H; by apply Hp, HP
    |intros k Hk; apply R1; intros H; by apply Hk, HR| | | | | | |split]; rewrite E; by destruct w.
Qed.
Lemma quiets_trans l w w1 w2 : quiets l w w1 -> quiets l w1 w2 -> quiets l w w2.
Proof.
  intros [A1 A2 A3 A4 A5 A6 A7 A8 [A9 A10]] [B1 B2 B3 B4 B5 B6 B7 B8 [B9 B10]].
  split; [intros; by rewrite B1, A1|intros; by rewrite B2, A2|congruence..|split; congruence].
Qed.
Lemma quiets_cput l h f hd u x w : quiets l w (cput [] h f hd (w <| trace ::= u |> <| hw := x |>)).
Proof. by split. Qed.

Lemma touches_conns Pk Rd w w' fl ls : touches Pk Rd w w' -> conns_ok w fl ls -> conns_ok w' fl ls.
Proof.
  intros (E & _). assert (E1 : conn_list w' = conn_list w) by (rewrite E; by destruct w).
  assert (E2 : conn_freelist w' = conn_freelist w) by (rewrite E; by destruct w).
  assert (E3 : head_of w' = head_of w) by (extensionality t; destruct t; rewrite E; by destruct w).
  unfold conns_ok. by rewrite E1, E2, E3.
Qed.
Lemma touches_held Pk Rd w w' : touches Pk Rd w w' -> held w' = held w.
Proof. intros (E & _). rewrite E. by destruct w. Qed.

(** A pool that was not touched. *)
Lemma touches_pkt Pk Rd p w w' fl al : ~ Pk p -> touches Pk Rd w w' ->
  pool_wf (pkt_pool p) w fl al -> pool_wf (pkt_pool p) w' fl al.
Proof.
  intros Hp T. apply pool_wf_ext; [|by eapply touches_held]. cbn. by rewrite (proj1 (proj2 T) p).
Qed.
Lemma touches_rdma Pk Rd l w w' fl al : ~ Rd l -> touches Pk Rd w w' ->
  pool_wf (rdma_pool l) w fl al -> pool_wf (rdma_pool l) w' fl al.
Proof.
  intros Hl T. apply pool_wf_ext; [|by eapply touches_held]. cbn. by rewrite (proj2 (proj2 T) l).
Qed.
Lemma touches_pktd_at Pk Rd p w w' : ~ Pk p -> touches Pk Rd w w' -> pktd_at p w' = pktd_at p w.
Proof. intros Hp (_ & E & _). extensionality i. unfold pktd_at, heap_of. cbn. by rewrite E. Qed.
Lemma touches_ro_at Pk Rd l w w' : ~ Rd l -> touches Pk Rd w w' -> ro_at l w' = ro_at l w.
Proof. intros Hp (_ & _ & E). extensionality i. unfold ro_at, heap_of. cbn. by rewrite E. Qed.

Lemma pool_ne l : PacketControls l <> SmallpaObjCtls l.
Proof. done. Qed.

Section quiet.
Context (P : platform) `{!QuietStatus P, !QuietRecvConn P}.

Lemma wp_flush_pools {A} l w L (k : MW A) (Q : A -> world -> Prop) :
  link_wf w l L ->
  (forall w', link_wf w' l (flushed L) -> trace w' = trace w ++ cancellations w l L ->
     touches (fun p => pool_link p = l) (eq l) w w' -> wp k Q w') ->
  wp (flush_pkt_reqid P (PacketControls l) ;;; flush_pkt_reqid P (SmallpaObjCtls l) ;;;
      flush_rdma_counter_reqid P l ;;; k) Q w.
Proof.
  intros [W1 W2 W3] HQ.
  apply wp_bind. eapply wp_mono; [by apply (flush_pkt_reqid_ok P)|]. intros _ w1 (_ & A1 & T1 & F1).
  apply wp_bind. eapply wp_mono; [by apply (flush_pkt_reqid_ok P), (touches_pkt _ _ _ _ _ _ _ (pool_ne l) F1)|]. intros _ w2 (_ & A2 & T2 & F2).
  apply wp_bind. eapply wp_mono.
  { by apply (flush_rdma_ok P), (touches_rdma _ _ _ _ _ _ _ (fun x => x) F2), (touches_rdma _ _ _ _ _ _ _ (fun x => x) F1). }
  intros _ w3 (_ & A3 & T3 & F3). apply HQ.
  - split; cbn; [|by apply (touches_pkt _ _ _ _ _ _ _ (fun x => x) F3)|done].
    apply (touches_pkt _ _ _ _ _ _ _ (fun x => x) F3).
    by apply (touches_pkt _ _ _ _ _ _ _ (fun e => pool_ne l (eq_sym e)) F2).
  - rewrite T3, T2, T1. unfold cancellations. rewrite <- !app_assoc. do 2 f_equal.
    rewrite (touches_pktd_at _ _ _ _ _ (pool_ne l) F1). f_equal.
    by rewrite (touches_ro_at _ _ _ _ _ (fun x => x) F2), (touches_ro_at _ _ _ _ _ (fun x => x) F1).
  - etrans; [eapply touches_weaken, F1; [by intros ? <-|done]|].
    etrans; [eapply touches_weaken, F2; [by intros ? <-|done]|]. by eapply touches_weaken, F3.
Qed.

Lemma conns_ok_open w fl ls : held w = [] -> conns_ok w fl ls ->
  exists h f hd, w = cput [] h f hd w /\ lists_chain h f hd fl ls.
Proof.
  intros Hh H. exists (conn_list w), (conn_freelist w), (head_of w). split; [|done].
  rewrite <- Hh. symmetry. apply cput_id.
Qed.
Lemma conns_ok_cput h f hd w fl ls : lists_chain h f hd fl ls -> conns_ok (cput [] h f hd w) fl ls.
Proof.
  intros H. unfold conns_ok.
  assert (E : head_of (cput [] h f hd w) = hd) by (extensionality t; by destruct t). by rewrite E.
Qed.

Lemma link_wf_cput w l L h f hd u x : held w = [] ->
  link_wf w l L -> link_wf (cput [] h f hd (w <| trace ::= u |> <| hw := x |>)) l L.
Proof. intros Hh [A B C]. split; (eapply pool_wf_ext; [| |done]; [done|by rewrite Hh]). Qed.

Lemma wp_at {A} (m : MW A) (Q : A -> world -> Prop) w w' : w = w' -> wp m Q w' -> wp m Q w.
Proof. by intros ->. Qed.

Lemma quiet_link_ok l w L fl ls :
  held w = [] -> link_wf w l L -> conns_ok w fl ls ->
  wp (quiet_link P l) (fun _ w' => held w' = [] /\ link_wf w' l (flushed L) /\
    conns_ok w' (ls (LAct l) ++ fl) (quiet_ls l ls) /\ quiets l w w' /\
    exists evs, told (ls (LAct l)) evs /\ trace w' = trace w ++ cancellations w l L ++ evs) w.
Proof.
  intros Hh HL Hc. destruct (conns_ok_open _ _ _ Hh Hc) as (h & f & hd & E & Hlc).
  unfold quiet_link. eapply wp_at; [exact E|]. apply wp_bind, (wp_disable_active _ _ _ _ _ _ _ Hlc). intros h1 Hlc1.
  apply wp_bind, (wp_disable_pending _ _ _ _ _ _ _ Hlc1). intros h2 hd2 Hlc2.
  set (w2 := cput [] h2 f hd2 w).
  assert (HL2 : link_wf w2 l L) by (destruct HL as [A B C]; split; (eapply pool_wf_ext; [| |done]; [done|by rewrite Hh])).
  apply (wp_flush_pools l w2 L _ _ HL2). intros w3 HL3 T3 F3.
  pose proof (touches_held _ _ _ _ F3) as Hh3. cbn in Hh3.
  pose proof (touches_conns _ _ _ _ _ _ F3 (conns_ok_cput _ _ _ w _ _ Hlc2)) as Hc3.
  destruct (conns_ok_open _ _ _ Hh3 Hc3) as (h4 & f4 & hd4 & E4 & Hlc4).
  eapply wp_at; [exact E4|]. apply wp_bind, (wp_flush_connections P _ _ _ _ _ _ _ _ Hlc4).
  assert (Ea : moved (LPend l) (LAbort l) ls (LAct l) = ls (LAct l)) by (unfold moved; by rewrite !fn_lookup_insert_ne).
  rewrite Ea. intros h5 f5 hd5 evs x Hlc5 Ht. apply wp_ret. split_and!.
  - done.
  - by apply link_wf_cput.
  - by apply conns_ok_cput.
  - apply (quiets_trans _ _ w2); [by split|]. apply (quiets_trans _ _ w3); [|apply quiets_cput].
    eapply touches_quiets, F3; [done|by intros ? <-].
  - exists evs. split; [done|]. cbn. by rewrite T3, <- app_assoc.
Qed.
End quiet.

(** ** The cleanup table *)

(** Freeing memory does not call back into the driver. *)
Class QuietFree (P : platform) : Prop := quiet_free :
  forall r w, wp (cb_free P r) (fun _ w' => w' = w) w.
#[export] Instance demo_quiet_free : QuietFree demo_platform.
Proof. by intros r w. Qed.

Lemma wp_in_mu {A} (m : MU A) (Q : A -> node -> Prop) n :
  wp m (fun a r => Q a (n <| n_chip ::= fun c => c <| c_mu := r |> |>)) (mu n) -> wp (in_mu m) Q n.
Proof. unfold wp, in_mu. by destruct (m (mu n)). Qed.
Lemma wp_in_chip {A} (m : MC A) (Q : A -> node -> Prop) n :
  wp m (fun a c => Q a (n <| n_chip := c |>)) (n_chip n) -> wp (in_chip m) Q n.
Proof. unfold wp, in_chip. by destruct (m (n_chip n)). Qed.
Lemma wp_in_drv {A} (m : MW A) (Q : A -> node -> Prop) n :
  wp m (fun a w => Q a (n <| drv := w |>)) (drv n) -> wp (in_drv m) Q n.
Proof. unfold wp, in_drv. by destruct (m (drv n)). Qed.

(** What the structures of a link must name for their FIFOs and table
    entries to be given back. *)
Record musm_ok (m : MU_subgroup_memory) : Prop := mkMok {
  mok_inj : (ififoid m < 8)%nat;
  mok_rec : (rfifoids m < 4)%nat;
  mok_bat : (forall i, i ∈ batids m -> (i < 8)%nat) /\ (0 < length (batids m) <= 8)%nat;
  mok_sg : (bat_subgrpid (musm_bat m) < 68)%nat }.

(** The names, without the shadow of the table. *)
Definition musm_names (m : MU_subgroup_memory) :=
  (subgroupid (ififo_subgroup m), ififoid m, (subgroupid (rfifo_subgroup m), rfifoids m),
   (bat_subgrpid (musm_bat m), batids m)).

(** What a cleanup function gives back is free. *)
Definition given_back (r : mu_regs) (ms : nat -> MU_subgroup_memory) (fn : option cleanup_fn) : Prop :=
  match fn with
  | None | Some FreeMem => True
  | Some (FreeMuInjRegion l) => fr_pa_start (mu_inj r (subgroupid (ififo_subgroup (ms l)), ififoid (ms l))) = 0
  | Some (FreeRecFifo l) => fr_pa_start (mu_rec r (subgroupid (rfifo_subgroup (ms l)), rfifoids (ms l))) = 0
  | Some (FreeMuSubgroupMem l) => forall i, i ∈ batids (ms l) -> mu_bat r (bat_subgrpid (musm_bat (ms l)), i) = FREE_BAT
  end.

Lemma given_back_frees r r' ms fn : frees r r' -> given_back r ms fn -> given_back r' ms fn.
Proof. intros [A B C]. destruct fn as [[]|]; cbn; auto. Qed.
Lemma given_back_names r ms ms' fn :
  (forall l, musm_names (ms' l) = musm_names (ms l)) -> given_back r ms' fn -> given_back r ms fn.
Proof.
  intros H. destruct fn as [[|l|l|l]|]; cbn; try done; specialize (H l); unfold musm_names in H;
    injection H as E1 E2 E3 E4 E5 E6; by rewrite ?E1, ?E2, ?E3, ?E4, ?E5, ?E6.
Qed.

(** One entry. *)
Record cleaned (e : cleanup_entry) (n n' : node) : Prop := mkCleaned {
  cl_drv : drv n' = (drv n) <| trace ::= fun t => t ++ [EvFree (ce_region e)] |>;
  cl_frees : frees (mu n) (mu n');
  cl_back : given_back (mu n') (musm n) (ce_fn e);
  cl_names : forall l, musm_names (musm n' l) = musm_names (musm n l) }.

Lemma musm_names_ok m m' : musm_names m' = musm_names m -> musm_ok m -> musm_ok m'.
Proof.
  intros E [A B C D]. unfold musm_names in E. injection E as E1 E2 E3 E4 E5 E6.
  split; [by rewrite E2|by rewrite E4|by rewrite E6|by rewrite E5].
Qed.

Section table.
Context (P : platform) `{!QuietFree P}.

Lemma wp_free_mem r (Q : Z -> node -> Prop) n :
  (forall s, Q s (n <| drv ::= fun w => w <| trace ::= fun t => t ++ [EvFree r] |> |>)) ->
  wp (in_drv (free_mem P r)) Q n.
Proof.
  intros HQ. apply wp_in_drv, wp_bind, wp_modify. eapply wp_mono; [apply quiet_free|]. by intros s w ->.
Qed.

Lemma run_cleanup_ok e n : (forall l, musm_ok (musm n l)) ->
  wp (run_cleanup P e) (fun _ n' => cleaned e n n') n.
Proof.
  intros Hok. unfold run_cleanup. destruct (ce_fn e) as [[|l|l|l]|] eqn:Efn.
  - apply wp_free_mem. intros s. split; [done|done|by rewrite Efn|done].
  - destruct (Hok l) as [H1 _ _ _].
    apply wp_bind, wp_gets, wp_bind, wp_in_mu, wp_InjFifoActivate; [by intros i ->%list_elem_of_singleton|].
    intros m1 F1. apply wp_bind, wp_in_mu, wp_DeallocateInjFifos; [by intros i ->%list_elem_of_singleton|].
    intros m2 F2 E2. apply wp_free_mem. intros s. split; [done|by etrans| |done].
    rewrite Efn. apply E2. by left.
  - destruct (Hok l) as [_ _ [H1 H2] H3].
    apply wp_bind, wp_bind, wp_gets, wp_bind, wp_in_mu, wp_DeallocateBaseAddressTable; [done..|].
    intros m1 bat' Eb F1 E1. apply wp_modify, wp_free_mem. intros s. split; [done|done|by rewrite Efn|].
    intros k. cbn. destruct (decide (l = k)) as [<-|]; [|by rewrite fn_lookup_insert_ne].
    rewrite fn_lookup_insert. unfold musm_names. cbn. by rewrite Eb.
  - destruct (Hok l) as [_ H1 _ _]. apply wp_bind, wp_bind, wp_gets, wp_bind, wp_in_mu, wp_RecFifoDisable.
    { unfold SYS_GROUPID. lia. }
    { unfold rec_enable_bit. apply Z.neq_sym, Z.lt_neq. rewrite Z.shiftl_1_l. apply Z.pow_pos_nonneg; [lia|].
      pose proof (sgid_lt (subgroupID (musm n l))). unfold BGQ_MU_NUM_REC_FIFOS_PER_SUBGROUP. lia. }
    intros m1 F1. apply wp_bind, wp_in_mu, wp_DeallocateRecFifos; [by intros i ->%list_elem_of_singleton|].
    intros m2 F2 E2. apply wp_ret, wp_free_mem. intros s. split; [done|by etrans| |done].
    rewrite Efn. apply E2. by left.
  - apply wp_free_mem. intros s. split; [done|done|by rewrite Efn|done].
Qed.

(** The entries without their status. *)
Definition entry_of (e : cleanup_entry) : mudm_memory_region * option cleanup_fn := (ce_region e, ce_fn e).
Definition entries (n : node) := entry_of <$> clean_table (drv n).

Record table_cleaned (ks : list (mudm_memory_region * option cleanup_fn)) (n n' : node) : Prop := mkTc {
  tc_trace : trace (drv n') = trace (drv n) ++ map (fun k => EvFree (fst k)) (reverse ks);
  tc_rest : exists t, drv n' = (drv n) <| trace := trace (drv n') |> <| clean_table := t |>;
  tc_frees : frees (mu n) (mu n');
  tc_back : forall k, k ∈ ks -> given_back (mu n') (musm n) (snd k);
  tc_names : forall l, musm_names (musm n' l) = musm_names (musm n l);
  tc_entries : entries n' = entries n }.

Lemma cleanup_loop_ok i n : (forall l, musm_ok (musm n l)) -> (i <= length (clean_table (drv n)))%nat ->
  wp (cleanup_loop P i) (fun _ n' => table_cleaned (take i (entries n)) n n') n.
Proof.
  revert n. induction i as [|i IH]; intros n Hok Hi.
  - apply wp_ret. split; [by rewrite app_nil_r|exists (clean_table (drv n)); by destruct (drv n)|done| |done|done].
    intros k Hk. by apply elem_of_nil in Hk.
  - cbn [cleanup_loop]. apply wp_bind, wp_gets, wp_bind.
    destruct (lookup_lt_is_Some_2 (clean_table (drv n)) i ltac:(lia)) as [e He].
    apply (wp_deref _ e); [done|]. apply wp_bind. eapply wp_mono; [by apply run_cleanup_ok|].
    intros s n1 [D F B N]. apply wp_bind, wp_in_drv, wp_modify. set (n2 := n1 <| drv := _ |>).
    assert (Een : entries n2 = entries n).
    { unfold entries. cbn. rewrite D. cbn. apply list_eq. intros j. rewrite !list_lookup_fmap.
      rewrite list_lookup_alter. destruct (decide (i = j)) as [<-|]; [|done].
      by rewrite He. }
    eapply wp_mono; [apply IH|].
    { intros l. exact (musm_names_ok _ _ (N l) (Hok l)). }
    { cbn. rewrite length_alter, D. cbn. lia. }
    rewrite Een. intros [] n' [T' (t & R') F' B' N' E'].
    assert (Hk : entries n !! i = Some (entry_of e)) by (unfold entries; by rewrite list_lookup_fmap, He).
    rewrite (take_S_r _ _ _ Hk). split.
    + rewrite T', reverse_app. cbn. rewrite D. cbn. by rewrite <- app_assoc.
    + exists t. rewrite R' at 1. cbn. rewrite D. done.
    + by etrans; [exact F|].
    + intros k [Hin| ->%list_elem_of_singleton]%elem_of_app.
      * eapply given_back_names; [|by apply B']. exact N.
      * cbn. by eapply given_back_frees.
    + intros l. by rewrite N', <- N.
    + by rewrite E'.
Qed.
End table.

(** ** Both links *)

Section terminate.
Context (P : platform) `{!QuietStatus P, !QuietRecvConn P, !QuietFree P}.

Lemma link_wf_ext w w' l L :
  (forall p, pool_link p = l -> pools w' p = pools w p) -> rdma w' l = rdma w l -> held w' = held w ->
  link_wf w l L -> link_wf w' l L.
Proof.
  intros Ep Er Eh [A B C].
  split; (eapply pool_wf_ext; [|done|done]); cbn; by rewrite ?Ep, ?Er.
Qed.
Lemma cancellations_ext w w' l L :
  (forall p, pool_link p = l -> pools w' p = pools w p) -> rdma w' l = rdma w l ->
  cancellations w' l L = cancellations w l L.
Proof.
  intros Ep Er. unfold cancellations, pktd_at, ro_at, heap_of. cbn. by rewrite !Ep, Er.
Qed.

(** The driver with its links stopped. *)
Definition stopped (w : world) : world :=
  w <| inj_state ::= fun f => <[1%nat := 0]> (<[0%nat := 0]> f) |>
    <| trace ::= fun t => t ++ [EvWakeup; EvWakeup] |>.

Lemma quiet_IOlinks_ok w L0 L1 fl ls :
  held w = [] -> link_wf w 0 L0 -> link_wf w 1 L1 -> conns_ok w fl ls ->
  wp (quiet_IOlinks P) (fun r w' => r = 0 /\ held w' = [] /\
    magic w' = magic w /\ m_state w' = m_state w /\ clean_table w' = clean_table w /\
    inj_state w' = inj_state (stopped w) /\
    link_wf w' 0 (flushed L0) /\ link_wf w' 1 (flushed L1) /\
    conns_ok w' (ls (LAct 1) ++ ls (LAct 0) ++ fl) (quiet_ls 1 (quiet_ls 0 ls)) /\
    exists e0 e1, told (ls (LAct 0)) e0 /\ told (ls (LAct 1)) e1 /\
      trace w' = trace w ++ [EvWakeup; EvWakeup] ++ cancellations w 0 L0 ++ e0 ++ cancellations w 1 L1 ++ e1) w.
Proof.
  intros Hh H0 H1 Hc. unfold quiet_IOlinks.
  do 4 apply wp_bind, wp_modify. match goal with |- wp _ _ ?x => set (w0 := x) end.
  assert (T0 : trace w0 = trace w ++ [EvWakeup; EvWakeup]) by (cbn; by rewrite <- app_assoc).
  apply wp_bind. eapply wp_mono; [apply (quiet_link_ok P 0 w0 L0 fl ls); [done| |done]|].
  { by eapply link_wf_ext, H0. }
  intros [] w1 (Hh1 & W0 & C1 & Q0 & e0 & t0 & T1).
  apply wp_bind. eapply wp_mono; [apply (quiet_link_ok P 1 w1 L1 (ls (LAct 0) ++ fl) (quiet_ls 0 ls) Hh1); [|exact C1]|].
  { eapply link_wf_ext, H1; [|by apply (qu_rdma _ _ _ Q0)|by rewrite Hh1].
    intros p Hp. apply (qu_pools _ _ _ Q0). by rewrite Hp. }
  intros [] w2 (Hh2 & W1 & C2 & Q1 & e1 & t1 & T2). apply wp_ret.
  assert (Ea : quiet_ls 0 ls (LAct 1) = ls (LAct 1)) by (unfold quiet_ls, moved; by rewrite !fn_lookup_insert_ne).
  rewrite Ea in *.
  assert (Ec : cancellations w1 1 L1 = cancellations w 1 L1).
  { apply cancellations_ext; [|by apply (qu_rdma _ _ _ Q0)]. intros p Hp. apply (qu_pools _ _ _ Q0). by rewrite Hp. }
  split_and!; [done|done|by rewrite (qu_magic _ _ _ Q1), (qu_magic _ _ _ Q0)
    |by rewrite (qu_state _ _ _ Q1), (qu_state _ _ _ Q0)|by rewrite (qu_table _ _ _ Q1), (qu_table _ _ _ Q0)
    |by rewrite (qu_inj _ _ _ Q1), (qu_inj _ _ _ Q0)| |done|done|].
  - eapply link_wf_ext, W0; [|by apply (qu_rdma _ _ _ Q1)|by rewrite Hh1].
    intros p Hp. apply (qu_pools _ _ _ Q1). by rewrite Hp.
  - exists e0, e1. split_and!; [done|done|]. rewrite T2, Ec, T1, T0, <- !app_assoc.
    by rewrite (cancellations_ext w w0).
Qed.

(** The node after termination: the posted work was reported as cancelled,
    the blocks are free, and every region was released, last first. *)
Definition taken_down (n : node) (L0 L1 : link_lists) (fl : list nat) (ls : clist -> list nat) (r : Z) (n' : node) : Prop :=
  r = 0 /\
  magic (drv n') = 0 /\ m_state (drv n') = MUDM_TERMINATING /\
  inj_state (drv n') 0%nat = 0 /\ inj_state (drv n') 1%nat = 0 /\
  conns_ok (drv n') (ls (LAct 1) ++ ls (LAct 0) ++ fl) (quiet_ls 1 (quiet_ls 0 ls)) /\
  (exists e0 e1, told (ls (LAct 0)) e0 /\ told (ls (LAct 1)) e1 /\
    trace (drv n') = trace (drv n) ++ [EvWakeup; EvWakeup] ++
      cancellations (drv n) 0 L0 ++ e0 ++ cancellations (drv n) 1 L1 ++ e1 ++
      map (fun e => EvFree (ce_region e)) (reverse (clean_table (drv n)))) /\
  forall e, e ∈ clean_table (drv n) -> given_back (mu n') (musm n) (ce_fn e).

Lemma mudm_terminate_ok n L0 L1 fl ls :
  magic (drv n) = MUDM_MAGIC -> held (drv n) = [] ->
  link_wf (drv n) 0 L0 -> link_wf (drv n) 1 L1 -> conns_ok (drv n) fl ls ->
  (forall l, musm_ok (musm n l)) ->
  wp (mudm_terminate P) (fun r n' => taken_down n L0 L1 fl ls r n' /\ held (drv n') = [] /\
    entries n' = entries n /\ forall l, musm_names (musm n' l) = musm_names (musm n l)) n.
Proof.
  intros Hm Hh H0 H1 Hc Hok. unfold mudm_terminate. apply wp_bind, wp_gets. rewrite Hm, Z.eqb_refl.
  cbn [negb]. apply wp_bind, wp_in_drv, wp_modify, wp_bind, wp_in_drv.
  eapply wp_mono; [apply (quiet_IOlinks_ok _ L0 L1 fl ls); [done| | |done]; by eapply link_wf_ext; [..|done]|].
  intros r w1 (-> & Hh1 & M1 & S1 & T1 & I1 & _ & _ & C1 & e0 & e1 & t0 & t1 & Tr1).
  set (n1 := _ <| drv := w1 |>). apply wp_bind. unfold process_cleanup_table. apply wp_bind, wp_gets, wp_bind.
  eapply wp_mono; [by apply cleanup_loop_ok|]. intros [] n2 [Tr2 (t & R2) F2 B2 N2 E2].
  apply wp_ret, wp_bind, wp_in_drv, wp_modify, wp_ret.
  assert (Een : entries n1 = entry_of <$> clean_table (drv n)) by (unfold entries; cbn; by rewrite T1).
  rewrite take_ge in Tr2, B2 by (unfold entries; by rewrite length_fmap).
  rewrite Een in Tr2, B2, E2. split; [|split_and!; [cbn; rewrite R2; exact Hh1|exact E2|exact N2]].
  cbn. rewrite R2. split_and!.
  - done.
  - done.
  - cbn. by rewrite S1.
  - cbn. by rewrite I1.
  - cbn. by rewrite I1.
  - exact C1.
  - exists e0, e1. split_and!; [done|done|]. cbn. rewrite Tr2. change (drv n1) with w1. rewrite Tr1. cbn.
    assert (E : map (fun k => EvFree (fst k)) (reverse (entry_of <$> clean_table (drv n)))
      = map (fun e => EvFree (ce_region e)) (reverse (clean_table (drv n)))).
    { rewrite <- fmap_reverse. change (entry_of <$> ?l) with (map entry_of l). by rewrite map_map. }
    rewrite E. rewrite <- !app_assoc. cbn [app]. by rewrite <- !app_assoc.
  - intros e He. apply (B2 (entry_of e)). apply list_elem_of_fmap. by exists e.
Qed.

(** C18: [mudm_terminate] stops both links, cancels every open request
    exactly once, tells the user of every active connection once and takes
    the blocks back, and then frees every region of the cleanup table once,
    the last one first, together with the FIFOs and base address table
    entries they belong to. *)
Theorem mudm_terminate_correct n L0 L1 fl ls :
  magic (drv n) = MUDM_MAGIC -> held (drv n) = [] ->
  link_wf (drv n) 0 L0 -> link_wf (drv n) 1 L1 -> conns_ok (drv n) fl ls ->
  (forall l, musm_ok (musm n l)) ->
  wp (mudm_terminate P) (fun r n' => r = 0 /\
    magic (drv n') = 0 /\ m_state (drv n') = MUDM_TERMINATING /\
    inj_state (drv n') 0%nat = 0 /\ inj_state (drv n') 1%nat = 0 /\
    conns_ok (drv n') (ls (LAct 1) ++ ls (LAct 0) ++ fl) (quiet_ls 1 (quiet_ls 0 ls)) /\
    (exists e0 e1, told (ls (LAct 0)) e0 /\ told (ls (LAct 1)) e1 /\
      trace (drv n') = trace (drv n) ++ [EvWakeup; EvWakeup] ++
        cancellations (drv n) 0 L0 ++ e0 ++ cancellations (drv n) 1 L1 ++ e1 ++
        map (fun e => EvFree (ce_region e)) (reverse (clean_table (drv n)))) /\
    forall e, e ∈ clean_table (drv n) -> given_back (mu n') (musm n) (ce_fn e)) n.
Proof.
  intros. eapply wp_mono; [by apply (mudm_terminate_ok n L0 L1 fl ls)|]. by intros r n' [H' _].
Qed.
End terminate.

(** ** Witness: the demo node with three posted packets goes down *)

Definition demo_region (i : Z) : mudm_memory_region := mkRegion 64 (0x100000 * i) (0x200000 * i).
Definition demo_table : list cleanup_entry :=
  [mkCe (demo_region 1) (Some FreeMem) 0; mkCe (demo_region 2) (Some (FreeMuSubgroupMem 0)) 0;
   mkCe (demo_region 3) (Some (FreeMuInjRegion 0)) 0; mkCe (demo_region 4) (Some (FreeRecFifo 0)) 0].
Definition demo_musm (l : nat) : MU_subgroup_memory :=
  mkMusm (mkSg (fun _ => zero_shadow) true (66 + l)) (mkSg (fun _ => zero_shadow) true (66 + l))
    (mkBat (66 + l mod 2) 255 true (fun _ => 0)) (seq 0 8) [] 0 0 (66 + l) 0 (demo_region 3) (demo_region 4).
Definition demo_node : node :=
  mkNode (demo_posted <| clean_table := demo_table |>)
    (mkChip (reset_mu <| mu_inj := fun _ => mkFr 0x100 0x100 0x100 511 |> <| mu_rec := fun _ => mkFr 0x240 0 0 0 |>
              <| mu_bat := fun _ => 0 |>) (fun _ => 0) (fun _ => 0)) demo_musm.
Definition demo_link0 : link_lists := mkLl [] [0; 1; 2]%nat [0; 1; 2]%nat [] [0; 1]%nat [].
Definition demo_link1 : link_lists := mkLl [0; 1; 2]%nat [] [0; 1; 2]%nat [] [0; 1]%nat [].

Lemma demo_musm_ok l : musm_ok (demo_musm l).
Proof.
  split; cbn; [lia|lia| |].
  - split; [|lia]. change (forall i, i ∈ seq 0 8 -> (i < 8)%nat). intros i Hi%elem_of_seq. lia.
  - pose proof (Nat.mod_upper_bound l 2). lia.
Qed.
Ltac demo_pool := split; [by apply (walk_sound 3)|by apply (walk_sound 3)|by apply (bool_decide_unpack _)|done].
Lemma demo_link0_wf : link_wf (drv demo_node) 0 demo_link0.
Proof. split; demo_pool. Qed.
Lemma demo_link1_wf : link_wf (drv demo_node) 1 demo_link1.
Proof. split; demo_pool. Qed.

Lemma mudm_terminate_correct_witness :
  wp (mudm_terminate demo_platform) (fun r n' => r = 0 /\ magic (drv n') = 0 /\
    (exists e0, told [0%nat] e0 /\
      trace (drv n') = [EvWakeup; EvWakeup; EvStatus [(77, 4294967171)]; EvStatus [(78, 4294967171)];
        EvStatus [(79, 4294967171)]] ++ e0 ++
        [EvFree (demo_region 4); EvFree (demo_region 3); EvFree (demo_region 2); EvFree (demo_region 1)]) /\
    fr_pa_start (mu_inj (mu n') (66, 0)%nat) = 0 /\ fr_pa_start (mu_rec (mu n') (66, 0)%nat) = 0 /\
    mu_bat (mu n') (66, 5)%nat = FREE_BAT) demo_node.
Proof.
  eapply wp_mono; [apply (mudm_terminate_correct demo_platform demo_node demo_link0 demo_link1 [1%nat] demo_lists)|].
  - done.
  - done.
  - apply demo_link0_wf.
  - apply demo_link1_wf.
  - apply lists_wf_chain, demo_conn_wf.
  - apply demo_musm_ok.
  - intros r n' (R & M & _ & _ & _ & _ & (e0 & e1 & t0 & t1 & T) & B). split_and!; [done|done| | | |].
    + exists e0. split; [done|]. apply Forall2_nil_inv_l in t1 as ->. exact T.
    + apply (B (mkCe (demo_region 3) (Some (FreeMuInjRegion 0)) 0)). by right; right; left.
    + apply (B (mkCe (demo_region 4) (Some (FreeRecFifo 0)) 0)). by right; right; right; left.
    + apply (B (mkCe (demo_region 2) (Some (FreeMuSubgroupMem 0)) 0)); [by right; left|].
      change (5%nat ∈ seq 0 8). apply elem_of_seq. lia.
Defined.
