(* ===== verification/Activate.v ===== *)
(** * Taking the FIFOs and table entries of a link

    bgmudm/mudm_init.c: [activate_injfifos], [activate_base_address_table]
    and [activate_recfifos].  Each I/O link has one subgroup of the message
    unit with one injection FIFO, one reception FIFO and all eight base
    addresses.  The driver sees the same FIFOs through [injfifo_ctls] and
    the reception subgroup: [adopt_injfifo] and [adopt_recfifo] bring the
    view of State.v up to date with the structures written here. *)

From S2P Require Import Prelude State Kernel Reset Cleanup.

(** The attribute [Priority] is not initialised; [garbage] is what the
    stack held. *)
Definition activate_injfifos (garbage : Z) (l : nat) : MN Z :=
  upd_musm l (fun m => m <| ififoid := 0%nat |>) ;;;
  m <- gets (fun n => musm n l) ;;
  r <- in_mu (Kernel_AllocateInjFifos (subgroupID m) (ififo_subgroup m) [(0%nat, mkIa 0 1 garbage)]) ;;
  upd_musm l (fun m => m <| ififo_subgroup := snd r |>) ;;;
  if negb (fst r =? 0) then ret (- EFAULT) else
  let region := injRegion m in
  r <- in_mu (Kernel_InjFifoInit (snd r) 0 (mr_base_vaddr region) (mr_base_paddr region) (mr_length region)
                0 (u64 (mr_length region - 1))) ;;
  upd_musm l (fun m => m <| ififo_subgroup := snd r |>) ;;;
  if negb (fst r =? 0) then ret (- EFAULT) else
  rc <- in_mu (Kernel_InjFifoActivate (snd r) [0%nat] true) ;;
  if negb (rc =? 0) then ret (- EFAULT) else
  in_chip (v <- DCRReadPriv (INT_STATUS (gid_of (subgroupid (snd r)))) ;;
           DCRWritePriv (INT_STATUS (gid_of (subgroupid (snd r)))) (Z.ldiff v (Z.lor (BN 0) (BN 1)))) ;;;
  ret 0.

(** The status of the allocation is not looked at. *)
Fixpoint set_bases (i : nat) (batval : list Z) (bat : bat_subgroup) : MU bat_subgroup :=
  match batval with
  | [] => ret bat
  | v :: batval => r <- MUSPI_SetBaseAddress bat i v ;; set_bases (S i) batval (snd r)
  end.
Definition activate_base_address_table (l : nat) : MN unit :=
  m <- gets (fun n => musm n l) ;;
  r <- in_mu (Kernel_AllocateBaseAddressTable (subgroupID m) (musm_bat m) (batids m) 1) ;;
  bat <- in_mu (set_bases 0 (batvalues m) (snd r)) ;;
  upd_musm l (fun m => m <| musm_bat := bat |>).

(** The status of the interrupt configuration and of the enabling is not
    looked at. *)
Definition activate_recfifos (l : nat) : MN Z :=
  upd_musm l (fun m => m <| rfifoids := 0%nat |>) ;;;
  m <- gets (fun n => musm n l) ;;
  r <- in_mu (Kernel_AllocateRecFifos (subgroupID m) (rfifo_subgroup m) [(0%nat, mkRa 1)]) ;;
  upd_musm l (fun m => m <| rfifo_subgroup := snd r |>) ;;;
  if negb (fst r =? 0) then ret (- EFAULT) else
  let region := recRegion m in
  r <- in_mu (Kernel_RecFifoInit (snd r) 0 (mr_base_vaddr region) (mr_base_paddr region)
                0 (u64 (mr_length region - 1))) ;;
  upd_musm l (fun m => m <| rfifo_subgroup := snd r |>) ;;;
  if negb (fst r =? 0) then ret (- EFAULT) else
  let recFifoEnableBits := rec_enable_bit m in
  upd_musm l (fun m => m <| clearInterrupts_mask := recFifoEnableBits |>) ;;;
  in_mu (Kernel_ConfigureRecFifoInterrupts (snd r) [(0%nat, mkRi 0 1)]) ;;;
  in_mu (Kernel_RecFifoEnable SYS_GROUPID recFifoEnableBits) ;;;
  ret 0.

(** [MUSPI_IdToInjFifo(0, ...)] is an address inside the subgroup; the
    counters of an allocated subgroup start at 0. *)
Definition injfifo_of (sh : fifo_shadow) (old : MUSPI_InjFifo) : MUSPI_InjFifo :=
  mkInj (sh_pa_start sh) (sh_va_start sh) (sh_va_end sh) (sh_va_tail sh) (sh_pa_start sh)
    0 (sh_freeSpace sh) 0 (if_ring old).
Definition recfifo_of (sh : fifo_shadow) : MUSPI_RecFifo :=
  mkRec (sh_pa_start sh) (sh_va_start sh) (sh_va_end sh) (sh_va_head sh) (sh_va_tail sh) (sh_pa_start sh).
Definition adopt_injfifo (l : nat) : MN unit :=
  sh <- gets (fun n => sg_fifos (ififo_subgroup (musm n l)) (ififoid (musm n l))) ;;
  in_drv (modify (fun w => w <| inj ::= fun f => <[l := injfifo_of sh (f l)]> f |>)).
Definition adopt_recfifo (l : nat) : MN unit :=
  sh <- gets (fun n => sg_fifos (rfifo_subgroup (musm n l)) (rfifoids (musm n l))) ;;
  in_drv (modify (fun w => w <| recf ::= <[l := recfifo_of sh]> |>)).

#[local] Arguments bits_of : simpl never.
#[local] Arguments inj_bit : simpl never.
#[local] Arguments Z.testbit : simpl never.
#[local] Arguments rec_enable_bit : simpl never.

(** ** What a subgroup has in the registers *)

(** Bit of the reception FIFO 0 of subgroup [s]. *)
Definition rec_pos (s : nat) : Z := 15 - Z.of_nat (sgid_of s * BGQ_MU_NUM_REC_FIFOS_PER_SUBGROUP).

Definition inj_view (s : nat) (m : mu_regs) : fifo_regs * bool * bool * bool :=
  (mu_inj m (s, 0%nat), Z.testbit (mu_isEnabled m (gid_of s)) (fifo_pos s 0),
   Z.testbit (mu_dcr m (IMFIFO_SYSTEM, gid_of s)) (fifo_pos s 0),
   Z.testbit (mu_dcr m (IMFIFO_RGET, gid_of s)) (fifo_pos s 0)).
Definition rec_view (s : nat) (m : mu_regs) : fifo_regs * bool * bool * bool :=
  (mu_rec m (s, 0%nat), Z.testbit (mu_dcr m (RMFIFO_EN, gid_of s)) (rec_pos s),
   Z.testbit (mu_dcr m (RMFIFO_SYSTEM, gid_of s)) (rec_pos s),
   Z.testbit (mu_dcr m (RMFIFO_PACKET_INT_EN, gid_of s)) (rec_pos s)).
Definition bat_view (s : nat) (m : mu_regs) : nat -> Z := fun i => mu_bat m (s, i).

(** Registers of the other parts. *)
Record same_rec (m m' : mu_regs) : Prop := mkSr {
  sr_regs : mu_rec m' = mu_rec m;
  sr_dcr : forall n g, n = RMFIFO_EN \/ n = RMFIFO_SYSTEM \/ n = RMFIFO_PACKET_INT_EN ->
    mu_dcr m' (n, g) = mu_dcr m (n, g) }.
Record same_inj (m m' : mu_regs) : Prop := mkSi {
  si_regs : mu_inj m' = mu_inj m;
  si_enabled : mu_isEnabled m' = mu_isEnabled m;
  si_dcr : forall n g, n = IMFIFO_SYSTEM \/ n = IMFIFO_RGET -> mu_dcr m' (n, g) = mu_dcr m (n, g) }.
Lemma same_rec_view s m m' : same_rec m m' -> rec_view s m' = rec_view s m.
Proof. intros [A B]. unfold rec_view. by rewrite A, !B by tauto. Qed.
Lemma same_inj_view s m m' : same_inj m m' -> inj_view s m' = inj_view s m.
Proof. intros [A B C]. unfold inj_view. by rewrite A, B, !C by tauto. Qed.

(** ** Alignment *)

Lemma land_align k va mask : 0 <= k -> mask = Z.ldiff (Z.ones 64) (Z.ones k) -> 0 <= va < 2 ^ 64 ->
  va mod 2 ^ k = 0 -> Z.land va mask = va.
Proof.
  intros Hk -> Hva Hm. apply Z.bits_inj'. intros n Hn. rewrite Z.land_spec, Z.ldiff_spec, !Z.testbit_ones_nonneg by lia.
  destruct (Z.ltb_spec n k) as [H|H].
  - rewrite andb_false_r, andb_false_r. symmetry. apply Z.mod_divide in Hm as [q ->]; [|apply Z.pow_nonzero; lia].
    by apply Z.mul_pow2_bits_low.
  - rewrite andb_true_r. destruct (Z.ltb_spec n 64); [by rewrite andb_true_r|]. rewrite andb_false_r. symmetry.
    destruct (decide (va = 0)) as [->|Hv]; [apply Z.bits_0|]. apply Z.bits_above_log2; [lia|].
    apply Z.lt_le_trans with 64; [|done]. apply Z.log2_lt_pow2; lia.
Qed.

(** Memory that can hold a FIFO: aligned, a multiple of [2^k] bytes and at
    least [low] of them, not at the end of the address space. *)
Record fifo_memory (k low : Z) (r : mudm_memory_region) : Prop := mkFm {
  fm_va : 0 <= mr_base_vaddr r /\ mr_base_vaddr r mod 2 ^ k = 0 /\ mr_base_vaddr r + mr_length r < 2 ^ 64;
  fm_pa : 0 <= mr_base_paddr r < 2 ^ 64;
  fm_length : low <= mr_length r /\ mr_length r mod 2 ^ k = 0 }.

Section memory.
Context (k low : Z) (r : mudm_memory_region) (Hr : fifo_memory k low r) (Hk : 0 <= k <= 6) (Hlow : 0 < low).
Lemma fm_start : u64 (mr_base_vaddr r + 0) = mr_base_vaddr r.
Proof. destruct Hr as [(A & _ & B) _ [C _]]. rewrite Z.add_0_r. apply Z.mod_small. lia. Qed.
Lemma fm_pstart : u64 (mr_base_paddr r + 0) = mr_base_paddr r.
Proof. destruct Hr as [_ A _]. rewrite Z.add_0_r. by apply Z.mod_small. Qed.
Lemma fm_size : u64 (mr_length r - 1) = mr_length r - 1.
Proof. destruct Hr as [(A & _ & B) _ [C _]]. apply Z.mod_small. lia. Qed.
Lemma fm_size1 : u64 (mr_length r - 1 + 1) = mr_length r.
Proof. destruct Hr as [(A & _ & B) _ [C _]]. rewrite Z.sub_add. apply Z.mod_small. lia. Qed.
Lemma fm_end : u64 (mr_base_vaddr r + (mr_length r - 1) + 1) = mr_base_vaddr r + mr_length r.
Proof. destruct Hr as [(A & _ & B) _ [C _]]. unfold u64. rewrite Z.mod_small; lia. Qed.
Lemma fm_end' : u64 (mr_base_vaddr r + mr_length r) = mr_base_vaddr r + mr_length r.
Proof. destruct Hr as [(A & _ & B) _ [C _]]. unfold u64. rewrite Z.mod_small; lia. Qed.
Lemma fm_mask : Z.land (mr_length r) (Z.ones k) = 0.
Proof. destruct Hr as [_ _ [_ A]]. by rewrite Z.land_ones by lia. Qed.
End memory.

(** ** Injection *)

(** The FIFO of a link is set up on its memory. *)
Record inj_active (m : MU_subgroup_memory) (r : mu_regs) : Prop := mkIac {
  iac_view : inj_view (subgroupID m) r =
    (mkFr (mr_base_paddr (injRegion m)) (mr_base_paddr (injRegion m)) (mr_base_paddr (injRegion m))
       (mr_length (injRegion m) - 1), true, true, false);
  iac_group : subgroupid (ififo_subgroup m) = subgroupID m;
  iac_id : ififoid m = 0%nat;
  iac_shadow : sg_fifos (ififo_subgroup m) 0%nat =
    mkSh (mr_base_paddr (injRegion m)) (mr_base_vaddr (injRegion m)) (mr_length (injRegion m) - 1)
      (mr_base_vaddr (injRegion m)) (mr_base_vaddr (injRegion m)) (mr_base_vaddr (injRegion m) + mr_length (injRegion m))
      (Some (subgroupID m, 0%nat, true)) (mu_freeSpace r (subgroupID m, 0%nat)) }.

Lemma same_group_ne s s' : gid_of s = gid_of s' -> s' <> s -> sgid_of s' <> sgid_of s.
Proof. intros Hg Hs E. apply Hs. by rewrite <- (subgroup_split s), <- (subgroup_split s'), Hg, E. Qed.

Lemma mask_one {A} bit (p : A -> bool) i a : mask_of bit p [(i, a)] = if p a then bit i else 0.
Proof. unfold mask_of. cbn. by destruct (p a). Qed.

(** A subgroup other than [s] does not see the bit of its first FIFO. *)
Lemma inj_bit_off s s' : gid_of s = gid_of s' -> s' <> s ->
  Z.testbit (inj_bit (sgid_of s) 0) (fifo_pos s' 0) = false.
Proof.
  intros Hg Hs. pose proof (same_group_ne s s' Hg Hs). rewrite inj_bit_testbit by (apply sgid_lt || lia).
  apply Z.eqb_neq. unfold fifo_pos. lia.
Qed.
Lemma inj_bit_on s : Z.testbit (inj_bit (sgid_of s) 0) (fifo_pos s 0) = true.
Proof. rewrite inj_bit_testbit by (apply sgid_lt || lia). apply Z.eqb_refl. Qed.

(** What one step may do to the registers of the injection FIFOs. *)
Record inj_step (s : nat) (m m' : mu_regs) : Prop := mkIs {
  is_others : forall s', s' <> s -> inj_view s' m' = inj_view s' m;
  is_rec : same_rec m m';
  is_bat : mu_bat m' = mu_bat m;
  is_free : mu_freeSpace m' = mu_freeSpace m;
  is_modes : forall n, n = RPUTBASE_SYSTEM0 \/ n = RPUTBASE_SYSTEM1 -> mu_dcr m' (n, 0%nat) = mu_dcr m (n, 0%nat) }.
Lemma inj_step_trans s m m1 m2 : inj_step s m m1 -> inj_step s m1 m2 -> inj_step s m m2.
Proof.
  intros [A [B1 B2] C D E] [A' [B1' B2'] C' D' E']. split; intros; [by rewrite A', A| |congruence|congruence|by rewrite E', E].
  split; intros; [congruence|by rewrite B2', B2].
Qed.

Lemma alloc_step s garbage m : inj_step s m (inj_allocated s [(0%nat, mkIa 0 1 garbage)] m).
Proof.
  unfold inj_allocated, with_inj, set_dcr, set_priority. rewrite !mask_one. cbn.
  split; cbn; [|split; cbn; [done|]|done|done|].
  - intros s' Hs'. unfold inj_view. cbn. unfold set_starts at 1. rewrite decide_False by (cbn; naive_solver).
    destruct (decide (gid_of s = gid_of s')) as [E|E]; at_keys; [|done]. rewrite <- E. at_keys.
    by rewrite Z.ldiff_0_r, !Z.lor_spec, Z.ldiff_spec, Z.bits_0, inj_bit_off, !orb_false_r, andb_true_r.
  - intros n g [->|[->| ->]]; by at_keys.
  - intros n [->| ->]; by at_keys.
Qed.
Lemma alloc_view s garbage m : let m' := inj_allocated s [(0%nat, mkIa 0 1 garbage)] m in
  mu_isEnabled m' = mu_isEnabled m /\
  Z.testbit (mu_dcr m' (IMFIFO_SYSTEM, gid_of s)) (fifo_pos s 0) = true /\
  Z.testbit (mu_dcr m' (IMFIFO_RGET, gid_of s)) (fifo_pos s 0) = false.
Proof.
  unfold inj_allocated, with_inj, set_dcr, set_priority. rewrite !mask_one. cbn. at_keys.
  rewrite Z.ldiff_0_r, !Z.lor_spec, Z.ldiff_spec, Z.bits_0, inj_bit_on. by rewrite andb_false_r, orb_true_r.
Qed.

Lemma init_step s r m : inj_step s m (m <| mu_inj ::= fun f => <[(s, 0%nat) := r]> f |>).
Proof.
  split; cbn; [|by split|done..]. intros s' Hs'. unfold inj_view. cbn. by rewrite fn_lookup_insert_ne by congruence.
Qed.
Lemma enable_step s m (bits := bits_of (inj_bit (sgid_of s)) [0%nat]) :
  inj_step s m (m <| mu_isEnabled ::= fun f => <[gid_of s := Z.lor (f (gid_of s)) bits]> f |>).
Proof.
  unfold bits. rewrite (mask_one _ _ 0%nat tt : bits_of _ [0%nat] = _). split; cbn; [|by split|done..].
  intros s' Hs'. unfold inj_view. cbn. destruct (decide (gid_of s = gid_of s')) as [E|E]; at_keys; [|done].
  rewrite <- E. at_keys. by rewrite Z.lor_spec, inj_bit_off, orb_false_r.
Qed.

Definition inj_shadow (s : nat) (r : mudm_memory_region) (free : Z) : fifo_shadow :=
  mkSh (mr_base_paddr r) (mr_base_vaddr r) (mr_length r - 1) (mr_base_vaddr r) (mr_base_vaddr r)
    (mr_base_vaddr r + mr_length r) (Some (s, 0%nat, true)) free.
Definition fifo_reset (r : mudm_memory_region) : fifo_regs :=
  mkFr (mr_base_paddr r) (mr_base_paddr r) (mr_base_paddr r) (mr_length r - 1).

Lemma wp_InjFifoInit s sg r (Q : Z * fifo_subgroup -> mu_regs -> Prop) m :
  fifo_memory 6 BGQ_MU_MIN_INJFIFO_SIZE_IN_BYTES r ->
  sh_hwfifo (sg_fifos sg 0%nat) = Some (s, 0%nat, true) ->
  Q (0, sg <| sg_fifos ::= <[0%nat := inj_shadow s r (mu_freeSpace m (s, 0%nat))]> |>)
    (m <| mu_inj ::= fun f => <[(s, 0%nat) := fifo_reset r]> f |>) ->
  wp (Kernel_InjFifoInit sg 0 (mr_base_vaddr r) (mr_base_paddr r) (mr_length r) 0 (u64 (mr_length r - 1))) Q m.
Proof.
  intros Hmem Hhw HQ. unfold Kernel_InjFifoInit, MUSPI_assert. cbn [Nat.ltb Nat.leb].
  rewrite (fm_start _ _ _ Hmem), (fm_pstart _ _ _ Hmem), (fm_size _ _ _ Hmem), (fm_size1 _ _ _ Hmem) by done.
  pose proof Hmem as [(Hva0 & Hva & Hva2) Hpa [Hlen Hal]].
  assert (Hp : 0 < mr_length r) by (unfold BGQ_MU_MIN_INJFIFO_SIZE_IN_BYTES in Hlen; lia).
  rewrite (land_align 6) by (done || lia). rewrite Z.eqb_refl, (proj2 (Z.geb_le _ _) Hlen).
  change 63 with (Z.ones 6). rewrite (fm_mask _ _ _ Hmem) by lia. cbn [Z.eqb].
  rewrite (fm_end' _ _ _ Hmem) by done. rewrite (proj2 (Z.ltb_lt _ _)) by lia.
  do 5 (apply wp_bind, wp_ret). apply wp_bind. eapply wp_deref; [exact Hhw|].
  cbn [fst]. apply wp_bind, wp_modify, wp_bind, wp_gets, wp_ret.
  rewrite (fm_end _ _ _ Hmem) by done. exact HQ.
Qed.

Lemma wp_InjFifoActivate_on s sg (Q : Z -> mu_regs -> Prop) m : subgroupid sg = s ->
  Q 0 (m <| mu_isEnabled ::= fun f => <[gid_of s := Z.lor (f (gid_of s)) (bits_of (inj_bit (sgid_of s)) [0%nat])]> f |>) ->
  wp (Kernel_InjFifoActivate sg [0%nat] true) Q m.
Proof. intros <- HQ. apply wp_bind, wp_bind, wp_ret, wp_ret, wp_bind, wp_modify, wp_ret, HQ. Qed.

Lemma wp_activate_injfifos garbage l n (Q : Z -> node -> Prop) (s := subgroupID (musm n l)) :
  (s < 68)%nat -> fr_pa_start (mu_inj (mu n) (s, 0%nat)) = 0 ->
  fifo_memory 6 BGQ_MU_MIN_INJFIFO_SIZE_IN_BYTES (injRegion (musm n l)) ->
  (forall n' sg, musm n' = <[l := (musm n l) <| ififoid := 0%nat |> <| ififo_subgroup := sg |>]> (musm n) ->
     inj_active (musm n' l) (mu n') -> inj_step s (mu n) (mu n') -> drv n' = drv n ->
     c_desc_counter (n_chip n') = c_desc_counter (n_chip n) ->
     (forall r, r <> INT_STATUS (gid_of s) -> c_reg (n_chip n') r = c_reg (n_chip n) r) -> Q 0 n') ->
  wp (activate_injfifos garbage l) Q n.
Proof.
  intros Hs Hfree Hmem HQ. unfold activate_injfifos. apply wp_bind, wp_modify, wp_bind, wp_gets, wp_bind, wp_in_mu.
  cbn. rewrite fn_lookup_insert. cbn. fold s. set (reqs := [(0%nat, mkIa 0 1 garbage)]).
  eapply wp_intro.
  { apply alloc_inj_ok; [done|apply NoDup_singleton|].
    intros i Hi. cbn in Hi. apply list_elem_of_singleton in Hi as ->. split; [lia|done]. }
  apply wp_bind, wp_modify. cbn [fst negb Z.eqb]. set (sg0 := marked _ _ _).
  assert (Hsg : subgroupid sg0 = s) by apply marked_id.
  apply wp_bind, wp_in_mu. cbn [snd]. apply (wp_InjFifoInit s); [done|by apply (marked_at _ _ _ _ (mkIa 0 1 garbage)); [apply NoDup_singleton|left]|].
  apply wp_bind, wp_modify. cbn [fst snd negb Z.eqb]. apply wp_bind, wp_in_mu, (wp_InjFifoActivate_on s); [exact Hsg|].
  cbn [negb Z.eqb]. apply wp_bind, wp_in_chip, wp_bind, wp_gets, wp_modify, wp_ret.
  set (sg1 := sg0 <| sg_fifos ::= _ |>).
  assert (Em : forall f, <[l := (<[l := (<[l := (f l) <| ififoid := 0%nat |>]> f l) <| ififo_subgroup := sg0 |>]>
      (<[l := (f l) <| ififoid := 0%nat |>]> f) l) <| ififo_subgroup := sg1 |>]>
      (<[l := (<[l := (f l) <| ififoid := 0%nat |>]> f l) <| ififo_subgroup := sg0 |>]>
        (<[l := (f l) <| ififoid := 0%nat |>]> f))
    = <[l := (f l) <| ififoid := 0%nat |> <| ififo_subgroup := sg1 |>]> f).
  { intros f. rewrite !fn_insert_insert, !fn_lookup_insert. done. }
  apply (HQ _ sg1); [exact (Em (musm n))| | |done|done|].
  - cbn. rewrite Em, fn_lookup_insert. destruct (alloc_view s garbage (mu n)) as (E1 & E2 & E3). split; cbn.
    + unfold inj_view. f_equal; [f_equal; [f_equal|]|]; [| |exact E2|exact E3]; cbn; rewrite fn_lookup_insert; [done|].
      by rewrite (mask_one _ _ 0%nat tt : bits_of _ [0%nat] = _), Z.lor_spec, inj_bit_on, orb_true_r.
    + exact Hsg.
    + done.
    + by rewrite fn_lookup_insert.
  - eapply inj_step_trans; [apply (alloc_step s garbage)|]. eapply inj_step_trans; [apply init_step|apply enable_step].
  - intros r Hr. assert (Hsg1 : subgroupid sg1 = s) by exact Hsg. cbn [snd]. rewrite Hsg1. cbn. by rewrite fn_lookup_insert_ne.
Qed.

(** A FIFO that is taken: nothing changes, and the error is reported. *)
Lemma wp_activate_injfifos_taken garbage l n (Q : Z -> node -> Prop) (s := subgroupID (musm n l)) :
  (s < 68)%nat -> fr_pa_start (mu_inj (mu n) (s, 0%nat)) <> 0 ->
  (forall n', mu n' = mu n -> drv n' = drv n -> Q (- EFAULT) n') -> wp (activate_injfifos garbage l) Q n.
Proof.
  intros Hs Htaken HQ. unfold activate_injfifos. apply wp_bind, wp_modify, wp_bind, wp_gets, wp_bind, wp_in_mu.
  cbn. rewrite fn_lookup_insert. cbn. fold s. destruct (alloc_inj_eq s (ififo_subgroup (musm n l)) [(0%nat, mkIa 0 1 garbage)] (mu n))
    as (free & Hfree & E); [done|split; [cbn; lia|]; intros i Hi; cbn in Hi; apply list_elem_of_singleton in Hi as ->; lia|].
  cbn [map fst] in E. rewrite (bool_decide_eq_false_2 (Forall _ _)) in E.
  2: { intros H. apply list.Forall_cons in H as [H _]. by apply Hfree in H as [_ ?]. }
  rewrite orb_true_r in E. eapply wp_intro; [exact E|]. apply wp_bind, wp_modify, wp_ret. by apply HQ.
Qed.

(** ** Base addresses *)

(** What may change when the table of a subgroup is written. *)
Record bat_step (s : nat) (m m' : mu_regs) : Prop := mkBs {
  bs_others : forall k, fst k <> s -> mu_bat m' k = mu_bat m k;
  bs_inj : same_inj m m';
  bs_rec : same_rec m m';
  bs_free : mu_freeSpace m' = mu_freeSpace m }.
Lemma bat_step_trans s m m1 m2 : bat_step s m m1 -> bat_step s m1 m2 -> bat_step s m m2.
Proof.
  intros [A [B1 B2 B3] [C1 C2] D] [A' [B1' B2' B3'] [C1' C2'] D'].
  split; [intros; by rewrite A', A|split|split|congruence]; intros; rewrite ?B3', ?C2' by done; auto; congruence.
Qed.
Lemma bat_write_step s i v m : bat_step s m (m <| mu_bat ::= <[(s, i) := v]> |>).
Proof. split; [|by split..|done]. intros k Hk. cbn. by rewrite fn_off. Qed.

(** May the entry be written? *)
Definition permitted (bat : bat_subgroup) (i : nat) : Prop := Z.land (bat_permissions bat) (bat_bit i) <> 0.

Record bat_active (m : MU_subgroup_memory) (r : mu_regs) : Prop := mkBac {
  bac_entries : forall i v, batvalues m !! i = Some v -> mu_bat r (subgroupID m, i) = v;
  bac_group : bat_subgrpid (musm_bat m) = subgroupID m;
  bac_permitted : forall i, (i < NUM_DATA_COUNTERS_PER_SUBGROUP)%nat -> permitted (musm_bat m) i }.

Lemma wp_set_bases i vals bat m (Q : bat_subgroup -> mu_regs -> Prop) :
  (i + length vals <= NUM_DATA_COUNTERS_PER_SUBGROUP)%nat ->
  (forall j, (j < NUM_DATA_COUNTERS_PER_SUBGROUP)%nat -> permitted bat j) ->
  (forall bat' m', bat_subgrpid bat' = bat_subgrpid bat -> bat_permissions bat' = bat_permissions bat ->
     bat_step (bat_subgrpid bat) m m' ->
     (forall j v, vals !! j = Some v -> mu_bat m' (bat_subgrpid bat, (i + j)%nat) = v) ->
     (forall j, (j < i)%nat -> mu_bat m' (bat_subgrpid bat, j) = mu_bat m (bat_subgrpid bat, j)) -> Q bat' m') ->
  wp (set_bases i vals bat) Q m.
Proof.
  revert i bat m. induction vals as [|v vals IH]; intros i bat m Hlen Hp HQ.
  - apply wp_ret, HQ; try done.
  - cbn [set_bases length] in *. apply wp_bind. unfold MUSPI_SetBaseAddress, MUSPI_assert.
    rewrite (proj2 (Nat.ltb_lt _ _)) by lia. apply wp_bind, wp_ret, wp_bind.
    rewrite (proj2 (Z.eqb_neq _ _)) by (apply Hp; lia). apply wp_ret, wp_bind, wp_modify, wp_ret. cbn [snd].
    apply IH; [lia|done|]. cbn. intros bat' m' Eg Ep St En Lo. apply HQ; [done|done| | |].
    + eapply bat_step_trans; [apply bat_write_step|exact St].
    + intros [|j] w Hw; cbn in Hw.
      * injection Hw as ->. rewrite Nat.add_0_r, Lo by lia. cbn. by rewrite fn_lookup_insert.
      * replace (i + S j)%nat with (S i + j)%nat by lia. by apply En.
    + intros j Hj. rewrite Lo by lia. cbn. rewrite fn_lookup_insert_ne; [done|]. intros [= E]. lia.
Qed.

Lemma wp_mark_bat s ids bat m (Q : bat_subgroup -> mu_regs -> Prop) :
  (forall bat' m', bat_subgrpid bat' = bat_subgrpid bat -> bat_step s m m' ->
     bat_permissions bat' = foldl (fun p i => Z.lor p (bat_bit i)) (bat_permissions bat) ids -> Q bat' m') ->
  wp (mark_bat s ids bat) Q m.
Proof.
  revert bat m. induction ids as [|i ids IH]; intros bat m HQ; cbn [mark_bat].
  - by apply wp_ret, HQ.
  - apply wp_bind, wp_modify, IH. cbn. intros bat' m' Eg St Ep. apply HQ; [done| |done].
    eapply bat_step_trans; [apply bat_write_step|exact St].
Qed.

Lemma all_permitted i : (i < NUM_DATA_COUNTERS_PER_SUBGROUP)%nat ->
  Z.land (foldl (fun p i => Z.lor p (bat_bit i)) 0 (seq 0 NUM_DATA_COUNTERS_PER_SUBGROUP)) (bat_bit i) <> 0.
Proof. intros Hi. unfold NUM_DATA_COUNTERS_PER_SUBGROUP in *. do 8 (destruct i as [|i]; [by vm_compute|]). lia. Qed.

(** The entries end up with the values of the driver whether the table was
    free or, after a reset that left it alone, still allocated. *)
Lemma wp_activate_base_address_table l n (Q : unit -> node -> Prop) (m := musm n l) (s := subgroupID m) :
  (s < 68)%nat -> batids m = seq 0 NUM_DATA_COUNTERS_PER_SUBGROUP ->
  length (batvalues m) = NUM_DATA_COUNTERS_PER_SUBGROUP ->
  (forall i, (i < NUM_DATA_COUNTERS_PER_SUBGROUP)%nat -> mu_bat (mu n) (s, i) = FREE_BAT) \/
    bat_subgrpid (musm_bat m) = s /\ (forall i, (i < NUM_DATA_COUNTERS_PER_SUBGROUP)%nat -> permitted (musm_bat m) i) ->
  (forall n' bat, musm n' = <[l := m <| musm_bat := bat |>]> (musm n) ->
     bat_active (musm n' l) (mu n') -> bat_step s (mu n) (mu n') -> drv n' = drv n ->
     c_desc_counter (n_chip n') = c_desc_counter (n_chip n) ->
     (forall r, c_reg (n_chip n') r = c_reg (n_chip n) r) -> Q tt n') ->
  wp (activate_base_address_table l) Q n.
Proof.
  intros Hs Hids Hlen Hcase HQ. unfold activate_base_address_table. apply wp_bind, wp_gets. fold m s.
  (* The two ways the allocation may go. *)
  apply wp_bind, wp_in_mu.
  assert (Hfinish : forall bat r, bat_step s (mu n) r -> bat_subgrpid bat = s ->
    (forall i, (i < NUM_DATA_COUNTERS_PER_SUBGROUP)%nat -> permitted bat i) ->
    wp (bat <- in_mu (set_bases 0 (batvalues m) bat) ;; upd_musm l (fun m => m <| musm_bat := bat |>)) Q
      (n <| n_chip ::= fun c => c <| c_mu := r |> |>)).
  { intros bat r St Eg Ep. apply wp_bind, wp_in_mu, wp_set_bases; [rewrite Hlen; lia|done|].
    intros bat' m' Eg' Ep' St' En _. apply wp_modify. apply (HQ _ bat'); [done| | |done..].
    - cbn. rewrite fn_lookup_insert. split; cbn; [|by rewrite Eg', Eg|unfold permitted in *; by rewrite Ep'].
      intros i v Hi. specialize (En i v Hi). by rewrite Eg in En.
    - eapply bat_step_trans; [exact St|]. by rewrite <- Eg. }
  unfold Kernel_AllocateBaseAddressTable, MUSPI_assert, Kernel_QueryBaseAddressTable, MUSPI_assert. rewrite Hids.
  rewrite (proj2 (Nat.ltb_lt _ _)) by done. apply wp_bind, wp_ret, wp_bind, wp_ret, wp_bind, wp_ret, wp_bind, wp_ret.
  apply wp_bind, wp_bind, wp_ret, wp_gets. set (free := filter _ _).
  destruct (decide (Forall (fun i => mu_bat (mu n) (s, i) = FREE_BAT) (seq 0 NUM_DATA_COUNTERS_PER_SUBGROUP))) as [Hall|Hnot].
  - assert (Hf : free = seq 0 NUM_DATA_COUNTERS_PER_SUBGROUP) by (by apply filter_all).
    rewrite Hf. cbn [length seq Nat.ltb Nat.leb NUM_DATA_COUNTERS_PER_SUBGROUP]. apply wp_bind, wp_ret. cbn [negb Z.eqb Pos.eqb].
    apply wp_bind. eapply wp_intro.
    { apply (all_free_ok (limit := NUM_DATA_COUNTERS_PER_SUBGROUP) (free := seq 0 8) (ids := seq 0 8)).
      intros i [_ Hi]%list_elem_of_In%in_seq. unfold NUM_DATA_COUNTERS_PER_SUBGROUP. lia. }
    rewrite bool_decide_eq_true_2 by (by apply list.Forall_forall). cbn [negb].
    destruct (bat_mode s) as [nm bit] eqn:Em. apply wp_bind, wp_gets, wp_bind, wp_modify, wp_bind, wp_mark_bat.
    intros bat' r Eg St Ep. apply wp_ret. cbn [snd]. apply Hfinish; [|done|].
    + eapply bat_step_trans; [|exact St]. assert (Hnm : nm = RPUTBASE_SYSTEM0 \/ nm = RPUTBASE_SYSTEM1).
      { unfold bat_mode in Em. destruct (_ <? _)%nat; injection Em as <- _; tauto. }
      split; [done|split|split|done]; try done.
      * cbn. intros x g' [->| ->]; destruct Hnm as [->| ->]; by at_keys.
      * cbn. intros x g' [->|[->| ->]]; destruct Hnm as [->| ->]; by at_keys.
    + intros i Hi. unfold permitted. rewrite Ep. cbn [bat_permissions]. by apply all_permitted.
  - assert (Hlt : (length free < 8)%nat).
    { apply not_Forall_Exists, list.Exists_exists in Hnot as (i & Hi & Hni); [|solve_decision].
      change (length free < length (seq 0 NUM_DATA_COUNTERS_PER_SUBGROUP))%nat. by apply (length_filter_lt _ _ i). }
    rewrite (proj2 (Nat.ltb_lt _ _)) by done. apply wp_ret. cbn [snd].
    destruct Hcase as [H|[H1 H2]]; [|by apply Hfinish].
    destruct Hnot. apply list.Forall_forall. intros i [_ Hi]%list_elem_of_In%in_seq. by apply H.
Qed.

(** ** Reception *)

Definition rec_shadow (s : nat) (r : mudm_memory_region) (old : fifo_shadow) : fifo_shadow :=
  mkSh (mr_base_paddr r) (mr_base_vaddr r) (mr_length r - 1) (mr_base_vaddr r) (mr_base_vaddr r)
    (mr_base_vaddr r + mr_length r) (Some (s, 0%nat, true)) (sh_freeSpace old).

Record rec_active (m : MU_subgroup_memory) (r : mu_regs) : Prop := mkRac {
  rac_view : rec_view (subgroupID m) r = (fifo_reset (recRegion m), true, true, true);
  rac_group : subgroupid (rfifo_subgroup m) = subgroupID m;
  rac_id : rfifoids m = 0%nat;
  rac_shadow : exists old, sg_fifos (rfifo_subgroup m) 0%nat = rec_shadow (subgroupID m) (recRegion m) old;
  rac_mask : clearInterrupts_mask m = rec_enable_bit m }.

(** What one step may do to the registers of the reception FIFOs. *)
Record rec_step (s : nat) (m m' : mu_regs) : Prop := mkRst {
  rst_others : forall s', s' <> s -> rec_view s' m' = rec_view s' m;
  rst_inj : same_inj m m';
  rst_bat : mu_bat m' = mu_bat m;
  rst_free : mu_freeSpace m' = mu_freeSpace m }.
Lemma rec_step_trans s m m1 m2 : rec_step s m m1 -> rec_step s m1 m2 -> rec_step s m m2.
Proof.
  intros [A [B1 B2 B3] C D] [A' [B1' B2' B3'] C' D'].
  split; [intros; by rewrite A', A|split|congruence..]; intros; rewrite ?B3' by done; auto; congruence.
Qed.
#[export] Instance rec_step_refl s : Reflexive (rec_step s).
Proof. intros m. by split. Qed.

Lemma rec_bit_testbit sgid n : Z.testbit (rec_dcr_bit sgid 0) n = (n =? 15 - Z.of_nat (sgid * 4)) \/ (4 <= sgid)%nat.
Proof.
  destruct (decide (4 <= sgid)%nat) as [|H]; [by right|left]. unfold rec_dcr_bit, BN, BGQ_MU_NUM_REC_FIFOS_PER_SUBGROUP.
  rewrite Z.shiftl_1_l, Z.pow2_bits_eqb by lia. rewrite Z.eqb_sym. f_equal. lia.
Qed.
Lemma rec_bit_on s : Z.testbit (rec_dcr_bit (sgid_of s) 0) (rec_pos s) = true.
Proof.
  destruct (rec_bit_testbit (sgid_of s) (rec_pos s)) as [->|H]; [apply Z.eqb_refl|]. pose proof (sgid_lt s). lia.
Qed.
Lemma rec_bit_off s s' : gid_of s = gid_of s' -> s' <> s -> Z.testbit (rec_dcr_bit (sgid_of s) 0) (rec_pos s') = false.
Proof.
  intros Hg Hs. pose proof (same_group_ne s s' Hg Hs).
  destruct (rec_bit_testbit (sgid_of s) (rec_pos s')) as [->|H']; [|pose proof (sgid_lt s); lia].
  apply Z.eqb_neq. unfold rec_pos, BGQ_MU_NUM_REC_FIFOS_PER_SUBGROUP. lia.
Qed.
Lemma rec_enable_bit_eq m : rfifoids m = 0%nat -> rec_enable_bit m = rec_dcr_bit (sgid_of (subgroupID m)) 0.
Proof.
  intros E. unfold rec_enable_bit, rec_dcr_bit, BN, BGQ_MU_NUM_REC_FIFOS_PER_SUBGROUP. rewrite E. f_equal. lia.
Qed.

(** A register of the group changed by one bit of the subgroup. *)
Lemma rec_dcr_step s n (F : Z -> Z) m :
  n = RMFIFO_EN \/ n = RMFIFO_SYSTEM \/ n = RMFIFO_PACKET_INT_EN \/ n = RMFIFO_THOLD_INT_EN ->
  (forall s' v, gid_of s = gid_of s' -> s' <> s -> Z.testbit (F v) (rec_pos s') = Z.testbit v (rec_pos s')) ->
  rec_step s m (set_dcr n (gid_of s) (F (mu_dcr m (n, gid_of s))) m).
Proof.
  intros Hn HF. split; [|split|done..]; try done.
  - intros s' Hs'. unfold rec_view. cbn. destruct (decide (gid_of s = gid_of s')) as [E|E]; [|by at_keys].
    rewrite <- E. destruct Hn as [->|[->|[->| ->]]]; at_keys; by rewrite ?HF.
  - intros x g [->| ->]; cbn; destruct Hn as [->|[->|[->| ->]]]; by at_keys.
Qed.

Lemma update_dcr_eq n g enable disable m :
  update_dcr n g enable disable m = Ok tt (set_dcr n g (Z.ldiff (Z.lor (mu_dcr m (n, g)) enable) disable) m).
Proof.
  unfold update_dcr. apply (run_dcr _ _ _ (fun v => Z.ldiff (Z.lor v enable) disable)).
  intros H%negb_false_iff%Z.eqb_eq%Z.lor_eq_0_iff. destruct H as [-> ->]. by rewrite Z.ldiff_0_r, Z.lor_0_r.
Qed.

Lemma wp_AllocateRecFifos s sg (Q : Z * fifo_subgroup -> mu_regs -> Prop) m :
  (s < 68)%nat -> fr_pa_start (mu_rec m (s, 0%nat)) = 0 ->
  (forall sg' m', subgroupid sg' = s -> sh_hwfifo (sg_fifos sg' 0%nat) = Some (s, 0%nat, true) ->
     rec_step s m m' -> Z.testbit (mu_dcr m' (RMFIFO_SYSTEM, gid_of s)) (rec_pos s) = true -> Q (0, sg') m') ->
  wp (Kernel_AllocateRecFifos s sg [(0%nat, mkRa 1)]) Q m.
Proof.
  intros Hs Hfree HQ. unfold Kernel_AllocateRecFifos, MUSPI_assert. rewrite (proj2 (Nat.ltb_lt _ _)) by done.
  apply wp_bind, wp_ret, wp_bind, wp_ret, wp_bind, wp_gets. set (free := filter _ _).
  assert (Hin : 0%nat ∈ free).
  { apply list_elem_of_filter. split; [done|]. apply list_elem_of_In, in_seq. unfold BGQ_MU_NUM_REC_FIFOS_PER_SUBGROUP. lia. }
  assert (Hlen : (length free <? length [(0%nat, mkRa 1)])%nat = false).
  { apply Nat.ltb_ge. destruct free; [by apply elem_of_nil in Hin|cbn; lia]. }
  rewrite Hlen. apply wp_bind. eapply wp_intro.
  { apply (all_free_ok (limit := BGQ_MU_NUM_REC_FIFOS_PER_SUBGROUP) (free := free) (ids := [0%nat])).
    intros i ->%list_elem_of_singleton. unfold BGQ_MU_NUM_REC_FIFOS_PER_SUBGROUP. lia. }
  rewrite bool_decide_eq_true_2 by (by apply list.Forall_singleton). cbn [negb]. rewrite !mask_one.
  cbn [ra_System Z.eqb negb]. apply wp_bind. eapply wp_intro.
  { apply (run_dcr _ _ _ (fun v => Z.ldiff (Z.lor v (rec_dcr_bit (sgid_of s) 0)) 0)).
    intros H. apply orb_false_iff in H as [_ H%negb_false_iff%Z.eqb_eq]. pose proof (rec_bit_on s) as Hb.
    rewrite H, Z.bits_0 in Hb. done. }
  cbn [mark_rec Nat.ltb Nat.leb BGQ_MU_NUM_REC_FIFOS_PER_SUBGROUP]. apply wp_bind, wp_bind, wp_ret, wp_bind, wp_modify, wp_ret, wp_ret.
  apply HQ; cbn; [done|by rewrite fn_lookup_insert| |].
  - eapply rec_step_trans.
    + apply (rec_dcr_step s RMFIFO_SYSTEM (fun v => Z.ldiff (Z.lor v (rec_dcr_bit (sgid_of s) 0)) 0)); [tauto|].
      intros s' v Hg Hs'. rewrite Z.ldiff_0_r, Z.lor_spec, rec_bit_off by done. apply orb_false_r.
    + split; [|by split|done..]. intros s' Hs'. unfold rec_view. cbn. by rewrite fn_lookup_insert_ne by congruence.
  - rewrite fn_lookup_insert, Z.ldiff_0_r, Z.lor_spec, rec_bit_on. apply orb_true_r.
Qed.

Lemma wp_RecFifoInit s sg r (Q : Z * fifo_subgroup -> mu_regs -> Prop) m :
  fifo_memory 5 BGQ_MU_MIN_RECFIFO_SIZE_IN_BYTES r ->
  sh_hwfifo (sg_fifos sg 0%nat) = Some (s, 0%nat, true) ->
  Q (0, sg <| sg_fifos ::= fun f => <[0%nat := rec_shadow s r (f 0%nat)]> f |>)
    (m <| mu_rec ::= fun f => <[(s, 0%nat) := fifo_reset r]> f |>) ->
  wp (Kernel_RecFifoInit sg 0 (mr_base_vaddr r) (mr_base_paddr r) 0 (u64 (mr_length r - 1))) Q m.
Proof.
  intros Hmem Hhw HQ. unfold Kernel_RecFifoInit, MUSPI_assert. cbn [Nat.ltb Nat.leb].
  rewrite (fm_start _ _ _ Hmem), (fm_pstart _ _ _ Hmem), (fm_size _ _ _ Hmem), (fm_size1 _ _ _ Hmem) by done.
  pose proof Hmem as [(Hva0 & Hva & Hva2) Hpa [Hlen Hal]].
  assert (Hp : 0 < mr_length r) by (unfold BGQ_MU_MIN_RECFIFO_SIZE_IN_BYTES in Hlen; lia).
  rewrite (land_align 5) by (done || lia). rewrite Z.eqb_refl, (proj2 (Z.geb_le _ _) Hlen).
  change 31 with (Z.ones 5). rewrite (fm_mask _ _ _ Hmem) by lia. cbn [Z.eqb].
  do 4 (apply wp_bind, wp_ret). apply wp_bind. eapply wp_deref; [exact Hhw|].
  cbn [fst]. apply wp_bind, wp_modify, wp_ret. rewrite (fm_end _ _ _ Hmem) by done. exact HQ.
Qed.

Lemma rec_init_step s r m : rec_step s m (m <| mu_rec ::= fun f => <[(s, 0%nat) := r]> f |>).
Proof.
  split; [|by split|done..]. intros s' Hs'. unfold rec_view. cbn. by rewrite fn_lookup_insert_ne by congruence.
Qed.

Lemma wp_ConfigureRec s sg (Q : Z -> mu_regs -> Prop) m : subgroupid sg = s ->
  (forall m', rec_step s m m' ->
     (forall k, mu_rec m' k = mu_rec m k) ->
     (forall x, x = RMFIFO_EN \/ x = RMFIFO_SYSTEM -> mu_dcr m' (x, gid_of s) = mu_dcr m (x, gid_of s)) ->
     Z.testbit (mu_dcr m' (RMFIFO_PACKET_INT_EN, gid_of s)) (rec_pos s) = true -> Q 0 m') ->
  wp (Kernel_ConfigureRecFifoInterrupts sg [(0%nat, mkRi 0 1)]) Q m.
Proof.
  intros <- HQ. unfold Kernel_ConfigureRecFifoInterrupts, MUSPI_assert.
  apply wp_bind, wp_ret, wp_bind. cbn [check_rec_ids map fst]. unfold MUSPI_assert. apply wp_bind, wp_ret, wp_ret.
  rewrite !mask_one. cbn [ri_Threshold_Crossing ri_Packet_Arrival Z.eqb negb Pos.eqb].
  apply wp_bind. eapply wp_intro; [apply update_dcr_eq|]. apply wp_bind. eapply wp_intro; [apply update_dcr_eq|].
  apply wp_ret. set (s := subgroupid sg). apply HQ; [|done| |].
  - eapply rec_step_trans.
    + apply (rec_dcr_step s RMFIFO_THOLD_INT_EN (fun v => Z.ldiff (Z.lor v 0) (rec_dcr_bit (sgid_of s) 0))); [tauto|].
      intros s' v Hg Hs'. by rewrite Z.ldiff_spec, Z.lor_0_r, rec_bit_off, andb_true_r by done.
    + apply (rec_dcr_step s RMFIFO_PACKET_INT_EN (fun v => Z.ldiff (Z.lor v (rec_dcr_bit (sgid_of s) 0)) 0)); [tauto|].
      intros s' v Hg Hs'. by rewrite Z.ldiff_0_r, Z.lor_spec, rec_bit_off, orb_false_r by done.
  - intros x [->| ->]; cbn; by at_keys.
  - cbn. at_keys. rewrite Z.ldiff_0_r, Z.lor_spec, rec_bit_on. apply orb_true_r.
Qed.

Lemma wp_RecFifoEnable s bits (Q : Z -> mu_regs -> Prop) m : gid_of s = SYS_GROUPID ->
  bits = rec_dcr_bit (sgid_of s) 0 ->
  Q 0 (set_dcr RMFIFO_EN (gid_of s) (Z.lor (mu_dcr m (RMFIFO_EN, gid_of s)) bits) m) ->
  wp (Kernel_RecFifoEnable SYS_GROUPID bits) Q m.
Proof.
  intros Hg Hb HQ. unfold Kernel_RecFifoEnable, MUSPI_assert. apply wp_bind, wp_ret, wp_bind.
  rewrite (proj2 (Z.eqb_neq _ _)). 2: { pose proof (rec_bit_on s) as H. intros E. by rewrite <- Hb, E, Z.bits_0 in H. }
  rewrite Hg in HQ. apply wp_ret, wp_bind, wp_gets, wp_bind, wp_modify, wp_ret, HQ.
Qed.

Lemma wp_activate_recfifos l n (Q : Z -> node -> Prop) (s := subgroupID (musm n l)) :
  (s < 68)%nat -> gid_of s = SYS_GROUPID -> fr_pa_start (mu_rec (mu n) (s, 0%nat)) = 0 ->
  fifo_memory 5 BGQ_MU_MIN_RECFIFO_SIZE_IN_BYTES (recRegion (musm n l)) ->
  (forall n' sg mask, musm n' = <[l := (musm n l) <| rfifoids := 0%nat |> <| rfifo_subgroup := sg |>
        <| clearInterrupts_mask := mask |>]> (musm n) ->
     rec_active (musm n' l) (mu n') -> rec_step s (mu n) (mu n') -> drv n' = drv n ->
     c_desc_counter (n_chip n') = c_desc_counter (n_chip n) ->
     (forall r, c_reg (n_chip n') r = c_reg (n_chip n) r) -> Q 0 n') ->
  wp (activate_recfifos l) Q n.
Proof.
  intros Hs Hg Hfree Hmem HQ. unfold activate_recfifos. apply wp_bind, wp_modify, wp_bind, wp_gets, wp_bind, wp_in_mu.
  cbn. rewrite !fn_lookup_insert. cbn. fold s.
  apply wp_AllocateRecFifos; [done|done|]. intros sg0 m1 G1 H1 S1 B1.
  apply wp_bind, wp_modify. cbn [fst snd negb Z.eqb]. apply wp_bind, wp_in_mu.
  apply (wp_RecFifoInit s); [done|done|]. set (m2 := _ <| mu_rec ::= _ |>).
  apply wp_bind, wp_modify. cbn [fst snd negb Z.eqb]. apply wp_bind, wp_modify.
  set (sg1 := sg0 <| sg_fifos ::= _ |>). set (bits := rec_enable_bit _).
  apply wp_bind, wp_in_mu, (wp_ConfigureRec s); [done|]. intros m3 S3 R3 D3 B3.
  apply wp_bind, wp_in_mu, (wp_RecFifoEnable s); [done|by apply rec_enable_bit_eq|]. apply wp_ret.
  set (u1 := fun m : MU_subgroup_memory => m <| rfifoids := 0%nat |>).
  set (m' := (musm n l) <| rfifoids := 0%nat |> <| rfifo_subgroup := sg1 |> <| clearInterrupts_mask := bits |>).
  match goal with |- Q 0 ?n' => assert (Em : musm n' = <[l := m']> (musm n)) end.
  { cbn. rewrite !fn_insert_insert, !fn_lookup_insert. done. }
  apply (HQ _ sg1 bits); [exact Em| | |done..].
  - rewrite Em, fn_lookup_insert. cbn. split; cbn.
    + fold s. unfold rec_view. cbn. at_keys. rewrite Z.lor_spec, R3, B3.
      unfold bits. rewrite (rec_enable_bit_eq ((musm n l) <| rfifoids := 0%nat |>)) by done.
      cbn. fold s. rewrite rec_bit_on, orb_true_r, D3 by tauto. unfold m2. cbn. at_keys.
      by rewrite B1.
    + exact G1.
    + done.
    + exists (sg_fifos sg0 0%nat). by rewrite fn_lookup_insert.
    + done.
  - eapply rec_step_trans; [exact S1|]. eapply rec_step_trans; [apply rec_init_step|]. eapply rec_step_trans; [exact S3|].
    apply (rec_dcr_step s RMFIFO_EN (fun v => Z.lor v bits)); [tauto|].
    intros s' v E Hne. unfold bits. rewrite Z.lor_spec, rec_enable_bit_eq by done. cbn. fold s.
    by rewrite rec_bit_off, orb_false_r by done.
Qed.
