(* ===== verification/LinkReset.v ===== *)
(** * Reset of an I/O link

    [mudm_resetIOlink] of bgmudm/mudm_cleanup.c: the links whose last
    reported block is the one given are quiesced, held in reset, released
    and started again on the same memory; the user is told of every request
    and connection that was open. *)

From Stdlib Require Import FunctionalExtensionality.
From S2P Require Import Prelude Chain Bytes Descriptor State Inject Concrete Memory Pools Pkt Rdma ConnList Connect Kernel Reset Cleanup Activate.

Section with_platform.
Context (P : platform) (chip_step : chip -> chip) (fuel : nat) (garbage : Z).

(** The loops [for (i=0;i<NUM_IO_LINKS;i++) if (remote_BlockID[i]==BlockID)]. *)
Definition for_block (BlockID : Z) (body : nat -> MN unit) : MN unit :=
  for_each [0; 1]%nat (fun i =>
    b <- gets (fun n => remote_BlockID (drv n) i) ;;
    when (b =? BlockID) (body i)).

Definition flush_requests (l : nat) : MW unit :=
  flush_pkt_reqid P (PacketControls l) ;;;
  flush_pkt_reqid P (SmallpaObjCtls l) ;;;
  flush_rdma_counter_reqid P l ;;;
  ret tt.

(** [do rc = MUSPI_Reset(&mureset); while(rc == EAGAIN)]: no sequence has
    more than ten steps. *)
Definition run_reset (init : nat -> nat -> MC MUSPI_RESET) (l : nat) : MN Z :=
  s <- gets (fun n => subgroupID (musm n l)) ;;
  link <- gets (fun n => Z.to_nat (link4reset (drv n) l)) ;;
  r <- in_chip (r <- init s link ;; reset_loop chip_step fuel 11 r) ;;
  ret (fst r).

(** The second loop.  Return codes are only printed. *)
Definition link_down (l : nat) : MN unit :=
  in_drv (disable_active_connection_list l) ;;;
  in_drv (disable_pending_connection_list l) ;;;
  in_drv (flush_requests l) ;;;
  run_reset MUSPI_InitResetHold l ;;;
  in_drv (flush_requests l) ;;;
  run_reset MUSPI_InitResetRelease l ;;;
  in_drv (flush_requests l) ;;;
  in_drv (flush_iolink_connection_list P l) ;;;
  ret tt.

(** The third loop; the statuses of the activations are not looked at.
    What the driver sees of the hardware follows the registers. *)
Definition adopt_hw (l : nat) : MN unit :=
  s <- gets (fun n => subgroupID (musm n l)) ;;
  c <- gets n_chip ;;
  in_drv (modify (fun w => w <| hw ::= fun h =>
    h <| hw_descCount ::= <[l := c_desc_counter c (s, 0%nat)]> |>
      <| hw_rec_tail ::= <[l := fr_pa_tail (mu_rec (c_mu c) (s, 0%nat))]> |> |>)).
Definition link_up (l : nat) : MN unit :=
  activate_base_address_table l ;;;
  in_drv (SPIN_UNLOCK (InjLock l)) ;;;
  activate_injfifos garbage l ;;;
  activate_recfifos l ;;;
  adopt_injfifo l ;;; adopt_recfifo l ;;; adopt_hw l ;;;
  in_drv (modify (fun w => w <| inj_state ::= <[l := 1]> |> <| remote_BlockID ::= <[l := 0]> |>)).

Definition mudm_resetIOlink (BlockID : Z) : MN Z :=
  m <- gets (fun n => magic (drv n)) ;;
  if negb (m =? MUDM_MAGIC) then ret (- EFAULT) else
  for_block BlockID (fun l => in_drv (modify (fun w => w <| inj_state ::= <[l := 0]> |>))) ;;;
  for_block BlockID link_down ;;;
  for_block BlockID link_up ;;;
  in_drv (modify (fun w => w <| StuckState := 0 |>)) ;;;
  ret 0.
End with_platform.

(** ** Requests flushed *)

Section flush.
Context (P : platform) `{!QuietStatus P, !QuietRecvConn P}.

Lemma wp_flush_requests l w L (Q : unit -> world -> Prop) :
  link_wf w l L ->
  (forall w', link_wf w' l (flushed L) -> trace w' = trace w ++ cancellations w l L ->
     touches (fun p => pool_link p = l) (eq l) w w' -> Q tt w') ->
  wp (flush_requests P l) Q w.
Proof.
  intros Hw HQ. apply (wp_flush_pools P l w L _ _ Hw). intros w' A B C. by apply wp_ret, HQ.
Qed.

(** Flushing again finds nothing. *)
Lemma flushed_none w l L : cancellations w l (flushed L) = [].
Proof. done. Qed.
Lemma flushed_flushed L : flushed (flushed L) = flushed L.
Proof. done. Qed.
End flush.

Lemma wp_for_block l o BlockID body (Q : unit -> node -> Prop) n :
  (l = 0%nat /\ o = 1%nat \/ l = 1%nat /\ o = 0%nat) ->
  remote_BlockID (drv n) l = BlockID -> remote_BlockID (drv n) o <> BlockID ->
  wp (body l) (fun _ n' => (o = 1%nat -> remote_BlockID (drv n') o <> BlockID) /\ Q tt n') n ->
  wp (for_block BlockID body) Q n.
Proof.
  intros [[-> ->]|[-> ->]] Hl Ho H; unfold for_block; cbn [for_each].
  - apply wp_bind, wp_bind, wp_gets. rewrite Hl, Z.eqb_refl. cbn [when]. eapply wp_mono; [exact H|].
    intros [] n' [Hn HQ]. apply wp_bind, wp_bind, wp_gets. rewrite (proj2 (Z.eqb_neq _ _)) by (by apply Hn).
    by do 2 apply wp_ret.
  - apply wp_bind, wp_bind, wp_gets. rewrite (proj2 (Z.eqb_neq _ _)) by done. apply wp_ret, wp_bind, wp_bind, wp_gets.
    rewrite Hl, Z.eqb_refl. cbn [when]. eapply wp_mono; [exact H|]. intros [] n' [_ HQ]. by apply wp_ret.
Qed.

(** ** A link goes down *)

Section down.
Context (P : platform) `{!QuietStatus P, !QuietRecvConn P}.
Context (chip_step : chip -> chip) (fuel : nat) `{!ResetLive chip_step fuel}.

Lemma wp_run_hold l n (Q : Z -> node -> Prop) (s := subgroupID (musm n l)) (k := Z.to_nat (link4reset (drv n) l)) :
  (s < BGQ_MU_NUM_FIFO_SUBGROUPS_PER_NODE)%nat -> (k < ND_RESE_DCR_num)%nat ->
  (forall c, held_down s k (n_chip n) c -> Q 0 (n <| n_chip := c |>)) ->
  wp (run_reset chip_step fuel MUSPI_InitResetHold l) Q n.
Proof.
  intros Hs Hk HQ. apply wp_bind, wp_gets, wp_bind, wp_gets, wp_bind, wp_in_chip.
  apply (wp_hold _ _ s k Hs Hk 4). intros r c Hc. by apply wp_ret, HQ.
Qed.
Lemma wp_run_release l n (Q : Z -> node -> Prop) (s := subgroupID (musm n l)) (k := Z.to_nat (link4reset (drv n) l)) :
  (s < BGQ_MU_NUM_FIFO_SUBGROUPS_PER_NODE)%nat -> (k < ND_RESE_DCR_num)%nat ->
  (forall c, released s k (n_chip n) c -> Q 0 (n <| n_chip := c |>)) ->
  wp (run_reset chip_step fuel MUSPI_InitResetRelease l) Q n.
Proof.
  intros Hs Hk HQ. apply wp_bind, wp_gets, wp_bind, wp_gets, wp_bind, wp_in_chip.
  apply (wp_release _ _ s k Hs Hk 8). intros r c Hc. by apply wp_ret, HQ.
Qed.

(** Flushing, seen from the node. *)
Lemma wp_flush_node l L n fl ls (Q : unit -> node -> Prop) :
  held (drv n) = [] -> link_wf (drv n) l L -> conns_ok (drv n) fl ls ->
  (forall w, held w = [] -> link_wf w l (flushed L) -> conns_ok w fl ls -> quiets l (drv n) w ->
     trace w = trace (drv n) ++ cancellations (drv n) l L -> Q tt (n <| drv := w |>)) ->
  wp (in_drv (flush_requests P l)) Q n.
Proof.
  intros Hh HL Hc HQ. apply wp_in_drv, (wp_flush_requests P l _ L); [done|]. intros w A B C. apply HQ.
  - by rewrite (touches_held _ _ _ _ C).
  - done.
  - by eapply touches_conns.
  - eapply touches_quiets, C; [done|by intros ? <-].
  - done.
Qed.

Lemma link_down_ok l n L fl ls (s := subgroupID (musm n l)) (k := Z.to_nat (link4reset (drv n) l)) :
  held (drv n) = [] -> link_wf (drv n) l L -> conns_ok (drv n) fl ls ->
  (s < BGQ_MU_NUM_FIFO_SUBGROUPS_PER_NODE)%nat -> (k < ND_RESE_DCR_num)%nat ->
  wp (link_down P chip_step fuel l) (fun _ n' =>
    held (drv n') = [] /\ link_wf (drv n') l (flushed L) /\ conns_ok (drv n') (ls (LAct l) ++ fl) (quiet_ls l ls) /\
    quiets l (drv n) (drv n') /\ musm n' = musm n /\
    (exists evs, told (ls (LAct l)) evs /\ trace (drv n') = trace (drv n) ++ cancellations (drv n) l L ++ evs) /\
    exists c, held_down s k (n_chip n) c /\ released s k c (n_chip n')) n.
Proof.
  intros Hh HL Hc Hs Hk. destruct (conns_ok_open _ _ _ Hh Hc) as (h & f & hd & E & Hlc).
  apply wp_bind, wp_in_drv. eapply wp_at; [exact E|]. apply (wp_disable_active _ _ _ _ _ _ _ Hlc). intros h1 Hlc1.
  apply wp_bind, wp_in_drv, (wp_disable_pending _ _ _ _ _ _ _ Hlc1). intros h2 hd2 Hlc2.
  set (w2 := cput [] h2 f hd2 (drv n)).
  assert (HL2 : link_wf w2 l L) by (destruct HL as [A B C]; split; (eapply pool_wf_ext; [| |done]; [done|by rewrite Hh])).
  assert (Q2 : quiets l (drv n) w2) by (by split).
  apply wp_bind, (wp_flush_node l L _ fl (moved (LPend l) (LAbort l) ls)); [done|done|by apply conns_ok_cput|].
  intros w3 Hh3 HL3 Hc3 Q3 T3. pose proof (quiets_trans _ _ _ _ Q2 Q3) as Q03.
  apply wp_bind, wp_run_hold; [done|cbn; by rewrite (qu_link _ _ _ Q03)|]. cbn.
  rewrite (qu_link _ _ _ Q03). intros c1 H1.
  apply wp_bind, (wp_flush_node l (flushed L) _ fl (moved (LPend l) (LAbort l) ls)); [done..|].
  intros w4 Hh4 HL4 Hc4 Q4 T4. pose proof (quiets_trans _ _ _ _ Q03 Q4) as Q04.
  apply wp_bind, wp_run_release; [done|cbn; by rewrite (qu_link _ _ _ Q04)|]. cbn.
  rewrite (qu_link _ _ _ Q04). intros c2 H2.
  apply wp_bind, (wp_flush_node l (flushed L) _ fl (moved (LPend l) (LAbort l) ls)); [done..|].
  intros w5 Hh5 HL5 Hc5 Q5 T5. pose proof (quiets_trans _ _ _ _ Q04 Q5) as Q05.
  destruct (conns_ok_open _ _ _ Hh5 Hc5) as (h6 & f6 & hd6 & E6 & Hlc6).
  apply wp_bind, wp_in_drv. eapply wp_at; [exact E6|]. apply (wp_flush_connections P _ _ _ _ _ _ _ _ Hlc6).
  assert (Ea : moved (LPend l) (LAbort l) ls (LAct l) = ls (LAct l)) by (unfold moved; by rewrite !fn_lookup_insert_ne).
  rewrite Ea. intros h7 f7 hd7 evs x Hlc7 Ht. apply wp_ret. split_and!.
  - done.
  - by apply link_wf_cput.
  - by apply conns_ok_cput.
  - eapply quiets_trans; [exact Q05|]. apply quiets_cput.
  - done.
  - exists evs. split; [done|]. cbn. rewrite T5. cbn. rewrite app_nil_r, T4. cbn. rewrite app_nil_r, T3. by rewrite <- app_assoc.
  - by exists c1.
Qed.
End down.

(** ** A link comes up *)

(** The structures of a link name a subgroup of the system group, all
    table entries, and memory that can hold its FIFOs. *)
Record link_memory (m : MU_subgroup_memory) : Prop := mkLm {
  lm_sub : (subgroupID m < BGQ_MU_NUM_FIFO_SUBGROUPS_PER_NODE)%nat;
  lm_group : gid_of (subgroupID m) = SYS_GROUPID;
  lm_ids : batids m = seq 0 NUM_DATA_COUNTERS_PER_SUBGROUP;
  lm_values : length (batvalues m) = NUM_DATA_COUNTERS_PER_SUBGROUP;
  lm_inj : fifo_memory 6 BGQ_MU_MIN_INJFIFO_SIZE_IN_BYTES (injRegion m);
  lm_rec : fifo_memory 5 BGQ_MU_MIN_RECFIFO_SIZE_IN_BYTES (recRegion m) }.

(** FIFOs and table of the link are set up. *)
Definition link_active (m : MU_subgroup_memory) (r : mu_regs) : Prop :=
  inj_active m r /\ rec_active m r /\ bat_active m r.

(** What another subgroup has in the registers is as before. *)
Record others_kept (s : nat) (m m' : mu_regs) : Prop := mkOk {
  ok_inj : forall s', s' <> s -> inj_view s' m' = inj_view s' m;
  ok_rec : forall s', s' <> s -> rec_view s' m' = rec_view s' m;
  ok_bat : forall k, fst k <> s -> mu_bat m' k = mu_bat m k }.

Lemma inj_active_keep m m' r r' : inj_active m r ->
  subgroupID m' = subgroupID m -> injRegion m' = injRegion m -> ififo_subgroup m' = ififo_subgroup m ->
  ififoid m' = ififoid m -> inj_view (subgroupID m) r' = inj_view (subgroupID m) r ->
  mu_freeSpace r' = mu_freeSpace r -> inj_active m' r'.
Proof. intros [A B C D] E1 E2 E3 E4 E5 E6. split; rewrite ?E1, ?E2, ?E3, ?E4, ?E5, ?E6; done. Qed.
Lemma bat_active_keep m m' r r' : bat_active m r ->
  subgroupID m' = subgroupID m -> batvalues m' = batvalues m -> musm_bat m' = musm_bat m ->
  mu_bat r' = mu_bat r -> bat_active m' r'.
Proof. intros [A B C] E1 E2 E3 E4. split; rewrite ?E1, ?E2, ?E3, ?E4; done. Qed.

(** What a start does not change. *)
Definition same_memory (m m' : MU_subgroup_memory) : Prop :=
  subgroupID m' = subgroupID m /\ injRegion m' = injRegion m /\ recRegion m' = recRegion m /\
  batids m' = batids m /\ batvalues m' = batvalues m.

(** The driver's view of a link that was started. *)
Definition brought_up (l : nat) (m : MU_subgroup_memory) (h : hw_state) (free : Z) (w : world) : world :=
  w <| inj ::= fun f => <[l := mkInj (mr_base_paddr (injRegion m)) (mr_base_vaddr (injRegion m))
         (mr_base_vaddr (injRegion m) + mr_length (injRegion m)) (mr_base_vaddr (injRegion m))
         (mr_base_paddr (injRegion m)) 0 free 0 (if_ring (f l))]> f |>
    <| recf ::= <[l := mkRec (mr_base_paddr (recRegion m)) (mr_base_vaddr (recRegion m))
         (mr_base_vaddr (recRegion m) + mr_length (recRegion m)) (mr_base_vaddr (recRegion m))
         (mr_base_vaddr (recRegion m)) (mr_base_paddr (recRegion m))]> |>
    <| hw := h |> <| inj_state ::= <[l := 1]> |> <| remote_BlockID ::= <[l := 0]> |>.

Lemma link_up_ok garbage l n (Q : unit -> node -> Prop) (m := musm n l) (s := subgroupID m) :
  held (drv n) = [] -> link_memory m ->
  fr_pa_start (mu_inj (mu n) (s, 0%nat)) = 0 -> fr_pa_start (mu_rec (mu n) (s, 0%nat)) = 0 ->
  bat_subgrpid (musm_bat m) = s -> (forall i, (i < NUM_DATA_COUNTERS_PER_SUBGROUP)%nat -> permitted (musm_bat m) i) ->
  (forall n' h, link_active (musm n' l) (mu n') -> others_kept s (mu n) (mu n') ->
     drv n' = brought_up l m h (mu_freeSpace (mu n) (s, 0%nat)) (drv n) ->
     hw_descCount h l = c_desc_counter (n_chip n) (s, 0%nat) -> hw_rec_tail h l = mr_base_paddr (recRegion m) ->
     (forall k, k <> l -> musm n' k = musm n k) -> same_memory m (musm n' l) ->
     (forall x y, c_reg (n_chip n') (RESE x y) = c_reg (n_chip n) (RESE x y)) -> Q tt n') ->
  wp (link_up garbage l) Q n.
Proof.
  intros Hh Hm Hi0 Hr0 Hb Hp HQ. destruct Hm as [Hs Hg Hids Hlen Hinj Hrec].
  apply wp_bind, wp_activate_base_address_table; [done|done|done|by right|].
  intros n1 bat E1 A1 S1 D1 C1 R1. apply wp_bind, wp_in_drv, wp_modify.
  set (n1' := n1 <| drv := _ |>). assert (El1 : musm n1' l = m <| musm_bat := bat |>).
  { change (musm n1') with (musm n1). by rewrite E1, fn_lookup_insert. }
  apply wp_bind, wp_activate_injfifos; rewrite ?El1; [done| |done|].
  { cbn. by rewrite (si_regs _ _ (bs_inj _ _ _ S1)). }
  intros n2 sg E2 A2 S2 D2 C2 R2. assert (El2 : musm n2 l = m <| musm_bat := bat |> <| ififoid := 0%nat |> <| ififo_subgroup := sg |>).
  { by rewrite E2, fn_lookup_insert. }
  apply wp_bind, wp_activate_recfifos; rewrite ?El2; [done|done| |done|].
  { cbn. rewrite (sr_regs _ _ (is_rec _ _ _ S2)). cbn. by rewrite (sr_regs _ _ (bs_rec _ _ _ S1)). }
  intros n3 sg3 mask E3 A3 S3 D3 C3 R3.
  set (m3 := m <| musm_bat := bat |> <| ififoid := 0%nat |> <| ififo_subgroup := sg |> <| rfifoids := 0%nat |>
       <| rfifo_subgroup := sg3 |> <| clearInterrupts_mask := mask |>).
  assert (El3 : musm n3 l = m3) by (by rewrite E3, fn_lookup_insert). rewrite El2 in A2. rewrite El3 in A3.
  assert (A2' : inj_active m3 (mu n3)).
  { eapply inj_active_keep; [exact A2|done..| |by rewrite (rst_free _ _ _ S3)].
    apply same_inj_view, (rst_inj _ _ _ S3). }
  assert (A1' : bat_active m3 (mu n3)).
  { rewrite E1, fn_lookup_insert in A1. eapply bat_active_keep; [exact A1|done..|].
    by rewrite (rst_bat _ _ _ S3), (is_bat _ _ _ S2). }
  assert (Hfree : mu_freeSpace (mu n3) (s, 0%nat) = mu_freeSpace (mu n) (s, 0%nat)).
  { rewrite (rst_free _ _ _ S3), (is_free _ _ _ S2). cbn. by rewrite (bs_free _ _ _ S1). }
  assert (Hkept : others_kept s (mu n) (mu n3)).
  { split.
    - intros s' Hs'. rewrite (same_inj_view s' _ _ (rst_inj _ _ _ S3)), (is_others _ _ _ S2) by done.
      apply same_inj_view, (bs_inj _ _ _ S1).
    - intros s' Hs'. rewrite (rst_others _ _ _ S3), (same_rec_view s' _ _ (is_rec _ _ _ S2)) by done.
      apply same_rec_view, (bs_rec _ _ _ S1).
    - intros k Hk. rewrite (rst_bat _ _ _ S3), (is_bat _ _ _ S2). by apply (bs_others _ _ _ S1). }
  assert (Hdrv : drv n3 = drv n).
  { rewrite D3, D2. cbn. rewrite D1. destruct (drv n). cbn in Hh. subst. done. }
  apply wp_bind, wp_bind, wp_gets, wp_in_drv, wp_modify. rewrite El3, Hdrv.
  apply wp_bind, wp_bind, wp_gets, wp_in_drv, wp_modify, wp_bind, wp_bind, wp_gets, wp_bind, wp_gets, wp_in_drv, wp_modify.
  apply wp_in_drv, wp_modify.
  assert (Hact : link_active (musm n3 l) (mu n3)) by (rewrite El3; by split_and!).
  destruct A2' as [V2 G2 I2 Sh2]. destruct A3 as [V3 G3 I3 (old & Sh3) M3].
  assert (Htail : mu_rec (mu n3) (s, 0%nat) = fifo_reset (recRegion m)) by (injection V3; done).
  eapply HQ; [exact Hact|exact Hkept| | | | | |].
  - cbn. rewrite El3. cbn in Sh2, Sh3, Hfree |- *. fold s in Sh2. rewrite Hfree in Sh2.
    rewrite Sh2, Sh3. done.
  - cbn. rewrite fn_lookup_insert. by rewrite C3, C2, <- C1.
  - cbn. rewrite fn_lookup_insert. fold s. by rewrite Htail.
  - intros k Hk. cbn. rewrite E3, fn_lookup_insert_ne, E2, fn_lookup_insert_ne by done. cbn.
    by rewrite E1, fn_lookup_insert_ne by done.
  - cbn. by rewrite El3.
  - intros x y. cbn. rewrite R3, R2 by done. apply R1.
Qed.

(** ** The whole reset *)

(** Another subgroup keeps its FIFOs, its table and what is enabled. *)
Record undisturbed (s : nat) (m m' : mu_regs) : Prop := mkUd {
  ud_inj : fr_pa_start (mu_inj m' (s, 0%nat)) = fr_pa_start (mu_inj m (s, 0%nat));
  ud_rec : fr_pa_start (mu_rec m' (s, 0%nat)) = fr_pa_start (mu_rec m (s, 0%nat));
  ud_bat : forall i, mu_bat m' (s, i) = mu_bat m (s, i);
  ud_enabled : Z.testbit (mu_isEnabled m' (gid_of s)) (fifo_pos s 0) = Z.testbit (mu_isEnabled m (gid_of s)) (fifo_pos s 0);
  ud_rec_enabled : Z.testbit (mu_dcr m' (RMFIFO_EN, gid_of s)) (rec_pos s)
    = Z.testbit (mu_dcr m (RMFIFO_EN, gid_of s)) (rec_pos s) }.
#[export] Instance undisturbed_pre s : PreOrder (undisturbed s).
Proof.
  split; [by intros m; split|]. intros m1 m2 m3 [A B C D E] [A' B' C' D' E']. split; try congruence.
Qed.

Lemma others_undisturbed s s' m m' : s' <> s -> others_kept s m m' -> undisturbed s' m m'.
Proof.
  intros Hs [A B C]. specialize (A s' Hs). specialize (B s' Hs). unfold inj_view in A. unfold rec_view in B.
  injection A as A1 A2 _ _. injection B as B1 B2 _ _. split; [by rewrite A1|by rewrite B1| |done|done].
  intros i. by apply C.
Qed.

Lemma fifos_of_off s s' : gid_of s = gid_of s' -> s' <> s ->
  Z.testbit (inj_fifos_of s) (fifo_pos s' 0) = false /\ Z.testbit (rec_fifos_of s) (rec_pos s') = false.
Proof.
  intros Hg Hs. pose proof (same_group_ne s s' Hg Hs) as H. pose proof (sgid_lt s). pose proof (sgid_lt s').
  unfold inj_fifos_of, rec_fifos_of, fifo_pos, rec_pos.
  generalize dependent (sgid_of s). generalize dependent (sgid_of s'). intros a Ha b H Hb.
  do 4 (destruct a as [|a]; [do 4 (destruct b as [|b]; [by vm_compute|]); lia|]). lia.
Qed.

Lemma reset_undisturbed s s' k c c1 c2 : s' <> s -> held_down s k c c1 -> released s k c1 c2 ->
  undisturbed s' (c_mu c) (c_mu c2).
Proof.
  intros Hs H1 [H2 _ _ _ _].
  destruct (rs_other _ _ _ H2 (s', 0%nat) Hs) as (I & R & _).
  destruct (hd_start _ _ _ _ H1 (s', 0%nat)) as [I1 R1]. split.
  - by rewrite I.
  - by rewrite R.
  - intros i. destruct (rs_other _ _ _ H2 (s', i) Hs) as (_ & _ & ->). by rewrite (hd_bat _ _ _ _ H1).
  - rewrite (rs_enabled _ _ _ H2), (hd_enabled _ _ _ _ H1). destruct (decide (gid_of s = gid_of s')) as [E|E]; [|by at_keys].
    rewrite E. at_keys. rewrite Z.ldiff_spec, (proj1 (fifos_of_off _ _ E Hs)). apply andb_true_r.
  - rewrite (rs_rec_enabled _ _ _ H2), (hd_dcr _ _ _ _ H1). destruct (decide (gid_of s = gid_of s')) as [E|E]; [|by at_keys].
    rewrite E. at_keys. rewrite Z.land_spec, Z.ldiff_spec, (proj2 (fifos_of_off _ _ E Hs)), andb_true_r.
    enough (Z.testbit 65535 (rec_pos s') = true) as -> by done.
    unfold rec_pos, BGQ_MU_NUM_REC_FIFOS_PER_SUBGROUP. change 65535 with (Z.ones 16). pose proof (sgid_lt s').
    rewrite Z.testbit_ones_nonneg by lia. apply Z.ltb_lt. lia.
Qed.

Section correct.
Context (P : platform) `{!QuietStatus P, !QuietRecvConn P}.
Context (chip_step : chip -> chip) (fuel : nat) `{!ResetLive chip_step fuel} (garbage : Z).

(** C17: [mudm_resetIOlink] for the block last seen on link [l]: every open
    request of the link is cancelled exactly once and the user of every
    active connection is told once; the connection blocks and the packets
    and RDMA objects are free again; the FIFOs and base addresses of the
    link are set up again on their memory, enabled, empty and with fresh
    counters, although the table entries were still allocated; the link
    accepts work again and its sender no longer drops packets; and what any
    other subgroup, such as that of the other link, has in the message unit
    is not disturbed. *)
Theorem mudm_resetIOlink_correct l o n L fl ls (m := musm n l) (s := subgroupID m) :
  (l = 0%nat /\ o = 1%nat \/ l = 1%nat /\ o = 0%nat) ->
  magic (drv n) = MUDM_MAGIC -> held (drv n) = [] ->
  remote_BlockID (drv n) o <> remote_BlockID (drv n) l ->
  link_wf (drv n) l L -> conns_ok (drv n) fl ls -> link_memory m ->
  bat_subgrpid (musm_bat m) = s -> (forall i, (i < NUM_DATA_COUNTERS_PER_SUBGROUP)%nat -> permitted (musm_bat m) i) ->
  (Z.to_nat (link4reset (drv n) l) < ND_RESE_DCR_num)%nat ->
  wp (mudm_resetIOlink P chip_step fuel garbage (remote_BlockID (drv n) l)) (fun r n' => r = 0 /\
    link_wf (drv n') l (flushed L) /\ conns_ok (drv n') (ls (LAct l) ++ fl) (quiet_ls l ls) /\
    (exists evs, told (ls (LAct l)) evs /\ trace (drv n') = trace (drv n) ++ cancellations (drv n) l L ++ evs) /\
    link_active (musm n' l) (mu n') /\ same_memory m (musm n' l) /\
    (exists free, inj (drv n') l = mkInj (mr_base_paddr (injRegion m)) (mr_base_vaddr (injRegion m))
       (mr_base_vaddr (injRegion m) + mr_length (injRegion m)) (mr_base_vaddr (injRegion m))
       (mr_base_paddr (injRegion m)) 0 free 0 (if_ring (inj (drv n) l))) /\
    hw_descCount (hw (drv n')) l = 0 /\ hw_rec_tail (hw (drv n')) l = rf_pa_head (recf (drv n') l) /\
    rf_va_head (recf (drv n') l) = mr_base_vaddr (recRegion m) /\
    inj_state (drv n') l = 1 /\ remote_BlockID (drv n') l = 0 /\ StuckState (drv n') = 0 /\
    (dcrs_out (n_chip n') (Z.to_nat (link4reset (drv n) l)) = false ->
       drops (Z.to_nat (link4reset (drv n) l)) (n_chip n') false) /\
    (forall s', s' <> s -> undisturbed s' (mu n) (mu n'))) n.
Proof.
  intros Hlo Hm Hh Ho HL Hc Hmem Hb Hp Hk. pose proof (lm_sub _ Hmem) as Hs.
  apply wp_bind, wp_gets. rewrite Hm, Z.eqb_refl. cbn [negb].
  apply wp_bind, (wp_for_block l o); [done|done|done|]. apply wp_in_drv, wp_modify. split; [done|].
  set (n0 := n <| drv := _ |>). apply wp_bind, (wp_for_block l o); [done|done|done|].
  eapply wp_mono; [apply (link_down_ok P chip_step fuel l n0 L fl ls)|]; [done| |done|done|done|].
  { by eapply link_wf_ext, HL. }
  intros [] n1 (Hh1 & HL1 & Hc1 & Q1 & M1 & (evs & Ht & T1) & c1 & D1 & R1).
  split; [intros _; by rewrite (qu_remote _ _ _ Q1)|]. pose proof (rl_restored _ _ _ _ R1) as RR.
  apply wp_bind, (wp_for_block l o); [done|by rewrite (qu_remote _ _ _ Q1)|by rewrite (qu_remote _ _ _ Q1)|].
  destruct (rs_inj _ _ _ RR 0%nat) as [I0 C0]; [unfold BGQ_MU_NUM_INJ_FIFOS_PER_SUBGROUP; lia|].
  change (subgroupID (musm n0 l)) with s in *.
  apply (link_up_ok garbage l n1); rewrite ?M1; [done|done| | |done|done|].
  { change (subgroupID (musm n0 l)) with s. by rewrite I0. }
  { change (subgroupID (musm n0 l)) with s. rewrite (rs_rec _ _ _ RR); [done|unfold BGQ_MU_NUM_REC_FIFOS_PER_SUBGROUP; lia]. }
  intros n2 h A2 K2 D2 C2 T2 Mo2 Sm2 X2. split.
  { intros _. rewrite D2. cbn. rewrite (qu_remote _ _ _ Q1). destruct Hlo as [[-> ->]|[-> ->]]; by rewrite fn_lookup_insert_ne. }
  apply wp_bind, wp_in_drv, wp_modify, wp_ret. change (subgroupID (musm n0 l)) with s in *.
  change (musm n0 l) with m in *. cbn [drv n_chip musm upd_field]. rewrite D2.
  split_and!.
  - done.
  - by eapply link_wf_ext, HL1.
  - exact Hc1.
  - exists evs. split; [done|]. exact T1.
  - exact A2.
  - exact Sm2.
  - eexists. cbn. rewrite fn_lookup_insert, (proj1 (qu_fifos _ _ _ Q1)). reflexivity.
  - cbn. by rewrite C2.
  - cbn. by rewrite T2, fn_lookup_insert.
  - cbn. by rewrite fn_lookup_insert.
  - cbn. by rewrite fn_lookup_insert.
  - cbn. by rewrite fn_lookup_insert.
  - done.
  - set (kk := Z.to_nat (link4reset (drv n) l)). change (Z.to_nat (link4reset (drv n0) l)) with kk in R1.
    assert (Hout : dcrs_out (n_chip n2) kk = dcrs_out c1 kk).
    { unfold dcrs_out. rewrite X2, (rl_links _ _ _ _ R1); [done|]. right. set_solver. }
    intros Hd. rewrite Hout in Hd. destruct (rl_drops _ _ _ _ R1 Hd) as [Da Db].
    split; rewrite X2; [exact Da|exact Db].
  - intros s' Hs'. etrans; [by eapply reset_undisturbed|]. by eapply others_undisturbed.
Qed.
End correct.

(** ** Witness: link 0 of the demo node, with three posted packets and a
    connection, was used by block 7 *)

Definition reset_musm (l : nat) : MU_subgroup_memory :=
  (demo_musm l) <| batvalues := [0; 0x40000; 0x80000; 0; 0; 0; 0; 0] |>
    <| injRegion := mkRegion 4096 0x300000 0x600000 |> <| recRegion := mkRegion 4096 0x400000 0x700000 |>
    <| musm_bat := mkBat (66 + l) 255 true (fun _ => 0) |>.
Definition reset_node : node :=
  demo_node <| drv ::= fun w => w <| remote_BlockID := fun l => 7 + Z.of_nat l |> <| link4reset := fun _ => 10 |> |>
            <| n_chip := demo_chip |> <| musm := reset_musm |>.

Lemma reset_link_memory : link_memory (musm reset_node 0).
Proof. split; first [done|apply Nat.ltb_lt; done|by split]. Qed.
Lemma reset_permitted i : (i < NUM_DATA_COUNTERS_PER_SUBGROUP)%nat -> permitted (musm_bat (musm reset_node 0)) i.
Proof. intros Hi. unfold NUM_DATA_COUNTERS_PER_SUBGROUP in Hi. do 8 (destruct i as [|i]; [by vm_compute|]). lia. Qed.

Lemma mudm_resetIOlink_correct_witness :
  wp (mudm_resetIOlink demo_platform demo_chip_step 1 0 (remote_BlockID (drv reset_node) 0)) (fun r n' => r = 0 /\
    (exists evs, told [0%nat] evs /\ trace (drv n') = [EvStatus [(77, 4294967171)]; EvStatus [(78, 4294967171)];
        EvStatus [(79, 4294967171)]] ++ evs) /\
    fr_pa_start (mu_inj (mu n') (66, 0)%nat) = 0x600000 /\ fr_pa_start (mu_rec (mu n') (66, 0)%nat) = 0x700000 /\
    mu_bat (mu n') (66, 2)%nat = 0x80000 /\ fr_pa_start (mu_inj (mu n') (67, 0)%nat) = 0x40) reset_node.
Proof.
  assert (Hlive : ResetLive demo_chip_step 1) by exact demo_reset_live.
  eapply wp_mono; [refine (mudm_resetIOlink_correct demo_platform demo_chip_step 1 0 0 1 reset_node
    demo_link0 [1%nat] demo_lists _ _ _ _ _ _ _ _ _ _)|].
  - by left.
  - done.
  - done.
  - done.
  - eapply link_wf_ext, demo_link0_wf; done.
  - apply lists_wf_chain, demo_conn_wf.
  - apply reset_link_memory.
  - done.
  - apply reset_permitted.
  - apply Nat.ltb_lt. done.
  - intros r n' (R & _ & _ & T & ([V _ _ _] & [W _ _ _ _] & [B _ _]) & (E1 & E2 & E3 & _ & E5) & _ & _ & _ & _ & _ & _ & _ & _ & U).
    rewrite E1, ?E2, ?E3, ?E5 in *. split_and!; [done|exact T| | | |].
    + by injection V as -> _ _ _.
    + by injection W as -> _ _ _.
    + by apply (B 2%nat).
    + rewrite (ud_inj _ _ _ (U 67%nat ltac:(done))). reflexivity.
Defined.
