(* ===== verification/Personality.v ===== *)
(** * The personality of a node

    bgmudm/mudm_personality.c: what the driver takes from the configuration
    the firmware left (include/firmware/include/personality.h). *)

From S2P Require Import Prelude Descriptor.

Definition FW_BIT (b : Z) : Z := Z.shiftl 1 (63 - b).
Definition PERS_ENABLE_IsIoNode := FW_BIT 1.
Definition ND_CN_BRIDGE_PORT_6 := FW_BIT 29.
Definition ND_CN_BRIDGE_PORT_7 := FW_BIT 30.
Definition ND_CN_BRIDGE_PORT_10 := FW_BIT 31.

(** The members of [Personality_Kernel_t] and [Personality_Networks_t] that
    are read; coordinates in the order A to E. *)
Record Personality_t := mkPers {
  p_UCI : Z; p_NodeConfig : Z; p_FreqMHz : Z; p_BlockID : Z; p_NetFlags2 : Z;
  p_coord : list Z; p_cnBridge : list Z }.

Definition microsec2cycles (p : Personality_t) (microseconds : Z) : Z := u64 (microseconds * p_FreqMHz p).
Definition getUCI (p : Personality_t) : Z := p_UCI p.

(** The personality may be absent. *)
Definition getCNportOnIOnode (personality : option Personality_t) : Z :=
  let io_port := MUHWI_PACKET_RETURN_FROM_IO_NODE_USING_IO_PORT in
  match personality with
  | None => io_port
  | Some p =>
    let flag b := negb (Z.land (p_NetFlags2 p) b =? 0) in
    let io_port := if flag ND_CN_BRIDGE_PORT_6 then MUHWI_PACKET_RETURN_FROM_IO_NODE_USING_TORUS_PORT_6 else io_port in
    let io_port := if flag ND_CN_BRIDGE_PORT_7 then MUHWI_PACKET_RETURN_FROM_IO_NODE_USING_TORUS_PORT_7 else io_port in
    if flag ND_CN_BRIDGE_PORT_10 then MUHWI_PACKET_RETURN_FROM_IO_NODE_USING_IO_PORT else io_port
  end.

(** [temp = (temp << 6) | coordinate], from A to E. *)
Definition pack_coords (l : list Z) : Z := foldl (fun temp c => Z.lor (u32 (Z.shiftl temp 6)) c) 0 l.
Definition get_my_torus_addr (p : Personality_t) : Z :=
  let temp := pack_coords (p_coord p) in
  if negb (Z.land (p_NodeConfig p) PERS_ENABLE_IsIoNode =? 0) then Z.lor temp 0x80000000 else temp.
Definition get_my_bridging_torus_addr (p : Personality_t) : Z := pack_coords (p_cnBridge p).
Definition get_BlockID (p : Personality_t) : Z := p_BlockID p.

(** ** The address of a node *)

(** Coordinate number [i] of an address. *)
Definition coord_of (addr : Z) (i : nat) : Z := Z.land (Z.shiftr addr (6 * (4 - Z.of_nat i))) 63.

Lemma shift_disjoint n t c : 0 <= n -> 0 <= c < 2 ^ n -> Z.land (t * 2 ^ n) c = 0.
Proof.
  intros Hn Hc. apply Z.bits_inj'. intros k Hk. rewrite Z.land_spec, Z.bits_0. destruct (Z.ltb_spec k n).
  - by rewrite Z.mul_pow2_bits_low.
  - by rewrite <- (Z.mod_small c (2 ^ n)), Z.mod_pow2_bits_high, andb_false_r by lia.
Qed.
Lemma pack_step temp c : 0 <= temp < 2 ^ 24 -> 0 <= c < 64 ->
  Z.lor (u32 (Z.shiftl temp 6)) c = temp * 64 + c.
Proof.
  intros Ht Hc. rewrite Z.shiftl_mul_pow2, u32_small by lia. apply lor_disjoint, (shift_disjoint 6); lia.
Qed.
Lemma pack_five a b c d e : 0 <= a < 64 -> 0 <= b < 64 -> 0 <= c < 64 -> 0 <= d < 64 -> 0 <= e < 64 ->
  pack_coords [a; b; c; d; e] = (((a * 64 + b) * 64 + c) * 64 + d) * 64 + e.
Proof.
  intros. unfold pack_coords. cbn [foldl].
  rewrite (pack_step 0), (pack_step a), (pack_step (a * 64 + b)), (pack_step ((a * 64 + b) * 64 + c)),
    (pack_step (((a * 64 + b) * 64 + c) * 64 + d)) by lia. lia.
Qed.
Lemma coord_of_div addr i : (i < 5)%nat -> coord_of addr i = (addr / 64 ^ (4 - Z.of_nat i)) mod 64.
Proof.
  intros Hi. unfold coord_of. change 63 with (Z.ones 6). rewrite Z.land_ones, Z.shiftr_div_pow2 by lia.
  by rewrite Z.pow_mul_r by lia.
Qed.
(** Peel the digits of an address in base 64, with something above. *)
Lemma coords_read l top : length l = 5%nat -> Forall (fun c => 0 <= c < 64) l ->
  forall i c, l !! i = Some c -> coord_of (pack_coords l + top * 2 ^ 30) i = c.
Proof.
  intros Hl Hr i x Hi. destruct l as [|a [|b [|c [|d [|e [|]]]]]]; try done.
  repeat (apply list.Forall_cons in Hr as [? Hr]). rewrite pack_five by done.
  pose proof (lookup_lt_Some _ _ _ Hi) as Hlt. rewrite coord_of_div by done.
  assert (Hd : forall q r, 0 <= r < 64 -> (q * 64 + r) mod 64 = r /\ (q * 64 + r) / 64 = q).
  { intros q r Hq. rewrite Z.div_add_l, Z.div_small, Z.add_comm, Z.mod_add, Z.mod_small by lia. split; lia. }
  set (A := a + top * 64). assert (HA : A mod 64 = a) by (subst A; rewrite Z.mod_add, Z.mod_small; lia).
  replace (_ + top * 2 ^ 30) with ((((A * 64 + b) * 64 + c) * 64 + d) * 64 + e) by (subst A; lia).
  assert (Hs : forall v k, (k < 5)%nat -> v / 64 ^ Z.of_nat (S k) = v / 64 / 64 ^ Z.of_nat k).
  { intros v k _. rewrite Nat2Z.inj_succ, Z.pow_succ_r, Z.div_div by lia. done. }
  replace (4 - Z.of_nat i) with (Z.of_nat (4 - i)) by lia.
  destruct i as [|[|[|[|[|]]]]]; cbn in Hi; try done; injection Hi as <-; cbn [Nat.sub];
    rewrite ?Hs, ?(fun q r H => proj2 (Hd q r H)) by (done || lia); cbn [Z.of_nat]; rewrite Z.div_1_r;
    first [exact HA|by apply Hd].
Qed.

Definition is_io_node (p : Personality_t) : bool := negb (Z.land (p_NodeConfig p) PERS_ENABLE_IsIoNode =? 0).

Lemma pack_coords_range l : length l = 5%nat -> Forall (fun c => 0 <= c < 64) l -> 0 <= pack_coords l < 2 ^ 30.
Proof.
  intros Hl Hr. destruct l as [|a [|b [|c [|d [|e [|]]]]]]; try done.
  repeat (apply list.Forall_cons in Hr as [? Hr]). rewrite pack_five by done. lia.
Qed.

(** The torus address of a node names the five coordinates of the
    personality, six bits each, and its top bit says whether the node is an
    I/O node; the address of the bridging node names that node's
    coordinates. *)
Theorem torus_address_roundtrip (p : Personality_t) :
  length (p_coord p) = 5%nat -> Forall (fun c => 0 <= c < 64) (p_coord p) ->
  length (p_cnBridge p) = 5%nat -> Forall (fun c => 0 <= c < 64) (p_cnBridge p) ->
  0 <= get_my_torus_addr p < 2 ^ 32 /\
  (forall i c, p_coord p !! i = Some c -> coord_of (get_my_torus_addr p) i = c) /\
  Z.testbit (get_my_torus_addr p) 31 = is_io_node p /\
  (forall i c, p_cnBridge p !! i = Some c -> coord_of (get_my_bridging_torus_addr p) i = c).
Proof.
  intros H1 H2 H3 H4. pose proof (pack_coords_range _ H1 H2) as R1.
  assert (E : get_my_torus_addr p = pack_coords (p_coord p) + (if is_io_node p then 2 else 0) * 2 ^ 30).
  { unfold get_my_torus_addr, is_io_node. destruct (_ =? 0); cbn [negb]; [lia|].
    rewrite Z.lor_comm, (lor_disjoint 0x80000000); [lia|]. apply (shift_disjoint 31 1); lia. }
  refine (conj _ (conj _ (conj _ _))).
  - rewrite E. destruct (is_io_node p); lia.
  - intros i c Hi. rewrite E. by apply coords_read.
  - rewrite E. destruct (is_io_node p).
    + replace (_ + 2 * 2 ^ 30) with (pack_coords (p_coord p) + 1 * 2 ^ 31) by lia.
      change 31 with (0 + 31) at 2. by rewrite <- Z.div_pow2_bits, Z.div_add, Z.div_small by lia.
    + rewrite Z.add_0_r, <- (Z.mod_small _ (2 ^ 30)) by lia. by rewrite Z.mod_pow2_bits_high.
  - intros i c Hi. unfold get_my_bridging_torus_addr. rewrite <- (Z.add_0_r (pack_coords _)).
    by apply (coords_read _ 0).
Qed.

(** An I/O node at (1, 2, 3, 4, 5) whose bridge is at (6, 7, 8, 9, 1). *)
Definition demo_pers : Personality_t := mkPers 77 PERS_ENABLE_IsIoNode 1600 7 0 [1; 2; 3; 4; 5] [6; 7; 8; 9; 1].

Example torus_address_roundtrip_witness :
  coord_of (get_my_torus_addr demo_pers) 2 = 3 /\ Z.testbit (get_my_torus_addr demo_pers) 31 = true /\ coord_of (get_my_bridging_torus_addr demo_pers) 4 = 1.
Proof.
  destruct (torus_address_roundtrip demo_pers) as (_ & A & B & C);
    [done|repeat constructor; done|done|repeat constructor; done|].
  split_and!; [by apply A|exact B|by apply C].
Defined.
