(* ===== verification/Init.v ===== *)
(** * Start of the driver

    [mudm_init] of bgmudm/mudm_init.c with [alloc_pkt_list_object]
    (mudm_pkt.c), [rdma_init] (rdma_object.c) and [bcast_init]: the regions
    are allocated in order and noted in the cleanup table, the pools and
    connection blocks are put on their free lists, and the FIFOs and base
    addresses of both I/O links are taken and started.  Log entries, the
    wakeup unit and the start time are left out. *)

From Stdlib Require Import FunctionalExtensionality.
From S2P Require Import Prelude Chain Bytes Descriptor State Inject Concrete Memory Pools Pkt Rdma ConnList Connect Msg Kernel Reset Cleanup Activate LinkReset Personality.

Definition init_subgroup_id (i : nat) : nat := nth i [66; 67]%nat 0%nat.
Definition MCONTEXT_INDEX_VA := MCONTEXT_INDEX - 2.
Definition MUDM_MIN_INJ_REGION := 512 * 64.
Definition TORUS_PACKET_SIZE := 544.

(** What the compiler lays out: sizes and an offset in [struct my_context]. *)
Record layout := mkLayout {
  sizeof_my_context : Z; sizeof_MU_subgroup_memory : Z; sizeof_pkt_controls : Z; sizeof_pkt_descriptor : Z;
  sizeof_rdma_obj_controls : Z; sizeof_rdma_object : Z; off_bcast_rdma_object : Z }.

(** What memory holds that the driver has not written: locals that are not
    initialised, and what lies behind the array of packet descriptors of a
    pool, if anything does. *)
Record unwritten := mkUnwritten {
  u_Priority : Z; u_core_region : mudm_memory_region; u_SoftwareBytes : SoftwareBytes_t;
  u_behind : pool_id -> option pkt_descriptor }.

Record mudm_init_info := mkInfo {
  callers_version : Z; req_inbound_connections : Z;
  has_allocate : bool; has_status : bool; has_recv_conn : bool; has_recv : bool; has_free : bool;
  ii_personality : option Personality_t }.
Record mudm_cfg_info := mkCfg {
  cfg_version : Z; cfg_errno : Z; cfg_max_connections : Z; cfg_num_io_links : Z; cfg_wakeupActive : Z }.
#[export] Instance FieldsOf_cfg : FieldsOf mudm_cfg_info := fun c =>
  mkCfg (cfg_version c) (cfg_errno c) (cfg_max_connections c) (cfg_num_io_links c) (cfg_wakeupActive c).

(** ** Memory as [zero_memregion] leaves it *)

Definition zero_bro : bcast_rdma_object :=
  mkBro 0 (mkRbsc (mkMrb 0 0 0 0 0 0 0 0) 0 0) zero_desc 0 0 0 0 0 0 0.
Definition zero_musm : MU_subgroup_memory :=
  mkMusm (mkSg (fun _ => zero_shadow) false 0) (mkSg (fun _ => zero_shadow) false 0) (mkBat 0 0 false (fun _ => 0))
    [] [] 0 0 0 0 (mkRegion 0 0 0) (mkRegion 0 0 0).
(** The members of [struct my_context]; the locks in it are open.  What the
    context only points to, the cleanup table and the hardware are not part
    of it. *)
Definition zero_context (w : world) : world := {|
  magic := 0; m_state := 0; mudm_context_phys_addr := 0; my_using_IO_port := 0; myTorusAddress := 0;
  mybridgingCNnode := 0; myUCI := 0; myBlockID := 0; max_connections := 0; poll_active := 0;
  wakeupActive := 0; StuckState := 0; m_iMemoryFifoDescriptor := zero_desc; rget_memfifo_sent := 0;
  conn_list := conn_list w; conn_freelist := None; conn_pendlist := fun _ => None;
  conn_activelist := fun _ => None; conn_abortlist := fun _ => None;
  inj := inj w; inj_state := fun _ => 0; pools := pools w; rdma := rdma w; recf := recf w;
  sys_rec_fifo_id := fun _ => 0; remote_BlockID := fun _ => 0; link4reset := fun _ => 0;
  system_bcast := mkMb zero_desc zero_bro 0 0 0; num_compute_nodes := 0; largest_node_corner := 0;
  clean_table := clean_table w; mem := mem w;
  held := filter (fun k => k <> ConnLock /\ k <> InjLock 0 /\ k <> InjLock 1) (held w);
  trace := trace w; hw := hw w |}.

(** [for (i = ...) { alloc_status = ...; if (alloc_status) goto ALLOC_ERROR; }] *)
Fixpoint each {S} (l : list nat) (body : nat -> M S Z) : M S Z :=
  match l with
  | [] => ret 0
  | i :: l => alloc_status <- body i ;; if negb (alloc_status =? 0) then ret alloc_status else each l body
  end.
Definition io_links : list nat := [0; 1]%nat.

Section with_platform.
Context (P : platform) (ly : layout) (unw : unwritten).

(** ** Packet pools (mudm_pkt.c) *)

(** The descriptors point to their packets and to the next one; the last
    NULL is written behind the array. *)
Definition init_pktd (base_paddr packetsize : Z) (i : nat) : pkt_descriptor :=
  mkPktd (Some (S i)) None 0 0 0 (u64 (base_paddr + Z.of_nat i * packetsize)) 0 None.
Definition pktd_array (base_paddr packetsize : Z) (behind : pkt_descriptor) (num_pkts : nat) : gmap nat pkt_descriptor :=
  <[num_pkts := behind <| pk_next := None |>]>
    (list_to_map (map (fun i => (i, init_pktd base_paddr packetsize i)) (seq 0 num_pkts))).

(** The status, and whether the controls were allocated. *)
Definition alloc_pkt_list_object (p : pool_id) (max_connections packetsize : Z) : MW (Z * bool) :=
  r <- alloc_object P (sizeof_pkt_controls ly) (Some FreeMem) ;;
  if negb (fst r =? 0) then ret (fst r, false) else
  SPIN_UNLOCK (PktLock p) ;;;
  upd_pool p (fun _ => mkPc max_connections packetsize 0 ∅ None None 0) ;;;
  r <- alloc_object P (u64 (max_connections * packetsize)) (Some FreeMem) ;;
  match snd r with
  | None => ret (fst r, true)
  | Some pkt_list_region =>
    upd_pool p (fun pc => pc <| pkt_list_base_pa := mr_base_paddr pkt_list_region |>) ;;;
    r <- alloc_object P (u64 (max_connections * sizeof_pkt_descriptor ly)) (Some FreeMem) ;;
    if negb (fst r =? 0) then ret (fst r, true) else
    behind <- deref (u_behind unw p) ;;
    upd_pool p (fun pc => pc <| pkt_free_list := Some 0%nat |> <| pkt_reqid_list := None |>
      <| pkt_desc_list := pktd_array (mr_base_paddr pkt_list_region) packetsize behind (Z.to_nat max_connections) |>) ;;;
    ret (0, true)
  end.

(** ** RDMA objects (rdma_object.c) *)

(** One turn of the loop; [num_mu_elements] and [compare_block_offset] are
    carried from link to link.  The status of the allocation is not looked
    at: the address of a region that was not filled in is NULL. *)
Definition rdma_init_link (rss : Z) (i : nat) (v : Z * Z) : MW (Z * Z) :=
  let '(num_mu_elements, compare_block_offset) := v in
  r <- alloc_object P (u64 (rss * 2 + sizeof_rdma_obj_controls ly + num_mu_elements * sizeof_rdma_object ly))
         (Some FreeMem) ;;
  rdma_mregion <- deref (snd r) ;;
  let base_paddr := mr_base_paddr rdma_mregion in
  let lowbit_mask := rss - 1 in
  let aligned := Z.land base_paddr lowbit_mask =? 0 in
  let pa_start := if aligned then base_paddr else Z.land (u64 (base_paddr + rss)) (Z.lxor lowbit_mask u64_max) in
  let compare_block_offset := if aligned then compare_block_offset else u64 (pa_start - base_paddr) in
  let base_va := Z.to_nat ((compare_block_offset - (pa_start - base_paddr)) / SIZEOF_mu_element) in
  let num_mu_elements := u64 (num_mu_elements - 1) in
  modify (fun w => w <| hw ::= fun h => h <| hw_mue ::= <[i := fun _ => mkMue 0 0]> |> |>) ;;;
  upd_roc i (fun _ => mkRoc num_mu_elements 0 0 pa_start rss ∅ None None
    (base_va + Z.to_nat num_mu_elements) (u64 (num_mu_elements * SIZEOF_mu_element))) ;;;
  rdma_obj_init i base_va ;;;
  ret (num_mu_elements, compare_block_offset).

Definition rdma_init (max_connections : Z) : MW Z :=
  let '(rss, num_mu_elements) := compute_rdma_section_size max_connections (Z.of_nat NUM_IO_LINKS) in
  v <- rdma_init_link rss 0 (num_mu_elements, 0) ;;
  rdma_init_link rss 1 v ;;;
  ret 0.

(** ** Broadcast *)

Definition bcast_init (i : nat) : MW unit :=
  w <- gets (fun w => w) ;;
  let offset := rdma_bcast_controls_offset (rdma w i) in
  modify (fun w => w <| system_bcast ::= fun mb =>
    mb <| RDMA_bcast_control ::= fun b => b
            <| b_rdma_object_pa := u64 (mudm_context_phys_addr w + off_bcast_rdma_object ly) |>
            <| b_counter_info ::= fun c => c <| rbsc_mu_counter_offset := offset |> |>
            <| b_mu_counter_bcast_addr := rdma_bcast_controls (rdma w i) |> |>
       <| mb_IdToInjFifo := i |> <| mb_memfifo_sent := 0 |>
       <| mb_iMemoryFifoDescriptor := InitCollectiveMemoryFIFODescriptor (myTorusAddress w) (u16 (sys_rec_fifo_id w i)) |> |>) ;;;
  d <- deref (InitBroadcastDirectPut offset 0) ;;
  modify (fun w => w <| system_bcast ::= fun mb =>
    mb <| RDMA_bcast_control ::= fun b => b <| b_iDirectPutDescriptor := d |> |> |>).

(** ** [mudm_init] *)

(** The subgroup of link [i]: its memory and its base addresses. *)
Definition init_subgroup (context_va : Z) (i : nat) : MN Z :=
  r <- in_drv (alloc_object P (sizeof_MU_subgroup_memory ly) (Some (FreeMuSubgroupMem i))) ;;
  if negb (fst r =? 0) then ret (fst r) else
  w <- gets drv ;;
  upd_musm i (fun _ => zero_musm <| subgroupID := init_subgroup_id i |>
    <| batids := seq 0 NUM_DATA_COUNTERS_PER_SUBGROUP |>
    <| batvalues := <[Z.to_nat MCONTEXT_INDEX_VA := context_va]> (<[Z.to_nat RDMA_COUNTER_INDEX := roc_base_pa (rdma w i)]>
         (<[Z.to_nat MCONTEXT_INDEX := mudm_context_phys_addr w]> (replicate NUM_DATA_COUNTERS_PER_SUBGROUP 0))) |>) ;;;
  activate_base_address_table i ;;;
  ret 0.

Definition init_injfifo (temp : Z) (i : nat) : MN Z :=
  r <- in_drv (alloc_object P (u64 temp) (Some (FreeMuInjRegion i))) ;;
  match snd r with
  | None => ret (fst r)
  | Some region =>
    upd_musm i (fun m => m <| injRegion := region |>) ;;;
    in_drv (SPIN_UNLOCK (InjLock i)) ;;;
    activate_injfifos (u_Priority unw) i ;;;
    ret 0
  end.

Definition init_recfifo (temp : Z) (i : nat) : MN Z :=
  r <- in_drv (alloc_object P (u64 temp) (Some (FreeRecFifo i))) ;;
  match snd r with
  | None => ret (fst r)
  | Some region =>
    upd_musm i (fun m => m <| recRegion := region |>) ;;;
    activate_recfifos i ;;;
    ret 0
  end.

(** [update_IdToInjFifo] writes through the pointer to the controls. *)
Definition update_IdToInjFifo (pc : pool_id * bool) (l : nat) : MW unit :=
  if snd pc then upd_pool (fst pc) (fun c => c <| IdToInjFifo := l |>) else fault.

(** The link is open; what the driver sees of its FIFOs follows. *)
Definition init_link (pointers : bool * bool) (i : nat) : MN unit :=
  in_drv (modify (fun w => w <| sys_rec_fifo_id ::= <[i := init_sys_rec_fifo_id i]> |>)) ;;;
  adopt_injfifo i ;;; adopt_recfifo i ;;; adopt_hw i ;;;
  in_drv (modify (fun w => w <| inj_state ::= <[i := 1]> |>)) ;;;
  in_drv (update_IdToInjFifo (PacketControls i, fst pointers) i) ;;;
  in_drv (update_IdToInjFifo (SmallpaObjCtls i, snd pointers) i).

Definition init_descriptor : MW unit :=
  w <- gets (fun w => w) ;;
  let sw := wr sb_options MUDM_NO_IOLINK (wr sb_torus_source_node (myTorusAddress w) (u_SoftwareBytes unw)) in
  match InitPt2PtMemoryFIFODescriptor sw 0 0 (myTorusAddress w) NODE2NODE 0 (u16 (sys_rec_fifo_id w 0%nat)) with
  | Some d => modify (fun w => w <| m_iMemoryFifoDescriptor := d |>)
  | None => ret tt
  end.

(** The context, from the callbacks on to the RDMA objects. *)
Definition init_context (ii : mudm_init_info) (max_conn : Z) : MW Z :=
  modify (fun w => w <| magic := MUDM_MAGIC |> <| wakeupActive := 0 |>) ;;;
  p <- deref (ii_personality ii) ;;
  modify (fun w => w <| myTorusAddress := get_my_torus_addr p |>
    <| mybridgingCNnode := get_my_bridging_torus_addr p |> <| myUCI := getUCI p |> <| myBlockID := get_BlockID p |>) ;;;
  rdma_init max_conn.

(** Sizes of the FIFOs: [temp] is a signed 32-bit integer. *)
Definition inj_region_size (max_conn : Z) : Z :=
  let temp := s32 (BGQ_MU_DESCRIPTOR_SIZE_IN_BYTES * max_conn * 4) in
  if temp <? MUDM_MIN_INJ_REGION then MUDM_MIN_INJ_REGION else temp.
Definition rec_region_size (max_conn : Z) : Z :=
  if max_conn <=? 16 then TORUS_PACKET_SIZE * 64 else s32 (TORUS_PACKET_SIZE * max_conn * 4).

Definition ALLOC_ERROR (cfg : mudm_cfg_info) : MN (Z * mudm_cfg_info) :=
  process_cleanup_table P ;;; ret (- ENOMEM, cfg).

(** The packet pools; the status of their allocation is ignored.  Are the
    pointers to the controls of a link set? *)
Definition init_pools (max_conn : Z) : MW (nat -> bool * bool) :=
  pc0 <- alloc_pkt_list_object (PacketControls 0) max_conn 512 ;;
  pc1 <- alloc_pkt_list_object (PacketControls 1) max_conn 512 ;;
  sm0 <- alloc_pkt_list_object (SmallpaObjCtls 0) max_conn 64 ;;
  sm1 <- alloc_pkt_list_object (SmallpaObjCtls 1) max_conn 64 ;;
  ret (fun i => match i with O => (snd pc0, snd sm0) | _ => (snd pc1, snd sm1) end).

(** The end of [mudm_init]. *)
Definition open_links (set_pointers : nat -> bool * bool) : MN unit :=
  init_link (set_pointers 0%nat) 0 ;;;
  init_link (set_pointers 1%nat) 1 ;;;
  in_drv (bcast_init 0) ;;;
  in_drv init_descriptor ;;;
  in_drv (modify (fun w => w <| m_state := MUDM_ACTIVE |>)).

(** From the packet pools on. *)
Definition init_links (cfg : mudm_cfg_info) (max_conn : Z) : MN (Z * mudm_cfg_info) :=
  set_pointers <- in_drv (init_pools max_conn) ;;
  alloc_status <- each io_links (init_injfifo (inj_region_size max_conn)) ;;
  if negb (alloc_status =? 0) then ALLOC_ERROR cfg else
  alloc_status <- each io_links (init_recfifo (rec_region_size max_conn)) ;;
  if negb (alloc_status =? 0) then ALLOC_ERROR cfg else
  alloc_status <- in_drv (conn_list_init P max_conn) ;;
  if negb (alloc_status =? 0) then ret (alloc_status, cfg) else
  open_links set_pointers ;;;
  ret (0, cfg).

(** From the subgroups on. *)
Definition init_subgroups (context_va : Z) (cfg : mudm_cfg_info) (max_conn : Z) : MN (Z * mudm_cfg_info) :=
  alloc_status <- each io_links (init_subgroup context_va) ;;
  if negb (alloc_status =? 0) then ALLOC_ERROR cfg else init_links cfg max_conn.

(** [mcontext->free] is still NULL when the first region does not fit in
    the table. *)
Definition mudm_init (ii : mudm_init_info) (cfg : mudm_cfg_info) : MN (Z * mudm_cfg_info) :=
  let cfg := cfg <| cfg_version := MUDM_VERSION |> <| cfg_errno := 0 |> <| cfg_num_io_links := Z.of_nat NUM_IO_LINKS |> in
  if negb (cfg_version cfg =? callers_version ii) then ret (- EBADRQC, cfg <| cfg_errno := EBADRQC |>) else
  let max_conn := if req_inbound_connections ii <? 4 then 4 else req_inbound_connections ii in
  let cfg := cfg <| cfg_max_connections := max_conn |> in
  if negb (has_allocate ii && has_status ii && has_recv_conn ii && has_recv ii && has_free ii)
  then ret (- EINVAL, cfg <| cfg_errno := EINVAL |>) else
  o <- in_drv (cb_allocate P (sizeof_my_context ly)) ;;
  match o with
  | None => in_drv (free_mem P (u_core_region unw)) ;;; ret (- ENOMEM, cfg)
  | Some core_region =>
    in_drv (modify (fun w => (zero_context w) <| mudm_context_phys_addr := mr_base_paddr core_region |>
      <| max_connections := max_conn |> <| my_using_IO_port := getCNportOnIOnode (ii_personality ii) |>)) ;;;
    alloc_status <- in_drv (add_object core_region (Some FreeMem)) ;;
    if negb (alloc_status =? 0) then fault else
    let cfg := cfg <| cfg_wakeupActive := 0 |> in
    alloc_status <- in_drv (init_context ii max_conn) ;;
    if negb (alloc_status =? 0) then ALLOC_ERROR cfg else
    init_subgroups (mr_base_vaddr core_region) cfg max_conn
  end.
End with_platform.
