(* ===== verification/Start.v ===== *)
(** * What each step of the start builds

    The packet pools, RDMA objects and connection blocks that [mudm_init] of
    Init.v allocates, the base addresses and FIFOs of both links, and the
    state [started] in which the driver runs.  The allocator is any that has
    room ([RoomyAlloc]); the sizes of the structures are those of any layout
    of moderate size ([layout_ok]). *)

From Stdlib Require Import FunctionalExtensionality.
From S2P Require Import Prelude Chain Bytes Descriptor State Inject Concrete Memory Pools Pkt Rdma ConnList Connect Msg Kernel Reset Cleanup Activate LinkReset Personality Init.

(** ** The allocator *)

(** The region a request of [n] bytes gets. *)
Record good_region (n : Z) (r : mudm_memory_region) : Prop := mkGood {
  go_length : mr_length r = n;
  go_va : 0 <= mr_base_vaddr r /\ mr_base_vaddr r mod 64 = 0 /\ mr_base_vaddr r + n < 2 ^ 64;
  go_pa : 0 <= mr_base_paddr r /\ mr_base_paddr r + n < 2 ^ 64 }.
(** An allocator with room that does not call back into the driver. *)
Class RoomyAlloc (P : platform) : Prop := roomy_alloc : forall n w, 0 < n < 2 ^ 44 ->
  wp (cb_allocate P n) (fun o w' => w' = w /\ exists r, o = Some r /\ good_region n r) w.
(** The sizes of structures are positive and of moderate size. *)
Record layout_ok (ly : layout) : Prop := mkLay {
  lay_context : 0 < sizeof_my_context ly < 2 ^ 20;
  lay_subgroup : 0 < sizeof_MU_subgroup_memory ly < 2 ^ 20;
  lay_controls : 0 < sizeof_pkt_controls ly < 2 ^ 20;
  lay_descriptor : 0 < sizeof_pkt_descriptor ly < 2 ^ 20;
  lay_roc : 0 < sizeof_rdma_obj_controls ly < 2 ^ 20;
  lay_ro : 0 < sizeof_rdma_object ly < 2 ^ 20 }.

Definition plain_entries (rs : list mudm_memory_region) : list cleanup_entry :=
  map (fun r => mkCe r (Some FreeMem) 0) rs.
Lemma length_plain rs : length (plain_entries rs) = length rs.
Proof. apply length_map. Qed.
Definition with_entries (es : list cleanup_entry) (w : world) : world := w <| clean_table ::= fun t => t ++ es |>.

Lemma with_entries_app es es' w : with_entries es' (with_entries es w) = with_entries (es ++ es') w.
Proof. unfold with_entries. destruct w. unfold upd_field. cbn. by rewrite app_assoc. Qed.
(** Table entries and pools are written independently. *)
Lemma with_entries_pool es p u w :
  with_entries es (w <| pools ::= fun f => <[p := u (f p)]> f |>) = (with_entries es w) <| pools ::= fun f => <[p := u (f p)]> f |>.
Proof. by destruct w. Qed.
Lemma pool_pool p u u' w :
  w <| pools ::= fun f => <[p := u (f p)]> f |> <| pools ::= fun f => <[p := u' (f p)]> f |>
  = w <| pools ::= fun f => <[p := u' (u (f p))]> f |>.
Proof.
  destruct w. unfold upd_field. cbn. f_equal. apply functional_extensionality. intros q.
  destruct (decide (q = p)) as [->|Hq]; [|by rewrite !fn_lookup_insert_ne]. by rewrite !fn_lookup_insert.
Qed.
Lemma pool_build p u1 u2 u3 e1 e2 e3 w
    (put := fun u (w : world) => w <| pools ::= fun f => <[p := u (f p)]> f |>) :
  put u3 (with_entries [e3] (put u2 (with_entries [e2] (put u1 (with_entries [e1] w)))))
  = put (fun c => u3 (u2 (u1 c))) (with_entries [e1; e2; e3] w).
Proof.
  subst put. cbv beta. rewrite (with_entries_pool [e2] p u1), with_entries_app, (pool_pool p u1 u2).
  rewrite (with_entries_pool [e3] p (fun c => u2 (u1 c))), with_entries_app. apply (pool_pool p (fun c => u2 (u1 c)) u3).
Qed.
Lemma unlock_none l w : held w = [] -> w <| held ::= filter (fun x => x <> l) |> = w.
Proof. intros H. destruct w. cbn in H. by subst. Qed.
Lemma wp_unlock_none l w (Q : unit -> world -> Prop) : held w = [] -> Q tt w -> wp (SPIN_UNLOCK l) Q w.
Proof. intros H HQ. apply wp_modify. by rewrite unlock_none. Qed.

Section with_platform.
Context (P : platform) `{!RoomyAlloc P} (ly : layout) (Hly : layout_ok ly) (unw : unwritten).

Lemma wp_alloc_roomy n fn (Q : Z * option mudm_memory_region -> world -> Prop) w :
  0 < n < 2 ^ 44 -> (length (clean_table w) < MAX_CLEANUP_ENTRIES)%nat ->
  (forall r, good_region n r -> Q (0, Some r) (with_entries [mkCe r fn 0] w)) -> wp (alloc_object P n fn) Q w.
Proof.
  intros Hn Ht HQ. apply wp_bind, wp_gets. rewrite decide_False by lia. apply wp_bind.
  eapply wp_mono; [by apply roomy_alloc|]. intros o w' (-> & r & -> & Hr). by apply wp_bind, wp_modify, wp_ret, HQ.
Qed.
Lemma wp_alloc_full n fn (Q : Z * option mudm_memory_region -> world -> Prop) w :
  length (clean_table w) = MAX_CLEANUP_ENTRIES -> Q (- ENOMEM, None) w -> wp (alloc_object P n fn) Q w.
Proof. intros Ht HQ. apply wp_bind, wp_gets. rewrite decide_True by lia. by apply wp_ret. Qed.

(** ** A fresh packet pool: one descriptor more than asked for *)

Record fresh_pool (n : nat) (packetsize : Z) (behind : pkt_descriptor) (pc : pkt_controls) : Prop := mkFp {
  fp_free : chain (pkt_desc_list pc) (pkt_free_list pc) (seq 0 (S n));
  fp_active : pkt_reqid_list pc = None;
  fp_inside : forall i, (i < n)%nat -> exists d, pkt_desc_list pc !! i = Some d /\
    message_pa d = u64 (pkt_list_base_pa pc + Z.of_nat i * packetsize) /\ req_id d = 0;
  fp_behind : pkt_desc_list pc !! n = Some (behind <| pk_next := None |>) }.

Lemma chain_array_behind {N} `{!Linked N} (g : nat -> N) (d : N) n :
  (forall i, nx (g i) = Some (S i)) -> nx d = None ->
  chain (<[n := d]> (list_to_map (map (fun i => (i, g i)) (seq 0 n)) : gmap nat N)) (Some 0%nat) (seq 0 (S n)).
Proof.
  intros Hg Hd. enough (H : forall k m, (m + k = n)%nat ->
    chain (<[n := d]> (list_to_map (map (fun i => (i, g i)) (seq 0 n)) : gmap nat N)) (Some m) (seq m (S k)))
    by (by apply H).
  induction k as [|k IH]; intros m Hm; cbn [seq]; (split; [done|]).
  - exists d. replace m with n by lia. split; [apply lookup_insert_eq|]. by rewrite Hd.
  - exists (g m). rewrite lookup_insert_ne, array_lookup, decide_True by lia. split; [done|].
    rewrite Hg. apply IH. lia.
Qed.

Lemma wp_alloc_pkt_list p max_conn packetsize behind (Q : Z * bool -> world -> Prop) w :
  held w = [] -> (length (clean_table w) + 3 <= MAX_CLEANUP_ENTRIES)%nat ->
  0 < max_conn < 2 ^ 19 -> 0 < packetsize <= 512 -> u_behind unw p = Some behind ->
  (forall rs pc, length rs = 3%nat -> fresh_pool (Z.to_nat max_conn) packetsize behind pc ->
     Q (0, true) ((with_entries (plain_entries rs) w) <| pools ::= <[p := pc]> |>)) ->
  wp (alloc_pkt_list_object P ly unw p max_conn packetsize) Q w.
Proof.
  intros Hh Ht Hm Hs Hb HQ. destruct Hly as [_ _ Hc Hd _ _]. unfold alloc_pkt_list_object.
  apply wp_bind, wp_alloc_roomy; [lia|lia|]. intros r1 G1. cbn [fst snd negb Z.eqb].
  apply wp_bind, wp_unlock_none; [done|]. apply wp_bind, wp_modify.
  rewrite (u64_small (max_conn * packetsize)), (u64_small (max_conn * sizeof_pkt_descriptor ly)) by nia.
  apply wp_bind, wp_alloc_roomy; [nia|cbn; rewrite length_app; cbn; lia|]. intros r2 G2. cbn [fst snd].
  apply wp_bind, wp_modify, wp_bind, wp_alloc_roomy; [nia|cbn; rewrite !length_app; cbn; lia|].
  intros r3 G3. cbn [fst snd negb Z.eqb]. apply wp_bind, (wp_deref _ behind); [done|].
  apply wp_bind, wp_modify, wp_ret. set (n := Z.to_nat max_conn) in *.
  set (h := pktd_array (mr_base_paddr r2) packetsize behind n). set (g := init_pktd (mr_base_paddr r2) packetsize).
  assert (Hc1 : chain h (Some 0%nat) (seq 0 (S n))) by (by apply chain_array_behind).
  assert (Hin : forall i, (i < n)%nat -> h !! i = Some (g i)).
  { intros i Hi. unfold h, pktd_array. by rewrite lookup_insert_ne, array_lookup, decide_True by lia. }
  assert (Hbe : h !! n = Some (behind <| pk_next := None |>)) by apply lookup_insert_eq.
  clearbody h. set (pc := mkPc max_conn packetsize (mr_base_paddr r2) h (Some 0%nat) None 0).
  set (u3 := fun pc : pkt_controls => pc <| pkt_free_list := Some 0%nat |> <| pkt_reqid_list := None |> <| pkt_desc_list := h |>).
  set (u2 := fun pc : pkt_controls => pc <| pkt_list_base_pa := mr_base_paddr r2 |>).
  set (u1 := fun _ : pkt_controls => mkPc max_conn packetsize 0 ∅ None None 0).
  refine (eq_ind_r (Q _) _ (pool_build p u1 u2 u3 (mkCe r1 (Some FreeMem) 0) (mkCe r2 (Some FreeMem) 0) (mkCe r3 (Some FreeMem) 0) w)).
  apply (HQ [r1; r2; r3] pc); [done|]. split; cbn; [done|done| |done].
  intros i Hi. exists (g i). split; [by apply Hin|done].
Qed.
End with_platform.
(** ** The RDMA objects *)

(** Where the compare area of a region starts: at its first multiple of
    [rss]. *)
Definition aligned (rss : Z) (r : mudm_memory_region) : bool := Z.land (mr_base_paddr r) (rss - 1) =? 0.
Definition area_start (rss : Z) (r : mudm_memory_region) : Z :=
  if aligned rss r then mr_base_paddr r
  else Z.land (u64 (mr_base_paddr r + rss)) (Z.lxor (rss - 1) u64_max).

Lemma land_mask k x : 0 <= k <= 64 -> 0 <= x < 2 ^ 64 ->
  Z.land x (Z.lxor (2 ^ k - 1) u64_max) = x / 2 ^ k * 2 ^ k.
Proof.
  intros Hk Hx. replace u64_max with (Z.ones 64) by done. rewrite Z.sub_1_r, <- Z.ones_equiv.
  rewrite <- (Z.mod_small x (2 ^ 64)), <- Z.land_ones, <- !Z.shiftl_mul_pow2, <- Z.shiftr_div_pow2 by lia.
  apply Z.bits_inj'. intros n Hn. rewrite Z.shiftl_spec, !Z.land_spec, Z.lxor_spec, !Z.testbit_ones_nonneg by lia.
  destruct (Z.ltb_spec n k).
  - rewrite (Z.testbit_neg_r _ (n - k)), (proj2 (Z.ltb_lt n 64)) by lia. by rewrite andb_false_r.
  - rewrite Z.shiftr_spec, Z.land_spec, Z.testbit_ones_nonneg, xorb_false_l by lia. replace (n - k + k) with n by lia.
    rewrite <- andb_assoc. by rewrite andb_diag.
Qed.

Lemma area_start_spec k n r : 0 <= k <= 39 -> good_region n r -> 2 ^ k <= n ->
  area_start (2 ^ k) r mod 2 ^ k = 0 /\ mr_base_paddr r <= area_start (2 ^ k) r < mr_base_paddr r + 2 ^ k.
Proof.
  intros Hk [_ _ [Hp1 Hp2]] Hn. unfold area_start, aligned. rewrite Z.sub_1_r, <- Z.ones_equiv, Z.land_ones by lia.
  assert (0 < 2 ^ k) by (apply Z.pow_pos_nonneg; lia).
  pose proof (Z.mod_pos_bound (mr_base_paddr r) (2 ^ k) ltac:(lia)). destruct (Z.eqb_spec (mr_base_paddr r mod 2 ^ k) 0).
  - split; lia.
  - rewrite u64_small, Z.ones_equiv, <- Z.sub_1_r, land_mask by lia.
    assert (Hq : (mr_base_paddr r + 2 ^ k) / 2 ^ k = mr_base_paddr r / 2 ^ k + 1).
    { rewrite <- (Z.mul_1_l (2 ^ k)) at 1. by rewrite Z.div_add by lia. }
    rewrite Hq. pose proof (Z.div_mod (mr_base_paddr r) (2 ^ k) ltac:(lia)). rewrite Z.mod_mul by lia. split; lia.
Qed.

(** Fresh objects: [k] of them, whose counters have the physical addresses
    from [start] on and are polled at element [base] on. *)
Record fresh_roc (k base : nat) (start : Z) (c : rdma_obj_controls) : Prop := mkFo {
  fo_num : num_obj c = Z.of_nat k;
  fo_free : chain (rdma_obj_list c) (rdma_free_list c) (seq 0 k);
  fo_active : counter_list c = None;
  fo_obj : forall i, (i < k)%nat -> exists o, rdma_obj_list c !! i = Some o /\
    ro_mue o = (base + i)%nat /\ rdma_object_pa o = start + Z.of_nat i * SIZEOF_mu_element /\ local_request_id o = 0;
  fo_start : roc_base_pa c = start;
  fo_bcast : rdma_bcast_controls c = (base + k)%nat /\ rdma_bcast_controls_offset c = Z.of_nat k * SIZEOF_mu_element }.

(** The counters of a link are zero, its objects are those given. *)
Definition with_rdma (l : nat) (c : rdma_obj_controls) (w : world) : world :=
  w <| hw ::= fun h => h <| hw_mue ::= <[l := fun _ => mkMue 0 0]> |> |> <| rdma ::= <[l := c]> |>.

Lemma with_entries_rdma es l c w : with_entries es (with_rdma l c w) = with_rdma l c (with_entries es w).
Proof. by destruct w. Qed.
Lemma roc_roc l c u w :
  w <| rdma ::= fun f => <[l := c]> f |> <| rdma ::= fun f => <[l := u (f l)]> f |> = w <| rdma ::= <[l := u c]> |>.
Proof.
  destruct w. unfold upd_field. cbn. f_equal. apply functional_extensionality. intros q.
  destruct (decide (q = l)) as [->|Hq]; [|by rewrite !fn_lookup_insert_ne]. by rewrite !fn_lookup_insert.
Qed.

Section with_platform.
Context (P : platform) `{!RoomyAlloc P} (ly : layout) (Hly : layout_ok ly).

Lemma wp_rdma_init_link k i num off (Q : Z * Z -> world -> Prop) w (rss := 2 ^ k) :
  0 <= k <= 36 -> 1 < num < 2 ^ 21 -> 0 <= off -> held w = [] ->
  (length (clean_table w) < MAX_CLEANUP_ENTRIES)%nat ->
  (forall n r c, 2 * rss <= n -> good_region n r ->
     fresh_roc (Z.to_nat (num - 1)) (if aligned rss r then Z.to_nat (off / SIZEOF_mu_element) else 0) (area_start rss r) c ->
     Q (num - 1, if aligned rss r then off else area_start rss r - mr_base_paddr r)
       (with_rdma i c (with_entries (plain_entries [r]) w))) ->
  wp (rdma_init_link P ly rss i (num, off)) Q w.
Proof.
  intros Hk Hn Ho Hh Ht HQ. destruct Hly as [_ _ _ _ L1 L2].
  assert (Hp : 0 < rss <= 2 ^ 36) by (subst rss; split; [apply Z.pow_pos_nonneg|apply Z.pow_le_mono_r]; lia).
  assert (Hm : 0 < num * sizeof_rdma_object ly < 2 ^ 41) by nia.
  unfold rdma_init_link. rewrite (u64_small (rss * 2 + _ + _)).
  2: lia.
  apply wp_bind, (wp_alloc_roomy P); [lia|done|]. intros r Hr.
  apply wp_bind, (wp_deref _ r); [done|]. change (Z.land (mr_base_paddr r) (rss - 1) =? 0) with (aligned rss r).
  cbv zeta. change (if aligned rss r then mr_base_paddr r else _) with (area_start rss r).
  set (start := area_start rss r). set (base := if aligned rss r then Z.to_nat (off / SIZEOF_mu_element) else 0%nat).
  destruct (area_start_spec k _ _ ltac:(lia) Hr ltac:(subst rss; nia)) as [_ Hstart]. fold rss start in Hstart.
  destruct (go_pa _ _ Hr) as [P1 P2].
  assert (Hoff : (if aligned rss r then off else u64 (start - mr_base_paddr r))
    = (if aligned rss r then off else start - mr_base_paddr r)) by (destruct (aligned rss r); [done|apply u64_small; lia]).
  rewrite Hoff. assert (Hbase : Z.to_nat (((if aligned rss r then off else start - mr_base_paddr r) - (start - mr_base_paddr r))
      / SIZEOF_mu_element) = base).
  { unfold base, start, area_start. destruct (aligned rss r); [by rewrite Z.sub_diag, Z.sub_0_r|]. by rewrite Z.sub_diag. }
  rewrite Hbase, (u64_small (num - 1)), (u64_small ((num - 1) * _)) by (unfold SIZEOF_mu_element; lia).
  apply wp_bind, wp_modify, wp_bind, wp_modify, wp_bind, wp_bind, wp_unlock_none; [done|]. apply wp_modify, wp_ret.
  set (m := Z.to_nat (num - 1)). assert (Em : num - 1 = Z.of_nat m) by (subst m; lia).
  set (u := fun roc : rdma_obj_controls => roc <| rdma_free_list := Some 0%nat |> <| counter_list := None |>
    <| rdma_obj_list := array_list (fun i => mkRo 0 (base + i) (roc_base_pa roc + Z.of_nat i * SIZEOF_mu_element) 0 None (Some (S i)) None)
         (Z.to_nat (num_obj roc)) |>).
  set (c := mkRoc _ _ _ _ _ _ _ _ _ _).
  refine (eq_ind_r (Q _) _ (roc_roc i c u _)). eapply HQ; [|exact Hr|]; [lia|].
  assert (Hm0 : (0 < m)%nat) by lia. split; cbn; rewrite ?Em, ?Nat2Z.id; [done|by apply chain_array|done| |done|by split].
  intros j Hj. unfold array_list. destruct (decide (j = m - 1)%nat) as [->|Hne].
  - rewrite lookup_alter_eq, array_lookup, decide_True by lia. by eexists.
  - rewrite lookup_alter_ne, array_lookup, decide_True by lia. by eexists.
Qed.

(** The number of objects of link [l], and the size of the area. *)
Definition rdma_objects (max_conn : Z) (l : nat) : nat :=
  Z.to_nat (snd (compute_rdma_section_size max_conn (Z.of_nat NUM_IO_LINKS)) - 1 - Z.of_nat l).
Definition area_size (max_conn : Z) : Z := fst (compute_rdma_section_size max_conn (Z.of_nat NUM_IO_LINKS)).

(** The offset left over from link 0 is used for link 1 when the region of
    link 1 needs none. *)
Definition stale_base (rss : Z) (r0 r1 : mudm_memory_region) : nat :=
  if aligned rss r1 && negb (aligned rss r0)
  then Z.to_nat ((area_start rss r0 - mr_base_paddr r0) / SIZEOF_mu_element) else 0%nat.

Lemma wp_rdma_init max_conn (Q : Z -> world -> Prop) w (rss := area_size max_conn) :
  0 < max_conn < 2 ^ 19 -> held w = [] -> (length (clean_table w) + 2 <= MAX_CLEANUP_ENTRIES)%nat ->
  (forall r0 r1 c0 c1 n, good_region n r0 ->
     fresh_roc (rdma_objects max_conn 0) 0 (area_start rss r0) c0 ->
     fresh_roc (rdma_objects max_conn 1) (stale_base rss r0 r1) (area_start rss r1) c1 ->
     Q 0 (with_rdma 1 c1 (with_rdma 0 c0 (with_entries (plain_entries [r0; r1]) w)))) ->
  wp (rdma_init P ly max_conn) Q w.
Proof.
  intros Hm Hh Ht HQ. unfold rdma_init, rss, area_size, rdma_objects in *.
  pose proof (compute_rdma_section_size_ok max_conn (Z.of_nat NUM_IO_LINKS) ltac:(lia) ltac:(done)) as Hc.
  destruct (compute_rdma_section_size max_conn (Z.of_nat NUM_IO_LINKS)) as [size num].
  cbn [fst snd] in *. destruct Hc as (k & Hk & -> & Hn & Hs1 & Hs2 & _ & Hu). change (if Z.of_nat NUM_IO_LINKS >? 1 then 2 else 4) with 2 in Hu.
  assert (Hk' : k <= 36).
  { destruct (Z.leb_spec k 36); [done|]. specialize (Hs2 ltac:(lia)). unfold SIZEOF_mu_element in Hs2.
    assert (2 ^ 37 <= 2 ^ k) by (apply Z.pow_le_mono_r; lia). lia. }
  apply wp_bind, wp_rdma_init_link; [lia|lia|done|done|lia|]. intros n0 r0 c0 Hn0 G0 F0.
  assert (E0 : (if aligned (2 ^ k) r0 then Z.to_nat (0 / SIZEOF_mu_element) else 0%nat) = 0%nat) by (by destruct (aligned _ r0)).
  rewrite E0 in F0.
  apply wp_bind, wp_rdma_init_link; [lia|lia| |done|cbn; rewrite length_app; cbn; lia|].
  { destruct (aligned _ r0); [done|]. destruct (area_start_spec k _ _ ltac:(lia) G0 ltac:(lia)). lia. }
  intros n1 r1 c1 Hn1 G1 F1. apply wp_ret. rewrite with_entries_rdma, with_entries_app.
  apply (HQ r0 r1 c0 c1 n0 G0); [by rewrite Z.sub_0_r|]. replace (num - 1 - Z.of_nat 1) with (num - 1 - 1) by lia.
  replace (stale_base _ r0 r1) with (if aligned (2 ^ k) r1 then Z.to_nat ((if aligned (2 ^ k) r0 then 0
    else area_start (2 ^ k) r0 - mr_base_paddr r0) / SIZEOF_mu_element) else 0%nat); [done|].
  unfold stale_base. by destruct (aligned _ r1), (aligned _ r0).
Qed.

(** C24: [rdma_init] gives both links their RDMA objects, all free and in
    order, and a compare area that is zero and starts at a multiple of its
    size: object [i] names the [i]th counter by its physical address.  The
    polled counters of link 0 are the same ones; those of link 1 lie
    [stale_base] elements further on when the region of link 0 was not
    aligned and the region of link 1 is, because the offset of link 0 is
    not cleared. *)
Theorem rdma_init_correct max_conn w (rss := area_size max_conn) :
  0 < max_conn < 2 ^ 19 -> held w = [] -> (length (clean_table w) + 2 <= MAX_CLEANUP_ENTRIES)%nat ->
  wp (rdma_init P ly max_conn) (fun r w' => r = 0 /\ exists r0 r1,
    clean_table w' = clean_table w ++ plain_entries [r0; r1] /\
    fresh_roc (rdma_objects max_conn 0) 0 (area_start rss r0) (rdma w' 0%nat) /\
    fresh_roc (rdma_objects max_conn 1) (stale_base rss r0 r1) (area_start rss r1) (rdma w' 1%nat) /\
    forall l i, (l < 2)%nat -> hw_mue (hw w') l i = mkMue 0 0) w.
Proof.
  intros Hm Hh Ht. apply wp_rdma_init; [done..|]. intros r0 r1 c0 c1 n _ F0 F1. split; [done|].
  exists r0, r1. split; [reflexivity|]. split; [exact F0|]. split; [exact F1|].
  intros l i Hl. destruct l as [|[|]]; [..|lia]; reflexivity.
Qed.
End with_platform.

(** An allocator that hands out 1 MB after the other, the first one 16 bytes
    off a 2 kB boundary. *)
Definition odd_region (n : Z) (w : world) : mudm_memory_region :=
  mkRegion n 0x100000 (if (length (clean_table w) =? 0)%nat then 0x200010 else 0x400000).
Definition odd_platform : platform :=
  mkPlatform (hw_step demo_platform) (cb_recv demo_platform) (cb_recv_conn demo_platform) (cb_status demo_platform)
    (fun n w => Ok (Some (odd_region n w)) w) (cb_free demo_platform) (wakeup_wait demo_platform)
    (cycles_per_usec demo_platform) (off_dummy_counter demo_platform) (off_rgatc demo_platform)
    (off_largest_node_corner demo_platform) (off_num_compute_nodes demo_platform) (buf_image demo_platform) (spin_fuel demo_platform).
Definition demo_layout : layout := mkLayout 4096 1024 128 64 96 48 512.
Lemma demo_layout_ok : layout_ok demo_layout.
Proof. by split. Qed.
#[export] Instance odd_roomy : RoomyAlloc odd_platform.
Proof.
  intros n w Hn. cbn. split; [done|]. eexists. split; [done|]. unfold odd_region.
  split; cbn [mr_length mr_base_vaddr mr_base_paddr]; [done|split_and!; [done|done|lia]|destruct (length (clean_table w) =? 0)%nat; lia].
Qed.
#[export] Instance demo_roomy : RoomyAlloc demo_platform.
Proof. intros n w Hn. cbn. split; [done|]. eexists. split; [done|]. split; cbn; [done|split_and!; [done|done|lia]|lia]. Qed.

(** Eight connections: object 3 of link 1 has the address of the fourth
    counter, and is polled 127 elements further on. *)
Definition odd_world : world := demo_world <| clean_table := [] |>.
Lemma rdma_init_correct_witness :
  wp (rdma_init odd_platform demo_layout 8) (fun r w' => r = 0 /\ (length (clean_table w') = 2)%nat /\
    num_obj (rdma w' 1%nat) = Z.of_nat (rdma_objects 8 1)) odd_world /\
  wp (rdma_init odd_platform demo_layout 8) (fun r w' => (fun o => (ro_mue o, rdma_object_pa o)) <$> rdma_obj_list (rdma w' 1%nat) !! 3%nat
    = Some (130%nat, 0x400000 + 3 * SIZEOF_mu_element)) odd_world.
Proof.
  split; [|by vm_compute].
  eapply wp_mono; [apply (rdma_init_correct odd_platform demo_layout demo_layout_ok 8); [done|done|cbn; unfold MAX_CLEANUP_ENTRIES; lia]|].
  intros r w' (-> & r0 & r1 & T & _ & F1 & _). split; [done|]. split; [by rewrite T|]. apply F1.
Defined.
(** ** Both links, one kind of resource after the other *)

Lemma wp_each_links {S} (body : nat -> M S Z) (Q : Z -> S -> Prop) s :
  wp (body 0%nat) (fun r s1 => r = 0 /\ wp (body 1%nat) (fun r s2 => r = 0 /\ Q 0 s2) s1) s -> wp (each io_links body) Q s.
Proof.
  intros H. apply wp_bind. eapply wp_mono; [exact H|]. intros r s1 [-> H1]. cbn [negb Z.eqb].
  apply wp_bind. eapply wp_mono; [exact H1|]. intros r s2 [-> H2]. by apply wp_ret.
Qed.

(** What link [l] has: base addresses, and its FIFOs. *)
Record has_bats (l : nat) (n : node) : Prop := mkHb {
  hb_sub : subgroupID (musm n l) = init_subgroup_id l;
  hb_ids : batids (musm n l) = seq 0 NUM_DATA_COUNTERS_PER_SUBGROUP;
  hb_values : length (batvalues (musm n l)) = NUM_DATA_COUNTERS_PER_SUBGROUP;
  hb_counter : batvalues (musm n l) !! Z.to_nat RDMA_COUNTER_INDEX = Some (roc_base_pa (rdma (drv n) l));
  hb_context : batvalues (musm n l) !! Z.to_nat MCONTEXT_INDEX = Some (mudm_context_phys_addr (drv n));
  hb_active : bat_active (musm n l) (mu n) }.
Definition has_inj (l : nat) (n : node) : Prop :=
  inj_active (musm n l) (mu n) /\ fifo_memory 6 BGQ_MU_MIN_INJFIFO_SIZE_IN_BYTES (injRegion (musm n l)).
Definition has_rec (l : nat) (n : node) : Prop :=
  rec_active (musm n l) (mu n) /\ fifo_memory 5 BGQ_MU_MIN_RECFIFO_SIZE_IN_BYTES (recRegion (musm n l)).

(** What subgroups of no link have is left alone. *)
Definition others (m m' : mu_regs) : Prop := forall s, s <> init_subgroup_id 0 -> s <> init_subgroup_id 1 ->
  inj_view s m' = inj_view s m /\ rec_view s m' = rec_view s m /\ forall i, mu_bat m' (s, i) = mu_bat m (s, i).
#[export] Instance others_pre : PreOrder others.
Proof.
  split; [done|]. intros m m1 m2 H1 H2 s A B. destruct (H1 s A B) as (? & ? & X), (H2 s A B) as (? & ? & Y).
  split_and!; [congruence|congruence|]. intros i. by rewrite Y, X.
Qed.

Definition link_sub (s : nat) : Prop := s = init_subgroup_id 0 \/ s = init_subgroup_id 1.
Lemma bat_step_others s m m' : link_sub s -> bat_step s m m' -> others m m'.
Proof.
  intros Hs [A B C _] s' N0 N1. assert (s' <> s) by (destruct Hs; congruence). split_and!.
  - by apply same_inj_view.
  - by apply same_rec_view.
  - intros i. by apply A.
Qed.
Lemma inj_step_others s m m' : link_sub s -> inj_step s m m' -> others m m'.
Proof.
  intros Hs [A B C _ _] s' N0 N1. assert (s' <> s) by (destruct Hs; congruence). split_and!.
  - by apply A.
  - by apply same_rec_view.
  - intros i. by rewrite C.
Qed.
Lemma rec_step_others s m m' : link_sub s -> rec_step s m m' -> others m m'.
Proof.
  intros Hs [A B C _] s' N0 N1. assert (s' <> s) by (destruct Hs; congruence). split_and!.
  - by apply same_inj_view.
  - by apply A.
  - intros i. by rewrite C.
Qed.

Lemma has_bats_keep l n n' : has_bats l n ->
  subgroupID (musm n' l) = subgroupID (musm n l) -> batids (musm n' l) = batids (musm n l) ->
  batvalues (musm n' l) = batvalues (musm n l) -> musm_bat (musm n' l) = musm_bat (musm n l) ->
  rdma (drv n') = rdma (drv n) -> mudm_context_phys_addr (drv n') = mudm_context_phys_addr (drv n) ->
  (forall i, mu_bat (mu n') (init_subgroup_id l, i) = mu_bat (mu n) (init_subgroup_id l, i)) -> has_bats l n'.
Proof.
  intros [A B C V W [D E F]] E1 E2 E3 E4 R X E5. split; [by rewrite E1|by rewrite E2|by rewrite E3|by rewrite E3, R|by rewrite E3, X|].
  split; rewrite ?E1, ?E3, ?E4; [|done|done]. intros i v Hv. rewrite A, E5, <- A. by apply D.
Qed.
Lemma has_inj_keep l n n' : has_inj l n ->
  subgroupID (musm n' l) = subgroupID (musm n l) -> injRegion (musm n' l) = injRegion (musm n l) ->
  ififo_subgroup (musm n' l) = ififo_subgroup (musm n l) -> ififoid (musm n' l) = ififoid (musm n l) ->
  inj_view (subgroupID (musm n l)) (mu n') = inj_view (subgroupID (musm n l)) (mu n) ->
  mu_freeSpace (mu n') = mu_freeSpace (mu n) -> has_inj l n'.
Proof. intros [A B] E1 E2 E3 E4 E5 E6. split; [by eapply inj_active_keep|by rewrite E2]. Qed.
Lemma has_rec_keep l n n' : has_rec l n -> musm n' l = musm n l ->
  rec_view (subgroupID (musm n l)) (mu n') = rec_view (subgroupID (musm n l)) (mu n) -> has_rec l n'.
Proof. intros [[A B C D E] F] E1 E2. split; [|by rewrite E1]. by split; rewrite ?E1, ?E2. Qed.

Lemma view_start s m m' : inj_view s m' = inj_view s m -> fr_pa_start (mu_inj m' (s, 0%nat)) = fr_pa_start (mu_inj m (s, 0%nat)).
Proof. intros E. by injection E as ->. Qed.
Lemma rec_view_start s m m' : rec_view s m' = rec_view s m -> fr_pa_start (mu_rec m' (s, 0%nat)) = fr_pa_start (mu_rec m (s, 0%nat)).
Proof. intros E. by injection E as ->. Qed.

Section steps.
Context (P : platform) `{!RoomyAlloc P} (ly : layout) (Hly : layout_ok ly) (unw : unwritten).

Lemma link_sub_lt l : (l < 2)%nat -> (init_subgroup_id l < 68)%nat /\ gid_of (init_subgroup_id l) = SYS_GROUPID /\ link_sub (init_subgroup_id l).
Proof. intros H. destruct l as [|[|]]; [..|lia]; (split; [cbn; lia|split; [done|]]); [by left|by right]. Qed.
Lemma other_sub l l' : (l < 2)%nat -> (l' < 2)%nat -> l' <> l -> init_subgroup_id l' <> init_subgroup_id l.
Proof. intros H H' E. destruct l as [|[|]], l' as [|[|]]; try lia; done. Qed.

(** One link. *)
Lemma init_subgroup_ok va l n (Q : Z -> node -> Prop) (s := init_subgroup_id l) :
  (l < 2)%nat -> (length (clean_table (drv n)) < MAX_CLEANUP_ENTRIES)%nat ->
  (forall i, (i < NUM_DATA_COUNTERS_PER_SUBGROUP)%nat -> mu_bat (mu n) (s, i) = FREE_BAT) ->
  (forall n' r, drv n' = with_entries [mkCe r (Some (FreeMuSubgroupMem l)) 0] (drv n) ->
     (forall k, k <> l -> musm n' k = musm n k) -> has_bats l n' -> bat_step s (mu n) (mu n') -> Q 0 n') ->
  wp (init_subgroup P ly va l) Q n.
Proof.
  intros Hl Ht Hf HQ. destruct (link_sub_lt l Hl) as (Hs & _ & _). destruct Hly as [_ L _ _ _ _]. apply wp_bind, wp_in_drv, (wp_alloc_roomy P); [lia|done|].
  intros r Hr. cbn [fst negb Z.eqb]. apply wp_bind, wp_gets, wp_bind, wp_modify. set (n1 := _ <| musm ::= _ |>).
  set (m1 := zero_musm <| subgroupID := _ |> <| batids := _ |> <| batvalues := _ |>) in n1.
  assert (E1 : musm n1 l = m1) by (unfold n1; cbn -[m1]; by rewrite fn_lookup_insert).
  apply wp_bind, wp_activate_base_address_table; rewrite ?E1; [done|done|reflexivity|by left|].
  intros n2 bat E2 A2 S2 D2 _ _. apply wp_ret, (HQ _ r).
  - by rewrite D2.
  - intros k Hk. rewrite E2, fn_lookup_insert_ne by done. unfold n1. cbn -[m1]. by rewrite fn_lookup_insert_ne.
  - assert (E : musm n2 l = m1 <| musm_bat := bat |>) by (by rewrite E2, fn_lookup_insert).
    split; rewrite ?E, ?D2; [done|done|reflexivity..|by rewrite <- E].
  - exact S2.
Qed.

Lemma init_injfifo_ok temp l n (Q : Z -> node -> Prop) (s := init_subgroup_id l) :
  (l < 2)%nat -> held (drv n) = [] -> (length (clean_table (drv n)) < MAX_CLEANUP_ENTRIES)%nat ->
  subgroupID (musm n l) = s -> BGQ_MU_MIN_INJFIFO_SIZE_IN_BYTES <= temp < 2 ^ 31 -> temp mod 64 = 0 ->
  fr_pa_start (mu_inj (mu n) (s, 0%nat)) = 0 ->
  (forall n' r sg, drv n' = with_entries [mkCe r (Some (FreeMuInjRegion l)) 0] (drv n) ->
     musm n' = <[l := (musm n l) <| injRegion := r |> <| ififoid := 0%nat |> <| ififo_subgroup := sg |>]> (musm n) ->
     has_inj l n' -> inj_step s (mu n) (mu n') -> Q 0 n') ->
  wp (init_injfifo P unw temp l) Q n.
Proof.
  intros Hl Hh Ht Hsub Htemp Hmod Hf HQ. destruct (link_sub_lt l Hl) as (Hs & _ & _).
  assert (0 < BGQ_MU_MIN_INJFIFO_SIZE_IN_BYTES) by done. apply wp_bind, wp_in_drv.
  rewrite u64_small by lia. apply (wp_alloc_roomy P); [lia|done|]. intros r Hr. cbn [snd].
  apply wp_bind, wp_modify, wp_bind, wp_in_drv, wp_unlock_none; [done|]. set (n1 := _ <| drv := _ |>).
  assert (E1 : musm n1 l = (musm n l) <| injRegion := r |>) by (unfold n1; cbn; by rewrite fn_lookup_insert).
  assert (Hmem : fifo_memory 6 BGQ_MU_MIN_INJFIFO_SIZE_IN_BYTES r).
  { destruct Hr as [R1 R2 R3]. split; rewrite ?R1; [exact R2|lia|split; [lia|exact Hmod]]. }
  apply wp_bind, wp_activate_injfifos; rewrite ?E1; cbn [subgroupID injRegion]; change (subgroupID (_ <| injRegion := r |>)) with (subgroupID (musm n l));
    rewrite ?Hsub; [done|exact Hf|done|].
  intros n2 sg E2 A2 S2 D2 _ _. apply wp_ret.
  assert (E : musm n2 = <[l := (musm n l) <| injRegion := r |> <| ififoid := 0%nat |> <| ififo_subgroup := sg |>]> (musm n)).
  { rewrite E2. apply functional_extensionality. intros k. destruct (decide (k = l)) as [->|Hk]; [by rewrite !fn_lookup_insert|].
    unfold n1. cbn. by rewrite !fn_lookup_insert_ne. }
  apply (HQ _ r sg); [by rewrite D2|exact E| |exact S2]. split; [exact A2|]. by rewrite E, fn_lookup_insert.
Qed.

Lemma init_recfifo_ok temp l n (Q : Z -> node -> Prop) (s := init_subgroup_id l) :
  (l < 2)%nat -> (length (clean_table (drv n)) < MAX_CLEANUP_ENTRIES)%nat ->
  subgroupID (musm n l) = s -> BGQ_MU_MIN_RECFIFO_SIZE_IN_BYTES <= temp < 2 ^ 31 -> temp mod 32 = 0 ->
  fr_pa_start (mu_rec (mu n) (s, 0%nat)) = 0 ->
  (forall n' r sg mask, drv n' = with_entries [mkCe r (Some (FreeRecFifo l)) 0] (drv n) ->
     musm n' = <[l := (musm n l) <| recRegion := r |> <| rfifoids := 0%nat |> <| rfifo_subgroup := sg |> <| clearInterrupts_mask := mask |>]> (musm n) ->
     has_rec l n' -> rec_step s (mu n) (mu n') -> Q 0 n') ->
  wp (init_recfifo P temp l) Q n.
Proof.
  intros Hl Ht Hsub Htemp Hmod Hf HQ. destruct (link_sub_lt l Hl) as (Hs & Hg & _).
  assert (0 < BGQ_MU_MIN_RECFIFO_SIZE_IN_BYTES) by done. apply wp_bind, wp_in_drv.
  rewrite u64_small by lia. apply (wp_alloc_roomy P); [lia|done|]. intros r Hr. cbn [snd].
  apply wp_bind, wp_modify. set (n1 := _ <| musm ::= _ |>).
  assert (E1 : musm n1 l = (musm n l) <| recRegion := r |>) by (unfold n1; cbn; by rewrite fn_lookup_insert).
  assert (Hmem : fifo_memory 5 BGQ_MU_MIN_RECFIFO_SIZE_IN_BYTES r).
  { destruct Hr as [R1 (R2 & R3 & R4) R5]. split; rewrite ?R1; [|lia|split; [lia|exact Hmod]]. split; [done|]. split; [|done].
    apply Z.mod_divide in R3 as [q ->]; [|done]. change (2 ^ 5) with 32. replace (q * 64) with (q * 2 * 32) by lia. by apply Z.mod_mul. }
  apply wp_bind, wp_activate_recfifos; rewrite ?E1; change (subgroupID (_ <| recRegion := r |>)) with (subgroupID (musm n l));
    rewrite ?Hsub; [done|done|exact Hf|done|].
  intros n2 sg mask E2 A2 S2 D2 _ _. apply wp_ret.
  assert (E : musm n2 = <[l := (musm n l) <| recRegion := r |> <| rfifoids := 0%nat |> <| rfifo_subgroup := sg |> <| clearInterrupts_mask := mask |>]> (musm n)).
  { rewrite E2. apply functional_extensionality. intros k. destruct (decide (k = l)) as [->|Hk]; [by rewrite !fn_lookup_insert|].
    unfold n1. cbn. by rewrite !fn_lookup_insert_ne. }
  apply (HQ _ r sg mask); [by rewrite D2|exact E| |exact S2]. split; [exact A2|]. by rewrite E, fn_lookup_insert.
Qed.

(** Both links.  [other] is the link that is not [l]. *)
Lemma two_links (R : nat -> Prop) : R 0%nat -> R 1%nat -> forall l, (l < 2)%nat -> R l.
Proof. intros H0 H1 l Hl. by destruct l as [|[|]]; [..|lia]. Qed.
Definition links_outside (n n' : node) : Prop := forall k, (2 <= k)%nat -> musm n' k = musm n k.

Lemma init_subgroups_ok va n (Q : Z -> node -> Prop) :
  (length (clean_table (drv n)) + 2 <= MAX_CLEANUP_ENTRIES)%nat ->
  (forall l, (l < 2)%nat -> forall i, (i < NUM_DATA_COUNTERS_PER_SUBGROUP)%nat -> mu_bat (mu n) (init_subgroup_id l, i) = FREE_BAT) ->
  (forall n' r0 r1, drv n' = with_entries [mkCe r0 (Some (FreeMuSubgroupMem 0)) 0; mkCe r1 (Some (FreeMuSubgroupMem 1)) 0] (drv n) ->
     (forall l, (l < 2)%nat -> has_bats l n') -> (forall s, inj_view s (mu n') = inj_view s (mu n)) ->
     (forall s, rec_view s (mu n') = rec_view s (mu n)) -> others (mu n) (mu n') -> links_outside n n' -> Q 0 n') ->
  wp (each io_links (init_subgroup P ly va)) Q n.
Proof.
  intros Ht Hf HQ. apply wp_each_links, init_subgroup_ok; [lia|lia|by apply Hf; lia|].
  intros n1 r0 D1 M1 B1 S1. split; [done|]. apply init_subgroup_ok; [lia|rewrite D1; cbn; rewrite length_app; cbn; lia| |].
  { intros i Hi. rewrite (bs_others _ _ _ S1) by done. by apply Hf; [lia|]. }
  intros n2 r1 D2 M2 B2 S2. split; [done|]. apply (HQ _ r0 r1).
  - by rewrite D2, D1, with_entries_app.
  - apply two_links; [|done]. eapply has_bats_keep; [exact B1|by rewrite ?M2, ?D2..|].
    intros i. by rewrite (bs_others _ _ _ S2).
  - intros s. rewrite (same_inj_view s _ _ (bs_inj _ _ _ S2)). apply same_inj_view, (bs_inj _ _ _ S1).
  - intros s. rewrite (same_rec_view s _ _ (bs_rec _ _ _ S2)). apply same_rec_view, (bs_rec _ _ _ S1).
  - etrans; eapply bat_step_others; [|exact S1| |exact S2]; [by left|by right].
  - intros k Hk. by rewrite M2, M1 by lia.
Qed.

Lemma init_injfifos_ok temp n (Q : Z -> node -> Prop) :
  held (drv n) = [] -> (length (clean_table (drv n)) + 2 <= MAX_CLEANUP_ENTRIES)%nat ->
  BGQ_MU_MIN_INJFIFO_SIZE_IN_BYTES <= temp < 2 ^ 31 -> temp mod 64 = 0 ->
  (forall l, (l < 2)%nat -> has_bats l n) ->
  (forall l, (l < 2)%nat -> fr_pa_start (mu_inj (mu n) (init_subgroup_id l, 0%nat)) = 0) ->
  (forall n' r0 r1, drv n' = with_entries [mkCe r0 (Some (FreeMuInjRegion 0)) 0; mkCe r1 (Some (FreeMuInjRegion 1)) 0] (drv n) ->
     (forall l, (l < 2)%nat -> has_bats l n' /\ has_inj l n') ->
     (forall s, rec_view s (mu n') = rec_view s (mu n)) -> others (mu n) (mu n') -> links_outside n n' -> Q 0 n') ->
  wp (each io_links (init_injfifo P unw temp)) Q n.
Proof.
  intros Hh Ht Htemp Hmod Hb Hf HQ.
  apply wp_each_links, init_injfifo_ok; [lia|done|lia|by apply hb_sub, Hb; lia|done|done|by apply Hf; lia|].
  intros n1 r0 sg0 D1 M1 I1 S1. split; [done|].
  assert (E1 : musm n1 1%nat = musm n 1%nat) by (by rewrite M1, fn_lookup_insert_ne).
  apply init_injfifo_ok; [lia|by rewrite D1|rewrite D1; cbn; rewrite length_app; cbn; lia| |done|done| |].
  { rewrite E1. apply hb_sub, Hb. lia. }
  { rewrite (view_start _ (mu n)); [apply Hf; lia|]. by apply (is_others _ _ _ S1). }
  intros n2 r1 sg1 D2 M2 I2 S2. split; [done|].
  assert (E2 : musm n2 0%nat = musm n1 0%nat) by (by rewrite M2, fn_lookup_insert_ne).
  assert (Hbat : forall l n', (l < 2)%nat -> n' = n1 \/ n' = n2 -> has_bats l n').
  { assert (H1 : forall l, (l < 2)%nat -> has_bats l n1).
    { apply two_links; (eapply has_bats_keep; [apply Hb; lia|rewrite ?E1, ?M1, ?D1, ?fn_lookup_insert; done..|]); intros i; by rewrite (is_bat _ _ _ S1). }
    intros l n' Hl [->| ->]; [by apply H1|]. revert l Hl. apply two_links.
    all: (eapply has_bats_keep; [apply H1; lia|rewrite ?E2, ?M2, ?D2, ?fn_lookup_insert; done..|]); intros i; by rewrite (is_bat _ _ _ S2). }
  apply (HQ _ r0 r1).
  - by rewrite D2, D1, with_entries_app.
  - apply two_links; (split; [apply Hbat; [lia|by right]|]); [|exact I2].
    eapply has_inj_keep; [exact I1|by rewrite E2..| |by apply (is_free _ _ _ S2)].
    rewrite (hb_sub _ _ (Hbat 0%nat n1 ltac:(lia) ltac:(by left))). by apply (is_others _ _ _ S2).
  - intros s. rewrite (same_rec_view s _ _ (is_rec _ _ _ S2)). apply same_rec_view, (is_rec _ _ _ S1).
  - etrans; eapply inj_step_others; [|exact S1| |exact S2]; [by left|by right].
  - intros k Hk. by rewrite M2, fn_lookup_insert_ne, M1, fn_lookup_insert_ne by lia.
Qed.

Definition has_all (l : nat) (n : node) : Prop := has_bats l n /\ has_inj l n /\ has_rec l n.
Lemma init_recfifos_ok temp n (Q : Z -> node -> Prop) :
  (length (clean_table (drv n)) + 2 <= MAX_CLEANUP_ENTRIES)%nat ->
  BGQ_MU_MIN_RECFIFO_SIZE_IN_BYTES <= temp < 2 ^ 31 -> temp mod 32 = 0 ->
  (forall l, (l < 2)%nat -> has_bats l n /\ has_inj l n) ->
  (forall l, (l < 2)%nat -> fr_pa_start (mu_rec (mu n) (init_subgroup_id l, 0%nat)) = 0) ->
  (forall n' r0 r1, drv n' = with_entries [mkCe r0 (Some (FreeRecFifo 0)) 0; mkCe r1 (Some (FreeRecFifo 1)) 0] (drv n) ->
     (forall l, (l < 2)%nat -> has_all l n') -> others (mu n) (mu n') -> links_outside n n' -> Q 0 n') ->
  wp (each io_links (init_recfifo P temp)) Q n.
Proof.
  intros Ht Htemp Hmod Hb Hf HQ.
  apply wp_each_links, init_recfifo_ok; [lia|lia|by apply hb_sub, Hb; lia|done|done|by apply Hf; lia|].
  intros n1 r0 sg0 mk0 D1 M1 I1 S1. split; [done|].
  assert (E1 : musm n1 1%nat = musm n 1%nat) by (by rewrite M1, fn_lookup_insert_ne).
  apply init_recfifo_ok; [lia|rewrite D1; cbn; rewrite length_app; cbn; lia| |done|done| |].
  { rewrite E1. apply hb_sub, Hb. lia. }
  { rewrite (rec_view_start _ (mu n)); [apply Hf; lia|]. by apply (rst_others _ _ _ S1). }
  intros n2 r1 sg1 mk1 D2 M2 I2 S2. split; [done|].
  assert (E2 : musm n2 0%nat = musm n1 0%nat) by (by rewrite M2, fn_lookup_insert_ne).
  assert (H1 : forall l, (l < 2)%nat -> has_bats l n1 /\ has_inj l n1).
  { apply two_links; (split; [eapply has_bats_keep; [apply Hb; lia|rewrite ?E1, ?M1, ?D1, ?fn_lookup_insert; done..|]; intros i; by rewrite (rst_bat _ _ _ S1)|]);
      (eapply has_inj_keep; [apply Hb; lia|rewrite ?E1, ?M1, ?fn_lookup_insert; done..|by apply same_inj_view, (rst_inj _ _ _ S1)|by apply (rst_free _ _ _ S1)]). }
  assert (H2 : forall l, (l < 2)%nat -> has_bats l n2 /\ has_inj l n2).
  { apply two_links; (split; [eapply has_bats_keep; [apply H1; lia|rewrite ?E2, ?M2, ?D2, ?fn_lookup_insert; done..|]; intros i; by rewrite (rst_bat _ _ _ S2)|]);
      (eapply has_inj_keep; [apply H1; lia|rewrite ?E2, ?M2, ?fn_lookup_insert; done..|by apply same_inj_view, (rst_inj _ _ _ S2)|by apply (rst_free _ _ _ S2)]). }
  apply (HQ _ r0 r1).
  - by rewrite D2, D1, with_entries_app.
  - apply two_links; (split; [by apply H2; lia|split; [by apply H2; lia|]]); [|exact I2].
    eapply has_rec_keep; [exact I1|done|]. rewrite (hb_sub _ _ (proj1 (H1 0%nat ltac:(lia)))). by apply (rst_others _ _ _ S2).
  - etrans; eapply rec_step_others; [|exact S1| |exact S2]; [by left|by right].
  - intros k Hk. by rewrite M2, fn_lookup_insert_ne, M1, fn_lookup_insert_ne by lia.
Qed.

(** The packet pools of both links. *)
Lemma pools_step es es' w f p pc :
  (with_entries es' ((with_entries es w) <| pools := f |>)) <| pools ::= <[p := pc]> |>
  = (with_entries (es ++ es') w) <| pools := <[p := pc]> f |>.
Proof. unfold with_entries. destruct w. unfold upd_field. cbn. by rewrite app_assoc. Qed.

Lemma wp_next_pool p max_conn packetsize es f (Q : Z * bool -> world -> Prop) w :
  held w = [] -> (length (clean_table w) + length es + 3 <= MAX_CLEANUP_ENTRIES)%nat ->
  0 < max_conn < 2 ^ 19 -> 0 < packetsize <= 512 -> is_Some (u_behind unw p) ->
  (forall rs pc behind, length rs = 3%nat -> fresh_pool (Z.to_nat max_conn) packetsize behind pc ->
     Q (0, true) ((with_entries (es ++ plain_entries rs) w) <| pools := <[p := pc]> f |>)) ->
  wp (alloc_pkt_list_object P ly unw p max_conn packetsize) Q ((with_entries es w) <| pools := f |>).
Proof.
  intros Hh Ht Hm Hs [behind Hb] HQ. apply (wp_alloc_pkt_list P ly Hly unw p max_conn packetsize behind); [done| |done..|].
  - cbn. rewrite length_app. lia.
  - intros rs pc Hrs Hpc. rewrite pools_step. by eapply HQ.
Qed.

Definition pool_size (p : pool_id) : Z := match p with PacketControls _ => 512 | SmallpaObjCtls _ => 64 end.
Lemma init_pools_ok max_conn (Q : (nat -> bool * bool) -> world -> Prop) w :
  held w = [] -> (length (clean_table w) + 12 <= MAX_CLEANUP_ENTRIES)%nat -> 0 < max_conn < 2 ^ 19 ->
  (forall p, (pool_link p < 2)%nat -> is_Some (u_behind unw p)) ->
  (forall rs f g, length rs = 12%nat -> (forall i, g i = (true, true)) ->
     (forall p, (pool_link p < 2)%nat -> exists behind, fresh_pool (Z.to_nat max_conn) (pool_size p) behind (f p)) ->
     Q g ((with_entries (plain_entries rs) w) <| pools := f |>)) ->
  wp (init_pools P ly unw max_conn) Q w.
Proof.
  intros Hh Ht Hm Hb HQ. unfold init_pools.
  replace w with ((with_entries [] w) <| pools := pools w |>) by (unfold with_entries; destruct w; unfold upd_field; cbn; by rewrite app_nil_r).
  apply wp_bind, wp_next_pool; [done|cbn; lia|done|done|by apply Hb; cbn; lia|]. intros r0 pc0 b0 L0 F0.
  apply wp_bind, wp_next_pool; [done|rewrite length_app, length_plain, L0; cbn; lia|done|done|by apply Hb; cbn; lia|]. intros r1 pc1 b1 L1 F1.
  apply wp_bind, wp_next_pool; [done|rewrite !length_app, !length_plain, L0, L1; cbn; lia|done|done|by apply Hb; cbn; lia|]. intros r2 pc2 b2 L2 F2.
  apply wp_bind, wp_next_pool; [done|rewrite !length_app, !length_plain, L0, L1, L2; cbn; lia|done|done|by apply Hb; cbn; lia|]. intros r3 pc3 b3 L3 F3.
  apply wp_ret. cbn [app]. unfold plain_entries. rewrite <- !map_app. apply HQ.
  - rewrite !length_app. lia.
  - by intros [|i].
  - intros [[|[|l]]|[|[|l]]] Hl; cbn in Hl; try lia; at_keys; by eexists.
Qed.

(** The connection blocks. *)
Definition no_heads (w : world) : Prop :=
  conn_pendlist w = (fun _ => None) /\ conn_activelist w = (fun _ => None) /\ conn_abortlist w = (fun _ => None).
Lemma heads_id w : no_heads w ->
  w <| conn_pendlist ::= fun f => <[1%nat := None]> (<[0%nat := None]> f) |>
    <| conn_activelist ::= fun f => <[1%nat := None]> (<[0%nat := None]> f) |>
    <| conn_abortlist ::= fun f => <[1%nat := None]> (<[0%nat := None]> f) |> = w.
Proof.
  intros (Np & Na & Nb). assert (Hn : forall f : nat -> option nat, f = (fun _ => None) -> <[1%nat := None]> (<[0%nat := None]> f) = f).
  { intros f ->. apply functional_extensionality. intros [|[|k]]; by at_keys. }
  destruct w. cbn in Np, Na, Nb. unfold upd_field; cbn. by rewrite !Hn.
Qed.
Lemma free_blocks es w p h :
  (with_entries es (w <| conn_freelist := None |>)) <| conn_freelist := p |> <| conn_list := h |>
  = (with_entries es w) <| conn_list := h |> <| conn_freelist := p |>.
Proof. by destruct w. Qed.
Lemma wp_conn_list max_conn (Q : Z -> world -> Prop) w :
  held w = [] -> no_heads w -> (length (clean_table w) < MAX_CLEANUP_ENTRIES)%nat -> 0 < max_conn < 2 ^ 19 ->
  (forall r h, chain h (Some 0%nat) (seq 0 (Z.to_nat max_conn)) ->
     Q 0 ((with_entries [mkCe r (Some FreeMem) 0] w) <| conn_list := h |> <| conn_freelist := Some 0%nat |>)) ->
  wp (conn_list_init P max_conn) Q w.
Proof.
  intros Hh Hn Ht Hm HQ. unfold conn_list_init. apply wp_bind, wp_modify, wp_bind, wp_modify, wp_bind.
  rewrite heads_id by done.
  apply (wp_alloc_roomy P); [unfold SIZEOF_mudm_connection; lia|exact Ht|]. intros r Hr. cbn [fst negb Z.eqb].
  set (h := array_list _ _). assert (Hc : chain h (Some 0%nat) (seq 0 (Z.to_nat max_conn))) by (apply chain_array; [done|lia]).
  clearbody h. apply wp_bind, wp_modify, wp_bind, wp_modify, wp_bind, wp_modify, wp_ret.
  rewrite unlock_none by done. rewrite free_blocks. by apply HQ.
Qed.
Lemma conns_ok_fresh w n : chain (conn_list w) (conn_freelist w) (seq 0 n) -> no_heads w -> conns_ok w (seq 0 n) (fun _ => []).
Proof.
  intros Hc (Np & Na & Nb). split; [done| |set_solver..].
  intros [l|l|l]; cbn; by rewrite ?Np, ?Na, ?Nb.
Qed.

(** Opening a link changes only what belongs to it. *)
Definition identity (w : world) :=
  (max_connections w, my_using_IO_port w, myTorusAddress w, mybridgingCNnode w, myUCI w, myBlockID w).
Definition kept_view (w : world) :=
  ((magic w, m_state w, mudm_context_phys_addr w, identity w, remote_BlockID w),
   (conn_list w, conn_freelist w, conn_pendlist w, conn_activelist w, conn_abortlist w),
   (rdma w, clean_table w, held w, trace w)).
Definition fifo_view (w : world) := (pools w, inj w, inj_state w, recf w, sys_rec_fifo_id w, hw w).

Record link_opened (l : nat) (n : node) (w : world) : Prop := mkLo {
  lo_kept : kept_view w = kept_view (drv n);
  lo_bcast : system_bcast w = system_bcast (drv n);
  lo_inj : inj w = <[l := injfifo_of (sg_fifos (ififo_subgroup (musm n l)) (ififoid (musm n l))) (inj (drv n) l)]> (inj (drv n));
  lo_rec : recf w = <[l := recfifo_of (sg_fifos (rfifo_subgroup (musm n l)) (rfifoids (musm n l)))]> (recf (drv n));
  lo_state : inj_state w = <[l := 1]> (inj_state (drv n));
  lo_sys : sys_rec_fifo_id w = <[l := init_sys_rec_fifo_id l]> (sys_rec_fifo_id (drv n));
  lo_pools : forall p, pools w p = if decide (pool_link p = l) then (pools (drv n) p) <| IdToInjFifo := l |> else pools (drv n) p }.

Lemma wp_init_link g l n (Q : unit -> node -> Prop) : g = (true, true) ->
  (forall w, link_opened l n w -> Q tt (n <| drv := w |>)) -> wp (init_link g l) Q n.
Proof.
  intros -> HQ. unfold init_link. apply wp_bind, wp_in_drv, wp_modify, wp_bind, wp_bind, wp_gets, wp_in_drv, wp_modify.
  apply wp_bind, wp_bind, wp_gets, wp_in_drv, wp_modify, wp_bind, wp_bind, wp_gets, wp_bind, wp_gets, wp_in_drv, wp_modify.
  apply wp_bind, wp_in_drv, wp_modify, wp_bind, wp_in_drv, wp_modify, wp_in_drv, wp_modify.
  lazymatch goal with |- Q tt (_ <| drv := ?w |>) => apply (HQ w) end.
  split; [reflexivity..|]. intros p. set (f := pools (drv n)).
  transitivity ((<[SmallpaObjCtls l := (f (SmallpaObjCtls l)) <| IdToInjFifo := l |>]>
    (<[PacketControls l := (f (PacketControls l)) <| IdToInjFifo := l |>]> f)) p); [reflexivity|].
  destruct p as [k|k]; cbn [pool_link]; destruct (decide (k = l)) as [->|Hk]; by rewrite ?fn_lookup_insert, ?fn_lookup_insert_ne, ?fn_lookup_insert by congruence.
Qed.

Record bcast_ready (w w' : world) : Prop := mkBr {
  br_kept : kept_view w' = kept_view w;
  br_fifo : fifo_view w' = fifo_view w;
  br_state : b_state (RDMA_bcast_control (system_bcast w')) = b_state (RDMA_bcast_control (system_bcast w));
  br_fifo_id : mb_IdToInjFifo (system_bcast w') = 0%nat;
  br_counter : b_mu_counter_bcast_addr (RDMA_bcast_control (system_bcast w')) = rdma_bcast_controls (rdma w 0%nat) }.
Lemma wp_bcast_init w (Q : unit -> world -> Prop) : Z.land (rdma_bcast_controls_offset (rdma w 0%nat)) 7 = 0 ->
  (forall w', bcast_ready w w' -> Q tt w') -> wp (bcast_init ly 0) Q w.
Proof.
  intros Ho HQ. unfold bcast_init. apply wp_bind, wp_gets, wp_bind, wp_modify, wp_bind.
  unfold InitBroadcastDirectPut. rewrite Ho. cbn [negb Z.eqb]. eapply wp_deref; [reflexivity|].
  apply wp_modify, HQ. by split.
Qed.

Lemma wp_init_descriptor w (Q : unit -> world -> Prop) :
  (forall w', kept_view w' = kept_view w -> fifo_view w' = fifo_view w -> system_bcast w' = system_bcast w -> Q tt w') ->
  wp (init_descriptor unw) Q w.
Proof.
  intros HQ. unfold init_descriptor. apply wp_bind, wp_gets. destruct (InitPt2PtMemoryFIFODescriptor _ _ _ _ _ _ _).
  - apply wp_modify. by apply HQ.
  - apply wp_ret. by apply HQ.
Qed.

(** ** From the packet pools on *)

Definition fresh_link (max_conn : Z) (l : nat) : link_lists :=
  mkLl (seq 0 (S (Z.to_nat max_conn))) [] (seq 0 (S (Z.to_nat max_conn))) [] (seq 0 (rdma_objects max_conn l)) [].
Definition fresh_objects (max_conn : Z) (w : world) (l : nat) : Prop :=
  exists base start, fresh_roc (rdma_objects max_conn l) base start (rdma w l).
(** What runs after [mudm_init]. *)
Record started (max_conn : Z) (t : list event) (n : node) : Prop := mkSt {
  st_magic : magic (drv n) = MUDM_MAGIC;
  st_state : m_state (drv n) = MUDM_ACTIVE;
  st_held : held (drv n) = [];
  st_trace : trace (drv n) = t;
  st_link : forall l, (l < 2)%nat -> link_memory (musm n l) /\ link_active (musm n l) (mu n) /\
    link_wf (drv n) l (fresh_link max_conn l) /\ inj_state (drv n) l = 1 /\
    subgroupID (musm n l) = init_subgroup_id l;
  st_bases : forall l, (l < 2)%nat ->
    mu_bat (mu n) (init_subgroup_id l, Z.to_nat RDMA_COUNTER_INDEX) = roc_base_pa (rdma (drv n) l) /\
    mu_bat (mu n) (init_subgroup_id l, Z.to_nat MCONTEXT_INDEX) = mudm_context_phys_addr (drv n);
  st_rdma : forall l, (l < 2)%nat -> fresh_objects max_conn (drv n) l;
  st_view : forall l, (l < 2)%nat -> exists sh sh', inj (drv n) l = injfifo_of sh sh' /\
    sh = sg_fifos (ififo_subgroup (musm n l)) 0%nat /\
    recf (drv n) l = recfifo_of (sg_fifos (rfifo_subgroup (musm n l)) 0%nat);
  st_conns : conns_ok (drv n) (seq 0 (Z.to_nat max_conn)) (fun _ => []);
  st_bcast : b_state (RDMA_bcast_control (system_bcast (drv n))) = BCAST_INACTIVE }.

Definition links_fns : list (option cleanup_fn) :=
  replicate 12 (Some FreeMem) ++ [Some (FreeMuInjRegion 0); Some (FreeMuInjRegion 1); Some (FreeRecFifo 0); Some (FreeRecFifo 1); Some FreeMem].
Lemma plain_fns rs : ce_fn <$> plain_entries rs = replicate (length rs) (Some FreeMem).
Proof. induction rs as [|r rs IH]; [done|]. cbn. by f_equal. Qed.
Lemma with_entries_pools es f w : with_entries es (w <| pools := f |>) = (with_entries es w) <| pools := f |>.
Proof. by destruct w. Qed.

Lemma kept_eq w w' : kept_view w' = kept_view w ->
  identity w' = identity w /\ mudm_context_phys_addr w' = mudm_context_phys_addr w /\ magic w' = magic w /\ held w' = held w /\ trace w' = trace w /\ clean_table w' = clean_table w /\ rdma w' = rdma w /\
  conn_list w' = conn_list w /\ conn_freelist w' = conn_freelist w /\ (no_heads w -> no_heads w').
Proof.
  intros E. injection E. intros. split; [unfold identity; congruence|]. split_and!; [done..|]. intros (A & B & C). split_and!; congruence.
Qed.

Lemma region_sizes max_conn : 4 <= max_conn < 2 ^ 19 ->
  (BGQ_MU_MIN_INJFIFO_SIZE_IN_BYTES <= inj_region_size max_conn < 2 ^ 31 /\ inj_region_size max_conn mod 64 = 0) /\
  (BGQ_MU_MIN_RECFIFO_SIZE_IN_BYTES <= rec_region_size max_conn < 2 ^ 31 /\ rec_region_size max_conn mod 32 = 0).
Proof.
  intros H. unfold inj_region_size, rec_region_size, s32, BGQ_MU_DESCRIPTOR_SIZE_IN_BYTES, MUDM_MIN_INJ_REGION, TORUS_PACKET_SIZE,
    BGQ_MU_MIN_INJFIFO_SIZE_IN_BYTES, BGQ_MU_MIN_RECFIFO_SIZE_IN_BYTES.
  rewrite !u32_small by lia. rewrite !(proj2 (Z.ltb_lt _ (2 ^ 31))) by lia. split.
  - destruct (Z.ltb_spec (64 * max_conn * 4) (512 * 64)); [done|]. split; [lia|].
    replace (64 * max_conn * 4) with (max_conn * 4 * 64) by lia. by apply Z.mod_mul.
  - destruct (Z.leb_spec max_conn 16); [done|]. split; [lia|].
    replace (544 * max_conn * 4) with (17 * max_conn * 4 * 32) by lia. by apply Z.mod_mul.
Qed.

Lemma fresh_pool_wf n size behind pc p w j : held w = [] -> fresh_pool n size behind pc ->
  pools w p = pc <| IdToInjFifo := j |> -> pool_wf (pkt_pool p) w (seq 0 (S n)) [].
Proof.
  intros Hh [A B _ _] E. split; unfold heap_of; cbn; rewrite ?E; [exact A|exact B| |done]. rewrite app_nil_r. apply (NoDup_seq 0 (S n)).
Qed.
Lemma fresh_link_wf max_conn l w b1 b2 pc1 pc2 j : held w = [] ->
  fresh_pool (Z.to_nat max_conn) 512 b1 pc1 -> pools w (PacketControls l) = pc1 <| IdToInjFifo := j |> ->
  fresh_pool (Z.to_nat max_conn) 64 b2 pc2 -> pools w (SmallpaObjCtls l) = pc2 <| IdToInjFifo := j |> ->
  fresh_objects max_conn w l -> link_wf w l (fresh_link max_conn l).
Proof.
  intros Hh F1 E1 F2 E2 (base & start & Fo). split; [by apply (fresh_pool_wf _ 512 b1 pc1 _ _ j)|by apply (fresh_pool_wf _ 64 b2 pc2 _ _ j)|].
  destruct Fo as [_ A B _ _ _]. split; unfold heap_of; cbn; [exact A|by rewrite B| |done]. rewrite app_nil_r. apply NoDup_seq.
Qed.

(** The allocations and activations of [init_links]. *)
Lemma has_all_active l n : (l < 2)%nat -> has_all l n -> link_memory (musm n l) /\ link_active (musm n l) (mu n) /\
  bat_subgrpid (musm_bat (musm n l)) = subgroupID (musm n l) /\ ififoid (musm n l) = 0%nat /\ rfifoids (musm n l) = 0%nat.
Proof.
  intros Hl ([A B C V W D] & [E F] & [G H]). assert (Hs : (subgroupID (musm n l) < 68)%nat /\ gid_of (subgroupID (musm n l)) = SYS_GROUPID).
  { rewrite A. by split; [apply link_sub_lt|apply link_sub_lt]. }
  destruct Hs as [Hs Hg]. split; [by split|]. split; [by split_and!|]. split_and!; [by apply D|by apply E|by apply G].
Qed.

(** Both links are open. *)
Record links_open (n : node) (w : world) : Prop := mkLos {
  los_kept : kept_view w = kept_view (drv n);
  los_bcast : b_state (RDMA_bcast_control (system_bcast w)) = b_state (RDMA_bcast_control (system_bcast (drv n)));
  los_pools : forall p, (pool_link p < 2)%nat -> pools w p = (pools (drv n) p) <| IdToInjFifo := pool_link p |>;
  los_state : forall l, (l < 2)%nat -> inj_state w l = 1;
  los_inj : forall l, (l < 2)%nat -> exists sh', inj w l = injfifo_of (sg_fifos (ififo_subgroup (musm n l)) (ififoid (musm n l))) sh';
  los_rec : forall l, (l < 2)%nat -> recf w l = recfifo_of (sg_fifos (rfifo_subgroup (musm n l)) (rfifoids (musm n l))) }.

Lemma links_opened n w1 w : link_opened 0 n w1 -> link_opened 1 (n <| drv := w1 |>) w -> links_open n w.
Proof.
  intros L1 L2. change (drv (n <| drv := w1 |>)) with w1 in *. split.
  - rewrite (lo_kept _ _ _ L2). exact (lo_kept _ _ _ L1).
  - rewrite (lo_bcast _ _ _ L2). by rewrite <- (lo_bcast _ _ _ L1).
  - intros p Hl. rewrite (lo_pools _ _ _ L2). change (drv (n <| drv := w1 |>)) with w1. rewrite (lo_pools _ _ _ L1).
    destruct (decide (pool_link p = 1%nat)) as [E|E]; [by rewrite E|].
    rewrite decide_True by lia. by replace (pool_link p) with 0%nat by lia.
  - apply two_links; rewrite (lo_state _ _ _ L2); change (drv (n <| drv := w1 |>)) with w1; rewrite (lo_state _ _ _ L1); by at_keys.
  - apply two_links; rewrite (lo_inj _ _ _ L2); change (drv (n <| drv := w1 |>)) with w1; rewrite (lo_inj _ _ _ L1); at_keys; by eexists.
  - apply two_links; rewrite (lo_rec _ _ _ L2); change (drv (n <| drv := w1 |>)) with w1; rewrite (lo_rec _ _ _ L1); by at_keys.
Qed.

Lemma links_open_started n w max_conn : links_open n w ->
  held (drv n) = [] -> magic (drv n) = MUDM_MAGIC -> (forall l, (l < 2)%nat -> has_all l n) ->
  (forall p, (pool_link p < 2)%nat -> exists behind, fresh_pool (Z.to_nat max_conn) (pool_size p) behind (pools (drv n) p)) ->
  (forall l, (l < 2)%nat -> fresh_objects max_conn (drv n) l) ->
  b_state (RDMA_bcast_control (system_bcast (drv n))) = BCAST_INACTIVE ->
  chain (conn_list (drv n)) (conn_freelist (drv n)) (seq 0 (Z.to_nat max_conn)) -> no_heads (drv n) ->
  started max_conn (trace (drv n)) (n <| drv := w <| m_state := MUDM_ACTIVE |> |>).
Proof.
  intros [K Bc Po St Ij Rc] Hh Hm Ha Hp Ho Hb Hc Hn. apply kept_eq in K as (_ & X & A & B & C & _ & E & F & G & H).
  set (w5 := w <| m_state := MUDM_ACTIVE |>). change (drv (n <| drv := w5 |>)) with w5.
  assert (Hob : forall l, (l < 2)%nat -> fresh_objects max_conn w5 l).
  { intros l Hl. unfold fresh_objects. change (rdma w5) with (rdma w). rewrite E. by apply Ho. }
  split; [change (magic w = MUDM_MAGIC); congruence|done|change (held w = []); congruence|exact C| | |exact Hob| | |].
  - intros l Hl. destruct (has_all_active l n Hl (Ha l Hl)) as (M & Ac & _). split; [exact M|]. split; [exact Ac|].
    split; [|split; [by apply St|apply (Ha l Hl)]].
    destruct (Hp (PacketControls l) Hl) as [b1 P1], (Hp (SmallpaObjCtls l) Hl) as [b2 P2].
    eapply fresh_link_wf; [change (held w = []); congruence|exact P1|by apply (Po (PacketControls l))|exact P2|by apply (Po (SmallpaObjCtls l))|by apply Hob].
  - intros l Hl. destruct (Ha l Hl) as ([Sb _ _ V W [D _ _]] & _). change (rdma (drv (n <| drv := w5 |>))) with (rdma w).
    change (mudm_context_phys_addr (drv (n <| drv := w5 |>))) with (mudm_context_phys_addr w).
    rewrite E, X, <- Sb. split; by apply D.
  - intros l Hl. destruct (has_all_active l n Hl (Ha l Hl)) as (_ & _ & _ & I0 & R0). destruct (Ij l Hl) as [sh' I1].
    rewrite I0 in I1. pose proof (Rc l Hl) as R1. rewrite R0 in R1. by eexists _, sh'.
  - apply conns_ok_fresh; [|by apply H]. change (chain (conn_list w) (conn_freelist w) (seq 0 (Z.to_nat max_conn))). by rewrite F, G.
  - change (b_state (RDMA_bcast_control (system_bcast w)) = BCAST_INACTIVE). by rewrite Bc.
Qed.

(** The broadcast state and the descriptor change none of this. *)
Lemma links_open_bcast n w w' w'' : links_open n w -> bcast_ready w w' ->
  kept_view w'' = kept_view w' -> fifo_view w'' = fifo_view w' -> system_bcast w'' = system_bcast w' -> links_open n w''.
Proof.
  intros [A B C D E F] R K V S. assert (V' : fifo_view w'' = fifo_view w) by (rewrite V; apply R).
  injection V' as Vp Vi Vs Vr _ _. split; rewrite ?Vp, ?Vi, ?Vs, ?Vr; [|by rewrite S, (br_state _ _ R)|done..].
  rewrite K, (br_kept _ _ R). exact A.
Qed.

Lemma wp_open_links n g (Q : unit -> node -> Prop) max_conn :
  (forall i, g i = (true, true)) -> held (drv n) = [] -> magic (drv n) = MUDM_MAGIC ->
  (forall l, (l < 2)%nat -> has_all l n) ->
  (forall p, (pool_link p < 2)%nat -> exists behind, fresh_pool (Z.to_nat max_conn) (pool_size p) behind (pools (drv n) p)) ->
  (forall l, (l < 2)%nat -> fresh_objects max_conn (drv n) l) ->
  b_state (RDMA_bcast_control (system_bcast (drv n))) = BCAST_INACTIVE ->
  chain (conn_list (drv n)) (conn_freelist (drv n)) (seq 0 (Z.to_nat max_conn)) -> no_heads (drv n) ->
  (forall w, started max_conn (trace (drv n)) (n <| drv := w |>) -> clean_table w = clean_table (drv n) -> identity w = identity (drv n) -> Q tt (n <| drv := w |>)) ->
  wp (open_links ly unw g) Q n.
Proof.
  intros Hg Hh Hm Ha Hp Ho Hb Hc Hn HQ.
  apply wp_bind, wp_init_link; [apply Hg|]. intros w1 L1. apply wp_bind, wp_init_link; [apply Hg|]. intros w2 L2.
  pose proof (links_opened n w1 w2 L1 L2) as L. change (n <| drv := w1 |> <| drv := w2 |>) with (n <| drv := w2 |>).
  apply wp_bind, wp_in_drv, wp_bcast_init.
  { destruct (Ho 0%nat ltac:(lia)) as (base & start & F). pose proof (kept_eq _ _ (los_kept _ _ L)) as (_ & _ & _ & _ & _ & _ & E & _).
    change (drv (n <| drv := w2 |>)) with w2. rewrite E, (proj2 (fo_bcast _ _ _ _ F)).
    change 7 with (Z.ones 3). rewrite Z.land_ones by lia. unfold SIZEOF_mu_element. change (2 ^ 3) with 8.
    replace (Z.of_nat _ * 16) with (Z.of_nat (rdma_objects max_conn 0) * 2 * 8) by lia. by apply Z.mod_mul. }
  intros w3 B3. change (drv (n <| drv := w2 |>)) with w2 in B3.
  apply wp_bind, wp_in_drv, wp_init_descriptor. intros w4 K4 V4 S4. apply wp_in_drv, wp_modify.
  pose proof (links_open_bcast n w2 w3 w4 L B3 K4 V4 S4) as L4.
  pose proof (kept_eq _ _ (los_kept _ _ L4)) as (I & _ & _ & _ & _ & T & _).
  apply (HQ (w4 <| m_state := MUDM_ACTIVE |>)); [by apply links_open_started|exact T|exact I].
Qed.
End steps.
