(* ===== verification/StartStop.v ===== *)
(** * Start, termination and a second start

    What [mudm_init] of Init.v leaves, that [mudm_terminate] takes all of it
    down again, and what happens when the driver is started once more. *)

From Stdlib Require Import FunctionalExtensionality.
From S2P Require Import Prelude Chain Bytes Descriptor State Inject Concrete Memory Pools Pkt Rdma ConnList Connect Msg Kernel Reset Cleanup Activate LinkReset Personality Init Start.
Section driver.
Context (P : platform) `{!RoomyAlloc P} (ly : layout) (Hly : layout_ok ly) (unw : unwritten).

Lemma has_bats_drv l n w : rdma w = rdma (drv n) -> mudm_context_phys_addr w = mudm_context_phys_addr (drv n) ->
  has_bats l n -> has_bats l (n <| drv := w |>).
Proof. intros R X H. by eapply has_bats_keep. Qed.
Lemma has_all_drv l n w : rdma w = rdma (drv n) -> mudm_context_phys_addr w = mudm_context_phys_addr (drv n) ->
  has_all l n -> has_all l (n <| drv := w |>).
Proof. intros R X (H & [E F] & [G K]). split; [by apply has_bats_drv|]. by split. Qed.

Lemma init_links_ok cfg max_conn n (Q : Z * mudm_cfg_info -> node -> Prop) :
  4 <= max_conn < 2 ^ 19 -> (length (clean_table (drv n)) + 17 <= MAX_CLEANUP_ENTRIES)%nat ->
  (forall p, (pool_link p < 2)%nat -> is_Some (u_behind unw p)) ->
  held (drv n) = [] -> magic (drv n) = MUDM_MAGIC -> no_heads (drv n) ->
  b_state (RDMA_bcast_control (system_bcast (drv n))) = BCAST_INACTIVE ->
  (forall l, (l < 2)%nat -> has_bats l n /\ fresh_objects max_conn (drv n) l /\
     fr_pa_start (mu_inj (mu n) (init_subgroup_id l, 0%nat)) = 0 /\ fr_pa_start (mu_rec (mu n) (init_subgroup_id l, 0%nat)) = 0) ->
  (forall n' es, started max_conn (trace (drv n)) n' -> clean_table (drv n') = clean_table (drv n) ++ es ->
     ce_fn <$> es = links_fns -> identity (drv n') = identity (drv n) -> others (mu n) (mu n') -> links_outside n n' -> Q (0, cfg) n') ->
  wp (init_links P ly unw cfg max_conn) Q n.
Proof.
  intros Hm Ht Hb Hh Hmg Hn Hbc Hl HQ. destruct (region_sizes max_conn Hm) as [[Si Mi] [Sr Mr]].
  apply wp_bind, wp_in_drv, (init_pools_ok P ly Hly unw); [done|lia|lia|done|]. intros rs f g Lr Hg Hf.
  set (n1 := n <| drv := _ |>). assert (D1 : drv n1 = (with_entries (plain_entries rs) (drv n)) <| pools := f |>) by done.
  assert (T1 : length (clean_table (drv n1)) = (length (clean_table (drv n)) + 12)%nat).
  { rewrite D1. cbn. by rewrite length_app, length_plain, Lr. }
  assert (Hb1 : forall l, (l < 2)%nat -> has_bats l n1) by (intros l Hl2; by apply has_bats_drv, Hl).
  apply wp_bind, (init_injfifos_ok P unw); [done|lia|done|done|done|by intros l Hl2; apply Hl|].
  intros n2 r0 r1 D2 H2 V2 O2 L2. cbn [negb Z.eqb].
  assert (T2 : length (clean_table (drv n2)) = (length (clean_table (drv n)) + 14)%nat).
  { rewrite D2. unfold with_entries at 1. change (length (clean_table (drv n1) ++ [mkCe r0 (Some (FreeMuInjRegion 0)) 0; mkCe r1 (Some (FreeMuInjRegion 1)) 0]) = (length (clean_table (drv n)) + 14)%nat). rewrite length_app, T1. cbn. lia. }
  apply wp_bind, (init_recfifos_ok P); [lia|done|done|done| |].
  { intros l Hl2. rewrite (rec_view_start _ _ _ (V2 _)). by apply Hl. }
  intros n3 r2 r3 D3 H3 O3 L3. cbn [negb Z.eqb].
  set (es := plain_entries rs ++ [mkCe r0 (Some (FreeMuInjRegion 0)) 0; mkCe r1 (Some (FreeMuInjRegion 1)) 0] ++
    [mkCe r2 (Some (FreeRecFifo 0)) 0; mkCe r3 (Some (FreeRecFifo 1)) 0]).
  assert (D : drv n3 = (with_entries es (drv n)) <| pools := f |>).
  { rewrite D3, D2, D1, !with_entries_pools, !with_entries_app. done. }
  assert (T3 : length (clean_table (drv n3)) = (length (clean_table (drv n)) + 16)%nat).
  { rewrite D. change (length (clean_table (drv n) ++ es) = (length (clean_table (drv n)) + 16)%nat). unfold es. rewrite !length_app, length_plain, Lr. cbn. lia. }
  apply wp_bind, wp_in_drv, (wp_conn_list P); [by rewrite D|by rewrite D|lia|lia|].
  intros r h Hc. cbn [negb Z.eqb].
  set (n4 := n3 <| drv := _ |>). set (es' := es ++ [mkCe r (Some FreeMem) 0]).
  assert (D4 : drv n4 = (with_entries es' (drv n)) <| pools := f |> <| conn_list := h |> <| conn_freelist := Some 0%nat |>).
  { change (drv n4) with ((with_entries [mkCe r (Some FreeMem) 0] (drv n3)) <| conn_list := h |> <| conn_freelist := Some 0%nat |>).
    by rewrite D, with_entries_pools, with_entries_app. }
  apply wp_bind, (wp_open_links P ly Hly unw n4 g _ max_conn); [exact Hg|by rewrite D4..|intros; by apply has_all_drv; [..|apply H3]| | | | | |].
  - intros p Hp. rewrite D4. by apply Hf.
  - intros l Hl2. unfold fresh_objects. rewrite D4. by apply Hl.
  - by rewrite D4.
  - rewrite D4. exact Hc.
  - rewrite D4. exact Hn.
  - intros w St Ct It. apply wp_ret, (HQ _ es').
    + by rewrite D4 in St.
    + change (clean_table w = clean_table (drv n) ++ es'). by rewrite Ct, D4.
    + unfold es', es. rewrite !fmap_app, plain_fns, Lr. done.
    + by rewrite D4 in It.
    + etrans; [exact O2|exact O3].
    + intros k Hk. change (musm n3 k = musm n k). by rewrite L3, L2.
Qed.

(** Nothing of a link's subgroup is taken. *)
Record link_unused (r : mu_regs) (l : nat) : Prop := mkLu {
  lu_bat : forall i, (i < NUM_DATA_COUNTERS_PER_SUBGROUP)%nat -> mu_bat r (init_subgroup_id l, i) = FREE_BAT;
  lu_inj : fr_pa_start (mu_inj r (init_subgroup_id l, 0%nat)) = 0;
  lu_rec : fr_pa_start (mu_rec r (init_subgroup_id l, 0%nat)) = 0 }.
(** A call with everything it must have. *)
Record info_ok (ii : mudm_init_info) (p : Personality_t) : Prop := mkIi {
  io_version : callers_version ii = MUDM_VERSION;
  io_callbacks : has_allocate ii && has_status ii && has_recv_conn ii && has_recv ii && has_free ii = true;
  io_personality : ii_personality ii = Some p;
  io_connections : req_inbound_connections ii < 2 ^ 19 }.
Definition connections (ii : mudm_init_info) : Z :=
  if req_inbound_connections ii <? 4 then 4 else req_inbound_connections ii.
Definition init_cfg (ii : mudm_init_info) : mudm_cfg_info :=
  mkCfg MUDM_VERSION 0 (connections ii) (Z.of_nat NUM_IO_LINKS) 0.
Definition init_fns : list (option cleanup_fn) :=
  [Some FreeMem; Some FreeMem; Some FreeMem; Some (FreeMuSubgroupMem 0); Some (FreeMuSubgroupMem 1)] ++ links_fns.

Lemma connections_bounds ii : req_inbound_connections ii < 2 ^ 19 -> 4 <= connections ii < 2 ^ 19.
Proof. intros H. unfold connections. destruct (Z.ltb_spec (req_inbound_connections ii) 4); lia. Qed.

Lemma wp_add_object r fn (Q : Z -> world -> Prop) w : (length (clean_table w) < MAX_CLEANUP_ENTRIES)%nat ->
  Q 0 (with_entries [mkCe r fn 0] w) -> wp (add_object r fn) Q w.
Proof. intros Ht HQ. apply wp_bind, wp_gets. rewrite decide_False by lia. by apply wp_bind, wp_modify, wp_ret. Qed.

(** The context before its links. *)
Record context_ready (p : Personality_t) (max_conn : Z) (w w' : world) : Prop := mkCr {
  cr_magic : magic w' = MUDM_MAGIC;
  cr_identity : identity w' = (max_connections w, my_using_IO_port w, get_my_torus_addr p, get_my_bridging_torus_addr p,
    getUCI p, get_BlockID p);
  cr_held : held w' = held w;
  cr_trace : trace w' = trace w;
  cr_table : exists r0 r1, clean_table w' = clean_table w ++ plain_entries [r0; r1];
  cr_heads : (conn_pendlist w', conn_activelist w', conn_abortlist w') = (conn_pendlist w, conn_activelist w, conn_abortlist w);
  cr_bcast : system_bcast w' = system_bcast w;
  cr_objects : forall l, (l < 2)%nat -> fresh_objects max_conn w' l }.

Lemma wp_init_context ii p max_conn (Q : Z -> world -> Prop) w :
  ii_personality ii = Some p -> 0 < max_conn < 2 ^ 19 -> held w = [] -> (length (clean_table w) + 2 <= MAX_CLEANUP_ENTRIES)%nat ->
  (forall w', context_ready p max_conn w w' -> Q 0 w') ->
  wp (init_context P ly ii max_conn) Q w.
Proof.
  intros Hp Hm Hh Ht HQ. apply wp_bind, wp_modify, wp_bind, (wp_deref _ p); [done|]. apply wp_bind, wp_modify.
  apply (wp_rdma_init P ly Hly); [done|done|done|]. intros r0 r1 c0 c1 k _ F0 F1.
  apply HQ. split; [reflexivity..|exists r0, r1; reflexivity|reflexivity|reflexivity|].
  intros l Hl. destruct l as [|[|]]; [..|lia]; do 2 eexists; [exact F0|exact F1].
Qed.

(** What [mudm_init] leaves. *)
Record init_done (ii : mudm_init_info) (p : Personality_t) (n n' : node) : Prop := mkIdone {
  id_started : started (connections ii) (trace (drv n)) n';
  id_identity : identity (drv n') = (connections ii, getCNportOnIOnode (Some p), get_my_torus_addr p,
    get_my_bridging_torus_addr p, getUCI p, get_BlockID p);
  id_table : exists es, clean_table (drv n') = clean_table (drv n) ++ es /\ ce_fn <$> es = init_fns;
  id_others : others (mu n) (mu n');
  id_outside : links_outside n n' }.

Lemma wp_alloc_core (Q : option mudm_memory_region -> world -> Prop) w :
  (forall r, good_region (sizeof_my_context ly) r -> Q (Some r) w) -> wp (cb_allocate P (sizeof_my_context ly)) Q w.
Proof.
  intros HQ. destruct Hly as [L _ _ _ _ _]. eapply wp_mono; [apply roomy_alloc; lia|].
  intros o w' (-> & r & -> & Hr). by apply HQ.
Qed.

(** Up to the subgroups: three regions, the identity and the counters. *)
Lemma wp_mudm_init_context ii p cfg n (Q : Z * mudm_cfg_info -> node -> Prop) :
  info_ok ii p -> held (drv n) = [] -> (length (clean_table (drv n)) + 3 <= MAX_CLEANUP_ENTRIES)%nat ->
  (forall va w1 r0 r1 r2, magic w1 = MUDM_MAGIC -> held w1 = [] -> trace w1 = trace (drv n) ->
     identity w1 = (connections ii, getCNportOnIOnode (Some p), get_my_torus_addr p, get_my_bridging_torus_addr p, getUCI p, get_BlockID p) ->
     clean_table w1 = clean_table (drv n) ++ plain_entries [r0; r1; r2] -> no_heads w1 ->
     b_state (RDMA_bcast_control (system_bcast w1)) = BCAST_INACTIVE ->
     (forall l, (l < 2)%nat -> fresh_objects (connections ii) w1 l) ->
     wp (init_subgroups P ly unw va (init_cfg ii) (connections ii)) Q (n <| drv := w1 |>)) ->
  wp (mudm_init P ly unw ii cfg) Q n.
Proof.
  intros [Iv Ic Ip Im] Hh Ht HQ. apply connections_bounds in Im. unfold mudm_init. cbv zeta.
  lazymatch goal with |- context [cfg_version ?c =? _] => change (cfg_version c) with MUDM_VERSION end.
  rewrite Iv, Z.eqb_refl, Ic. cbn [negb].
  apply wp_bind, wp_in_drv, wp_alloc_core. intros r0 G0. apply wp_bind, wp_in_drv, wp_modify.
  fold (connections ii). rewrite Ip. set (w0 := (zero_context (drv n)) <| mudm_context_phys_addr := mr_base_paddr r0 |>
    <| max_connections := connections ii |> <| my_using_IO_port := getCNportOnIOnode (Some p) |>).
  assert (Hh0 : held w0 = []) by (change (filter (fun k => k <> ConnLock /\ k <> InjLock 0 /\ k <> InjLock 1) (held (drv n)) = []); by rewrite Hh).
  apply wp_bind, wp_in_drv, wp_add_object; [change (length (clean_table (drv n)) < MAX_CLEANUP_ENTRIES)%nat; lia|].
  cbn [negb Z.eqb]. apply wp_bind, wp_in_drv, (wp_init_context ii p); [done|lia|exact Hh0| |].
  { change (length (clean_table (drv n) ++ [mkCe r0 (Some FreeMem) 0]) + 2 <= MAX_CLEANUP_ENTRIES)%nat. rewrite length_app. cbn. lia. }
  intros w1 [C1 C2 C3 C4 (r1 & r2 & C5) C6 C7 C8]. cbn [negb Z.eqb].
  apply (HQ _ w1 r0 r1 r2); [done|by rewrite C3|by rewrite C4|rewrite C2; reflexivity| | |by rewrite C7|done].
  - rewrite C5. exact (eq_sym (app_assoc (clean_table (drv n)) [mkCe r0 (Some FreeMem) 0] (plain_entries [r1; r2]))).
  - injection C6 as A B C. by split_and!.
Qed.

Lemma mudm_init_ok ii p cfg n (Q : Z * mudm_cfg_info -> node -> Prop) :
  info_ok ii p -> held (drv n) = [] -> (length (clean_table (drv n)) + 22 <= MAX_CLEANUP_ENTRIES)%nat ->
  (forall l, (l < 2)%nat -> link_unused (mu n) l) ->
  (forall q, (pool_link q < 2)%nat -> is_Some (u_behind unw q)) ->
  (forall n', init_done ii p n n' -> Q (0, init_cfg ii) n') -> wp (mudm_init P ly unw ii cfg) Q n.
Proof.
  intros Hi Hh Ht Hu Hb HQ. pose proof (connections_bounds _ (io_connections _ _ Hi)) as Im.
  apply (wp_mudm_init_context ii p); [done|done|lia|]. intros va w1 r0 r1 r2 M1 Hh1 E1 I1 T1 N1 B1 F1.
  apply wp_bind, (init_subgroups_ok P ly Hly); [cbn; rewrite T1, length_app; cbn; lia|intros l Hl; by apply Hu|].
  intros n2 r3 r4 D2 B2 I2 R2 O2 L2. cbn [negb Z.eqb]. change (drv (n <| drv := w1 |>)) with w1 in D2.
  apply init_links_ok; rewrite ?D2; [done| |done|done|done|done|done| |].
  - change (length (clean_table w1 ++ [mkCe r3 (Some (FreeMuSubgroupMem 0)) 0; mkCe r4 (Some (FreeMuSubgroupMem 1)) 0]) + 17 <= MAX_CLEANUP_ENTRIES)%nat.
    rewrite length_app, T1, length_app. cbn. lia.
  - intros l Hl. split; [by apply B2|]. split; [by apply F1|].
    rewrite (view_start _ _ _ (I2 _)), (rec_view_start _ _ _ (R2 _)). split; by apply Hu.
  - intros n3 es S3 T3 F3 I3 O3 L3. apply HQ. split.
    + change (trace (with_entries _ w1)) with (trace w1) in S3. by rewrite E1 in S3.
    + rewrite I3. transitivity (identity w1); [reflexivity|exact I1].
    + eexists. split; [rewrite T3; change (clean_table (with_entries ?es w1)) with (clean_table w1 ++ es); rewrite T1, <- !app_assoc; reflexivity|].
      rewrite !fmap_app, F3. done.
    + by etrans.
    + intros k Hk. by rewrite L3, L2.
Qed.

Lemma started_musm_ok max_conn t n : started max_conn t n ->
  (forall l, (2 <= l)%nat -> musm_ok (musm n l)) -> forall l, musm_ok (musm n l).
Proof.
  intros S H l. destruct (le_lt_dec 2 l) as [Hl|Hl]; [by apply H|].
  destruct (st_link _ _ _ S l Hl) as ([A _ B _ _ _] & ([_ _ C _] & [_ _ D _ _] & [_ E _]) & _).
  split; [rewrite C; lia|rewrite D; lia| |by rewrite E]. rewrite B. split; [|cbn; lia].
  intros i Hi%elem_of_seq. unfold NUM_DATA_COUNTERS_PER_SUBGROUP in Hi. lia.
Qed.

Context `{!QuietStatus P, !QuietRecvConn P, !QuietFree P}.

(** Termination right after the start. *)
Lemma stop_ok ii p n n1 (Q : Z -> node -> Prop) : clean_table (drv n) = [] -> init_done ii p n n1 ->
  (forall l, (2 <= l)%nat -> musm_ok (musm n l)) ->
  (forall n' es, ce_fn <$> es = init_fns -> magic (drv n') = 0 -> held (drv n') = [] ->
     trace (drv n') = trace (drv n) ++ [EvWakeup; EvWakeup] ++ map (fun e => EvFree (ce_region e)) (reverse es) ->
     entries n' = entry_of <$> es -> (forall l, (l < 2)%nat -> link_unused (mu n') l) ->
     (forall l, musm_ok (musm n' l)) -> Q 0 n') ->
  wp (mudm_terminate P) Q n1.
Proof.
  intros Ht [St _ (es & Te & Fe) _ Ho] Hok HQ. rewrite Ht in Te. cbn [app] in Te.
  assert (Hok1 : forall l, musm_ok (musm n1 l)).
  { eapply started_musm_ok; [exact St|]. intros l Hl. rewrite Ho by done. by apply Hok. }
  eapply wp_mono; [apply (mudm_terminate_ok P n1 (fresh_link (connections ii) 0) (fresh_link (connections ii) 1)
    (seq 0 (Z.to_nat (connections ii))) (fun _ => []))|].
  - apply St.
  - apply St.
  - by apply (st_link _ _ _ St 0%nat); lia.
  - by apply (st_link _ _ _ St 1%nat); lia.
  - apply St.
  - exact Hok1.
  - intros r n' [(-> & M & _ & _ & _ & _ & (e0 & e1 & T0 & T1 & Tr) & B) (H & En & Nm)].
    apply Forall2_nil_inv_l in T0 as ->. apply Forall2_nil_inv_l in T1 as ->. rewrite Te in B, Tr.
    apply (HQ n' es); [done|done|done| | | |].
    + by rewrite Tr, (st_trace _ _ _ St).
    + rewrite En. unfold entries. by rewrite Te.
    + intros l Hl. destruct (st_link _ _ _ St l Hl) as ([_ _ Bi _ _ _] & ([_ Ig Ii _] & [_ Rg Ri _ _] & [_ Bg _]) & _ & _ & Sl).
      assert (Hin : forall fn, fn ∈ init_fns -> given_back (mu n') (musm n1) fn).
      { intros fn Hfn. rewrite <- Fe in Hfn. apply list_elem_of_fmap in Hfn as (e & -> & He). by apply B. }
      split.
      * intros i Hi. rewrite <- Sl, <- Bg. apply (Hin (Some (FreeMuSubgroupMem l))); [|rewrite Bi; apply elem_of_seq; lia].
        apply (list_elem_of_lookup_2 _ (3 + l)). by destruct l as [|[|]]; [..|lia].
      * rewrite <- Sl, <- Ig, <- Ii. apply (Hin (Some (FreeMuInjRegion l))).
        apply (list_elem_of_lookup_2 _ (17 + l)). by destruct l as [|[|]]; [..|lia].
      * rewrite <- Sl, <- Rg, <- Ri. apply (Hin (Some (FreeRecFifo l))).
        apply (list_elem_of_lookup_2 _ (19 + l)). by destruct l as [|[|]]; [..|lia].
    + intros l. exact (musm_names_ok _ _ (Nm l) (Hok1 l)).
Qed.

(** A start with the entries of the last one still in the table. *)
Lemma mudm_init_full ii p cfg n (Q : Z * mudm_cfg_info -> node -> Prop) :
  info_ok ii p -> held (drv n) = [] -> (length (clean_table (drv n)) + 3 = MAX_CLEANUP_ENTRIES)%nat ->
  (forall l, musm_ok (musm n l)) ->
  (forall c n' r0 r1 r2, trace (drv n') = trace (drv n) ++ [EvFree r2; EvFree r1; EvFree r0] ++
       map (fun k => EvFree (fst k)) (reverse (entries n)) -> Q (- ENOMEM, c) n') ->
  wp (mudm_init P ly unw ii cfg) Q n.
Proof.
  intros Hi Hh Ht Hok HQ.
  apply (wp_mudm_init_context ii p); [done|done|lia|]. intros va w1 r0 r1 r2 _ _ E1 _ T1 _ _ _.
  assert (L1 : length (clean_table w1) = MAX_CLEANUP_ENTRIES) by (rewrite T1, length_app; exact Ht).
  apply wp_bind. cbn [each io_links]. apply wp_bind, wp_bind, wp_in_drv, (wp_alloc_full P); [exact L1|].
  cbn [fst negb Z.eqb]. apply wp_ret, wp_ret. cbn [negb Z.eqb].
  lazymatch goal with |- wp _ _ ?m => set (n1 := m) end.
  assert (Een : entries n1 = entry_of <$> (clean_table (drv n) ++ plain_entries [r0; r1; r2])) by (rewrite <- T1; reflexivity).
  apply wp_bind, wp_bind, wp_gets, wp_bind. eapply wp_mono; [by apply (cleanup_loop_ok P)|].
  intros [] n2 [Tr _ _ _ _ _]. apply wp_ret, wp_ret, (HQ _ n2 r0 r1 r2). rewrite Tr.
  rewrite take_ge, Een by (unfold entries; by rewrite length_fmap).
  change (trace (drv n1)) with (trace w1). rewrite E1, fmap_app, reverse_app, map_app. reflexivity.
Qed.

(** C19: [mudm_init] returns 0 on a call of the right version with all
    callbacks and a personality, when nothing of the two links' subgroups
    is taken: both links have their FIFOs and base addresses set up and
    started as in [started], all packets but the one behind each array, all
    RDMA objects and all connection blocks are free, the identity comes from
    the personality, and the table has 22 entries with the functions that
    undo each allocation.  Nothing else of the message unit changes. *)
Theorem mudm_init_correct ii p cfg n :
  info_ok ii p -> held (drv n) = [] -> clean_table (drv n) = [] ->
  (forall l, (l < 2)%nat -> link_unused (mu n) l) ->
  (forall q, (pool_link q < 2)%nat -> is_Some (u_behind unw q)) ->
  wp (mudm_init P ly unw ii cfg) (fun r n' => r = (0, init_cfg ii) /\ init_done ii p n n' /\
    (length (clean_table (drv n')) = 22)%nat) n.
Proof.
  intros Hi Hh Ht Hu Hb. apply (mudm_init_ok ii p); [done|done|rewrite Ht; cbn; unfold MAX_CLEANUP_ENTRIES; lia|done|done|].
  intros n' H. split; [done|]. split; [done|]. destruct (id_table _ _ _ _ H) as (es & -> & Fe).
  rewrite Ht. cbn [app]. by rewrite <- (length_fmap ce_fn es), Fe.
Qed.

(** C25: [mudm_init] refuses a caller of another version with -EBADRQC and one
    that lacks a callback with -EINVAL, and then changes nothing.  When the
    context cannot be allocated it returns -ENOMEM, but first it frees a
    region that was never filled in. *)
Theorem mudm_init_refuses ii cfg n :
  (callers_version ii <> MUDM_VERSION -> wp (mudm_init P ly unw ii cfg) (fun r n' => fst r = - EBADRQC /\ cfg_errno (snd r) = EBADRQC /\ n' = n) n) /\
  (callers_version ii = MUDM_VERSION -> has_allocate ii && has_status ii && has_recv_conn ii && has_recv ii && has_free ii = false ->
     wp (mudm_init P ly unw ii cfg) (fun r n' => fst r = - EINVAL /\ cfg_errno (snd r) = EINVAL /\ n' = n) n) /\
  (callers_version ii = MUDM_VERSION -> has_allocate ii && has_status ii && has_recv_conn ii && has_recv ii && has_free ii = true ->
     cb_allocate P (sizeof_my_context ly) (drv n) = Ok None (drv n) ->
     wp (mudm_init P ly unw ii cfg) (fun r n' => fst r = - ENOMEM /\
       trace (drv n') = trace (drv n) ++ [EvFree (u_core_region unw)] /\ n_chip n' = n_chip n) n).
Proof.
  unfold mudm_init. cbv zeta.
  lazymatch goal with |- context [cfg_version ?c =? _] => change (cfg_version c) with MUDM_VERSION end. split_and!.
  - intros H. destruct (Z.eqb_spec MUDM_VERSION (callers_version ii)); [congruence|]. by apply wp_ret.
  - intros -> ->. rewrite Z.eqb_refl. by apply wp_ret.
  - intros -> -> Ha. rewrite Z.eqb_refl. cbn [negb]. apply wp_bind, wp_in_drv.
    assert (Hn : wp (cb_allocate P (sizeof_my_context ly)) (fun o w => o = None /\ w = drv n) (drv n)) by (unfold wp; by rewrite Ha).
    eapply wp_mono; [exact Hn|]. intros o w [-> ->]. apply wp_bind, (wp_free_mem P). intros s. by apply wp_ret.
Qed.

(** C20: what [mudm_init] sets up, [mudm_terminate] takes down: both return 0,
    every FIFO and base address table entry of the links is free again, and
    each of the 22 regions is released once, the last one first.  Structures
    that belong to no link are only assumed to name existing FIFOs. *)
Theorem start_stop ii p cfg n :
  info_ok ii p -> held (drv n) = [] -> clean_table (drv n) = [] ->
  (forall l, (l < 2)%nat -> link_unused (mu n) l) ->
  (forall q, (pool_link q < 2)%nat -> is_Some (u_behind unw q)) ->
  (forall l, (2 <= l)%nat -> musm_ok (musm n l)) ->
  wp (r <- mudm_init P ly unw ii cfg ;; s <- mudm_terminate P ;; ret (fst r, s)) (fun rs n' =>
    rs = (0, 0) /\ magic (drv n') = 0 /\ (forall l, (l < 2)%nat -> link_unused (mu n') l) /\
    exists es, ce_fn <$> es = init_fns /\
      trace (drv n') = trace (drv n) ++ [EvWakeup; EvWakeup] ++ map (fun e => EvFree (ce_region e)) (reverse es)) n.
Proof.
  intros Hi Hh Ht Hu Hb Hok. apply wp_bind, (mudm_init_ok ii p); [done|done|rewrite Ht; cbn; unfold MAX_CLEANUP_ENTRIES; lia|done|done|].
  intros n1 H1. apply wp_bind, (stop_ok ii p n); [done|done|done|]. intros n2 es Fe M _ Tr _ U _.
  apply wp_ret. split; [done|]. split; [done|]. split; [done|]. by exists es.
Qed.

(** C21: a driver that was terminated does not start again: the table of the
    first start is still full, so the second [mudm_init] finds no room for
    the first link, returns -ENOMEM, and its cleanup runs through the entries
    of the first start once more after its own three.  (The model keeps an
    entry's region by value; the code reads it again from memory that it has
    given back.) *)
Theorem restart_fails ii p cfg n :
  info_ok ii p -> held (drv n) = [] -> clean_table (drv n) = [] ->
  (forall l, (l < 2)%nat -> link_unused (mu n) l) ->
  (forall q, (pool_link q < 2)%nat -> is_Some (u_behind unw q)) ->
  (forall l, (2 <= l)%nat -> musm_ok (musm n l)) ->
  wp (r <- mudm_init P ly unw ii cfg ;; s <- mudm_terminate P ;; t <- mudm_init P ly unw ii (snd r) ;; ret (fst r, s, fst t)) (fun rst n' =>
    rst = (0, 0, - ENOMEM) /\ exists old new, (length old = 22 /\ length new = 3)%nat /\
      trace (drv n') = trace (drv n) ++ [EvWakeup; EvWakeup] ++ map EvFree (reverse old) ++
        map EvFree (reverse new) ++ map EvFree (reverse old)) n.
Proof.
  intros Hi Hh Ht Hu Hb Hok. apply wp_bind, (mudm_init_ok ii p); [done|done|rewrite Ht; cbn; unfold MAX_CLEANUP_ENTRIES; lia|done|done|].
  intros n1 H1. apply wp_bind, (stop_ok ii p n); [done|done|done|]. intros n2 es Fe _ Hh2 Tr En _ Ok2.
  assert (Les : length es = 22%nat) by (by rewrite <- (length_fmap ce_fn es), Fe).
  assert (Lt : length (clean_table (drv n2)) = 22%nat).
  { rewrite <- (length_fmap entry_of (clean_table (drv n2))). fold (entries n2). by rewrite En, length_fmap. }
  apply wp_bind, (mudm_init_full ii p); [done|done|by rewrite Lt|done|]. intros c n3 r0 r1 r2 Tr3.
  apply wp_ret. split; [done|]. exists (ce_region <$> es), [r0; r1; r2]. split; [by rewrite length_fmap|].
  assert (E : forall l, map EvFree (reverse (ce_region <$> l)) = map (fun e => EvFree (ce_region e)) (reverse l)).
  { intros l. rewrite <- fmap_reverse. change (ce_region <$> ?x) with (map ce_region x). by rewrite map_map. }
  assert (E' : map (fun k => EvFree (fst k)) (reverse (entries n2)) = map EvFree (reverse (ce_region <$> es))).
  { rewrite En, E, <- fmap_reverse. change (entry_of <$> ?x) with (map entry_of x). by rewrite map_map. }
  rewrite Tr3, Tr, E', <- E, <- !app_assoc. reflexivity.
Qed.
End driver.

(** ** Witness: the demo platform on a message unit nobody uses *)

Definition demo_ii : mudm_init_info := mkInfo MUDM_VERSION 8 true true true true true (Some demo_pers).
Definition demo_cfg : mudm_cfg_info := mkCfg 0 0 0 0 0.
Definition demo_unwritten : unwritten :=
  mkUnwritten 0 (mkRegion 1 2 3) (replicate SW_LEN 0) (fun _ => Some (demo_pktd None 0)).
Definition idle_node : node :=
  mkNode (demo_world <| clean_table := [] |>) (mkChip (reset_mu <| mu_bat := fun _ => FREE_BAT |>) (fun _ => 0) (fun _ => 0)) demo_musm.

Lemma demo_info_ok : info_ok demo_ii demo_pers.
Proof. by split. Qed.
Lemma idle_unused l : (l < 2)%nat -> link_unused (mu idle_node) l.
Proof. intros Hl. by split. Qed.
Lemma demo_behind (q : pool_id) : (pool_link q < 2)%nat -> is_Some (u_behind demo_unwritten q).
Proof. intros _. by eexists. Qed.

Lemma mudm_init_correct_witness :
  wp (mudm_init demo_platform demo_layout demo_unwritten demo_ii demo_cfg) (fun r n' =>
    r = (0, mkCfg MUDM_VERSION 0 8 2 0) /\ m_state (drv n') = MUDM_ACTIVE /\
    coord_of (myTorusAddress (drv n')) 2 = 3 /\ (length (clean_table (drv n')) = 22)%nat /\
    mu_bat (mu n') (67, Z.to_nat RDMA_COUNTER_INDEX)%nat = roc_base_pa (rdma (drv n') 1%nat)) idle_node.
Proof.
  eapply wp_mono; [apply (mudm_init_correct demo_platform demo_layout demo_layout_ok demo_unwritten demo_ii demo_pers);
    [apply demo_info_ok|done|done|apply idle_unused|apply demo_behind]|].
  intros r n' (-> & H & L). split; [done|]. split; [apply H|].
  pose proof (id_identity _ _ _ _ H) as I. injection I as _ _ -> _ _ _. split; [done|]. split; [done|].
  exact (proj1 (st_bases _ _ _ (id_started _ _ _ _ H) 1%nat ltac:(lia))).
Defined.

Lemma start_stop_witness :
  wp (r <- mudm_init demo_platform demo_layout demo_unwritten demo_ii demo_cfg ;; s <- mudm_terminate demo_platform ;; ret (fst r, s)) (fun rs n' =>
    rs = (0, 0) /\ mu_bat (mu n') (67, 5)%nat = FREE_BAT /\
    exists evs, (length evs = 22)%nat /\ trace (drv n') = [EvWakeup; EvWakeup] ++ evs) idle_node.
Proof.
  eapply wp_mono; [apply (start_stop demo_platform demo_layout demo_layout_ok demo_unwritten demo_ii demo_pers);
    [apply demo_info_ok|done|done|apply idle_unused|apply demo_behind|by intros l _; apply demo_musm_ok]|].
  intros rs n' (-> & _ & U & es & Fe & T). split; [done|]. split; [by apply (lu_bat _ _ (U 1%nat ltac:(lia)) 5); unfold NUM_DATA_COUNTERS_PER_SUBGROUP; lia|].
  eexists. split; [|exact T]. rewrite length_map, length_reverse, <- (length_fmap ce_fn es), Fe. done.
Defined.

Lemma restart_fails_witness :
  wp (r <- mudm_init demo_platform demo_layout demo_unwritten demo_ii demo_cfg ;; s <- mudm_terminate demo_platform ;;
      t <- mudm_init demo_platform demo_layout demo_unwritten demo_ii (snd r) ;; ret (fst r, s, fst t)) (fun rst n' =>
    rst = (0, 0, - ENOMEM) /\ exists evs, (length evs = 49)%nat /\ trace (drv n') = evs) idle_node.
Proof.
  eapply wp_mono; [apply (restart_fails demo_platform demo_layout demo_layout_ok demo_unwritten demo_ii demo_pers);
    [apply demo_info_ok|done|done|apply idle_unused|apply demo_behind|by intros l _; apply demo_musm_ok]|].
  intros rst n' (-> & old & new & [Lo Ln] & T). split; [done|]. eexists. split; [|exact T].
  rewrite !length_app, !length_map, !length_reverse, Lo, Ln. done.
Defined.

(** An allocator without memory. *)
Definition empty_platform : platform :=
  mkPlatform (hw_step demo_platform) (cb_recv demo_platform) (cb_recv_conn demo_platform) (cb_status demo_platform)
    (fun _ w => Ok None w) (cb_free demo_platform) (wakeup_wait demo_platform)
    (cycles_per_usec demo_platform) (off_dummy_counter demo_platform) (off_rgatc demo_platform)
    (off_largest_node_corner demo_platform) (off_num_compute_nodes demo_platform) (buf_image demo_platform) (spin_fuel demo_platform).
#[export] Instance empty_quiet_free : QuietFree empty_platform.
Proof. exact (quiet_free (P := demo_platform)). Qed.

Lemma mudm_init_refuses_witness :
  wp (mudm_init empty_platform demo_layout demo_unwritten (mkInfo 0 8 true true true true true None) demo_cfg)
    (fun r n' => fst r = - EBADRQC /\ n' = idle_node) idle_node /\
  wp (mudm_init empty_platform demo_layout demo_unwritten (mkInfo MUDM_VERSION 8 true true false true true None) demo_cfg)
    (fun r n' => fst r = - EINVAL /\ n' = idle_node) idle_node /\
  wp (mudm_init empty_platform demo_layout demo_unwritten demo_ii demo_cfg)
    (fun r n' => fst r = - ENOMEM /\ trace (drv n') = [EvFree (mkRegion 1 2 3)]) idle_node.
Proof.
  pose proof (mudm_init_refuses empty_platform demo_layout demo_unwritten) as H. split_and!.
  - destruct (H (mkInfo 0 8 true true true true true None) demo_cfg idle_node) as (A & _ & _).
    eapply wp_mono; [by apply A|]. by intros r n' (B & _ & C).
  - destruct (H (mkInfo MUDM_VERSION 8 true true false true true None) demo_cfg idle_node) as (_ & A & _).
    eapply wp_mono; [by apply A|]. by intros r n' (B & _ & C).
  - destruct (H demo_ii demo_cfg idle_node) as (_ & _ & A).
    eapply wp_mono; [by apply A|]. by intros r n' (B & C & _).
Defined.
