(* ===== verification/VerbsMem.v ===== *)
(** * Memory of the verbs driver

    Registered regions and scatter-gather lists of bgvrnic:
    [bgvrnic_reg_user_mr] (bgvrnic_verbs.c) turns the pages behind a user
    buffer into physical pieces, and [bgvrnic_xlate_sgl] (bgvrnic.h) finds
    the pieces behind the user's scatter-gather list.  The reference is
    byte-wise: a list of pieces denotes the addresses of its bytes. *)

From S2P Require Import Prelude Chain Bytes Descriptor State.

Definition u28 (x : Z) : Z := x mod 2 ^ 28.
Definition u36 (x : Z) : Z := x mod 2 ^ 36.
Definition MUDM_MAX_SGE : nat := 58.
Definition MUDM_MAX_SGL_LENGTH := 2 ^ 28.

(** [struct ib_sge] of the kernel, [struct bgvrnic_mr]. *)
Record ib_sge := mkSge { sge_addr : Z; sge_length : Z; sge_lkey : Z }.
Record bgvrnic_mr := mkMr { vmr_start : Z; vmr_length : Z; vmr_sge : list mudm_sgl }.

(** ** Translation *)

(** [while (mr_offset && mi < sge_num)]: the offset that is left and the
    pieces from [mi] on. *)
Fixpoint find_sge (sge : list mudm_sgl) (mr_offset : Z) : Z * list mudm_sgl :=
  match sge with
  | [] => (mr_offset, [])
  | s :: rest =>
    if mr_offset =? 0 then (mr_offset, sge) else
    if mr_offset >=? memlength s then find_sge rest (mr_offset - memlength s) else (mr_offset, sge)
  end.

(** [while (bytes_to_map && pi < *num_psge && mi < sge_num)]; [room] is
    [*num_psge - pi]. *)
Fixpoint map_more (sge : list mudm_sgl) (bytes_to_map : Z) (room : nat) : list mudm_sgl :=
  match sge, room with
  | s :: sge, S room =>
    if bytes_to_map =? 0 then [] else
    if memlength s >? bytes_to_map then [mkSgl (physicalAddr s) (u28 bytes_to_map)]
    else mkSgl (physicalAddr s) (memlength s) :: map_more sge (u32 (bytes_to_map - memlength s)) room
  | _, _ => []
  end.

(** The pieces of one user element; [None] is the failed [BUG_ON]. *)
Definition xlate_sge (mr : bgvrnic_mr) (usge : ib_sge) (room : nat) : option (list mudm_sgl) :=
  let '(mr_offset, sge) := find_sge (vmr_sge mr) (u64 (sge_addr usge - vmr_start mr)) in
  match sge with
  | [] => None
  | s :: sge =>
    let ml := u28 (memlength s - mr_offset) in
    let pa := u36 (physicalAddr s + mr_offset) in
    if ml >? sge_length usge then Some [mkSgl pa (u28 (sge_length usge))]
    else Some (mkSgl pa ml :: map_more sge (u32 (sge_length usge - ml)) (pred room))
  end.

(** The result, the entries written to [psge] and [*num_psge]. *)
Fixpoint xlate_loop {S} (get_mr : Z -> option bgvrnic_mr) (usge : list ib_sge) (num_psge : nat)
    (psge : list mudm_sgl) (total_length : Z) : M S (Z * list mudm_sgl * nat) :=
  match usge with
  | [] => ret (total_length, psge, length psge)
  | u :: usge =>
    match get_mr (sge_lkey u) with
    | None => ret (- ENOMEM, psge, num_psge)
    | Some vrnic_mr =>
      let total_length := s32 (total_length + sge_length u) in
      out <- deref (xlate_sge vrnic_mr u (num_psge - length psge)) ;;
      let psge := psge ++ out in
      if (num_psge <=? length psge)%nat then ret (- E2BIG, psge, num_psge)
      else xlate_loop get_mr usge num_psge psge total_length
    end
  end.
Definition bgvrnic_xlate_sgl {S} (get_mr : Z -> option bgvrnic_mr) (usge : list ib_sge) (num_psge : nat)
    : M S (Z * list mudm_sgl * nat) := xlate_loop get_mr usge num_psge [] 0.

(** ** The pieces of a region *)

(** [struct ib_umem]: its DMA segments are (address, length). *)
Record ib_umem := mkUmem { um_page_size : Z; um_offset : Z; um_segs : list (Z * Z) }.

(** One page.  The pieces are kept last first. *)
Definition map_page (offset : Z) (v : list mudm_sgl * Z) (page : Z * Z) : list mudm_sgl * Z :=
  let '(sge, bytes_to_map) := v in
  let '(address, p_len) := page in
  let '(address, p_len) := match sge with [] => (u64 (address + offset), u32 (p_len - offset)) | _ => (address, p_len) end in
  let p_len := Z.min p_len bytes_to_map in
  let sge := match sge with
    | last :: rest =>
      if negb (physicalAddr last + memlength last =? address) || (u32 (memlength last + p_len) >=? MUDM_MAX_SGL_LENGTH)
      then mkSgl (u36 address) (u28 p_len) :: sge
      else mkSgl (physicalAddr last) (u28 (memlength last + p_len)) :: rest
    | [] => [mkSgl (u36 address) (u28 p_len)]
    end in
  (sge, u32 (bytes_to_map - p_len)).
(** The pages of one segment: the length of each is that of the segment. *)
Definition seg_pages (page_size : Z) (seg : Z * Z) : list (Z * Z) :=
  map (fun k => (u64 (fst seg + page_size * Z.of_nat k), u32 (snd seg)))
      (seq 0 (Z.to_nat (Z.shiftr (u32 (snd seg)) (Z.log2 page_size)))).
Definition map_pages (umem : ib_umem) (length : Z) : list mudm_sgl :=
  rev (fst (foldl (map_page (um_offset umem)) ([], u32 length) (um_segs umem ≫= seg_pages (um_page_size umem)))).

(** ** Reference: bytes *)

Definition mem_bytes (l : list mudm_sgl) : list Z := l ≫= fun s => seqZ (physicalAddr s) (memlength s).
Record piece_ok (s : mudm_sgl) : Prop := mkPok {
  pok_len : 0 < memlength s < 2 ^ 28;
  pok_pa : 0 <= physicalAddr s /\ physicalAddr s + memlength s <= 2 ^ 36 }.
Definition pieces_ok (l : list mudm_sgl) : Prop := Forall piece_ok l.

Lemma mem_bytes_cons s l : mem_bytes (s :: l) = seqZ (physicalAddr s) (memlength s) ++ mem_bytes l.
Proof. done. Qed.
Lemma mem_bytes_app l l' : mem_bytes (l ++ l') = mem_bytes l ++ mem_bytes l'.
Proof. unfold mem_bytes. by rewrite bind_app. Qed.
Lemma mem_bytes_one s : mem_bytes [s] = seqZ (physicalAddr s) (memlength s).
Proof. unfold mem_bytes. cbn. apply app_nil_r. Qed.
Lemma length_piece s : piece_ok s -> length (seqZ (physicalAddr s) (memlength s)) = Z.to_nat (memlength s).
Proof. intros. by rewrite length_seqZ. Qed.

Lemma take_seqZ a n k : 0 <= k <= n -> take (Z.to_nat k) (seqZ a n) = seqZ a k.
Proof.
  intros H. replace n with (k + (n - k)) by lia. rewrite seqZ_app by lia.
  rewrite take_app_le by (rewrite length_seqZ; lia). apply take_ge. rewrite length_seqZ. lia.
Qed.
Lemma drop_seqZ a n k : 0 <= k <= n -> drop (Z.to_nat k) (seqZ a n) = seqZ (a + k) (n - k).
Proof.
  intros H. replace n with (k + (n - k)) at 1 by lia. rewrite seqZ_app by lia.
  rewrite drop_app_ge by (rewrite length_seqZ; lia). rewrite length_seqZ, Nat.sub_diag. done.
Qed.

(** The piece an offset falls into. *)
Lemma find_sge_spec sge off : pieces_ok sge -> 0 <= off < Z.of_nat (length (mem_bytes sge)) ->
  exists o s rest, find_sge sge off = (o, s :: rest) /\ 0 <= o < memlength s /\ piece_ok s /\ pieces_ok rest /\
    drop (Z.to_nat off) (mem_bytes sge) = seqZ (physicalAddr s + o) (memlength s - o) ++ mem_bytes rest.
Proof.
  revert off. induction sge as [|s rest IH]; intros off Hok Ho; [cbn in Ho; lia|].
  apply Forall_cons_1 in Hok as [Hs Hr]. destruct (pok_len _ Hs) as [L1 L2]. cbn [find_sge]. destruct (Z.eqb_spec off 0) as [->|Hz].
  { exists 0, s, rest. split; [done|]. split; [lia|]. split; [done|]. split; [done|]. by rewrite Z.add_0_r, Z.sub_0_r. }
  rewrite mem_bytes_cons, length_app, length_piece in Ho by done. rewrite mem_bytes_cons.
  rewrite Z.geb_leb. destruct (Z.leb_spec (memlength s) off).
  - destruct (IH (off - memlength s) Hr ltac:(lia)) as (o & s' & rest' & E & B & P1 & P2 & D).
    exists o, s', rest'. split; [done|]. split; [done|]. split; [done|]. split; [done|]. rewrite <- D.
    rewrite drop_app_ge by (rewrite length_piece by done; lia). rewrite length_piece by done. f_equal. lia.
  - exists off, s, rest. split; [done|]. split; [lia|]. split; [done|]. split; [done|].
    rewrite drop_app_le by (rewrite length_piece by done; lia). by rewrite drop_seqZ by lia.
Qed.

(** The walk over the following pieces: the first bytes of them, or all the
    room is used up. *)
Lemma map_more_spec sge bytes room : pieces_ok sge -> 0 <= bytes < 2 ^ 32 -> bytes <= Z.of_nat (length (mem_bytes sge)) ->
  length (map_more sge bytes room) = room \/ mem_bytes (map_more sge bytes room) = take (Z.to_nat bytes) (mem_bytes sge).
Proof.
  revert bytes room. induction sge as [|s rest IH]; intros bytes room Hok Hb Hl.
  { right. cbn in *. by replace bytes with 0 by lia. }
  destruct room as [|room]; [by left|]. apply Forall_cons_1 in Hok as [Hs Hr]. destruct (pok_len _ Hs) as [L1 L2].
  rewrite mem_bytes_cons, length_app, length_piece in Hl by done. cbn [map_more].
  destruct (Z.eqb_spec bytes 0) as [->|Hz]; [by right|]. rewrite Z.gtb_ltb. destruct (Z.ltb_spec bytes (memlength s)).
  - right. unfold u28. rewrite Z.mod_small by lia. rewrite mem_bytes_one, mem_bytes_cons. cbn [physicalAddr memlength].
    rewrite take_app_le by (rewrite length_piece by done; lia). by rewrite take_seqZ by lia.
  - rewrite u32_small by lia. destruct (IH (bytes - memlength s) room Hr ltac:(lia) ltac:(lia)) as [E|E]; [left; cbn; by rewrite E|right].
    rewrite !mem_bytes_cons, E. cbn [physicalAddr memlength].
    rewrite take_app_ge by (rewrite length_piece by done; lia). rewrite length_piece by done. f_equal. f_equal. lia.
Qed.
Lemma length_map_more sge bytes room : (length (map_more sge bytes room) <= room)%nat.
Proof.
  revert bytes room. induction sge as [|s rest IH]; intros bytes [|room]; [by cbn; lia..|]. cbn [map_more].
  destruct (bytes =? 0); [cbn; lia|]. destruct (memlength s >? bytes); cbn; [lia|]. specialize (IH (u32 (bytes - memlength s)) room). lia.
Qed.

(** The bytes a user element names in a region, and when it is inside. *)
Definition part (mr : bgvrnic_mr) (u : ib_sge) : list Z :=
  take (Z.to_nat (sge_length u)) (drop (Z.to_nat (sge_addr u - vmr_start mr)) (mem_bytes (vmr_sge mr))).
Record inside (mr : bgvrnic_mr) (u : ib_sge) : Prop := mkInside {
  in_ok : pieces_ok (vmr_sge mr);
  in_addr : 0 <= vmr_start mr <= sge_addr u /\ sge_addr u < 2 ^ 64;
  in_start : sge_addr u - vmr_start mr < Z.of_nat (length (mem_bytes (vmr_sge mr)));
  in_end : sge_addr u - vmr_start mr + sge_length u <= Z.of_nat (length (mem_bytes (vmr_sge mr)));
  in_length : 0 <= sge_length u < 2 ^ 32 }.

Lemma xlate_sge_spec mr u room : inside mr u -> (0 < room)%nat ->
  exists out, xlate_sge mr u room = Some out /\ (length out <= room)%nat /\
    (length out = room \/ mem_bytes out = part mr u).
Proof.
  intros [Hok [[A1 A2] A3] B C D] Hr. unfold xlate_sge, part. rewrite u64_small by lia.
  destruct (find_sge_spec (vmr_sge mr) (sge_addr u - vmr_start mr) Hok ltac:(lia)) as (o & s & rest & E & Ho & [[L1 L2] [P1 P2]] & R & Dr).
  rewrite E, Dr. unfold u28, u36. rewrite !Z.mod_small by lia. rewrite Z.gtb_ltb.
  assert (Hlen : Z.of_nat (length (seqZ (physicalAddr s + o) (memlength s - o) ++ mem_bytes rest)) = Z.of_nat (length (mem_bytes (vmr_sge mr))) - (sge_addr u - vmr_start mr)).
  { rewrite <- Dr, length_drop. lia. }
  rewrite length_app, length_seqZ in Hlen. destruct (Z.ltb_spec (sge_length u) (memlength s - o)).
  - eexists. split; [done|]. split; [cbn; lia|]. right. rewrite Z.mod_small by lia. rewrite mem_bytes_one. cbn [physicalAddr memlength].
    rewrite take_app_le by (rewrite length_seqZ; lia). by rewrite take_seqZ by lia.
  - eexists. split; [done|]. rewrite u32_small by lia. set (k := sge_length u - (memlength s - o)).
    pose proof (length_map_more rest k (pred room)). split; [cbn; lia|].
    destruct (map_more_spec rest k (pred room) R ltac:(lia) ltac:(lia)) as [E'|E']; [left; cbn; lia|right].
    rewrite mem_bytes_cons, E'. cbn [physicalAddr memlength].
    rewrite take_app_ge by (rewrite length_seqZ; lia). rewrite length_seqZ. f_equal. f_equal. lia.
Qed.

(** When the bytes cover all that follows, every piece is taken as it is. *)
Lemma map_more_all sge bytes room : pieces_ok sge -> Z.of_nat (length (mem_bytes sge)) <= bytes < 2 ^ 32 ->
  (length sge <= room)%nat -> map_more sge bytes room = sge.
Proof.
  revert bytes room. induction sge as [|s rest IH]; intros bytes room Hok Hb Hr; [by destruct room|].
  destruct room as [|room]; [cbn in Hr; lia|]. apply Forall_cons_1 in Hok as [Hs Hok]. destruct (pok_len _ Hs) as [L1 L2].
  rewrite mem_bytes_cons, length_app, length_piece in Hb by done. cbn [map_more].
  rewrite (proj2 (Z.eqb_neq bytes 0)), Z.gtb_ltb, (proj2 (Z.ltb_ge bytes (memlength s))), u32_small by lia.
  rewrite IH; [by destruct s|done|lia|cbn in Hr; lia].
Qed.

Section xlate.
Context {S : Type} (get_mr : Z -> option bgvrnic_mr).

Definition total (usge : list ib_sge) : Z := foldr (fun u acc => sge_length u + acc) 0 usge.
Definition parts (usge : list ib_sge) : list Z :=
  usge ≫= fun u => match get_mr (sge_lkey u) with Some mr => part mr u | None => [] end.
(** Every element names memory inside a registered region. *)
Definition registered (usge : list ib_sge) : Prop :=
  Forall (fun u => exists mr, get_mr (sge_lkey u) = Some mr /\ inside mr u) usge.
(** Refused for want of room, or all bytes in order. *)
Definition translated (usge : list ib_sge) (num : nat) (r : Z * list mudm_sgl * nat) : Prop :=
  let '(rc, psge, n) := r in (length psge <= num)%nat /\
  ((rc = - E2BIG /\ length psge = num /\ n = num) \/
   (rc = total usge /\ n = length psge /\ (length psge < num)%nat /\ mem_bytes psge = parts usge)).

Lemma total_nonneg usge : registered usge -> 0 <= total usge.
Proof.
  induction usge as [|u l IH]; intros H; [done|]. apply Forall_cons_1 in H as [(mr & _ & Hi) H].
  pose proof (in_length _ _ Hi). specialize (IH H). cbn. unfold total in IH. lia.
Qed.
Lemma s32_small x : 0 <= x < 2 ^ 31 -> s32 x = x.
Proof. intros H. unfold s32. rewrite u32_small by lia. by rewrite (proj2 (Z.ltb_lt _ _)) by lia. Qed.

Lemma xlate_loop_spec usge num psge acc (s : S) : registered usge -> (length psge < num)%nat ->
  0 <= acc -> acc + total usge < 2 ^ 31 ->
  wp (xlate_loop get_mr usge num psge acc) (fun r s' => s' = s /\
    let '(rc, out, n) := r in (length out <= num)%nat /\
    ((rc = - E2BIG /\ length out = num /\ n = num) \/
     (rc = acc + total usge /\ n = length out /\ (length out < num)%nat /\ mem_bytes out = mem_bytes psge ++ parts usge))) s.
Proof.
  revert psge acc. induction usge as [|u l IH]; intros psge acc Hr Hp Ha Ht.
  { apply wp_ret. split; [done|]. split; [lia|]. right. cbn. by rewrite Z.add_0_r, app_nil_r. }
  apply Forall_cons_1 in Hr as [(mr & Hm & Hi) Hr]. pose proof (total_nonneg l Hr). pose proof (in_length _ _ Hi).
  change (total (u :: l)) with (sge_length u + total l) in *. cbn [xlate_loop]. rewrite Hm, s32_small by lia.
  destruct (xlate_sge_spec mr u (num - length psge) Hi ltac:(lia)) as (out & E & L & C).
  apply wp_bind, (wp_deref _ out); [done|]. cbv zeta. rewrite length_app.
  destruct (Nat.leb_spec num (length psge + length out)).
  - apply wp_ret. split; [done|]. rewrite length_app. split; [lia|]. left. split_and!; [done|lia|done].
  - eapply wp_mono; [apply (IH (psge ++ out) (acc + sge_length u)); [done|rewrite length_app; lia|lia|lia]|].
    intros [[rc res] n] s' [-> [Hl [(A & B & D)|(A & B & D & F)]]]; (split; [done|]; split; [done|]); [by left|right].
    destruct C as [C|C]; [lia|]. split_and!; [lia|done|done|]. rewrite F, mem_bytes_app, C, <- app_assoc.
    unfold parts at 2. cbn. by rewrite Hm.
Qed.

Lemma length_parts usge : registered usge -> Z.of_nat (length (parts usge)) = total usge.
Proof.
  induction usge as [|u l IH]; intros H; [done|]. apply Forall_cons_1 in H as [(mr & Hm & Hi) H]. destruct Hi as [_ A B C E].
  change (total (u :: l)) with (sge_length u + total l). rewrite <- (IH H). unfold parts. cbn. rewrite Hm, length_app. unfold part.
  rewrite length_take, length_drop. lia.
Qed.
(** An element takes no more entries than its region has pieces. *)
Lemma length_map_more_sge sge bytes room : (length (map_more sge bytes room) <= length sge)%nat.
Proof.
  revert bytes room. induction sge as [|s l IH]; intros bytes [|room]; cbn; try lia. destruct (bytes =? 0); [cbn; lia|].
  destruct (_ >? _); cbn; [lia|]. specialize (IH (u32 (bytes - memlength s)) room). lia.
Qed.
Lemma find_sge_suffix sge off : (length (snd (find_sge sge off)) <= length sge)%nat.
Proof.
  revert off. induction sge as [|s rest IH]; intros off; [done|]. cbn [find_sge].
  destruct (off =? 0); [done|]. destruct (off >=? memlength s); [|done]. specialize (IH (off - memlength s)). cbn. lia.
Qed.
Lemma length_xlate_sge mr u room out : xlate_sge mr u room = Some out -> (length out <= length (vmr_sge mr))%nat.
Proof.
  unfold xlate_sge. pose proof (find_sge_suffix (vmr_sge mr) (u64 (sge_addr u - vmr_start mr))) as H.
  destruct (find_sge _ _) as [off [|s l]]; [done|]. cbn [snd length] in H. destruct (_ >? _); intros [= <-]; cbn; [lia|].
  pose proof (length_map_more_sge l (u32 (sge_length u - u28 (memlength s - off))) (pred room)). lia.
Qed.
Definition lengths_ok (l : list mudm_sgl) : Prop := Forall (fun s => 0 <= memlength s) l.
Lemma pieces_lengths l : pieces_ok l -> lengths_ok l.
Proof. intros H. eapply Forall_impl; [|exact H]. intros s [[L _] _]. lia. Qed.
Lemma map_more_lengths sge bytes room : lengths_ok sge -> lengths_ok (map_more sge bytes room).
Proof.
  revert bytes room. induction sge as [|s l IH]; intros bytes [|room] H; cbn; try by constructor. apply Forall_cons_1 in H as [Hs H].
  destruct (bytes =? 0); [by constructor|]. destruct (_ >? _); (apply Forall_cons_2; [|by constructor || by apply IH]); [|done].
  cbn. apply Z.mod_pos_bound. lia.
Qed.
Lemma find_sge_lengths sge off : lengths_ok sge -> lengths_ok (snd (find_sge sge off)).
Proof.
  revert off. induction sge as [|s rest IH]; intros off H; [done|]. cbn [find_sge]. destruct (off =? 0); [done|].
  destruct (off >=? memlength s); [|done]. apply IH. by apply Forall_cons_1 in H as [_ H].
Qed.
Lemma xlate_sge_lengths mr u room out : lengths_ok (vmr_sge mr) -> xlate_sge mr u room = Some out -> lengths_ok out.
Proof.
  intros H. unfold xlate_sge. apply (find_sge_lengths _ (u64 (sge_addr u - vmr_start mr))) in H.
  destruct (find_sge _ _) as [off [|s l]]; [done|]. cbn [snd] in H. apply Forall_cons_1 in H as [_ H].
  destruct (_ >? _); intros [= <-]; (apply Forall_cons_2; [cbn; apply Z.mod_pos_bound; lia|]); [constructor|by apply map_more_lengths].
Qed.
(** The pieces of all regions an operation names. *)
Definition num_pieces (usge : list ib_sge) : nat :=
  foldr (fun u n => (match get_mr (sge_lkey u) with Some mr => length (vmr_sge mr) | None => 0 end + n)%nat) 0%nat usge.
Lemma xlate_fits usge num psge acc (s : S) : registered usge -> (length psge + num_pieces usge < num)%nat ->
  0 <= acc -> acc + total usge < 2 ^ 31 -> exists out,
    xlate_loop get_mr usge num psge acc s = Ok (acc + total usge, psge ++ out, length (psge ++ out)) s /\ mem_bytes out = parts usge /\ lengths_ok out.
Proof.
  revert psge acc. induction usge as [|u l IH]; intros psge acc Hr Hp Ha Ht.
  { exists []. cbn. rewrite Z.add_0_r, app_nil_r. split; [done|]. split; [done|constructor]. }
  apply Forall_cons_1 in Hr as [(mr & Hm & Hi) Hr]. pose proof (total_nonneg l Hr). pose proof (in_length _ _ Hi).
  change (total (u :: l)) with (sge_length u + total l) in *. cbn [xlate_loop num_pieces foldr] in *. fold (num_pieces l) in Hp. rewrite Hm in *.
  rewrite s32_small by lia. destruct (xlate_sge_spec mr u (num - length psge) Hi ltac:(lia)) as (out & E & L & C).
  pose proof (length_xlate_sge _ _ _ _ E). unfold bind, deref. rewrite E. cbn. rewrite (proj2 (Nat.leb_gt num _)) by (rewrite length_app; lia).
  destruct (IH (psge ++ out) (acc + sge_length u)) as (out' & E' & M & Lo); [done|rewrite length_app; lia|lia|lia|].
  exists (out ++ out'). rewrite E', <- app_assoc, Z.add_assoc. split; [done|]. destruct C as [C|C]; [lia|]. split.
  - rewrite mem_bytes_app, C, M. unfold parts. cbn. by rewrite Hm.
  - apply Forall_app. split; [|done]. eapply xlate_sge_lengths; [by apply pieces_lengths, Hi|done].
Qed.

(** C15: a scatter-gather list whose elements lie in registered regions is
    translated without a failed assertion: either all room is used up and
    the result is -E2BIG, or the result is the number of bytes and the
    pieces are, byte for byte and in order, the memory the elements name. *)
Theorem xlate_sgl_correct usge num (s : S) : registered usge -> (0 < num)%nat -> total usge < 2 ^ 31 ->
  wp (bgvrnic_xlate_sgl get_mr usge num) (fun r s' => s' = s /\ translated usge num r) s.
Proof.
  intros Hr Hn Ht. eapply wp_mono; [by apply xlate_loop_spec|]. intros [[rc psge] n] s' [-> H]. split; [done|]. exact H.
Qed.

(** An element that reaches to the end of its region or beyond gets all
    pieces from its start on. *)
Lemma xlate_sge_end mr u room (off := sge_addr u - vmr_start mr) : pieces_ok (vmr_sge mr) ->
  0 <= vmr_start mr <= sge_addr u -> sge_addr u < 2 ^ 64 -> off < Z.of_nat (length (mem_bytes (vmr_sge mr))) ->
  Z.of_nat (length (mem_bytes (vmr_sge mr))) <= off + sge_length u -> sge_length u < 2 ^ 32 -> (length (vmr_sge mr) <= room)%nat ->
  exists out, xlate_sge mr u room = Some out /\ (length out <= length (vmr_sge mr))%nat /\
    mem_bytes out = drop (Z.to_nat off) (mem_bytes (vmr_sge mr)) /\ (off = 0 -> out = vmr_sge mr).
Proof.
  intros Hok A1 A2 Ho He Hl Hr. unfold xlate_sge. rewrite u64_small by lia. fold off.
  pose proof (find_sge_suffix (vmr_sge mr) off) as Hfl.
  destruct (find_sge_spec (vmr_sge mr) off Hok ltac:(lia)) as (o & s & rest & E & Ho' & [[L1 L2] [P1 P2]] & R & Dr).
  rewrite E in Hfl |- *. cbn [snd length] in Hfl. unfold u28, u36. rewrite !Z.mod_small by lia.
  assert (Hlen : Z.of_nat (length (mem_bytes (vmr_sge mr))) - off = memlength s - o + Z.of_nat (length (mem_bytes rest))).
  { rewrite <- (take_drop (Z.to_nat off) (mem_bytes (vmr_sge mr))) at 1. rewrite length_app, Dr, length_app, length_seqZ, length_take. lia. }
  rewrite Z.gtb_ltb, (proj2 (Z.ltb_ge _ _)), u32_small by lia. eexists. split; [done|].
  rewrite map_more_all by (try done; lia). split; [cbn; lia|]. split; [by rewrite Dr|].
  intros H0. rewrite H0 in E. destruct (vmr_sge mr) as [|p l]; [done|]. cbn in E. injection E as <- <- <-.
  rewrite Z.add_0_r, Z.sub_0_r. by destruct p.
Qed.

(** A list that needs exactly the entries there are is refused with
    -E2BIG although every byte of it was mapped: sending all of a region of
    58 pieces fails while a packet has room for 58. *)
Theorem xlate_exact_fit_refused u mr (s : S) : get_mr (sge_lkey u) = Some mr -> inside mr u ->
  sge_addr u = vmr_start mr -> sge_length u = Z.of_nat (length (mem_bytes (vmr_sge mr))) ->
  wp (bgvrnic_xlate_sgl get_mr [u] (length (vmr_sge mr)))
    (fun r s' => s' = s /\ r = (- E2BIG, vmr_sge mr, length (vmr_sge mr))) s.
Proof.
  intros Hm [Hok [[A1 A2] A3] B C D] Ha Hl. unfold bgvrnic_xlate_sgl. cbn [xlate_loop length]. rewrite Hm, Nat.sub_0_r.
  destruct (xlate_sge_end mr u (length (vmr_sge mr)) Hok ltac:(lia) ltac:(lia) ltac:(lia) ltac:(lia) ltac:(lia) ltac:(lia))
    as (out & E & _ & _ & Ho). rewrite (Ho ltac:(lia)) in E. apply wp_bind, (wp_deref _ (vmr_sge mr)); [done|]. cbv zeta. cbn [app].
  rewrite Nat.leb_refl. by apply wp_ret.
Qed.

(** An element that reaches past the end of its region is not refused:
    the result is its full length while the pieces name only the bytes that
    are there, so the length sent to the other side exceeds the memory. *)
Theorem xlate_past_end u mr num (s : S) (off := sge_addr u - vmr_start mr) : get_mr (sge_lkey u) = Some mr ->
  pieces_ok (vmr_sge mr) -> 0 <= vmr_start mr <= sge_addr u -> sge_addr u < 2 ^ 64 ->
  off < Z.of_nat (length (mem_bytes (vmr_sge mr))) < off + sge_length u -> sge_length u < 2 ^ 31 -> (length (vmr_sge mr) < num)%nat ->
  wp (bgvrnic_xlate_sgl get_mr [u] num) (fun r s' => s' = s /\ exists psge,
    r = (sge_length u, psge, length psge) /\ mem_bytes psge = drop (Z.to_nat off) (mem_bytes (vmr_sge mr)) /\
    Z.of_nat (length (mem_bytes psge)) < sge_length u) s.
Proof.
  intros Hm Hok A1 A2 [B1 B2] Hl Hn. unfold bgvrnic_xlate_sgl. cbn [xlate_loop length]. rewrite Hm, Nat.sub_0_r.
  destruct (xlate_sge_end mr u num Hok A1 A2 ltac:(lia) ltac:(lia) ltac:(lia) ltac:(lia)) as (out & E & Lo & Mo & _).
  apply wp_bind, (wp_deref _ out); [done|]. cbv zeta. cbn [app].
  rewrite (proj2 (Nat.leb_gt num (length out))) by lia. apply wp_ret. split; [done|]. exists out.
  rewrite Z.add_0_l, s32_small by lia. split; [done|]. split; [exact Mo|]. rewrite Mo, length_drop. lia.
Qed.
End xlate.

(** ** A region covers its pages *)

Definition pages_bytes (ps : Z) (l : list Z) : list Z := l ≫= fun a => seqZ a ps.
Definition pages_of (ps : Z) (l : list Z) : list (Z * Z) := map (fun a => (a, ps)) l.
Lemma length_pages ps l : 0 <= ps -> Z.of_nat (length (pages_bytes ps l)) = Z.of_nat (length l) * ps.
Proof.
  intros H. induction l as [|a l IH]; [done|]. unfold pages_bytes in *. cbn. rewrite length_app, length_seqZ. lia.
Qed.
Lemma mem_bytes_rev_cons s l : mem_bytes (rev (s :: l)) = mem_bytes (rev l) ++ seqZ (physicalAddr s) (memlength s).
Proof. cbn. by rewrite mem_bytes_app, mem_bytes_one. Qed.

Definition page_ok (ps a : Z) : Prop := 0 < a /\ a + ps <= 2 ^ 36.

(** A page after the first one, of which [p] bytes are wanted. *)
Lemma map_page_next offset last rest bytes a ps (p := Z.min ps bytes) :
  pieces_ok (last :: rest) -> page_ok ps a -> 0 < ps < 2 ^ 28 -> 0 < bytes < 2 ^ 32 ->
  exists last' rest', map_page offset (last :: rest, bytes) (a, ps) = (last' :: rest', bytes - p) /\
    pieces_ok (last' :: rest') /\ mem_bytes (rev (last' :: rest')) = mem_bytes (rev (last :: rest)) ++ seqZ a p.
Proof.
  intros Hok [A1 A2] Hps Hb. pose proof (Forall_cons_1 _ _ _ Hok) as [[[L1 L2] [P1 P2]] Hr].
  assert (Hp : 0 < p < 2 ^ 28 /\ p <= ps) by (subst p; lia). unfold map_page. fold p. rewrite (u32_small (bytes - p)) by lia.
  rewrite u32_small by lia. destruct (Z.eqb_spec (physicalAddr last + memlength last) a) as [Ha|Ha].
  - rewrite Z.geb_leb. destruct (Z.leb_spec MUDM_MAX_SGL_LENGTH (memlength last + p)) as [Hm|Hm]; cbn [negb orb].
    + unfold u36, u28. rewrite !Z.mod_small by lia. do 2 eexists. split; [done|]. split; [by apply Forall_cons_2; [split; cbn; lia|]|].
      by rewrite mem_bytes_rev_cons.
    + unfold MUDM_MAX_SGL_LENGTH in Hm. unfold u28. rewrite Z.mod_small by lia. do 2 eexists. split; [done|].
      split; [by apply Forall_cons_2; [split; cbn; lia|]|]. rewrite !mem_bytes_rev_cons. cbn [physicalAddr memlength].
      rewrite seqZ_app by lia. by rewrite Ha, app_assoc.
  - cbn [negb orb]. unfold u36, u28. rewrite !Z.mod_small by lia. do 2 eexists. split; [done|]. split; [by apply Forall_cons_2; [split; cbn; lia|]|].
    by rewrite mem_bytes_rev_cons.
Qed.

Lemma map_pages_rest offset ps l last rest bytes : pieces_ok (last :: rest) -> Forall (page_ok ps) l -> 0 < ps < 2 ^ 28 ->
  (Z.of_nat (length l) - 1) * ps < bytes <= Z.of_nat (length l) * ps -> 0 <= bytes < 2 ^ 32 ->
  exists sge, fst (foldl (map_page offset) (last :: rest, bytes) (pages_of ps l)) = sge /\ pieces_ok sge /\
    mem_bytes (rev sge) = mem_bytes (rev (last :: rest)) ++ take (Z.to_nat bytes) (pages_bytes ps l).
Proof.
  intros Hok Hl Hps. revert last rest bytes Hok. induction Hl as [|a l Ha Hl IH]; intros last rest bytes Hok Hb H32.
  { exists (last :: rest). split; [done|]. split; [done|]. cbn in *. replace bytes with 0 by lia. by rewrite app_nil_r. }
  cbn [length] in Hb. rewrite Nat2Z.inj_succ in Hb. assert (0 < bytes) by nia.
  destruct (map_page_next offset last rest bytes a ps Hok Ha Hps ltac:(lia)) as (last' & rest' & E & Hok' & M).
  cbn [foldl pages_of map]. fold (pages_of ps l). rewrite E.
  destruct (IH last' rest' (bytes - Z.min ps bytes) Hok') as (sge & F & O & B); [|lia|].
  { destruct l as [|a' l]; [cbn in *; lia|]. assert (ps <= Z.of_nat (length (a' :: l)) * ps) by (cbn [length]; nia). lia. }
  exists sge. split; [done|]. split; [done|]. rewrite B, M, <- app_assoc. f_equal.
  unfold pages_bytes at 2. cbn. fold (pages_bytes ps l). destruct (Z.min_spec ps bytes) as [[H1 ->]|[H1 ->]].
  - rewrite take_app_ge by (rewrite length_seqZ; lia). rewrite length_seqZ. f_equal. f_equal. lia.
  - rewrite Z.sub_diag. cbn. rewrite app_nil_r, take_app_le by (rewrite length_seqZ; lia). by rewrite take_seqZ by lia.
Qed.

Lemma seg_one_page ps k a : ps = 2 ^ k -> 0 <= k < 28 -> 0 <= a < 2 ^ 64 -> seg_pages ps (a, ps) = [(a, ps)].
Proof.
  intros -> Hk Ha. assert (0 < 2 ^ k < 2 ^ 28) by (split; [apply Z.pow_pos_nonneg; lia|apply Z.pow_lt_mono_r; lia]).
  unfold seg_pages. cbn [fst snd]. rewrite u32_small, Z.log2_pow2, Z.shiftr_div_pow2, Z.div_same by lia. change (Z.to_nat 1) with 1%nat.
  cbn [seq map]. change (Z.of_nat 0) with 0. by rewrite Z.mul_0_r, Z.add_0_r, u64_small by lia.
Qed.

(** C16: when every DMA segment is one page, the pieces of a registered region
    are, byte for byte, the [length] bytes from the offset of the buffer in
    its first page on; each piece is not empty and fits its 28-bit length. *)
Theorem map_pages_correct ps k offset l len : ps = 2 ^ k -> 0 <= k < 28 -> Forall (page_ok ps) l ->
  0 <= offset < ps -> 0 < len < 2 ^ 32 -> (Z.of_nat (length l) - 1) * ps < offset + len <= Z.of_nat (length l) * ps ->
  let sge := map_pages (mkUmem ps offset (pages_of ps l)) len in
  pieces_ok sge /\ mem_bytes sge = take (Z.to_nat len) (drop (Z.to_nat offset) (pages_bytes ps l)).
Proof.
  intros Hps Hk Hl Ho Hlen Hn. assert (H28 : 0 < ps < 2 ^ 28) by (subst ps; split; [apply Z.pow_pos_nonneg; lia|apply Z.pow_lt_mono_r; lia]).
  cbv zeta. unfold map_pages. cbn [um_offset um_segs um_page_size]. rewrite u32_small by lia.
  assert (Es : pages_of ps l ≫= seg_pages ps = pages_of ps l).
  { clear -Hps Hk Hl H28. induction Hl as [|a l [Ha1 Ha2] Hl IH]; [done|]. cbn. rewrite (seg_one_page ps k) by (done || lia). cbn. by f_equal. }
  rewrite Es. destruct l as [|a l]; [cbn in Hn; lia|]. apply Forall_cons_1 in Hl as [[A1 A2] Hl].
  cbn [length] in Hn. rewrite Nat2Z.inj_succ in Hn. cbn [pages_of map foldl map_page]. fold (pages_of ps l).
  set (p := Z.min (u32 (ps - offset)) len). assert (Ep : p = Z.min (ps - offset) len) by (subst p; by rewrite u32_small by lia).
  rewrite (u64_small (a + offset)), (u32_small (len - p)) by lia. unfold u36, u28. rewrite !Z.mod_small by lia.
  destruct (map_pages_rest offset ps l (mkSgl (a + offset) p) [] (len - p)) as (sge & -> & O & B); [by apply Forall_singleton; split; cbn; lia|done|done| |lia|].
  { destruct l as [|a' l]; [cbn in *; lia|]. assert (ps <= Z.of_nat (length (a' :: l)) * ps) by (cbn [length]; nia). lia. }
  split; [by apply Forall_rev|]. rewrite B. cbn [rev app]. rewrite mem_bytes_one. cbn [physicalAddr memlength].
  unfold pages_bytes at 2. cbn. fold (pages_bytes ps l). rewrite drop_app_le, drop_seqZ by (rewrite ?length_seqZ; lia).
  destruct (decide (ps - offset <= len)).
  - rewrite take_app_ge by (rewrite length_seqZ; lia). rewrite length_seqZ. replace p with (ps - offset) by lia. f_equal. f_equal. lia.
  - replace p with len by lia. rewrite Z.sub_diag. cbn. rewrite app_nil_r, take_app_le by (rewrite length_seqZ; lia). by rewrite take_seqZ by lia.
Qed.

(** A DMA segment of two pages followed by another page is mapped wrong:
    the length of each page is taken to be that of its segment, so that the
    third page of the buffer stands for its second one. *)
Theorem map_pages_two_page_segment a b ps : ps = 4096 -> page_ok ps a -> page_ok ps (a + ps) -> page_ok ps b ->
  mem_bytes (map_pages (mkUmem ps 0 [(a, 2 * ps); (b, ps)]) (3 * ps)) = seqZ a (2 * ps) ++ seqZ (a + ps) ps /\
  pages_bytes ps [a; a + ps; b] = seqZ a (2 * ps) ++ seqZ b ps.
Proof.
  intros -> [A1 A2] [A3 A4] [B1 B2]. split.
  2: { unfold pages_bytes. cbn [mbind list_bind]. replace (2 * 4096) with (4096 + 4096) by done. rewrite (seqZ_app a) by lia. by rewrite app_nil_r, <- app_assoc. }
  unfold map_pages. cbn [um_offset um_segs um_page_size mbind list_bind].
  change (seg_pages 4096 (a, 2 * 4096)) with [(u64 (a + 0), 8192); (u64 (a + 4096), 8192)].
  change (seg_pages 4096 (b, 4096)) with [(u64 (b + 0), 4096)]. rewrite !Z.add_0_r, !u64_small by lia. cbn [app foldl].
  unfold map_page at 3. change (u32 (3 * 4096)) with 12288. change (Z.min (u32 (8192 - 0)) 12288) with 8192.
  rewrite Z.add_0_r, u64_small by lia. change (u32 (12288 - 8192)) with 4096. change (u28 8192) with 8192.
  assert (E : forall x, 0 <= x < 2 ^ 36 -> u36 x = x) by (intros; by apply Z.mod_small). rewrite (E a) by lia.
  unfold map_page at 2. cbn [physicalAddr memlength]. change (Z.min 8192 4096) with 4096.
  rewrite (proj2 (Z.eqb_neq (a + 8192) (a + 4096))) by lia. cbn [negb orb]. change (u32 (4096 - 4096)) with 0. change (u28 4096) with 4096.
  rewrite (E (a + 4096)) by lia. unfold map_page. cbn [physicalAddr memlength]. change (Z.min 4096 0) with 0.
  change (u32 (4096 + 0) >=? MUDM_MAX_SGL_LENGTH) with false. change (u28 (4096 + 0)) with 4096. change (u28 0) with 0.
  destruct (negb (a + 4096 + 4096 =? b)); cbn [orb fst rev app]; rewrite !mem_bytes_cons; cbn [physicalAddr memlength];
    by rewrite ?app_nil_r.
Qed.

(** ** Examples *)

(** A region of two pieces, user addresses 0x1000 to 0x1018. *)
Definition demo_mr : bgvrnic_mr := mkMr 0x1000 24 [mkSgl 0x9000 16; mkSgl 0xa000 8].
Definition demo_get (lkey : Z) : option bgvrnic_mr := if lkey =? 5 then Some demo_mr else None.
Lemma demo_pieces : pieces_ok (vmr_sge demo_mr).
Proof. by repeat (apply Forall_cons_2; [split; cbn; lia|]). Qed.
Lemma demo_mr_inside addr len : 0x1000 <= addr < 0x1018 -> 0 <= len -> addr + len <= 0x1018 -> inside demo_mr (mkSge addr len 5).
Proof.
  intros H1 H2 H3. assert (L : Z.of_nat (length (mem_bytes (vmr_sge demo_mr))) = 24) by by vm_compute.
  split; rewrite ?L; cbn; try lia. exact demo_pieces.
Qed.

Lemma xlate_sgl_correct_witness : wp (bgvrnic_xlate_sgl demo_get [mkSge 0x1008 12 5; mkSge 0x1000 3 5] 4)
    (fun r s' => s' = tt /\ translated demo_get [mkSge 0x1008 12 5; mkSge 0x1000 3 5] 4 r) tt /\
  bgvrnic_xlate_sgl demo_get [mkSge 0x1008 12 5; mkSge 0x1000 3 5] 4 tt =
    Ok (15, [mkSgl 0x9008 8; mkSgl 0xa000 4; mkSgl 0x9000 3], 3%nat) tt.
Proof.
  split; [|reflexivity]. apply (xlate_sgl_correct demo_get [mkSge 0x1008 12 5; mkSge 0x1000 3 5] 4 tt); [|lia|reflexivity].
  repeat (apply Forall_cons_2; [exists demo_mr; split; [reflexivity|apply demo_mr_inside; lia]|]). constructor.
Defined.

Lemma xlate_exact_fit_refused_witness : wp (bgvrnic_xlate_sgl demo_get [mkSge 0x1000 24 5] 2)
    (fun r s' => s' = tt /\ r = (- E2BIG, [mkSgl 0x9000 16; mkSgl 0xa000 8], 2%nat)) tt /\
  bgvrnic_xlate_sgl demo_get [mkSge 0x1000 24 5] 3 tt = Ok (24, [mkSgl 0x9000 16; mkSgl 0xa000 8], 2%nat) tt.
Proof.
  split; [|reflexivity]. apply (xlate_exact_fit_refused demo_get (mkSge 0x1000 24 5) demo_mr tt); [reflexivity|apply demo_mr_inside; lia|reflexivity|reflexivity].
Defined.

Lemma xlate_past_end_witness : wp (bgvrnic_xlate_sgl demo_get [mkSge 0x1010 100 5] 58) (fun r s' => s' = tt /\ exists psge,
    r = (100, psge, length psge) /\ mem_bytes psge = drop 16 (mem_bytes (vmr_sge demo_mr)) /\ Z.of_nat (length (mem_bytes psge)) < 100) tt /\
  bgvrnic_xlate_sgl demo_get [mkSge 0x1010 100 5] 58 tt = Ok (100, [mkSgl 0xa000 8], 1%nat) tt.
Proof.
  split; [|reflexivity].
  apply (xlate_past_end demo_get (mkSge 0x1010 100 5) demo_mr 58 tt); [reflexivity|apply demo_pieces|by split|by vm_compute|by split|by vm_compute|apply Nat.ltb_lt; by vm_compute].
Defined.

Lemma map_pages_correct_witness :
  let sge := map_pages (mkUmem 4096 100 (pages_of 4096 [0x5000; 0x6000; 0x9000])) 9000 in
  (pieces_ok sge /\ mem_bytes sge = take 9000 (drop 100 (pages_bytes 4096 [0x5000; 0x6000; 0x9000]))) /\
  sge = [mkSgl 0x5064 8092; mkSgl 0x9000 908].
Proof.
  split; [|reflexivity]. apply (map_pages_correct 4096 12 100 [0x5000; 0x6000; 0x9000] 9000); [reflexivity|lia| |lia..|cbn; lia].
  repeat (apply Forall_cons_2; [unfold page_ok; lia|]). constructor.
Defined.

Lemma map_pages_two_page_segment_witness :
  (mem_bytes (map_pages (mkUmem 4096 0 [(0x10000, 8192); (0x30000, 4096)]) 12288) = seqZ 0x10000 8192 ++ seqZ 0x11000 4096 /\
   pages_bytes 4096 [0x10000; 0x11000; 0x30000] = seqZ 0x10000 8192 ++ seqZ 0x30000 4096).
Proof. apply (map_pages_two_page_segment 0x10000 0x30000 4096); [reflexivity|unfold page_ok; lia..]. Defined.
