(* ===== verification/Verbs.v ===== *)
(** * Queue pairs of the verbs driver

    bgvrnic on top of bgmudm: work queue entries, send and receive queues
    and completion queues (bgvrnic.h, bgvrnic_verbs.c), and the callbacks
    that bgmudm calls when data or a status arrives ([mu_recv_cb] of
    bgvrnic_main.c, [mu_status_cb] of bgvrnic_verbs.c).  The data mover below
    is the interface [DataMover]; the kernel around is [Kernel]. *)

From S2P Require Import Prelude Chain Bytes Descriptor State RdmaWrite Transfer Receive VerbsMem.

(** ** Data *)

Inductive bgvrnic_wqe_state := WQES_INIT | WQES_WAIT | WQES_RUN | WQES_DONE | WQES_INVALID.
Inductive bgvrnic_wqe_type := WQET_SEND | WQET_RECV | WQET_RDMA.
#[export] Instance wqe_state_eq : EqDecision bgvrnic_wqe_state.
Proof. solve_decision. Defined.

(** The enums of the RDMA core; [IB_WR_OTHER] are the opcodes the driver
    never names. *)
Inductive ib_wr_opcode := IB_WR_RDMA_WRITE | IB_WR_RDMA_WRITE_WITH_IMM | IB_WR_SEND | IB_WR_SEND_WITH_IMM
  | IB_WR_RDMA_READ | IB_WR_SEND_WITH_INV | IB_WR_RDMA_READ_WITH_INV | IB_WR_OTHER.
Inductive ib_wc_opcode := IB_WC_SEND | IB_WC_RDMA_WRITE | IB_WC_RDMA_READ | IB_WC_RECV.
Inductive ib_qp_state := IB_QPS_RESET | IB_QPS_INIT | IB_QPS_RTR | IB_QPS_RTS | IB_QPS_SQD | IB_QPS_SQE | IB_QPS_ERR.
#[export] Instance ib_qp_state_eq : EqDecision ib_qp_state.
Proof. solve_decision. Defined.

(** Work requests of the user.  [num_sge] is the length of the list. *)
Record ib_send_wr := mkSendWr {
  sw_wr_id : Z; sw_sg_list : list ib_sge; sw_opcode : ib_wr_opcode;
  sw_signaled : bool; sw_solicited : bool; sw_imm_data : Z; sw_remote_addr : Z; sw_rkey : Z }.
Record ib_recv_wr := mkRecvWr { rw_wr_id : Z; rw_sg_list : list ib_sge }.

(** [union wr] of a work queue entry, with what was stored in it. *)
Inductive wqe_wr := WrSend (wr : ib_send_wr) | WrRecv (wr : ib_recv_wr) | WrNone.

Record bgvrnic_wqe := mkWqe {
  w_vrnic_qp : Z; w_state : bgvrnic_wqe_state; w_length : Z; w_status : Z; w_type : bgvrnic_wqe_type;
  w_wr : wqe_wr; w_imm_data_valid : bool; w_imm_data : Z }.
#[export] Instance FieldsOf_wqe : FieldsOf bgvrnic_wqe := fun w =>
  mkWqe (w_vrnic_qp w) (w_state w) (w_length w) (w_status w) (w_type w) (w_wr w) (w_imm_data_valid w) (w_imm_data w).

(** [struct ib_wc]: a completion. *)
Record ib_wc := mkWc {
  wc_wr_id : Z; wc_status : Z; wc_opcode : ib_wc_opcode; wc_vendor_err : Z; wc_byte_len : Z;
  wc_qp : Z; wc_src_qp : Z; wc_imm : option Z }.

Record bgvrnic_cq := mkCq {
  cq_cqe : Z; cq_entries : list ib_wc; cq_solicited : bool; cq_next_comp : bool }.
#[export] Instance FieldsOf_cq : FieldsOf bgvrnic_cq := fun c =>
  mkCq (cq_cqe c) (cq_entries c) (cq_solicited c) (cq_next_comp c).

(** [struct ib_qp_attr]; [cap] is [struct ib_qp_cap]. *)
Record ib_qp_cap := mkCap {
  max_send_wr : Z; max_recv_wr : Z; max_send_sge : Z; max_recv_sge : Z; max_inline_data : Z }.
Record ib_qp_attr := mkAttr {
  qp_state : ib_qp_state; cur_qp_state : ib_qp_state; path_mtu : Z; path_mig_state : Z; qkey : Z;
  rq_psn : Z; sq_psn : Z; dest_qp_num : Z; qp_access_flags : Z; cap : ib_qp_cap; pkey_index : Z;
  en_sqd_async_notify : Z; sq_draining : bool; max_rd_atomic : Z; max_dest_rd_atomic : Z;
  min_rnr_timer : Z; port_num : Z; timeout : Z; retry_cnt : Z; rnr_retry : Z }.
#[export] Instance FieldsOf_attr : FieldsOf ib_qp_attr := fun a =>
  mkAttr (qp_state a) (cur_qp_state a) (path_mtu a) (path_mig_state a) (qkey a) (rq_psn a) (sq_psn a)
    (dest_qp_num a) (qp_access_flags a) (cap a) (pkey_index a) (en_sqd_async_notify a) (sq_draining a)
    (max_rd_atomic a) (max_dest_rd_atomic a) (min_rnr_timer a) (port_num a) (timeout a) (retry_cnt a) (rnr_retry a).
(** [struct ib_qp_init_attr]: [sq_sig_type == IB_SIGNAL_ALL_WR] and [cap]. *)
Record ib_qp_init_attr := mkInitAttr {
  ia_send_cq : Z; ia_recv_cq : Z; ia_srq : bool; ia_cap : ib_qp_cap; ia_signal_all : bool;
  ia_qp_type_rc : bool; ia_create_flags : Z }.

Record bgvrnic_qp := mkQp {
  qp_num : Z; ib_qp_attrs : ib_qp_attr; ib_qp_init_attrs : ib_qp_init_attr;
  qp_cm_id : option Z; qp_mu_context : option nat; qp_references : Z;
  qp_scq : Z; qp_rcq : Z; qp_sq : list Z; qp_rq : list Z }.
#[export] Instance FieldsOf_qp : FieldsOf bgvrnic_qp := fun q =>
  mkQp (qp_num q) (ib_qp_attrs q) (ib_qp_init_attrs q) (qp_cm_id q) (qp_mu_context q) (qp_references q)
    (qp_scq q) (qp_rcq q) (qp_sq q) (qp_rq q).

(** ** Connection manager: data (bgvrnic.h, rdma/iw_cm.h) *)

Record sockaddr_in := mkAddr { sin_addr : Z; sin_port : Z }.
Record iw_cm_id := mkCmId { local_addr : sockaddr_in; remote_addr : sockaddr_in; provider_data : option Z }.
#[export] Instance FieldsOf_cmid : FieldsOf iw_cm_id := fun c =>
  mkCmId (local_addr c) (remote_addr c) (provider_data c).
Inductive iw_cm_event_type := IW_CM_EVENT_CONNECT_REQUEST | IW_CM_EVENT_CONNECT_REPLY | IW_CM_EVENT_ESTABLISHED
  | IW_CM_EVENT_DISCONNECT | IW_CM_EVENT_CLOSE.
Record iw_cm_event := mkCmEvent {
  ev_event : iw_cm_event_type; ev_status : Z; ev_local : sockaddr_in; ev_remote : sockaddr_in;
  ev_private_data : option (list Z); ev_provider_data : option Z }.
Inductive bgvrnic_cep_state := CEP_INIT | CEP_CONNECTING | CEP_CONNECTED | CEP_DISCONNECTED.
Record bgvrnic_cep := mkCep {
  cep_vrnic_qp : option Z; cep_mu_context : option nat; cep_remote_qpn : Z; cep_remote_addr : Z;
  cep_remote_request_id : Z; cep_source_qpn : Z; cep_state : bgvrnic_cep_state }.
#[export] Instance FieldsOf_cep : FieldsOf bgvrnic_cep := fun c =>
  mkCep (cep_vrnic_qp c) (cep_mu_context c) (cep_remote_qpn c) (cep_remote_addr c)
    (cep_remote_request_id c) (cep_source_qpn c) (cep_state c).

(** What leaves the driver towards the kernel. *)
Inductive vevent :=
| EvComp (cq : Z)                       (* the completion handler of the CQ *)
| EvCm (cm_id : Z) (e : iw_cm_event)    (* the event handler of the CM ID *)
| EvAddRef (cm_id : Z)
| EvRemRef (cm_id : Z)
| EvWakeUp (qp : Z)                     (* [wake_up] of the waiters of a QP *)
| EvRx (frame : list Z).                (* an Ethernet frame for [bgvrnic_rx] *)

(** ** State

    Objects of [kmalloc] are keyed by address.  [v_mem] is physical memory
    as far as the driver itself writes it; [v_calls] counts the calls out of
    the driver, and [v_du] is the state of the data mover. *)
Record vnic (D : Type) := mkVnic {
  v_qps : gmap Z bgvrnic_qp;            (* by address *)
  v_qp_pool : gmap Z Z;                 (* idr of the device: QPN to address *)
  v_mrs : gmap Z bgvrnic_mr;            (* idr of the device, by lkey *)
  v_cqs : gmap Z bgvrnic_cq; v_wqes : gmap Z bgvrnic_wqe;
  v_ceps : list Z; v_cep : gmap Z bgvrnic_cep;
  v_listeners : list Z; v_listener : gmap Z Z;   (* the CM ID of a listener *)
  v_cm_ids : gmap Z iw_cm_id;
  v_mem : gmap Z Z; v_calls : nat; v_trace : list vevent; v_du : D }.
Arguments mkVnic {D}. Arguments v_qps {D}. Arguments v_qp_pool {D}. Arguments v_mrs {D}. Arguments v_cqs {D}.
Arguments v_wqes {D}. Arguments v_ceps {D}. Arguments v_cep {D}. Arguments v_listeners {D}. Arguments v_listener {D}. Arguments v_cm_ids {D}.
Arguments v_mem {D}. Arguments v_calls {D}. Arguments v_trace {D}. Arguments v_du {D}.
#[export] Instance FieldsOf_vnic D : FieldsOf (vnic D) := fun v =>
  mkVnic (v_qps v) (v_qp_pool v) (v_mrs v) (v_cqs v) (v_wqes v) (v_ceps v) (v_cep v) (v_listeners v) (v_listener v)
    (v_cm_ids v) (v_mem v) (v_calls v) (v_trace v) (v_du v).

(** ** The data mover below and the kernel around *)

(** The operations of mudm.h the driver calls. *)
Class DataMover (D : Type) := {
  dm_send_pkt : nat -> Z -> Z -> Z -> Z -> M D Z;
  dm_send_message_remote : nat -> Z -> ionet_send_remote_payload -> M D Z;
  dm_rdma_read : nat -> Z -> Z -> Z -> Z -> list mudm_sgl -> list mudm_sgl -> M D Z;
  dm_rdma_write : nat -> Z -> Z -> list mudm_sgl -> list mudm_sgl -> M D Z;
  dm_disconnect : nat -> M D Z }.

(** [kmalloc] gets the number of the call and the addresses in use.
    [stack_payload] and [stack_sgl] are what a payload and an array of SGEs
    on the stack hold before they are filled in.  The [IB_WC] codes are those of the RDMA
    core. *)
Class Kernel := {
  kmalloc : nat -> gset Z -> option Z;
  stack_payload : nat -> ionet_send_remote_payload; stack_sgl : nat -> list mudm_sgl;
  cm_event_handler : nat -> Z;
  bgvrnic_rx : nat -> Z;
  busy_fuel : nat;
  IB_WC_SUCCESS : Z; IB_WC_LOC_LEN_ERR : Z; IB_WC_REM_ABORT_ERR : Z; IB_WC_GENERAL_ERR : Z }.
Class KernelLaws {K : Kernel} : Prop := {
  kmalloc_fresh : forall n used a, kmalloc n used = Some a -> (a ∉ used) /\ a <> 0;
  wc_codes : IB_WC_SUCCESS = 0 /\ 0 < IB_WC_LOC_LEN_ERR < 2 ^ 31 /\ 0 < IB_WC_REM_ABORT_ERR < 2 ^ 31 /\
    0 < IB_WC_GENERAL_ERR < 2 ^ 31 }.
(** Memory does not run out. *)
Class KernelRoomy {K : Kernel} : Prop := kmalloc_roomy : forall n used, is_Some (kmalloc n used).

Definition MUDM_MAX_PAYLOAD_SIZE := 512.
Definition MUDM_IMMEDIATE_DATA := 1.
Definition MUDM_SOLICITED := 2.
Definition MUDM_IP_IMMED := 0x1bc0.
Definition EOPNOTSUPP := 95.
Definition ECONNREFUSED := 111.

Section verbs.
Context {D : Type} {DM : DataMover D} {K : Kernel}.
Abbreviation V := (vnic D).

(** ** Primitive actions *)

Definition vlift {A} (m : M D A) : M V A := fun v =>
  match m (v_du v) with Ok a d => Ok a (v <| v_du := d |>) | Fault => Fault | Hang => Hang end.
Definition vemit (e : vevent) : M V unit := modify (fun v => v <| v_trace ::= (fun t => t ++ [e]) |>).
Definition vcall : M V nat := n <- gets v_calls ;; modify (fun v => v <| v_calls := S n |>) ;;; ret n.
Definition in_use (v : V) : gset Z := dom (v_wqes v) ∪ dom (v_cep v) ∪ dom (v_qps v) ∪ dom (v_listener v).
Definition valloc : M V (option Z) := n <- vcall ;; gets (fun v => kmalloc n (in_use v)).

Definition get_qp (q : Z) : M V bgvrnic_qp := o <- gets (fun v => v_qps v !! q) ;; deref o.
Definition upd_qp (q : Z) (u : bgvrnic_qp -> bgvrnic_qp) : M V unit :=
  get_qp q ;;; modify (fun v => v <| v_qps ::= alter u q |>).
Definition get_wqe (a : Z) : M V bgvrnic_wqe := o <- gets (fun v => v_wqes v !! a) ;; deref o.
Definition upd_wqe (a : Z) (u : bgvrnic_wqe -> bgvrnic_wqe) : M V unit :=
  get_wqe a ;;; modify (fun v => v <| v_wqes ::= alter u a |>).
Definition get_cq (c : Z) : M V bgvrnic_cq := o <- gets (fun v => v_cqs v !! c) ;; deref o.
Definition upd_cq (c : Z) (u : bgvrnic_cq -> bgvrnic_cq) : M V unit :=
  get_cq c ;;; modify (fun v => v <| v_cqs ::= alter u c |>).
Definition get_cm_id (c : Z) : M V iw_cm_id := o <- gets (fun v => v_cm_ids v !! c) ;; deref o.
Definition set_qp_state (s : ib_qp_state) (qp : bgvrnic_qp) : bgvrnic_qp := qp <| ib_qp_attrs ::= fun a => a <| qp_state := s |> |>.

(** Members of the union. *)
Definition ib_send (w : bgvrnic_wqe) : option ib_send_wr := match w_wr w with WrSend wr => Some wr | _ => None end.
Definition ib_recv (w : bgvrnic_wqe) : option ib_recv_wr := match w_wr w with WrRecv wr => Some wr | _ => None end.

(** [bgvrnic_xlate_sgl] with the regions of the device, [bgvrnic_get_mr]. *)
Definition xlate_sgl (usge : list ib_sge) : M V (Z * list mudm_sgl * nat) :=
  mrs <- gets v_mrs ;; bgvrnic_xlate_sgl (fun lkey => mrs !! lkey) usge MUDM_MAX_SGE.

(** [list_del], and the rest of an array of SGEs on the stack. *)
Definition del (a : Z) (l : list Z) : list Z := filter (fun x => x <> a) l.
Definition sgl_array (written stack : list mudm_sgl) : list mudm_sgl := written ++ drop (length written) stack.

(** ** Completion queues *)

Definition wc_opcode_of (op : ib_wr_opcode) : option ib_wc_opcode :=
  match op with
  | IB_WR_RDMA_WRITE | IB_WR_RDMA_WRITE_WITH_IMM => Some IB_WC_RDMA_WRITE
  | IB_WR_SEND | IB_WR_SEND_WITH_IMM | IB_WR_SEND_WITH_INV => Some IB_WC_SEND
  | IB_WR_RDMA_READ | IB_WR_RDMA_READ_WITH_INV => Some IB_WC_RDMA_READ
  | IB_WR_OTHER => None
  end.
Definition wc_status_of (status : Z) : Z * Z :=
  if status =? 0 then (IB_WC_SUCCESS, 0)
  else if status <? 0 then (IB_WC_GENERAL_ERR, u32 status) else (status, 0).

Definition push_cqe (cqe : ib_wc) (cq : bgvrnic_cq) : bgvrnic_cq :=
  cq <| cq_entries ::= (fun l => l ++ [cqe]) |> <| cq_solicited := false |> <| cq_next_comp := false |>.
Definition bgvrnic_add_cqe (vrnic_cq vrnic_qp : Z) (send_wr : option ib_send_wr) (recv_wr : option ib_recv_wr)
    (length status : Z) (imm_data_valid : bool) (imm_data : Z) : M V Z :=
  cqe <- valloc ;;
  match cqe with
  | None => ret (- ENOMEM)
  | Some _ =>
    qp <- get_qp vrnic_qp ;;
    let '(wc_status, vendor_err) := wc_status_of status in
    let imm := if imm_data =? 0 then None else Some imm_data in
    let wc op wr_id := mkWc wr_id wc_status op vendor_err length vrnic_qp (qp_num qp) imm in
    cq <- get_cq vrnic_cq ;;
    out <- match send_wr, recv_wr with
      | Some wr, _ => op <- deref (wc_opcode_of (sw_opcode wr)) ;;
          ret (wc op (sw_wr_id wr), negb (wc_status =? IB_WC_SUCCESS) || cq_next_comp cq)
      | None, Some wr => ret (wc IB_WC_RECV (rw_wr_id wr), true)
      | None, None => fault
      end ;;
    let '(cqe, generate_event) := out in
    upd_cq vrnic_cq (push_cqe cqe) ;;;
    when generate_event (vemit (EvComp vrnic_cq)) ;;;
    ret 0
  end.

Inductive ib_cq_notify_flags := IB_CQ_SOLICITED | IB_CQ_NEXT_COMP | IB_CQ_SOLICITED_MASK | IB_CQ_OTHER.
Definition bgvrnic_req_notify_cq (cq : Z) (flags : ib_cq_notify_flags) : M V Z :=
  match flags with
  | IB_CQ_SOLICITED => upd_cq cq (fun c => c <| cq_solicited := true |>) ;;; ret 0
  | IB_CQ_NEXT_COMP => upd_cq cq (fun c => c <| cq_next_comp := true |>) ;;; ret 0
  | IB_CQ_SOLICITED_MASK => upd_cq cq (fun c => c <| cq_solicited := true |> <| cq_next_comp := true |>) ;;; ret 0
  | IB_CQ_OTHER => ret (- EINVAL)
  end.

Definition bgvrnic_remove_cqe (cq : Z) : M V (option ib_wc) :=
  c <- get_cq cq ;;
  match cq_entries c with
  | [] => ret None
  | cqe :: entries => upd_cq cq (fun c => c <| cq_entries := entries |>) ;;; ret (Some cqe)
  end.
(** The completions written to the array of the user; their number is the
    result of the C function. *)
Fixpoint poll_cq_loop (cq : Z) (n : nat) : M V (list ib_wc) :=
  match n with
  | O => ret []
  | S n =>
    o <- bgvrnic_remove_cqe cq ;;
    match o with
    | None => ret []
    | Some wc => l <- poll_cq_loop cq n ;; ret (wc :: l)
    end
  end.
Definition bgvrnic_poll_cq (cq numCQEs : Z) : M V (list ib_wc) := poll_cq_loop cq (Z.to_nat (u32 numCQEs)).

(** ** Work queue entries *)

Definition bgvrnic_alloc_wqe (type : bgvrnic_wqe_type) (wr : wqe_wr) (vrnic_qp : Z) : M V (option Z) :=
  wqe <- valloc ;;
  match wqe with
  | None => ret None
  | Some a =>
    sg_list <- match type with WQET_RDMA => ret (Some 0) | _ => valloc end ;;
    match sg_list with
    | None => ret None
    | Some _ =>
      modify (fun v => v <| v_wqes ::= <[a := mkWqe vrnic_qp WQES_INIT
        (match type with WQET_RECV => u32 (-1) | _ => 0 end) 0 type wr false 0]> |>) ;;;
      ret (Some a)
    end
  end.
Definition bgvrnic_free_wqe (a : Z) : M V unit := get_wqe a ;;; modify (fun v => v <| v_wqes ::= delete a |>).

(** ** Receive queue *)

Fixpoint recv_wqes_loop (q : Z) (rq : list Z) (rc : Z) : M V Z :=
  match rq with
  | [] => ret rc
  | a :: rq =>
    wqe <- get_wqe a ;;
    match w_state wqe with
    | WQES_DONE =>
      qp <- get_qp q ;;
      wr <- deref (ib_recv wqe) ;;
      rc <- bgvrnic_add_cqe (qp_rcq qp) q None (Some wr) (w_length wqe) (w_status wqe)
              (w_imm_data_valid wqe) (w_imm_data wqe) ;;
      upd_qp q (fun qp => qp <| qp_rq ::= del a |>) ;;;
      bgvrnic_free_wqe a ;;;
      recv_wqes_loop q rq rc
    | WQES_INIT | WQES_RUN => ret rc
    | _ => fault
    end
  end.
Definition bgvrnic_process_recv_wqes (q : Z) : M V Z := qp <- get_qp q ;; recv_wqes_loop q (qp_rq qp) 0.

Fixpoint post_recv_loop (q : Z) (i : nat) (wrs : list ib_recv_wr) : M V (Z * option nat) :=
  match wrs with
  | [] => ret (0, None)
  | wr :: wrs =>
    qp <- get_qp q ;;
    if Z.of_nat (length (rw_sg_list wr)) >? max_recv_sge (ia_cap (ib_qp_init_attrs qp)) then ret (- EINVAL, Some i) else
    o <- bgvrnic_alloc_wqe WQET_RECV (WrRecv wr) q ;;
    match o with
    | None => ret (- ENOMEM, Some i)
    | Some a => upd_qp q (fun qp => qp <| qp_rq ::= (fun l => l ++ [a]) |>) ;;; post_recv_loop q (S i) wrs
    end
  end.
(** The result, and [*bad_wr] if it is set: the position in the list. *)
Definition bgvrnic_post_recv (q : Z) (wrs : list ib_recv_wr) : M V (Z * option nat) :=
  qp <- get_qp q ;;
  match qp_state (ib_qp_attrs qp) with
  | IB_QPS_RESET | IB_QPS_ERR => ret (- EINVAL, None)
  | _ => if ia_srq (ib_qp_init_attrs qp) then ret (- EOPNOTSUPP, None) else post_recv_loop q 0 wrs
  end.

(** ** Send queue *)

Definition signaled (qp : bgvrnic_qp) (wr : ib_send_wr) : bool := ia_signal_all (ib_qp_init_attrs qp) || sw_signaled wr.

(** Move to the completion queue; the new value of [rc]. *)
Definition complete_send (q a : Z) (wr : ib_send_wr) (rc : Z) : M V Z :=
  qp <- get_qp q ;;
  wqe <- get_wqe a ;;
  rc <- (if signaled qp wr
         then bgvrnic_add_cqe (qp_scq qp) q (Some wr) None (w_length wqe) (w_status wqe)
                (w_imm_data_valid wqe) (w_imm_data wqe)
         else ret rc) ;;
  upd_qp q (fun qp => qp <| qp_sq ::= del a |>) ;;;
  bgvrnic_free_wqe a ;;;
  ret rc.

(** The payload up to the switch over the opcode, and the translated length. *)
Definition send_payload (a : Z) (wqe : bgvrnic_wqe) (wr : ib_send_wr) : M V ionet_send_remote_payload :=
  n <- vcall ;;
  out <- xlate_sgl (sw_sg_list wr) ;;
  let '(length, psge, num_psge) := out in
  let p := (stack_payload n) <| rp_sgl_num := Z.of_nat num_psge |> <| rp_RequestID := a |>
             <| rp_data_length := u32 length |> <| rp_SGE ::= sgl_array psge |> in
  let p := if w_imm_data_valid wqe
    then p <| rp_flags := MUDM_IMMEDIATE_DATA |> <| rp_immediate_data := w_imm_data wqe |>
    else p <| rp_flags := 0 |> in
  ret (if sw_solicited wr then p <| rp_flags ::= fun f => Z.lor f MUDM_SOLICITED |> else p).

(** The switch over the opcode: the new status, [None] where it is kept. *)
Definition send_request (qp : bgvrnic_qp) (a : Z) (wr : ib_send_wr) (p : ionet_send_remote_payload) : M V (option Z) :=
  let remote type p := c <- deref (qp_mu_context qp) ;; r <- vlift (dm_send_message_remote c type p) ;; ret (Some r) in
  let rdma p := p <| rp_remote_vaddr := sw_remote_addr wr |> <| rp_rkey := sw_rkey wr |> in
  match sw_opcode wr with
  | IB_WR_SEND =>
    if (rp_sgl_num p =? 1) && (rp_data_length p <=? MUDM_MAX_PAYLOAD_SIZE) then
      c <- deref (qp_mu_context qp) ;;
      s <- deref (head (rp_SGE p)) ;;
      r <- vlift (dm_send_pkt c a MUDM_PKT_DATA_IMM (physicalAddr s) (memlength s)) ;;
      ret (Some r)
    else remote MUDM_PKT_DATA_REMOTE p
  | IB_WR_SEND_WITH_IMM => remote MUDM_PKT_DATA_REMOTE p
  | IB_WR_RDMA_READ => remote MUDM_RDMA_WRITE (rdma p)
  | IB_WR_RDMA_WRITE | IB_WR_RDMA_WRITE_WITH_IMM => remote MUDM_RDMA_READ (rdma p)
  | _ => ret None
  end.

(** One entry that is to be sent: [rc] and [remaining_wqes] afterwards, or
    the value with which the function returns at once. *)
Definition send_wqe (q a : Z) (rc remaining : Z) : M V (Z * Z + Z) :=
  qp <- get_qp q ;;
  wqe <- get_wqe a ;;
  wr <- deref (ib_send wqe) ;;
  p <- send_payload a wqe wr ;;
  if rp_data_length p <? 0 then
    complete_send q a wr rc ;;;
    ret (inr (rp_data_length p))
  else
    upd_wqe a (fun w => w <| w_length := rp_data_length p |>) ;;;
    r <- send_request qp a wr p ;;
    (match r with Some r => upd_wqe a (fun w => w <| w_status := r |>) | None => ret tt end) ;;;
    wqe <- get_wqe a ;;
    let status := w_status wqe in
    if status =? - ECANCELED then
      upd_wqe a (fun w => w <| w_status := IB_WC_REM_ABORT_ERR |> <| w_state := WQES_DONE |>) ;;;
      rc <- complete_send q a wr rc ;; ret (inl (rc, remaining))
    else if status =? 0 then
      upd_wqe a (fun w => w <| w_state := WQES_DONE |>) ;;;
      rc <- complete_send q a wr rc ;; ret (inl (rc, remaining))
    else if status =? - EINPROGRESS then
      upd_wqe a (fun w => w <| w_state := WQES_RUN |>) ;;; ret (inl (rc, u32 (remaining + 1)))
    else if status =? - EBUSY then
      upd_wqe a (fun w => w <| w_state := WQES_WAIT |>) ;;; ret (inl (rc, u32 (remaining + 1)))
    else fault.

Fixpoint send_wqes_loop (q : Z) (sq : list Z) (rc remaining : Z) : M V Z :=
  match sq with
  | [] => ret (if rc <? 0 then rc else remaining)
  | a :: sq =>
    wqe <- get_wqe a ;;
    match w_state wqe with
    | WQES_INIT | WQES_WAIT =>
      o <- send_wqe q a rc remaining ;;
      match o with inl (rc, remaining) => send_wqes_loop q sq rc remaining | inr r => ret r end
    | WQES_RUN => let remaining := u32 (remaining + 1) in ret (if rc <? 0 then rc else remaining)
    | WQES_DONE =>
      wr <- deref (ib_send wqe) ;;
      rc <- complete_send q a wr rc ;;
      send_wqes_loop q sq rc remaining
    | WQES_INVALID => fault
    end
  end.
Definition bgvrnic_process_send_wqes (q : Z) : M V Z := qp <- get_qp q ;; send_wqes_loop q (qp_sq qp) 0 0.

(** The loop over the requests; [true] where the code goes on to process
    the queue, [false] where it jumps to [out]. *)
Fixpoint post_send_loop (q : Z) (i : nat) (wrs : list ib_send_wr) : M V (Z * option nat * bool) :=
  match wrs with
  | [] => ret (0, None, true)
  | wr :: wrs =>
    qp <- get_qp q ;;
    if Z.of_nat (length (sw_sg_list wr)) >? max_recv_sge (ia_cap (ib_qp_init_attrs qp)) then ret (- EINVAL, Some i, true) else
    o <- bgvrnic_alloc_wqe WQET_SEND (WrSend wr) q ;;
    match o with
    | None => ret (- ENOMEM, Some i, true)
    | Some a =>
      let add := upd_qp q (fun qp => qp <| qp_sq ::= (fun l => l ++ [a]) |>) ;;; post_send_loop q (S i) wrs in
      match sw_opcode wr with
      | IB_WR_SEND | IB_WR_RDMA_WRITE => add
      | IB_WR_SEND_WITH_IMM | IB_WR_RDMA_WRITE_WITH_IMM =>
        upd_wqe a (fun w => w <| w_imm_data_valid := true |> <| w_imm_data := sw_imm_data wr |>) ;;; add
      | IB_WR_RDMA_READ => if (1 <? length (sw_sg_list wr))%nat then ret (- EINVAL, Some i, false) else add
      | _ => modify (fun v => v <| v_wqes ::= delete a |>) ;;; ret (- EOPNOTSUPP, Some i, false)
      end
    end
  end.
Definition bgvrnic_post_send (q : Z) (wrs : list ib_send_wr) : M V (Z * option nat) :=
  qp <- get_qp q ;;
  if negb (bool_decide (qp_state (ib_qp_attrs qp) = IB_QPS_RTS)) then ret (- EINVAL, None) else
  out <- post_send_loop q 0 wrs ;;
  let '(rc, bad_wr, go_on) := out in
  (if go_on then bgvrnic_process_send_wqes q ;;; ret tt else ret tt) ;;;
  ret (rc, bad_wr).

(** ** Status of asynchronous requests *)

(** [status[i]] is a [u32] stored in an [int]. *)
Definition status_one (requestID status : Z) : M V unit :=
  wqe <- get_wqe requestID ;;
  let q := w_vrnic_qp wqe in
  let finish := upd_wqe requestID (fun w =>
    (if w_status w <? 0 then w <| w_status := s32 status |> else w) <| w_state := WQES_DONE |>) in
  match w_type wqe with
  | WQET_SEND => finish ;;; bgvrnic_process_send_wqes q ;;; ret tt
  | WQET_RECV => finish ;;; bgvrnic_process_recv_wqes q ;;; ret tt
  | WQET_RDMA => bgvrnic_free_wqe requestID
  end.
Fixpoint mu_status_cb (reqs : list (Z * Z)) : M V Z :=
  match reqs with
  | [] => ret 0
  | (requestID, status) :: reqs => status_one requestID status ;;; mu_status_cb reqs
  end.

(** ** Arrival of data *)

(** [memcpy] to physical memory. *)
Definition mem_store (l : list (Z * Z)) (m : gmap Z Z) : gmap Z Z := foldl (fun m x => <[fst x := snd x]> m) m l.
Definition memcpy (pa : Z) (bs : list Z) : M V unit :=
  modify (fun v => v <| v_mem ::= mem_store (zip (seqZ pa (Z.of_nat (length bs))) bs) |>).

(** [while (length)]; the entry [i] is left when it is full. *)
Fixpoint copy_loop (psge : list mudm_sgl) (data : list Z) (len : Z) : M V unit :=
  if len =? 0 then ret tt else
  match psge with
  | [] => fault
  | s :: psge =>
    let chunk_size := Z.min len (memlength s) in
    if (length data <? Z.to_nat chunk_size)%nat then fault else
    memcpy (physicalAddr s) (take (Z.to_nat chunk_size) data) ;;;
    copy_loop psge (drop (Z.to_nat chunk_size) data) (len - chunk_size)
  end.

Definition bgvrnic_recv_immed (q a : Z) (data : list Z) (len : Z) : M V Z :=
  wqe <- get_wqe a ;;
  wr <- deref (ib_recv wqe) ;;
  out <- xlate_sgl (rw_sg_list wr) ;;
  let '(rc, psge, num_psge) := out in
  if rc <? 0 then fault else
  let '(len, status, rc) := if rc <? len then (rc, IB_WC_LOC_LEN_ERR, - E2BIG) else (len, IB_WC_SUCCESS, 0) in
  upd_wqe a (fun w => w <| w_status := status |> <| w_length := len |>) ;;;
  copy_loop psge data len ;;;
  upd_wqe a (fun w => w <| w_state := WQES_DONE |>) ;;;
  ret rc.

(** [while ((rc = ...) == -EBUSY);] *)
Fixpoint while_busy (fuel : nat) (m : M V Z) : M V Z :=
  rc <- m ;;
  if rc =? - EBUSY then match fuel with O => hang | S fuel => while_busy fuel m end else ret rc.

Definition bgvrnic_recv_remote (q a : Z) (pkt : ionet_send_remote_payload) : M V Z :=
  qp <- get_qp q ;;
  wqe <- get_wqe a ;;
  wr <- deref (ib_recv wqe) ;;
  n <- vcall ;;
  out <- xlate_sgl (rw_sg_list wr) ;;
  let '(rc, psge, num_psge) := out in
  if rc <? 0 then fault else
  let '(pkt, status) := if rc <? rp_data_length pkt then (pkt <| rp_data_length := rc |>, IB_WC_LOC_LEN_ERR)
                        else (pkt, w_status wqe) in
  upd_wqe a (fun w => w <| w_status := status |> <| w_length := rc |>) ;;;
  when (negb (Z.land (rp_flags pkt) MUDM_IMMEDIATE_DATA =? 0))
    (upd_wqe a (fun w => w <| w_imm_data_valid := true |> <| w_imm_data := rp_immediate_data pkt |>)) ;;;
  c <- deref (qp_mu_context qp) ;;
  rc <- while_busy busy_fuel (vlift (dm_rdma_read c a (rp_RequestID pkt) (rp_rdma_object pkt) (rp_data_length pkt)
          (sgl_array psge (stack_sgl n)) (rp_SGE pkt))) ;;
  if rc =? - ECANCELED then
    upd_wqe a (fun w => w <| w_status := IB_WC_REM_ABORT_ERR |> <| w_state := WQES_DONE |>) ;;; ret rc
  else if rc =? 0 then upd_wqe a (fun w => w <| w_state := WQES_DONE |>) ;;; ret rc
  else if rc =? - EINPROGRESS then upd_wqe a (fun w => w <| w_state := WQES_RUN |>) ;;; ret 0
  else fault.

Fixpoint find_wqe (rq : list Z) : M V (option Z) :=
  match rq with
  | [] => ret None
  | a :: rq => wqe <- get_wqe a ;; if decide (w_state wqe = WQES_INIT) then ret (Some a) else find_wqe rq
  end.

(** An event for the connection manager about this queue pair. *)
Definition qp_event (q cm_id : Z) (event : iw_cm_event_type) (status : Z) : M V Z :=
  id <- get_cm_id cm_id ;;
  vemit (EvCm cm_id (mkCmEvent event status (local_addr id) (remote_addr id) None None)) ;;;
  n <- vcall ;; ret (cm_event_handler n).

(** No entry is free: disconnect. *)
Definition recv_no_buffer (q : Z) : M V Z :=
  qp <- get_qp q ;;
  match qp_cm_id qp with
  | Some cm_id => upd_qp q (set_qp_state IB_QPS_SQE) ;;; qp_event q cm_id IW_CM_EVENT_DISCONNECT (- ECONNRESET) ;;; ret tt
  | None => ret tt
  end ;;;
  c <- deref (qp_mu_context qp) ;;
  vlift (dm_disconnect c).

(** The header members the callback reads, and the packet behind it. *)
Record ionet_header := mkIonet { ih_sequence_number : Z; ih_payload_length : Z; ih_type : Z; ih_dest_qpn : Z }.

Definition recv_data (q : Z) (h : ionet_header) (data : packet_data) : M V Z :=
  qp <- get_qp q ;;
  o <- find_wqe (qp_rq qp) ;;
  match o with
  | Some a =>
    rc <- (if ih_type h =? MUDM_PKT_DATA_IMM then
             match data with DataBytes bs => bgvrnic_recv_immed q a bs (ih_payload_length h) | _ => fault end
           else match data with DataRemote p => bgvrnic_recv_remote q a p | _ => fault end) ;;
    bgvrnic_process_recv_wqes q ;;;
    ret rc
  | None => recv_no_buffer q
  end.

(** The remote end writes to, or reads from, memory of this node. *)
Definition recv_rdma_read (q : Z) (p : ionet_send_remote_payload) : M V Z :=
  wqe <- bgvrnic_alloc_wqe WQET_RDMA WrNone q ;;
  n <- vcall ;;
  out <- xlate_sgl [mkSge (rp_remote_vaddr p) (rp_data_length p) (rp_rkey p)] ;;
  let '(len, psge, num_psge) := out in
  a <- deref wqe ;;
  if negb (u32 len =? rp_data_length p) then fault else
  qp <- get_qp q ;;
  c <- deref (qp_mu_context qp) ;;
  rc <- while_busy busy_fuel (vlift (dm_rdma_read c a (rp_RequestID p) (rp_rdma_object p) len
          (sgl_array psge (stack_sgl n)) (rp_SGE p))) ;;
  if (rc =? 0) || (rc =? - ECANCELED) then bgvrnic_free_wqe a ;;; ret rc
  else if rc =? - EINPROGRESS then upd_wqe a (fun w => w <| w_state := WQES_RUN |>) ;;; ret 0
  else ret rc.
Definition recv_rdma_write (q : Z) (p : ionet_send_remote_payload) : M V Z :=
  n <- vcall ;;
  out <- xlate_sgl [mkSge (rp_remote_vaddr p) (rp_data_length p) (rp_rkey p)] ;;
  let '(len, psge, num_psge) := out in
  if negb (u32 len =? rp_data_length p) then fault else
  qp <- get_qp q ;;
  c <- deref (qp_mu_context qp) ;;
  rc <- while_busy busy_fuel (vlift (dm_rdma_write c (rp_rdma_object p) len
          (sgl_array psge (stack_sgl n)) (rp_SGE p))) ;;
  if (rc =? 0) || (rc =? - ECANCELED) then ret rc else fault.

Definition mu_recv_cb (h : ionet_header) (data : packet_data) : M V Z :=
  if ih_type h =? MUDM_IP_IMMED then
    match data with
    | DataBytes bs => vemit (EvRx (take (Z.to_nat (ih_payload_length h)) bs)) ;;; n <- vcall ;; ret (bgvrnic_rx n)
    | _ => fault
    end
  else
  o <- gets (fun v => v_qp_pool v !! ih_dest_qpn h) ;;
  q <- deref o ;;
  qp <- get_qp q ;;
  let psn_mismatch := negb (ih_sequence_number h =? rq_psn (ib_qp_attrs qp)) in
  upd_qp q (fun qp => qp <| ib_qp_attrs ::= fun a => a <| rq_psn := Z.land (u32 (ih_sequence_number h + 1)) 0xffff |> |>) ;;;
  rc <- (if (ih_type h =? MUDM_PKT_DATA_IMM) || (ih_type h =? MUDM_PKT_DATA_REMOTE) then recv_data q h data
         else if ih_type h =? MUDM_RDMA_READ then match data with DataRemote p => recv_rdma_read q p | _ => fault end
         else if ih_type h =? MUDM_RDMA_WRITE then match data with DataRemote p => recv_rdma_write q p | _ => fault end
         else ret 0) ;;
  ret (if psn_mismatch && (rc =? 0) then - EPROTO else rc).
End verbs.
