(* ===== verification/VerbsConn.v ===== *)
(** * The connection manager of the verbs driver

    bgvrnic_cm.c: listeners, connection endpoints (CEPs), and the handshake
    of two queue pairs.  A CEP stands for a connection that is being set up;
    it is on a list of the device, and the CM ID it belongs to points at it
    with [provider_data].  Messages are the bytes of [struct ionet_connect]
    (mudm.h), whose packed members are the fields below.  The CM core, which
    calls these operations and gets the events, is outside. *)

From S2P Require Import Prelude Chain Bytes Descriptor State Connect VerbsMem Verbs.

(** ** Messages *)

Definition ic_source_port := Field 18 4.
Definition ic_dest_port := Field 22 4.
Definition ic_source_IP := Field 26 16.
Definition ic_dest_IP := Field 42 16.
(** The 32-bit word at the start of an address. *)
Definition ic_source_IP4 := Field 26 4.
Definition ic_dest_IP4 := Field 42 4.
Definition ic_source_request_id := Field 58 8.
Definition MUDM_MAX_PRIVATE_DATA := 256.
Definition MUDM_UNKNOWN_QPN := -1.
Definition INADDR_ANY := 0.

(** The members every sender writes, in its order; [msg] is what the stack
    holds before. *)
Definition fill_connect (source_qpn dest_qpn : Z) (source dest : sockaddr_in) (source_request_id status : Z)
    (msg : list Z) : list Z :=
  let msg := wr sb_source_qpn (u16 source_qpn) msg in
  let msg := wr sb_dest_qpn (u16 dest_qpn) msg in
  let msg := wr ic_source_IP 0 msg in
  let msg := wr ic_source_IP4 (sin_addr source) msg in
  let msg := wr ic_source_port (sin_port source) msg in
  let msg := wr ic_dest_IP 0 msg in
  let msg := wr ic_dest_IP4 (sin_addr dest) msg in
  let msg := wr ic_dest_port (sin_port dest) msg in
  let msg := wr ic_source_request_id source_request_id msg in
  wr ic_status (u32 status) msg.

(** [struct iw_cm_conn_param]: what the driver reads of it. *)
Record iw_cm_conn_param := mkParam { cp_qpn : Z; cp_private_data : option (list Z); cp_private_data_len : Z }.

(** [mudm_dest32] (mudm_inlines.h), and the node behind an IP address
    10.nnppaaaa.bbbbcccc.ddddeeee. *)
Definition MUDM_IS_IONODE := 0x80000000.
Definition MUDM_IS_CN := 0.
Definition mudm_dest32 (A B C D E ionode_indicator : Z) : Z :=
  Z.lor (Z.shiftl (Z.land A 0x3F) 24) (Z.lor (Z.shiftl (Z.land B 0x3F) 18) (Z.lor (Z.shiftl (Z.land C 0x3F) 12)
    (Z.lor (Z.shiftl (Z.land D 0x3F) 6) (Z.lor (Z.land E 0x3F) ionode_indicator)))).
Definition addr_byte (s_addr : Z) (i : Z) : Z := Z.land (Z.shiftr s_addr (24 - 8 * i)) 0xff.
Definition dest_of_IP (s_addr : Z) : Z :=
  let addr := addr_byte s_addr in
  mudm_dest32 (Z.land (addr 1) 0xf) (Z.shiftr (addr 2) 4) (Z.land (addr 2) 0xf) (Z.shiftr (addr 3) 4) (Z.land (addr 3) 0xf)
    (if Z.land (addr 1) 0xc0 =? 0x80 then MUDM_IS_CN else MUDM_IS_IONODE).

(** ** The data mover below and the kernel around *)

Class ConnMover (D : Type) := {
  dm_connect : Z -> list Z -> option (list Z) -> Z -> M D (Z * option nat);
  dm_conn_reply : nat -> list Z -> option (list Z) -> Z -> M D Z }.
(** [stack_connect] is what a message on the stack holds before it is
    written. *)
Class CmKernel := { stack_connect : nat -> list Z; inet_select_addr : nat -> Z }.
Class CmKernelLaws {C : CmKernel} : Prop := stack_connect_length : forall n, length (stack_connect n) = SIZEOF_ionet_connect.

Section cm.
Context {D : Type} {CM : ConnMover D} {K : Kernel} {C : CmKernel}.
Abbreviation V := (vnic D).

(** ** Primitive actions *)

Definition read_field (f : field) (msg : list Z) : M V Z :=
  if decide (f_end f <= length msg)%nat then ret (rd f msg) else fault.
Definition read_bytes (off len : nat) (msg : list Z) : M V (list Z) :=
  if decide (off + len <= length msg)%nat then ret (slice off len msg) else fault.

Definition get_cep (a : Z) : M V bgvrnic_cep := o <- gets (fun v => v_cep v !! a) ;; deref o.
Definition upd_cep (a : Z) (u : bgvrnic_cep -> bgvrnic_cep) : M V unit :=
  get_cep a ;;; modify (fun v => v <| v_cep ::= alter u a |>).
Definition upd_cm_id (i : Z) (u : iw_cm_id -> iw_cm_id) : M V unit :=
  get_cm_id i ;;; modify (fun v => v <| v_cm_ids ::= alter u i |>).
Definition set_provider (i : Z) (p : option Z) : M V unit := upd_cm_id i (fun id => id <| provider_data := p |>).
(** [list_add_tail], [list_del] and [kfree] of a CEP. *)
Definition add_cep (a : Z) : M V unit := modify (fun v => v <| v_ceps ::= (fun l => l ++ [a]) |>).
Definition unlink_cep (a : Z) : M V unit := get_cep a ;;; modify (fun v => v <| v_ceps ::= del a |>).
Definition kfree_cep (a : Z) : M V unit := get_cep a ;;; modify (fun v => v <| v_cep ::= delete a |>).

Definition bgvrnic_add_ref (q : Z) : M V unit := upd_qp q (fun qp => qp <| qp_references ::= (fun r => r + 1) |>).
Definition bgvrnic_rem_ref (q : Z) : M V unit :=
  upd_qp q (fun qp => qp <| qp_references ::= (fun r => r - 1) |>) ;;;
  qp <- get_qp q ;;
  when (qp_references qp =? 0) (vemit (EvWakeUp q)).
Definition bgvrnic_get_qp (qpn : Z) : M V (option Z) := gets (fun v => v_qp_pool v !! qpn).

(** Call the event handler of a CM ID. *)
Definition event_handler (cm_id : Z) (e : iw_cm_event) : M V Z :=
  get_cm_id cm_id ;;; vemit (EvCm cm_id e) ;;; n <- vcall ;; ret (cm_event_handler n).
Definition new_connect (source_qpn dest_qpn : Z) (source dest : sockaddr_in) (source_request_id status : Z) : M V (list Z) :=
  n <- vcall ;; ret (fill_connect source_qpn dest_qpn source dest source_request_id status (stack_connect n)).

(** ** Connecting *)

Definition zero_cep : bgvrnic_cep := mkCep None None 0 0 0 0 CEP_INIT.
Definition connecting (q source_qpn dest_node : Z) : bgvrnic_cep :=
  mkCep (Some q) None (u16 MUDM_UNKNOWN_QPN) dest_node q (u16 source_qpn) CEP_CONNECTING.

Definition bgvrnic_connect (cm_id : Z) (conn_param : iw_cm_conn_param) : M V Z :=
  o <- valloc ;;
  match o with
  | None => ret (- ENOMEM)
  | Some cep =>
    modify (fun v => v <| v_cep ::= <[cep := zero_cep]> |>) ;;;
    let out1 rc := kfree_cep cep ;;; ret rc in
    if cp_private_data_len conn_param >? MUDM_MAX_PRIVATE_DATA then out1 (- EINVAL) else
    o <- bgvrnic_get_qp (cp_qpn conn_param) ;;
    match o with
    | None => out1 (- EINVAL)
    | Some q =>
      id <- get_cm_id cm_id ;;
      vemit (EvAddRef cm_id) ;;;
      upd_qp q (fun qp => qp <| qp_cm_id := Some cm_id |>) ;;;
      let dest_node := dest_of_IP (sin_addr (remote_addr id)) in
      bgvrnic_add_ref q ;;;
      upd_cep cep (fun _ => connecting q (cp_qpn conn_param) dest_node) ;;;
      add_cep cep ;;;
      set_provider cm_id (Some cep) ;;;
      req <- new_connect (cp_qpn conn_param) MUDM_UNKNOWN_QPN (local_addr id) (remote_addr id) q 0 ;;
      out <- vlift (dm_connect dest_node req (cp_private_data conn_param) (cp_private_data_len conn_param)) ;;
      let '(rc, mu_context) := out in
      (match mu_context with Some c => upd_qp q (fun qp => qp <| qp_mu_context := Some c |>) | None => ret tt end) ;;;
      if negb (rc =? 0) then
        set_provider cm_id None ;;;
        vemit (EvRemRef cm_id) ;;;
        upd_qp q (fun qp => qp <| qp_cm_id := None |>) ;;;
        bgvrnic_rem_ref q ;;;
        unlink_cep cep ;;;
        out1 rc
      else ret rc
    end
  end.

(** ** Accepting and rejecting *)

Definition bgvrnic_accept (cm_id : Z) (conn_param : iw_cm_conn_param) : M V Z :=
  ib_qp <- bgvrnic_get_qp (cp_qpn conn_param) ;;
  id <- get_cm_id cm_id ;;
  let out1 rc :=
    match provider_data id with
    | Some cep => unlink_cep cep ;;; set_provider cm_id None ;;; kfree_cep cep
    | None => ret tt
    end ;;;
    ret rc in
  if cp_private_data_len conn_param >? MUDM_MAX_PRIVATE_DATA then out1 (- EINVAL) else
  match ib_qp with
  | None => out1 (- EINVAL)
  | Some q =>
    cep <- deref (provider_data id) ;;
    c <- get_cep cep ;;
    upd_cep cep (fun c => c <| cep_vrnic_qp := Some q |>) ;;;
    upd_qp q (fun qp => qp <| qp_cm_id := Some cm_id |>) ;;;
    vemit (EvAddRef cm_id) ;;;
    upd_qp q (fun qp => set_qp_state IB_QPS_RTS qp
      <| ib_qp_attrs ::= (fun a => a <| dest_qp_num := cep_remote_qpn c |>) |> <| qp_mu_context := cep_mu_context c |>) ;;;
    upd_cep cep (fun c => c <| cep_state := CEP_CONNECTED |>) ;;;
    rsp <- new_connect (cp_qpn conn_param) (cep_source_qpn c) (local_addr id) (remote_addr id) (cep_remote_request_id c) 0 ;;
    let out2 rc :=
      upd_qp q (fun qp => qp <| qp_cm_id := None |>) ;;;
      vemit (EvRemRef cm_id) ;;;
      out1 rc in
    mu_context <- deref (cep_mu_context c) ;;
    rc <- vlift (dm_conn_reply mu_context rsp (cp_private_data conn_param) (u16 (cp_private_data_len conn_param))) ;;
    if negb (rc =? 0) then out2 rc else
    rc <- event_handler cm_id (mkCmEvent IW_CM_EVENT_ESTABLISHED 0 (local_addr id) (remote_addr id) (cp_private_data conn_param) None) ;;
    if negb (rc =? 0) then out2 rc else ret rc
  end.

Definition bgvrnic_reject (cm_id : Z) (private_data : option (list Z)) (private_data_len : Z) : M V Z :=
  id <- get_cm_id cm_id ;;
  rc <- (if private_data_len >? MUDM_MAX_PRIVATE_DATA then ret (- EINVAL) else
    cep <- deref (provider_data id) ;;
    c <- get_cep cep ;;
    upd_cep cep (fun c => c <| cep_state := CEP_DISCONNECTED |>) ;;;
    rsp <- new_connect (cep_source_qpn c) (cep_remote_qpn c) (local_addr id) (remote_addr id) (cep_remote_request_id c) (- ECONNREFUSED) ;;
    mu_context <- deref (cep_mu_context c) ;;
    vlift (dm_conn_reply mu_context rsp private_data (u16 private_data_len))) ;;
  match provider_data id with
  | Some cep => unlink_cep cep ;;; kfree_cep cep ;;; set_provider cm_id None
  | None => ret tt
  end ;;;
  ret rc.

(** ** Listening *)

Definition bgvrnic_create_listen (cm_id backlog : Z) : M V Z :=
  o <- valloc ;;
  match o with
  | None => ret (- ENOMEM)
  | Some listener =>
    vemit (EvAddRef cm_id) ;;;
    set_provider cm_id None ;;;
    modify (fun v => v <| v_listener ::= <[listener := cm_id]> |> <| v_listeners ::= (fun l => l ++ [listener]) |>) ;;;
    ret 0
  end.

Fixpoint destroy_listen_loop (cm_id : Z) (listeners : list Z) : M V unit :=
  match listeners with
  | [] => ret tt
  | listener :: listeners =>
    o <- gets (fun v => v_listener v !! listener) ;;
    i <- deref o ;;
    when (i =? cm_id)
      (set_provider cm_id None ;;; vemit (EvRemRef cm_id) ;;; modify (fun v => v <| v_listeners ::= del listener |>)) ;;;
    destroy_listen_loop cm_id listeners
  end.
Definition bgvrnic_destroy_listen (cm_id : Z) : M V Z :=
  l <- gets v_listeners ;; destroy_listen_loop cm_id l ;;; ret 0.

(** ** Messages of the other side *)

Definition listens (address dest_port : Z) (id : iw_cm_id) : bool :=
  ((sin_addr (local_addr id) =? INADDR_ANY) || (address =? sin_addr (local_addr id))) && (dest_port =? sin_port (local_addr id)).
Fixpoint find_listener (address dest_port : Z) (listeners : list Z) : M V (option Z) :=
  match listeners with
  | [] => ret None
  | listener :: listeners =>
    o <- gets (fun v => v_listener v !! listener) ;;
    cm_id <- deref o ;;
    id <- get_cm_id cm_id ;;
    if listens address dest_port id then ret (Some cm_id) else find_listener address dest_port listeners
  end.

(** The private data behind the message, if there is any. *)
Definition private_data_of (msg : list Z) : M V (option (list Z)) :=
  len <- read_field ic_private_data_length msg ;;
  if len =? 0 then ret None else pd <- read_bytes SIZEOF_ionet_connect (Z.to_nat len) msg ;; ret (Some pd).

Definition conn_request (mu_context : nat) (msg : list Z) : M V Z :=
  address <- read_field ic_dest_IP4 msg ;;
  dest_port <- read_field ic_dest_port msg ;;
  listeners <- gets v_listeners ;;
  found <- find_listener address dest_port listeners ;;
  source_request_id <- read_field ic_source_request_id msg ;;
  torus_source_node <- read_field sb_torus_source_node msg ;;
  dest_qpn <- read_field sb_dest_qpn msg ;;
  source_qpn <- read_field sb_source_qpn msg ;;
  source_IP <- read_field ic_source_IP4 msg ;;
  source_port <- read_field ic_source_port msg ;;
  match found with
  | Some cm_id =>
    o <- valloc ;;
    match o with
    | None => ret (- ENOMEM)
    | Some cep =>
      modify (fun v => v <| v_cep ::= <[cep := mkCep None (Some mu_context) dest_qpn torus_source_node source_request_id source_qpn CEP_CONNECTING]> |>) ;;;
      add_cep cep ;;;
      id <- get_cm_id cm_id ;;
      local <- (if sin_addr (local_addr id) =? INADDR_ANY then n <- vcall ;; ret (mkAddr (inet_select_addr n) (u16 dest_port))
                else ret (local_addr id)) ;;
      pd <- private_data_of msg ;;
      event_handler cm_id (mkCmEvent IW_CM_EVENT_CONNECT_REQUEST 0 local (mkAddr source_IP (u16 source_port)) pd (Some cep))
    end
  | None =>
    rsp <- new_connect dest_qpn source_qpn (mkAddr address dest_port) (mkAddr source_IP source_port) source_request_id (- ECONNREFUSED) ;;
    vlift (dm_conn_reply mu_context rsp None 0) ;;;
    ret 0
  end.

Fixpoint find_cep (source_request_id : Z) (ceps : list Z) : M V (option Z) :=
  match ceps with
  | [] => ret None
  | cep :: ceps =>
    c <- get_cep cep ;;
    if cep_remote_request_id c =? source_request_id then ret (Some cep) else find_cep source_request_id ceps
  end.

Definition conn_reply (msg : list Z) : M V Z :=
  source_request_id <- read_field ic_source_request_id msg ;;
  ceps <- gets v_ceps ;;
  found <- find_cep source_request_id ceps ;;
  match found with
  | None => ret (- EINVAL)
  | Some cep =>
    status <- read_field ic_status msg ;;
    dest_IP <- read_field ic_dest_IP4 msg ;;
    dest_port <- read_field ic_dest_port msg ;;
    source_IP <- read_field ic_source_IP4 msg ;;
    source_port <- read_field ic_source_port msg ;;
    pd <- private_data_of msg ;;
    c <- get_cep cep ;;
    q <- deref (cep_vrnic_qp c) ;;
    qp <- get_qp q ;;
    cm_id <- deref (qp_cm_id qp) ;;
    dest_qpn <- read_field sb_dest_qpn msg ;;
    upd_qp q (fun qp => qp <| ib_qp_attrs ::= (fun a => a <| dest_qp_num := dest_qpn |>) |>) ;;;
    rc <- event_handler cm_id (mkCmEvent IW_CM_EVENT_CONNECT_REPLY (s32 status) (mkAddr dest_IP (u16 dest_port))
            (mkAddr source_IP (u16 source_port)) pd (Some cep)) ;;
    when (rc =? 0)
      (upd_cep cep (fun c => c <| cep_state := CEP_CONNECTED |>) ;;; upd_qp q (set_qp_state IB_QPS_RTS)) ;;;
    set_provider cm_id None ;;;
    bgvrnic_rem_ref q ;;;
    upd_cep cep (fun c => c <| cep_vrnic_qp := None |>) ;;;
    unlink_cep cep ;;;
    kfree_cep cep ;;;
    ret rc
  end.

Definition conn_disconnected (msg : list Z) : M V Z :=
  dest_qpn <- read_field sb_dest_qpn msg ;;
  ib_qp <- bgvrnic_get_qp dest_qpn ;;
  match ib_qp with
  | None => ret 0
  | Some q =>
    qp <- get_qp q ;;
    match qp_cm_id qp with
    | None => ret 0
    | Some cm_id =>
      upd_qp q (set_qp_state IB_QPS_SQE) ;;;
      rc <- qp_event q cm_id IW_CM_EVENT_DISCONNECT 0 ;;
      if negb (rc =? 0) then ret rc else
      rc <- qp_event q cm_id IW_CM_EVENT_CLOSE 0 ;;
      set_provider cm_id None ;;;
      vemit (EvRemRef cm_id) ;;;
      upd_qp q (fun qp => qp <| qp_cm_id := None |>) ;;;
      ret rc
    end
  end.

Definition mu_connect_cb (mu_context : nat) (msg : list Z) : M V Z :=
  type <- read_field sb_type msg ;;
  if type =? MUDM_CONN_REQUEST then conn_request mu_context msg
  else if type =? MUDM_CONN_REPLY then conn_reply msg
  else if type =? MUDM_DISCONNECTED then conn_disconnected msg
  else ret 0.

(** The entry points of the connection manager, and a new CM ID of its
    core. *)
Inductive cm_call : M V Z -> Prop :=
| cm_connect i p : cm_call (bgvrnic_connect i p)
| cm_accept i p : cm_call (bgvrnic_accept i p)
| cm_reject i pd len : cm_call (bgvrnic_reject i pd len)
| cm_listen i backlog : cm_call (bgvrnic_create_listen i backlog)
| cm_unlisten i : cm_call (bgvrnic_destroy_listen i)
| cm_message ctx msg : cm_call (mu_connect_cb ctx msg)
| cm_core i id : cm_call (modify (fun v => v <| v_cm_ids ::= <[i := id]> |>) ;;; ret 0).
End cm.
