(* ===== verification/VerbsQp.v ===== *)
(** * Attributes and end of a queue pair

    [bgvrnic_modify_qp], [bgvrnic_query_qp] and [bgvrnic_destroy_qp]
    (bgvrnic_verbs.c).  The attribute mask of the RDMA core is the set of the
    attributes whose bits are set. *)

From S2P Require Import Prelude Chain Bytes Descriptor State VerbsMem Verbs VerbsConn.

(** [enum ib_qp_attr_mask]: the bits the driver names. *)
Inductive ib_qp_attr_bit := IB_QP_STATE | IB_QP_CUR_STATE | IB_QP_EN_SQD_ASYNC_NOTIFY | IB_QP_ACCESS_FLAGS | IB_QP_PKEY_INDEX
  | IB_QP_PORT | IB_QP_QKEY | IB_QP_AV | IB_QP_PATH_MTU | IB_QP_TIMEOUT | IB_QP_RETRY_CNT | IB_QP_RNR_RETRY | IB_QP_RQ_PSN
  | IB_QP_MAX_QP_RD_ATOMIC | IB_QP_MIN_RNR_TIMER | IB_QP_SQ_PSN | IB_QP_MAX_DEST_RD_ATOMIC | IB_QP_PATH_MIG_STATE | IB_QP_CAP | IB_QP_DEST_QPN.
Definition attr_mask : Type := ib_qp_attr_bit -> bool.

(** One attribute. *)
Definition on (b : bool) (u : ib_qp_attr -> ib_qp_attr) (a : ib_qp_attr) : ib_qp_attr := if b then u a else a.

(** The plain attributes, in the order of [bgvrnic_modify_qp]; [new] are the
    attributes of the user. *)
Definition set_attrs (mask : attr_mask) (new a : ib_qp_attr) : ib_qp_attr :=
  let a := on (mask IB_QP_EN_SQD_ASYNC_NOTIFY) (fun a => a <| en_sqd_async_notify := en_sqd_async_notify new |>) a in
  let a := on (mask IB_QP_QKEY) (fun a => a <| qkey := qkey new |>) a in
  let a := on (mask IB_QP_PATH_MTU) (fun a => a <| path_mtu := path_mtu new |>) a in
  let a := on (mask IB_QP_TIMEOUT) (fun a => a <| timeout := timeout new |>) a in
  let a := on (mask IB_QP_RETRY_CNT) (fun a => a <| retry_cnt := retry_cnt new |>) a in
  let a := on (mask IB_QP_RNR_RETRY) (fun a => a <| rnr_retry := rnr_retry new |>) a in
  let a := on (mask IB_QP_RQ_PSN) (fun a => a <| rq_psn := rq_psn new |>) a in
  let a := on (mask IB_QP_MAX_QP_RD_ATOMIC) (fun a => a <| max_rd_atomic := max_rd_atomic new |>) a in
  let a := on (mask IB_QP_MIN_RNR_TIMER) (fun a => a <| min_rnr_timer := min_rnr_timer new |>) a in
  let a := on (mask IB_QP_SQ_PSN) (fun a => a <| sq_psn := sq_psn new |>) a in
  let a := on (mask IB_QP_MAX_DEST_RD_ATOMIC) (fun a => a <| max_dest_rd_atomic := max_dest_rd_atomic new |>) a in
  let a := on (mask IB_QP_DEST_QPN) (fun a => a <| dest_qp_num := dest_qp_num new |>) a in
  let a := on (mask IB_QP_PATH_MIG_STATE) (fun a => a <| path_mig_state := path_mig_state new |>) a in
  let a := on (mask IB_QP_CAP) (fun a => a <| cap := cap new |>) a in
  let a := on (mask IB_QP_ACCESS_FLAGS) (fun a => a <| qp_access_flags := qp_access_flags new |>) a in
  let a := on (mask IB_QP_PKEY_INDEX) (fun a => a <| pkey_index := pkey_index new |>) a in
  on (mask IB_QP_PORT) (fun a => a <| port_num := port_num new |>) a.

(** All attributes, in the order of [bgvrnic_query_qp]; [u] are the
    attributes of the user, which are overwritten. *)
Definition get_attrs (mask : attr_mask) (a u : ib_qp_attr) : ib_qp_attr :=
  let u := on (mask IB_QP_STATE) (fun u => u <| qp_state := qp_state a |>) u in
  let u := on (mask IB_QP_CUR_STATE) (fun u => u <| cur_qp_state := cur_qp_state a |>) u in
  let u := on (mask IB_QP_EN_SQD_ASYNC_NOTIFY) (fun u => u <| en_sqd_async_notify := en_sqd_async_notify a |>) u in
  let u := on (mask IB_QP_ACCESS_FLAGS) (fun u => u <| qp_access_flags := qp_access_flags a |>) u in
  let u := on (mask IB_QP_PKEY_INDEX) (fun u => u <| pkey_index := pkey_index a |>) u in
  let u := on (mask IB_QP_PORT) (fun u => u <| port_num := port_num a |>) u in
  let u := on (mask IB_QP_QKEY) (fun u => u <| qkey := qkey a |>) u in
  let u := on (mask IB_QP_PATH_MTU) (fun u => u <| path_mtu := path_mtu a |>) u in
  let u := on (mask IB_QP_TIMEOUT) (fun u => u <| timeout := timeout a |>) u in
  let u := on (mask IB_QP_RETRY_CNT) (fun u => u <| retry_cnt := retry_cnt a |>) u in
  let u := on (mask IB_QP_RNR_RETRY) (fun u => u <| rnr_retry := rnr_retry a |>) u in
  let u := on (mask IB_QP_RQ_PSN) (fun u => u <| rq_psn := rq_psn a |>) u in
  let u := on (mask IB_QP_MAX_QP_RD_ATOMIC) (fun u => u <| max_rd_atomic := max_rd_atomic a |>) u in
  let u := on (mask IB_QP_MIN_RNR_TIMER) (fun u => u <| min_rnr_timer := min_rnr_timer a |>) u in
  let u := on (mask IB_QP_SQ_PSN) (fun u => u <| sq_psn := sq_psn a |>) u in
  let u := on (mask IB_QP_MAX_DEST_RD_ATOMIC) (fun u => u <| max_dest_rd_atomic := max_dest_rd_atomic a |>) u in
  let u := on (mask IB_QP_PATH_MIG_STATE) (fun u => u <| path_mig_state := path_mig_state a |>) u in
  let u := on (mask IB_QP_CAP) (fun u => u <| cap := cap a |>) u in
  on (mask IB_QP_DEST_QPN) (fun u => u <| dest_qp_num := dest_qp_num a |>) u.

Definition cur_state_ok (s : ib_qp_state) : bool :=
  match s with IB_QPS_RTR | IB_QPS_RTS | IB_QPS_SQD | IB_QPS_SQE => true | _ => false end.

Section qp.
Context {D : Type} {DM : DataMover D} {K : Kernel}.
Abbreviation V := (vnic D).

(** The events that end a connection; the result is that of the last one. *)
Definition end_events (q cm_id : Z) : M V Z :=
  upd_qp q (set_qp_state IB_QPS_SQE) ;;;
  rc <- qp_event q cm_id IW_CM_EVENT_DISCONNECT 0 ;;
  if negb (rc =? 0) then ret rc else qp_event q cm_id IW_CM_EVENT_CLOSE 0.

(** [IB_QPS_SQD]: the result, and the draining flag that is also stored at
    the attributes of the user. *)
Definition drain (q : Z) : M V (Z * bool) :=
  remaining_wqes <- bgvrnic_process_send_wqes q ;;
  let draining := negb (s32 remaining_wqes <=? 0) in
  upd_qp q (fun qp => qp <| ib_qp_attrs ::= (fun a => a <| sq_draining := draining |>) |>) ;;;
  qp <- get_qp q ;;
  match qp_cm_id qp with
  | Some cm_id =>
    if negb draining then
      rc <- end_events q cm_id ;;
      vemit (EvRemRef cm_id) ;;;
      upd_qp q (fun qp => qp <| qp_cm_id := None |>) ;;;
      c <- deref (qp_mu_context qp) ;;
      vlift (dm_disconnect c) ;;;
      ret (rc, draining)
    else ret (0, draining)
  | None => ret (0, draining)
  end.

(** [state] is the state the user asks for, [None] a number that is none.
    The result, and the attributes of the user. *)
Definition bgvrnic_modify_qp (q : Z) (state : option ib_qp_state) (new : ib_qp_attr) (mask : attr_mask) : M V (Z * ib_qp_attr) :=
  out <- (if mask IB_QP_STATE then
      match state with
      | None => ret (inr (- EINVAL))
      | Some s =>
        qp <- get_qp q ;;
        if bool_decide (s = IB_QPS_RTS) && match qp_mu_context qp with None => true | Some _ => false end then ret (inr (- EINVAL)) else
        o <- (if bool_decide (s = IB_QPS_SQD) then d <- drain q ;; ret (fst d, new <| sq_draining := snd d |>) else ret (0, new)) ;;
        upd_qp q (set_qp_state s) ;;;
        ret (inl o)
      end
    else ret (inl (0, new))) ;;
  match out with
  | inr rc => ret (rc, new)
  | inl (rc, new) =>
    if mask IB_QP_CUR_STATE && negb (cur_state_ok (cur_qp_state new)) then ret (- EINVAL, new) else
    when (mask IB_QP_CUR_STATE) (upd_qp q (fun qp => qp <| ib_qp_attrs ::= (fun a => a <| cur_qp_state := cur_qp_state new |>) |>)) ;;;
    upd_qp q (fun qp => qp <| ib_qp_attrs ::= set_attrs mask new |>) ;;;
    ret (rc, new)
  end.

Definition bgvrnic_query_qp (q : Z) (u : ib_qp_attr) (mask : attr_mask) : M V (Z * ib_qp_attr * ib_qp_init_attr) :=
  qp <- get_qp q ;;
  ret (0, get_attrs mask (ib_qp_attrs qp) u, ib_qp_init_attrs qp).

(** [wait_event] is reached with other threads stopped: it hangs unless its
    condition holds. *)
Definition bgvrnic_free_qpn (qpn : Z) : M V unit := modify (fun v => v <| v_qp_pool ::= delete qpn |>).
Definition bgvrnic_destroy_qp (q : Z) : M V Z :=
  qp <- get_qp q ;;
  bgvrnic_free_qpn (qp_num qp) ;;;
  upd_qp q (fun qp => qp <| qp_references ::= (fun r => r - 1) |>) ;;;
  if negb (qp_references qp - 1 <=? 1) then hang else
  rc <- (match qp_cm_id qp with
    | None => ret 0
    | Some cm_id =>
      c <- deref (qp_mu_context qp) ;;
      vlift (dm_disconnect c) ;;;
      rc <- (if bool_decide (qp_state (ib_qp_attrs qp) = IB_QPS_RTS) then end_events q cm_id else ret 0) ;;
      vemit (EvRemRef cm_id) ;;;
      upd_qp q (fun qp => qp <| qp_cm_id := None |>) ;;;
      ret rc
    end) ;;
  modify (fun v => v <| v_qps ::= delete q |>) ;;;
  ret rc.
End qp.
