(* ===== verification/VerbsConcrete.v ===== *)
(** * Instances of the interfaces of the verbs driver

    The data mover bgmudm under the verbs driver; a data mover that gives
    the answers of a list, a kernel whose memory never runs out and one that
    refuses chosen calls, and a queue pair with a registered region for the
    witnesses. *)

From S2P Require Import Prelude Chain Bytes Descriptor State RdmaWrite Transfer Connect Receive VerbsMem Verbs VerbsConn.

(** bgmudm, with the SGLs the verbs driver always passes. *)
#[export] Instance mudm_mover (P : platform) : DataMover world := {
  dm_send_pkt := mudm_send_pkt P;
  dm_send_message_remote := mudm_send_message_remote P;
  dm_rdma_read := mudm_rdma_read P;
  dm_rdma_write c rdma_object bytes local remote := mudm_rdma_write P c rdma_object bytes (Some local) (Some remote);
  dm_disconnect := mudm_disconnect P }.

#[export] Instance mudm_conn_mover (P : platform) : ConnMover world := {
  dm_connect := mudm_connect P; dm_conn_reply := mudm_conn_reply P }.

(** Answers from a list. *)
Definition answer : M (list Z) Z := fun l => match l with [] => Ok 0 [] | r :: l => Ok r l end.
#[export] Instance scripted : DataMover (list Z) := {
  dm_send_pkt _ _ _ _ _ := answer; dm_send_message_remote _ _ _ := answer;
  dm_rdma_read _ _ _ _ _ _ _ := answer; dm_rdma_write _ _ _ _ _ := answer; dm_disconnect _ := answer }.
(** A connection gets the context 7. *)
#[export] Instance scripted_conn : ConnMover (list Z) := {
  dm_connect _ _ _ _ := r <- answer ;; ret (r, Some 7%nat); dm_conn_reply _ _ _ _ := answer }.

Definition demo_stack : ionet_send_remote_payload := mkRemote 0 0 0 0 0 0 0 0 (replicate 58 (mkSgl 0 0)).
#[export] Instance demo_kernel : Kernel := {
  kmalloc _ used := Some (fresh (used ∪ {[0]}));
  stack_payload _ := demo_stack; stack_sgl _ := replicate 58 (mkSgl 0 0);
  cm_event_handler _ := 0; bgvrnic_rx _ := 0; busy_fuel := 3;
  IB_WC_SUCCESS := 0; IB_WC_LOC_LEN_ERR := 1; IB_WC_REM_ABORT_ERR := 16; IB_WC_GENERAL_ERR := 21 }.
#[export] Instance demo_kernel_laws : KernelLaws.
Proof.
  split; [|done]. intros n used a [= <-]. pose proof (is_fresh (used ∪ {[0]} : gset Z)) as H.
  split; [|intros E; rewrite E in H]; set_solver.
Qed.
(** The same kernel, whose [bad]-th call of [kmalloc] is refused. *)
Definition demo_kernel_without (bad : nat) : Kernel := {|
  kmalloc n used := if (n =? bad)%nat then None else Some (fresh (used ∪ {[0]}));
  stack_payload _ := demo_stack; stack_sgl _ := replicate 58 (mkSgl 0 0);
  cm_event_handler _ := 0; bgvrnic_rx _ := 0; busy_fuel := 3;
  IB_WC_SUCCESS := 0; IB_WC_LOC_LEN_ERR := 1; IB_WC_REM_ABORT_ERR := 16; IB_WC_GENERAL_ERR := 21 |}.
#[export] Instance demo_kernel_without_laws bad : KernelLaws (K := demo_kernel_without bad).
Proof.
  split; [|done]. intros n used a E. cbn in E. destruct (n =? bad)%nat; [done|]. by apply (kmalloc_fresh (K := demo_kernel) n).
Qed.
#[export] Instance demo_cm_kernel : CmKernel := { stack_connect _ := replicate 72 0xa5; inet_select_addr _ := 0x0a010101 }.
#[export] Instance demo_cm_kernel_laws : CmKernelLaws.
Proof. done. Qed.
#[export] Instance demo_kernel_roomy : KernelRoomy.
Proof. intros n used. by eexists. Qed.

(** Queue pair 17 at address 1 with completion queue 2, and region 5. *)
Definition demo_cap : ib_qp_cap := mkCap 16 16 4 4 0.
Definition demo_attr : ib_qp_attr := mkAttr IB_QPS_RTS IB_QPS_RTS 2 0 0 0 0 0 0 demo_cap 0 0 false 0 0 0 1 0 0 0.
Definition demo_qp : bgvrnic_qp := mkQp 17 demo_attr (mkInitAttr 2 2 false demo_cap true true 0) None (Some 0%nat) 1 2 2 [] [].
Definition demo_vnic {D} (d : D) : vnic D :=
  mkVnic {[1 := demo_qp]} {[17 := 1]} {[5 := demo_mr]} {[2 := mkCq 15 [] false false]} ∅ [] ∅ [] ∅ ∅ ∅ 0 [] d.
Definition demo_recv (id addr len : Z) : ib_recv_wr := mkRecvWr id [mkSge addr len 5].
Definition demo_send (id addr len : Z) (op : ib_wr_opcode) : ib_send_wr := mkSendWr id [mkSge addr len 5] op true false 0 0 0.
Definition demo_packet (psn : Z) (bs : list Z) : ionet_header := mkIonet psn (Z.of_nat (length bs)) MUDM_PKT_DATA_IMM 17.

(** The state after a computation that returns. *)
Definition after {S A} (m : M S A) (s : S) : S := match m s with Ok _ s' => s' | _ => s end.
