(* ===== verification/VerbsLog.v ===== *)
(** * Which requests can be lost

    Whatever the data mover does, every operation of a queue pair keeps the
    requests accepted so far, except that a completion is lost when there is
    no memory for it: receives complete in the order in which they were
    posted, and signaled sends complete at most once.  The logs [rlog]
    and [slog] put the completions a queue pair has in its completion queue
    in front of the requests that are still queued. *)

From S2P Require Import Prelude Chain Bytes Descriptor State RdmaWrite Transfer Receive VerbsMem Verbs VerbsConn VerbsQp VerbsConcrete.

(** ** Inversion of computations, and relations they respect *)

Lemma bind_inv {S A B} (m : M S A) (k : A -> M S B) s b s' : bind m k s = Ok b s' ->
  exists a s1, m s = Ok a s1 /\ k a s1 = Ok b s'.
Proof. unfold bind. destruct (m s) as [a s1| |]; naive_solver. Qed.
Lemma deref_inv {S A} (o : option A) (s : S) a s' : deref o s = Ok a s' -> o = Some a /\ s' = s.
Proof. destruct o; [|done]. by intros [= -> ->]. Qed.

Lemma sublist_full {A} (l l' : list A) : l `sublist_of` l' -> length l' = length l -> l = l'.
Proof.
  induction 1 as [|x l l' _ IH|x l l' S _]; intros H; cbn in H; [done|f_equal; apply IH; lia|]. apply sublist_length in S. lia.
Qed.

(** Take a computation apart, one bind after the other. *)
Tactic Notation "binv" hyp(H) ident(x) ident(s) ident(E) :=
  apply bind_inv in H; destruct H as (x & s & E & H).

Definition respects {S A} (R : S -> S -> Prop) (m : M S A) : Prop := forall s a s', m s = Ok a s' -> R s s'.

Section respects.
Context {S : Type} (R : S -> S -> Prop) `{!PreOrder R}.
Lemma respects_ret {A} (a : A) : respects R (ret a).
Proof. by intros s ? ? [= <- <-]. Qed.
Lemma respects_gets {A} (f : S -> A) : respects R (gets f).
Proof. by intros s ? ? [= <- <-]. Qed.
Lemma respects_fault {A} : respects R (fault (A := A)).
Proof. done. Qed.
Lemma respects_hang {A} : respects R (hang (A := A)).
Proof. done. Qed.
Lemma respects_deref {A} (o : option A) : respects R (deref o).
Proof. intros s a s' [_ ->]%deref_inv. done. Qed.
Lemma respects_bind {A B} (m : M S A) (k : A -> M S B) : respects R m -> (forall a, respects R (k a)) -> respects R (bind m k).
Proof. intros Hm Hk s b s' H. binv H a s1 E. transitivity s1; [by eapply Hm|by eapply Hk]. Qed.
Lemma respects_modify (f : S -> S) : (forall s, R s (f s)) -> respects R (modify f).
Proof. intros Hf s ? ? [= _ <-]. apply Hf. Qed.
Lemma respects_when (b : bool) (m : M S unit) : respects R m -> respects R (when b m).
Proof. destruct b; [done|]. intros _. apply respects_ret. Qed.
End respects.

Ltac respects_step :=
  lazymatch goal with
  | |- respects _ (bind _ _) => refine (respects_bind _ _ _ _ _); [|intros ?]
  | |- respects _ (ret _) => refine (respects_ret _ _)
  | |- respects _ (gets _) => refine (respects_gets _ _)
  | |- respects _ fault => apply respects_fault
  | |- respects _ hang => apply respects_hang
  | |- respects _ (deref _) => refine (respects_deref _ _)
  | |- respects _ (when _ _) => refine (respects_when _ _ _ _)
  | |- respects _ (if ?b then _ else _) => destruct b
  | |- respects _ (match ?x with _ => _ end) => destruct x
  | |- respects _ (let '_ := ?x in _) => destruct x
  end.
Ltac respects_tac := repeat respects_step.

Section log.
Context {D : Type} {DM : DataMover D} {K : Kernel} {KL : KernelLaws} {CM : ConnMover D} {CmK : CmKernel}.
Abbreviation V := (vnic D).

(** ** Logs *)

Definition recv_of (q : Z) (wc : ib_wc) : bool :=
  (wc_qp wc =? q) && match wc_opcode wc with IB_WC_RECV => true | _ => false end.
Definition send_of (q : Z) (wc : ib_wc) : bool :=
  (wc_qp wc =? q) && match wc_opcode wc with IB_WC_RECV => false | _ => true end.
Definition cq_ids (f : ib_wc -> bool) (l : list ib_wc) : list Z := map wc_wr_id (List.filter f l).
Definition entries (v : V) (c : Z) : list ib_wc := from_option cq_entries [] (v_cqs v !! c).

Definition recv_id (v : V) (a : Z) : option Z :=
  w ← v_wqes v !! a; wr ← ib_recv w; Some (rw_wr_id wr).
Definition send_id (v : V) (qp : bgvrnic_qp) (a : Z) : option Z :=
  w ← v_wqes v !! a; wr ← ib_send w; if signaled qp wr then Some (sw_wr_id wr) else None.

Definition rlog (q : Z) (v : V) : list Z :=
  match v_qps v !! q with
  | Some qp => cq_ids (recv_of q) (entries v (qp_rcq qp)) ++ omap (recv_id v) (qp_rq qp)
  | None => []
  end.
Definition slog (q : Z) (v : V) : list Z :=
  match v_qps v !! q with
  | Some qp => cq_ids (send_of q) (entries v (qp_scq qp)) ++ omap (send_id v qp) (qp_sq qp)
  | None => []
  end.

(** ** Losses

    [bgvrnic_add_cqe] needs memory for the completion; a request whose
    completion gets none leaves its queue and is lost.  The call [n] of
    [kmalloc] was refused, and so were [k] of the calls between two states. *)
Definition refused (n : nat) : Prop := exists used, kmalloc n used = None.
Definition losses (v v' : V) (k : nat) : Prop := exists ns, length ns = k /\ NoDup ns /\
  Forall (fun n => (v_calls v <= n < v_calls v')%nat /\ refused n) ns.

Lemma losses_none v v' : losses v v' 0.
Proof. exists []. split_and!; [done|constructor|constructor]. Qed.
Lemma losses_one v v' : refused (v_calls v) -> (v_calls v < v_calls v')%nat -> losses v v' 1.
Proof.
  intros R H. exists [v_calls v]. split; [done|]. split; [apply NoDup_singleton|]. repeat constructor; [lia|done].
Qed.
Lemma losses_app v1 v2 v3 j k : (v_calls v1 <= v_calls v2 <= v_calls v3)%nat -> losses v1 v2 j -> losses v2 v3 k -> losses v1 v3 (j + k).
Proof.
  intros Hc (n1 & <- & N1 & F1) (n2 & <- & N2 & F2). exists (n1 ++ n2). rewrite Forall_forall in F1, F2. split; [apply length_app|]. split.
  - apply list.NoDup_app. split_and!; [done| |done]. intros n H1%list_elem_of_In%F1 H2%list_elem_of_In%F2. lia.
  - apply Forall_app. split; apply Forall_forall; intros n Hn; [apply F1 in Hn|apply F2 in Hn]; (split; [lia|apply Hn]).
Qed.
Lemma losses_all_granted v v' k : losses v v' k -> (forall n, (v_calls v <= n < v_calls v')%nat -> ~ refused n) -> k = 0%nat.
Proof. intros (ns & <- & _ & F) H. destruct F as [|n ns [Hn R] _]; [done|]. by destruct (H n Hn). Qed.

(** The order in which a log keeps its requests: that of posting for
    receives, none for sends. *)
Class LogOrder (R : relation (list Z)) : Prop := {
  log_order_pre :: PreOrder R;
  log_order_app l1 l1' l2 l2' : R l1 l1' -> R l2 l2' -> R (l1 ++ l2) (l1' ++ l2') }.
#[export] Instance sublist_log_order : LogOrder sublist.
Proof. split; [apply _|by intros; apply sublist_app]. Qed.
#[export] Instance submseteq_log_order : LogOrder submseteq.
Proof. split; [apply _|by intros; apply submseteq_app]. Qed.

(** [l'] is what is left of the log [l]. *)
Definition left_of (R : relation (list Z)) (v v' : V) (l l' : list Z) : Prop :=
  R l' l /\ exists k, length l = (length l' + k)%nat /\ losses v v' k.

Section left_of.
Context (R : relation (list Z)) `{!LogOrder R}.
Lemma left_of_refl v v' l : left_of R v v' l l.
Proof. split; [done|]. exists 0%nat. split; [lia|apply losses_none]. Qed.
Lemma left_of_trans v1 v2 v3 l1 l2 l3 : (v_calls v1 <= v_calls v2 <= v_calls v3)%nat ->
  left_of R v1 v2 l1 l2 -> left_of R v2 v3 l2 l3 -> left_of R v1 v3 l1 l3.
Proof.
  intros Hc [R1 (j & E1 & L1)] [R2 (k & E2 & L2)]. split; [by etrans|]. exists (k + j)%nat. split; [lia|].
  rewrite Nat.add_comm. by eapply losses_app.
Qed.
Lemma left_of_app_r v v' l l' x : left_of R v v' l l' -> left_of R v v' (l ++ x) (l' ++ x).
Proof.
  intros [H (k & E & L)]. split; [by apply log_order_app|]. exists k. rewrite !length_app. split; [lia|done].
Qed.
Lemma left_of_app_l v v' l l' x : left_of R v v' l l' -> left_of R v v' (x ++ l) (x ++ l').
Proof.
  intros [H (k & E & L)]. split; [by apply log_order_app|]. exists k. rewrite !length_app. split; [lia|done].
Qed.
Lemma left_of_weaken v0 v v' l l' : (v_calls v0 <= v_calls v <= v_calls v')%nat -> left_of R v0 v l l' -> left_of R v0 v' l l'.
Proof. intros Hc H. eapply left_of_trans; [done|done|apply left_of_refl]. Qed.
End left_of.
Lemma left_of_perm v v' l l' : l' ≡ₚ l -> left_of submseteq v v' l l'.
Proof. intros H. split; [by apply Permutation_submseteq|]. exists 0%nat. split; [rewrite H; lia|apply losses_none]. Qed.
Lemma left_of_eq (R : relation (list Z)) `{!LogOrder R} v v' l l' : l' = l -> left_of R v v' l l'.
Proof. intros ->. by apply left_of_refl. Qed.
(** One request is lost. *)
Lemma left_of_lost R v v' x l : R l (x :: l) -> refused (v_calls v) -> (v_calls v < v_calls v')%nat -> left_of R v v' (x :: l) l.
Proof. intros H Hr Hc. split; [done|]. exists 1%nat. split; [cbn; lia|by apply losses_one]. Qed.

(** ** Well-formed queues *)

(** What does not change while an entry lives, and what the logs see of a
    queue pair. *)
Definition ident (w : bgvrnic_wqe) := (w_wr w, w_type w, w_vrnic_qp w).
Definition fixed (qp : bgvrnic_qp) := (qp_rcq qp, qp_scq qp, ib_qp_init_attrs qp).
Definition qview (qp : bgvrnic_qp) := (fixed qp, qp_rq qp, qp_sq qp).

Record qwf (v : V) (q : Z) (qp : bgvrnic_qp) : Prop := mkQwf {
  wf_rq : NoDup (qp_rq qp); wf_sq : NoDup (qp_sq qp);
  wf_rcq : is_Some (v_cqs v !! qp_rcq qp); wf_scq : is_Some (v_cqs v !! qp_scq qp);
  wf_recv : forall a, a ∈ qp_rq qp -> exists w wr, v_wqes v !! a = Some w /\ ident w = (WrRecv wr, WQET_RECV, q);
  wf_send : forall a, a ∈ qp_sq qp -> exists w wr, v_wqes v !! a = Some w /\ ident w = (WrSend wr, WQET_SEND, q) }.
Definition vwf (v : V) : Prop := forall q qp, v_qps v !! q = Some qp -> qwf v q qp.

(** Nothing the logs depend on changed; new entries may have appeared. *)
Record same (v v' : V) : Prop := mkSame {
  same_calls : (v_calls v <= v_calls v')%nat;
  same_qp : forall q, qview <$> v_qps v' !! q = qview <$> v_qps v !! q;
  same_cq : forall c, cq_entries <$> v_cqs v' !! c = cq_entries <$> v_cqs v !! c;
  same_wqe : forall a w, v_wqes v !! a = Some w -> ident <$> v_wqes v' !! a = Some (ident w) }.
#[export] Instance same_preorder : PreOrder same.
Proof.
  split.
  - intros v. split; [done|done|done|]. by intros a w ->.
  - intros v1 v2 v3 [D1 A1 B1 C1] [D2 A2 B2 C2]. split.
    + lia.
    + intros q. by rewrite A2, A1.
    + intros c. by rewrite B2, B1.
    + intros a w H. apply C1 in H. destruct (v_wqes v2 !! a) as [w2|] eqn:E; [|done]. by rewrite (C2 _ _ E).
Qed.

(** No request is lost but by a refusal. *)
Definition keeps (v v' : V) : Prop := vwf v -> vwf v' /\ (v_calls v <= v_calls v')%nat /\ forall q,
  fixed <$> v_qps v' !! q = fixed <$> v_qps v !! q /\
  left_of sublist v v' (rlog q v) (rlog q v') /\ left_of submseteq v v' (slog q v) (slog q v').
#[export] Instance keeps_preorder : PreOrder keeps.
Proof.
  split.
  - intros v H. split; [done|]. split; [done|]. intros q. split_and!; [done|apply left_of_refl; apply _..].
  - intros v1 v2 v3 H1 H2 W1. destruct (H1 W1) as (W2 & N1 & K1). destruct (H2 W2) as (W3 & N2 & K2). split; [done|]. split; [lia|].
    intros q. destruct (K1 q) as (A1 & B1 & C1). destruct (K2 q) as (A2 & B2 & C2).
    split_and!; [congruence|by eapply (left_of_trans _ v1 v2 v3)|by eapply (left_of_trans _ v1 v2 v3)].
Qed.

Lemma omap_ext {A B} (f g : A -> option B) (l : list A) : (forall x, x ∈ l -> f x = g x) -> omap f l = omap g l.
Proof.
  induction l as [|x l IH]; intros H; [done|]. cbn. rewrite (H x) by left. rewrite IH by (intros; apply H; by right). done.
Qed.

Lemma same_entries v v' c : same v v' -> entries v' c = entries v c.
Proof.
  intros [_ _ B _]. unfold entries. specialize (B c). destruct (v_cqs v' !! c), (v_cqs v !! c); cbn in *; congruence.
Qed.
Lemma same_ident v v' a w : same v v' -> v_wqes v !! a = Some w -> exists w', v_wqes v' !! a = Some w' /\ ident w' = ident w.
Proof.
  intros [_ _ _ C] H. apply C in H. destruct (v_wqes v' !! a) as [w'|]; [|done]. exists w'. split; [done|]. change (Some (ident w') = Some (ident w)) in H. congruence.
Qed.
Lemma same_lookup v v' q qp' : same v v' -> v_qps v' !! q = Some qp' -> exists qp, v_qps v !! q = Some qp /\ qview qp' = qview qp.
Proof.
  intros [_ A _ _] H. specialize (A q). rewrite H in A. destruct (v_qps v !! q) as [qp|]; [|done]. exists qp. split; [done|]. change (Some (qview qp') = Some (qview qp)) in A. congruence.
Qed.
Lemma ident_recv_id v w a wr t q : v_wqes v !! a = Some w -> ident w = (WrRecv wr, t, q) -> recv_id v a = Some (rw_wr_id wr).
Proof. unfold recv_id, ib_recv. intros E I. rewrite E. cbn. by injection I as -> _ _. Qed.
Lemma ident_send_id v w a wr t q qp : v_wqes v !! a = Some w -> ident w = (WrSend wr, t, q) ->
  send_id v qp a = if signaled qp wr then Some (sw_wr_id wr) else None.
Proof. unfold send_id, ib_send. intros E I. rewrite E. cbn. by injection I as -> _ _. Qed.

Lemma same_keeps v v' : same v v' -> keeps v v'.
Proof.
  intros H W. assert (F : forall q qp', v_qps v' !! q = Some qp' -> exists qp, v_qps v !! q = Some qp /\
    qp_rq qp' = qp_rq qp /\ qp_sq qp' = qp_sq qp /\ fixed qp' = fixed qp).
  { intros q qp' E. destruct (same_lookup v v' q qp' H E) as (qp & Eq & Q). exists qp. unfold fixed. injection Q as Q1 Q2 Q3 Q4 Q5. split_and!; congruence. }
  split; [|split; [by apply same_calls|]].
  - intros q qp' E. destruct (F q qp' E) as (qp & Eq & R1 & R2 & Fx). destruct (W q qp Eq) as [N1 N2 [c1 C1] [c2 C2] S1 S2].
    injection Fx as X1 X2 X3. split; rewrite ?R1, ?R2, ?X1, ?X2; [done|done| | | |].
    + pose proof (same_cq v v' H (qp_rcq qp)) as B. rewrite C1 in B. destruct (v_cqs v' !! _); [by eexists|done].
    + pose proof (same_cq v v' H (qp_scq qp)) as B. rewrite C2 in B. destruct (v_cqs v' !! _); [by eexists|done].
    + intros a Ha. destruct (S1 a Ha) as (w & wr & Ew & Iw). destruct (same_ident v v' a w H Ew) as (w' & Ew' & I'). exists w', wr. by rewrite I'.
    + intros a Ha. destruct (S2 a Ha) as (w & wr & Ew & Iw). destruct (same_ident v v' a w H Ew) as (w' & Ew' & I'). exists w', wr. by rewrite I'.
  - intros q. pose proof (same_qp v v' H q) as Q. unfold rlog, slog. destruct (v_qps v' !! q) as [qp'|] eqn:E', (v_qps v !! q) as [qp|] eqn:E; [|done|done|].
    2: split_and!; [done|apply left_of_refl; apply _..].
    injection Q as X1 X2 X3 R1 R2. destruct (W q qp E) as [_ _ _ _ S1 S2]. rewrite X1, X2, R1, R2, !(same_entries v v') by done.
    split; [by unfold fixed; cbn; congruence|]. split; apply left_of_eq; try apply _; f_equal; apply omap_ext; intros a Ha.
    + destruct (S1 a Ha) as (w & wr & Ew & Iw). destruct (same_ident v v' a w H Ew) as (w' & Ew' & I').
      rewrite (ident_recv_id _ _ _ _ _ _ Ew Iw). rewrite <- I' in Iw. by rewrite (ident_recv_id _ _ _ _ _ _ Ew' Iw).
    + destruct (S2 a Ha) as (w & wr & Ew & Iw). destruct (same_ident v v' a w H Ew) as (w' & Ew' & I').
      rewrite (ident_send_id _ _ _ _ _ _ _ Ew Iw). rewrite <- I' in Iw. rewrite (ident_send_id _ _ _ _ _ _ _ Ew' Iw).
      unfold signaled. by rewrite X3.
Qed.
Lemma respects_keeps {A} (m : M V A) : respects same m -> respects keeps m.
Proof. intros H s a s' E. apply same_keeps. by eapply H. Qed.

(** ** Computations the logs do not see *)

Lemma same_fields (v v' : V) : v_qps v' = v_qps v -> v_cqs v' = v_cqs v -> v_wqes v' = v_wqes v -> v_calls v' = v_calls v \/ v_calls v' = S (v_calls v) -> same v v'.
Proof. intros E1 E2 E3 E4. split; [lia|by rewrite E1|by rewrite E2|]. intros a w H. by rewrite E3, H. Qed.

Ltac same_fields_tac := apply same_fields; first [done | by left | by right].
Lemma vlift_same {A} (m : M D A) : respects same (vlift m).
Proof. intros v a v'. unfold vlift. destruct (m (v_du v)); [|done..]. intros [= _ <-]. same_fields_tac. Qed.
Lemma same_more (v : V) n : (v_calls v <= n)%nat -> same v (v <| v_calls := n |>).
Proof. intros H. split; [exact H|done|done|]. intros a w E. change (ident <$> v_wqes v !! a = Some (ident w)). by rewrite E. Qed.
Lemma vemit_same e : respects same (vemit e).
Proof. apply respects_modify. intros v. same_fields_tac. Qed.
Lemma vcall_same : respects same vcall.
Proof. intros v n v' [= _ <-]. same_fields_tac. Qed.
Lemma memcpy_same pa bs : respects same (memcpy pa bs).
Proof. apply respects_modify. intros v. same_fields_tac. Qed.
Lemma get_qp_same q : respects same (get_qp q).
Proof. unfold get_qp. respects_tac. Qed.
Lemma get_wqe_same a : respects same (get_wqe a).
Proof. unfold get_wqe. respects_tac. Qed.
Lemma get_cm_id_same a : respects same (get_cm_id a).
Proof. unfold get_cm_id. respects_tac. Qed.

Lemma upd_wqe_same a u : (forall w, ident (u w) = ident w) -> respects same (upd_wqe a u).
Proof.
  intros Hu. unfold upd_wqe. refine (respects_bind _ _ _ _ _); [apply get_wqe_same|intros _]. apply respects_modify. intros v. split; [done|done|done|].
  intros b w E. change (ident <$> alter u a (v_wqes v) !! b = Some (ident w)). destruct (decide (b = a)) as [->|Hb].
  - rewrite lookup_alter_eq, E. cbn. by rewrite Hu.
  - rewrite lookup_alter_ne by done. by rewrite E.
Qed.
Lemma upd_qp_same q u : (forall qp, qview (u qp) = qview qp) -> respects same (upd_qp q u).
Proof.
  intros Hu. unfold upd_qp. refine (respects_bind _ _ _ _ _); [apply get_qp_same|intros _]. apply respects_modify. intros v. split; [done| |done|].
  - intros p. change (qview <$> alter u q (v_qps v) !! p = qview <$> v_qps v !! p). destruct (decide (p = q)) as [->|Hp].
    + rewrite lookup_alter_eq. destruct (v_qps v !! q); [|done]. cbn. by rewrite Hu.
    + by rewrite lookup_alter_ne.
  - intros b w E. by change (ident <$> v_wqes v !! b = Some (ident w)); rewrite E.
Qed.
Lemma upd_cq_same c u : (forall q, cq_entries (u q) = cq_entries q) -> respects same (upd_cq c u).
Proof.
  intros Hu. unfold upd_cq, get_cq. refine (respects_bind _ _ _ _ _); [respects_tac|intros _]. apply respects_modify. intros v. split; [done|done| |].
  - intros p. change (cq_entries <$> alter u c (v_cqs v) !! p = cq_entries <$> v_cqs v !! p). destruct (decide (p = c)) as [->|Hp].
    + rewrite lookup_alter_eq. destruct (v_cqs v !! c); [|done]. cbn. by rewrite Hu.
    + by rewrite lookup_alter_ne.
  - intros b w E. by change (ident <$> v_wqes v !! b = Some (ident w)); rewrite E.
Qed.

Lemma xlate_loop_state {S} get_mr usge num psge acc (s : S) r s' : xlate_loop get_mr usge num psge acc s = Ok r s' -> s' = s.
Proof.
  revert psge acc. induction usge as [|u l IH]; intros psge acc H; [by injection H|]. cbn [xlate_loop] in H.
  destruct (get_mr (sge_lkey u)) as [mr|]; [|by injection H]. binv H out s1 E. apply deref_inv in E as [_ ->]. cbv zeta in H.
  destruct (_ <=? _)%nat; [by injection H|]. by eapply IH.
Qed.
Lemma xlate_sgl_same sg : respects same (xlate_sgl sg).
Proof.
  unfold xlate_sgl. refine (respects_bind _ _ _ _ _); [respects_tac|]. intros mrs v r v' H. apply xlate_loop_state in H. by subst.
Qed.

Lemma send_payload_same a w wr : respects same (send_payload a w wr).
Proof.
  unfold send_payload. refine (respects_bind _ _ _ _ _); [apply vcall_same|intros n]. refine (respects_bind _ _ _ _ _); [apply xlate_sgl_same|].
  intros [[len psge] num]. respects_tac.
Qed.
Lemma send_request_same qp a wr p : respects same (send_request qp a wr p).
Proof. unfold send_request. destruct (sw_opcode wr); repeat (respects_step || apply vlift_same). Qed.

Lemma while_busy_same fuel (m : M V Z) : respects same m -> respects same (while_busy fuel m).
Proof.
  intros H. induction fuel as [|fuel IH]; cbn [while_busy]; (refine (respects_bind _ _ _ _ _); [done|intros rc]); destruct (rc =? - EBUSY);
    [apply respects_hang|refine (respects_ret _ _)|done|refine (respects_ret _ _)].
Qed.
Lemma copy_loop_same psge data len : respects same (copy_loop psge data len).
Proof.
  revert data len. induction psge as [|s l IH]; intros data len; cbn [copy_loop]; destruct (len =? 0); try refine (respects_ret _ _); [apply respects_fault|].
  cbv zeta. destruct (_ <? _)%nat; [apply respects_fault|]. refine (respects_bind _ _ _ _ _); [apply memcpy_same|intros _]. apply IH.
Qed.

Ltac same_step :=
  first [respects_step | apply get_qp_same | apply get_wqe_same | apply get_cm_id_same | apply vcall_same | apply vemit_same
        | apply vlift_same | apply xlate_sgl_same | apply copy_loop_same | apply while_busy_same
        | apply upd_wqe_same; intros; try case_match; done | apply upd_qp_same; intros; try case_match; done].

Lemma recv_immed_same q a data len : respects same (bgvrnic_recv_immed q a data len).
Proof. unfold bgvrnic_recv_immed. repeat same_step. Qed.
Lemma recv_remote_same q a p : respects same (bgvrnic_recv_remote q a p).
Proof. unfold bgvrnic_recv_remote. repeat same_step. Qed.
Lemma find_wqe_same rq : respects same (find_wqe rq).
Proof. induction rq as [|a rq IH]; cbn [find_wqe]; repeat same_step. done. Qed.
Lemma recv_no_buffer_same q : respects same (recv_no_buffer q).
Proof. unfold recv_no_buffer, qp_event. repeat same_step. Qed.
Lemma recv_rdma_write_same q p : respects same (recv_rdma_write q p).
Proof. unfold recv_rdma_write. repeat same_step. Qed.

(** ** An entry leaves its queue *)

Lemma elem_of_del (a b : Z) l : b ∈ del a l <-> b ∈ l /\ b <> a.
Proof. unfold del. rewrite list_elem_of_filter. naive_solver. Qed.
Lemma del_notin (a : Z) l : a ∉ l -> del a l = l.
Proof.
  induction l as [|b l IH]; intros H; [done|]. apply not_elem_of_cons in H as [H1 H2]. unfold del. rewrite filter_cons, decide_True by congruence.
  f_equal. by apply IH.
Qed.
Lemma del_head (a : Z) l : a ∉ l -> del a (a :: l) = l.
Proof. intros H. unfold del. rewrite filter_cons, decide_False by naive_solver. by apply del_notin. Qed.
Lemma del_perm (a : Z) l : NoDup l -> a ∈ l -> l ≡ₚ a :: del a l.
Proof.
  intros N H. apply list_elem_of_split in H as (l1 & l2 & ->). apply list.NoDup_app in N as (N1 & N2 & N3). apply list.NoDup_cons in N3 as [N3 N4].
  assert (a ∉ l1) by (intros Hin; by apply (N2 a Hin); left). unfold del. rewrite list.filter_app. fold (del a l1) (del a (a :: l2)).
  rewrite del_head, del_notin by done. by rewrite Permutation_middle.
Qed.
Lemma NoDup_del (a : Z) l : NoDup l -> NoDup (del a l).
Proof. apply list.NoDup_filter. Qed.

(** The entry [a] is gone from every queue, and [wcs] are new in [cq]. *)
Record retired (v v' : V) (a cq : Z) (wcs : list ib_wc) : Prop := mkRetired {
  rt_calls : (v_calls v <= v_calls v')%nat;
  rt_qp : forall q, qview <$> v_qps v' !! q = (fun qp => (fixed qp, del a (qp_rq qp), del a (qp_sq qp))) <$> v_qps v !! q;
  rt_wqe : v_wqes v' = delete a (v_wqes v);
  rt_entries : forall c, entries v' c = entries v c ++ (if decide (c = cq) then wcs else []);
  rt_some : forall c, is_Some (v_cqs v !! c) -> is_Some (v_cqs v' !! c) }.

Lemma cq_ids_app f l l' : cq_ids f (l ++ l') = cq_ids f l ++ cq_ids f l'.
Proof. unfold cq_ids. by rewrite List.filter_app, map_app. Qed.

Lemma retired_keeps v v' a cq wcs : retired v v' a cq wcs ->
  (forall q qp, v_qps v !! q = Some qp ->
     left_of sublist v v' (omap (recv_id v) (qp_rq qp))
       (cq_ids (recv_of q) (if decide (qp_rcq qp = cq) then wcs else []) ++ omap (recv_id v) (del a (qp_rq qp))) /\
     left_of submseteq v v' (omap (send_id v qp) (qp_sq qp))
       (cq_ids (send_of q) (if decide (qp_scq qp = cq) then wcs else []) ++ omap (send_id v qp) (del a (qp_sq qp)))) ->
  keeps v v'.
Proof.
  intros [Hc A B C S] H W.
  assert (F : forall q qp', v_qps v' !! q = Some qp' -> exists qp, v_qps v !! q = Some qp /\
    qp_rq qp' = del a (qp_rq qp) /\ qp_sq qp' = del a (qp_sq qp) /\ fixed qp' = fixed qp).
  { intros q qp' E. specialize (A q). rewrite E in A. destruct (v_qps v !! q) as [qp|]; [|done]. exists qp. unfold fixed.
    injection A as Q1 Q2 Q3 Q4 Q5. split_and!; congruence. }
  assert (R : forall b, b <> a -> v_wqes v' !! b = v_wqes v !! b) by (intros b Hb; by rewrite B, lookup_delete_ne).
  split; [|split; [done|]].
  - intros q qp' E. destruct (F q qp' E) as (qp & Eq & R1 & R2 & Fx). destruct (W q qp Eq) as [N1 N2 C1 C2 S1 S2].
    injection Fx as X1 X2 X3. split; rewrite ?R1, ?R2, ?X1, ?X2; [by apply NoDup_del|by apply NoDup_del|by apply S|by apply S| |].
    all: intros b [Hb Hn]%elem_of_del; rewrite R by done; auto.
  - intros q. pose proof (A q) as Q. unfold rlog, slog. destruct (v_qps v' !! q) as [qp'|] eqn:E', (v_qps v !! q) as [qp|] eqn:E; [|done|done|].
    2: split_and!; [done|apply left_of_refl; apply _..].
    injection Q as X1 X2 X3 R1 R2. destruct (H q qp E) as [L1 L2]. rewrite X1, X2, R1, R2, !C, !cq_ids_app, <- !app_assoc.
    split; [by unfold fixed; cbn; congruence|].
    replace (omap (recv_id v') (del a (qp_rq qp))) with (omap (recv_id v) (del a (qp_rq qp))).
    2: { apply omap_ext. intros b [_ Hb]%elem_of_del. unfold recv_id. by rewrite R. }
    replace (omap (send_id v' qp') (del a (qp_sq qp))) with (omap (send_id v qp) (del a (qp_sq qp))).
    2: { apply omap_ext. intros b [_ Hb]%elem_of_del. unfold send_id, signaled. by rewrite R, X3 by done. }
    split; apply left_of_app_l; done || apply _.
Qed.

(** Whose queues an entry can be in. *)
Lemma entry_queues v q a w t o : vwf v -> v_wqes v !! a = Some w -> ident w = (o, t, q) -> forall q' qp, v_qps v !! q' = Some qp ->
  (t <> WQET_RECV \/ q' <> q -> (a ∉ qp_rq qp)) /\ (t <> WQET_SEND \/ q' <> q -> (a ∉ qp_sq qp)).
Proof.
  intros W Ew I q' qp E. split; intros H Ha.
  - destruct (wf_recv _ _ _ (W q' qp E) a Ha) as (w' & wr' & Ew' & I'). naive_solver congruence.
  - destruct (wf_send _ _ _ (W q' qp E) a Ha) as (w' & wr' & Ew' & I'). naive_solver congruence.
Qed.

(** ** Inversion of the primitive actions *)

Lemma get_qp_inv q (v : V) qp v' : get_qp q v = Ok qp v' -> v_qps v !! q = Some qp /\ v' = v.
Proof. unfold get_qp. intros H. binv H o s E. injection E as <- <-. by apply deref_inv in H. Qed.
Lemma get_wqe_inv a (v : V) w v' : get_wqe a v = Ok w v' -> v_wqes v !! a = Some w /\ v' = v.
Proof. unfold get_wqe. intros H. binv H o s E. injection E as <- <-. by apply deref_inv in H. Qed.
Lemma get_cq_inv c (v : V) cq v' : get_cq c v = Ok cq v' -> v_cqs v !! c = Some cq /\ v' = v.
Proof. unfold get_cq. intros H. binv H o s E. injection E as <- <-. by apply deref_inv in H. Qed.
Lemma upd_qp_inv q u (v : V) x v' : upd_qp q u v = Ok x v' ->
  exists qp, v_qps v !! q = Some qp /\ v' = v <| v_qps ::= alter u q |>.
Proof. unfold upd_qp. intros H. binv H qp s E. apply get_qp_inv in E as [E ->]. exists qp. split; [done|]. by injection H. Qed.
Lemma upd_wqe_inv a u (v : V) x v' : upd_wqe a u v = Ok x v' ->
  exists w, v_wqes v !! a = Some w /\ v' = v <| v_wqes ::= alter u a |>.
Proof. unfold upd_wqe. intros H. binv H w s E. apply get_wqe_inv in E as [E ->]. exists w. split; [done|]. by injection H. Qed.
Lemma upd_cq_inv c u (v : V) x v' : upd_cq c u v = Ok x v' ->
  exists cq, v_cqs v !! c = Some cq /\ v' = v <| v_cqs ::= alter u c |>.
Proof. unfold upd_cq. intros H. binv H cq s E. apply get_cq_inv in E as [E ->]. exists cq. split; [done|]. by injection H. Qed.
Lemma free_wqe_inv a (v : V) x v' : bgvrnic_free_wqe a v = Ok x v' ->
  exists w, v_wqes v !! a = Some w /\ v' = v <| v_wqes ::= delete a |>.
Proof. unfold bgvrnic_free_wqe. intros H. binv H w s E. apply get_wqe_inv in E as [E ->]. exists w. split; [done|]. by injection H. Qed.
Record unused (v : V) (a : Z) : Prop := mkUnused {
  un_wqe : v_wqes v !! a = None; un_cep : v_cep v !! a = None; un_qp : v_qps v !! a = None; un_listener : v_listener v !! a = None; un_null : a <> 0 }.
Lemma in_use_unused (v : V) a : (a ∉ in_use v) /\ a <> 0 -> unused v a.
Proof. unfold in_use. intros [H ?]. split; [apply not_elem_of_dom; set_solver..|done]. Qed.
(** Allocation gives a fresh address, or is refused. *)
Lemma valloc_inv (v : V) o v' : valloc v = Ok o v' -> v' = v <| v_calls := S (v_calls v) |> /\
  match o with Some a => unused v a | None => refused (v_calls v) end.
Proof.
  intros [= <- <-]. split; [done|]. cbn. destruct (kmalloc _ _) as [a|] eqn:E; [|by eexists].
  by apply in_use_unused, (kmalloc_fresh (v_calls v)).
Qed.
Lemma valloc_eq (v : V) : valloc v = Ok (kmalloc (v_calls v) (in_use v)) (v <| v_calls := S (v_calls v) |>).
Proof. done. Qed.
Lemma kmalloc_unused (v : V) a : kmalloc (v_calls v) (in_use v) = Some a -> unused v a.
Proof. intros E. by apply (valloc_inv v (Some a)) with (v' := v <| v_calls := S (v_calls v) |>); rewrite valloc_eq, E. Qed.
Lemma cq_push_entries (cqs : gmap Z bgvrnic_cq) cq wc c : is_Some (cqs !! cq) ->
  from_option cq_entries [] (alter (push_cqe wc) cq cqs !! c) = from_option cq_entries [] (cqs !! c) ++ (if decide (c = cq) then [wc] else []).
Proof.
  intros [q Hq]. destruct (decide (c = cq)) as [->|Hc]; [by rewrite lookup_alter_eq, Hq|]. by rewrite lookup_alter_ne, app_nil_r.
Qed.

(** A completion is added, with the identity of its request. *)
Record completed (q cq : Z) (swr : option ib_send_wr) (rwr : option ib_recv_wr) (wc : ib_wc) (v v' : V) : Prop := mkCompleted {
  cp_cq : is_Some (v_cqs v !! cq); cp_cqs : v_cqs v' = alter (push_cqe wc) cq (v_cqs v);
  cp_qps : v_qps v' = v_qps v; cp_wqes : v_wqes v' = v_wqes v; cp_qp : wc_qp wc = q;
  cp_id : match swr, rwr with
    | Some wr, _ => wc_wr_id wc = sw_wr_id wr /\ wc_opcode wc <> IB_WC_RECV
    | None, Some wr => wc_wr_id wc = rw_wr_id wr /\ wc_opcode wc = IB_WC_RECV
    | None, None => False end }.
Lemma add_cqe_inv cq q swr rwr len st iv imm (v : V) rc v' : bgvrnic_add_cqe cq q swr rwr len st iv imm v = Ok rc v' ->
  v_calls v' = S (v_calls v) /\ ((rc = 0 /\ exists wc, completed q cq swr rwr wc v v') \/
    (rc = - ENOMEM /\ refused (v_calls v) /\ v' = v <| v_calls := S (v_calls v) |>)).
Proof.
  unfold bgvrnic_add_cqe. intros H. binv H o s E. apply valloc_inv in E as (-> & Hr). destruct o as [a|].
  2: { injection H as <- <-. split; [done|]. by right. }
  clear Hr. binv H qp s E.
  apply get_qp_inv in E as [Eq ->]. destruct (wc_status_of st) as [ws ve]. cbv zeta in H. binv H c s E. apply get_cq_inv in E as [Ec ->].
  binv H out s E. assert (Hs : s = v <| v_calls := S (v_calls v) |> /\ wc_qp (fst out) = q /\ match swr, rwr with
    | Some wr, _ => wc_wr_id (fst out) = sw_wr_id wr /\ wc_opcode (fst out) <> IB_WC_RECV
    | None, Some wr => wc_wr_id (fst out) = rw_wr_id wr /\ wc_opcode (fst out) = IB_WC_RECV
    | None, None => False end).
  { destruct swr as [wr|]; [binv E op s1 E1; apply deref_inv in E1 as [E1 ->]; injection E as <- <-|destruct rwr as [wr|]; [by injection E as <- <-|done]].
    split; [done|]. split; [done|]. split; [done|]. by destruct (sw_opcode wr); simplify_eq/=. }
  clear E. destruct Hs as (-> & Hq & Hid), out as [wc gen]. binv H x s E. apply upd_cq_inv in E as (c' & Ec' & ->). binv H y s E. injection H as <- <-.
  split; [by destruct gen; injection E as _ <-|]. left. split; [done|]. exists wc. destruct gen; injection E as _ <-; by split; [exists c|..].
Qed.

(** ** Send queue *)

Definition queued (q : Z) (l : list Z) (v : V) : Prop := exists qp, v_qps v !! q = Some qp /\ forall a, a ∈ l -> a ∈ qp_sq qp.
Lemma queued_same q l v v' : same v v' -> queued q l v -> queued q l v'.
Proof.
  intros S (qp & E & H). pose proof (same_qp _ _ S q) as A. rewrite E in A. destruct (v_qps v' !! q) as [qp'|] eqn:E'; [|done].
  exists qp'. split; [done|]. injection A as _ _ _ _ A. by rewrite A.
Qed.
Lemma queued_cons q a l v : queued q (a :: l) v -> queued q l v.
Proof. intros (qp & E & H). exists qp. split; [done|]. intros b Hb. apply H. by right. Qed.

Definition is_send (q a : Z) (wr : ib_send_wr) (v : V) : Prop := exists w, v_wqes v !! a = Some w /\ ident w = (WrSend wr, WQET_SEND, q).
Lemma is_send_same q a wr v v' : same v v' -> is_send q a wr v -> is_send q a wr v'.
Proof. intros S (w & E & I). destruct (same_ident _ _ _ _ S E) as (w' & E' & I'). exists w'. by rewrite I'. Qed.
Lemma queued_send q a l v w wr : vwf v -> queued q (a :: l) v -> v_wqes v !! a = Some w -> ib_send w = Some wr -> is_send q a wr v.
Proof.
  intros W (qp & E & H) Ew Hw. destruct (wf_send _ _ _ (W q qp E) a) as (w' & wr' & Ew' & I); [apply H; by left|].
  rewrite Ew in Ew'. injection Ew' as <-. exists w. split; [done|]. unfold ib_send in Hw. injection I as I1 I2 I3. rewrite I1 in Hw.
  injection Hw as ->. unfold ident. congruence.
Qed.

Lemma complete_send_keeps q a wr rc v r v' l : complete_send q a wr rc v = Ok r v' -> is_send q a wr v -> queued q (a :: l) v -> a ∉ l ->
  keeps v v' /\ (vwf v -> queued q l v').
Proof.
  unfold complete_send. intros H (w & Ew & I) (qp & Eq & Hq) Hl. binv H qp0 s E. apply get_qp_inv in E as [E ->]. rewrite Eq in E. injection E as <-.
  binv H w0 s E. apply get_wqe_inv in E as [E ->]. rewrite Ew in E. injection E as <-. binv H rc' v1 E.
  assert (X : exists wcs, (v_calls v <= v_calls v1)%nat /\ v_qps v1 = v_qps v /\ v_wqes v1 = v_wqes v /\
     (forall c, entries v1 c = entries v c ++ (if decide (c = qp_scq qp) then wcs else [])) /\
     (forall c, is_Some (v_cqs v !! c) -> is_Some (v_cqs v1 !! c)) /\
     (cq_ids (send_of q) wcs = (if signaled qp wr then [sw_wr_id wr] else []) \/
      wcs = [] /\ refused (v_calls v) /\ (v_calls v < v_calls v1)%nat /\ signaled qp wr = true) /\
     (forall q', cq_ids (recv_of q') wcs = []) /\ (forall q', q' <> q -> cq_ids (send_of q') wcs = [])).
  { destruct (signaled qp wr).
    - apply add_cqe_inv in E as (Hcalls & [(-> & wc & [C1 C2 C3 C4 C5 [C6 C7]])|(-> & Hr & ->)]).
      2: { exists []. split_and!; try done; [cbn; lia|intros c; by destruct (decide _); rewrite app_nil_r|right; split_and!; [done|done|cbn; lia|done]]. }
      exists [wc]. split; [lia|]. split; [done|]. split; [done|].
      split; [intros c; unfold entries; rewrite C2; by apply cq_push_entries|].
      split; [intros c Hc; rewrite C2; by apply lookup_alter_is_Some|].
      unfold cq_ids, send_of, recv_of. cbn. rewrite C5, Z.eqb_refl. split_and!.
      + left. destruct (wc_opcode wc); cbn; congruence.
      + intros q'. destruct (_ =? q'), (wc_opcode wc); done.
      + intros q' Hn. by rewrite (proj2 (Z.eqb_neq q q')) by congruence.
    - injection E as <- <-. exists []. split_and!; try done; [|by left]. intros c. by destruct (decide _); rewrite app_nil_r. }
  destruct X as (wcs & X0 & X1 & X2 & X3 & X4 & X5 & X6 & X7). clear E. binv H x s E. apply upd_qp_inv in E as (qp1 & E & ->). rewrite X1, Eq in E. injection E as <-.
  binv H y s E. apply free_wqe_inv in E as (w1 & E & ->). injection H as <- <-. split.
  - intros W. apply (retired_keeps v _ a (qp_scq qp) wcs); [|intros q' qp' E'|done].
    + split; [exact X0| |cbn; by rewrite X2|exact X3|exact X4]. intros q'. cbn. rewrite X1. destruct (decide (q' = q)) as [->|Hn].
      * rewrite lookup_alter_eq, Eq. cbn. rewrite (del_notin a (qp_rq qp)); [done|]. eapply (entry_queues v q a w _ _ W Ew I); [done|by left].
      * rewrite lookup_alter_ne by done. destruct (v_qps v !! q') as [qp'|] eqn:E'; [|done]. cbn.
        destruct (entry_queues v q a w _ _ W Ew I q' qp' E') as [Q1 Q2]. by rewrite !del_notin by auto.
    + destruct (entry_queues v q a w _ _ W Ew I q' qp' E') as [Q1 Q2]. split.
      * apply left_of_eq; [apply _|]. rewrite (del_notin a (qp_rq qp')) by auto. destruct (decide _); by rewrite ?X6.
      * destruct (decide (q' = q)) as [->|Hn].
        2: { apply left_of_eq; [apply _|]. rewrite (del_notin a (qp_sq qp')) by auto. destruct (decide _); by rewrite ?(X7 q') by done. }
        rewrite Eq in E'. injection E' as <-. rewrite decide_True by done.
        assert (P : omap (send_id v qp) (qp_sq qp) ≡ₚ (if signaled qp wr then [sw_wr_id wr] else []) ++ omap (send_id v qp) (del a (qp_sq qp))).
        { rewrite (del_perm a (qp_sq qp)) at 1; [|apply (W q qp Eq)|apply Hq; by left]. cbn.
          rewrite (ident_send_id _ _ _ _ _ _ _ Ew I). by destruct (signaled qp wr). }
        destruct X5 as [-> |(-> & Hr & Hlt & Hsig)]; [by apply left_of_perm; rewrite P|]. rewrite Hsig in P.
        refine (left_of_trans _ v v _ _ _ _ _ (left_of_perm _ _ _ _ (symmetry P)) (left_of_lost _ _ _ _ _ _ Hr Hlt));
          [split; [done|exact X0]|by apply submseteq_cons].
  - intros W. exists (qp <| qp_sq ::= del a |>). split; [cbn; by rewrite X1, lookup_alter_eq, Eq|]. intros b Hb. cbn. apply elem_of_del.
    split; [apply Hq; by right|]. by intros ->.
Qed.

(** A computation that may complete [a] and keeps the logs. *)
Definition step_ok (q a : Z) (l : list Z) (v v' : V) : Prop := keeps v v' /\ (vwf v -> queued q l v').
Lemma step_ok_same q a l v v' : same v v' -> queued q (a :: l) v -> step_ok q a l v v'.
Proof. intros S Q. split; [by apply same_keeps|]. intros _. by apply (queued_cons q a), (queued_same q _ v). Qed.
Lemma step_ok_same_l q a l v v1 v' : same v v1 -> step_ok q a l v1 v' -> step_ok q a l v v'.
Proof.
  intros S [H1 H2]. split; [etrans; [by apply same_keeps|done]|]. intros W. apply H2. by apply (same_keeps v).
Qed.

Lemma send_wqe_keeps q a rc rem v r v' l : send_wqe q a rc rem v = Ok r v' -> vwf v -> queued q (a :: l) v -> a ∉ l ->
  step_ok q a l v v'.
Proof.
  unfold send_wqe. intros H W Q Hl. binv H qp s E. apply get_qp_inv in E as [_ ->]. binv H w s E. apply get_wqe_inv in E as [Ew ->].
  binv H wr s E. apply deref_inv in E as [Hw ->]. pose proof (queued_send q a l v w wr W Q Ew Hw) as Hs. clear Ew Hw.
  binv H p v1 E. apply send_payload_same in E. destruct (rp_data_length p <? 0).
  { binv H rc' v2 E2. injection H as <- <-. eapply step_ok_same_l; [exact E|].
    eapply complete_send_keeps; [done|by eapply is_send_same|by eapply queued_same|done]. }
  binv H x v2 E2. apply upd_wqe_same in E2; [|done]. binv H o v3 E3. apply send_request_same in E3. binv H y v4 E4.
  assert (S4 : same v3 v4) by (destruct o; [by eapply upd_wqe_same in E4|by injection E4 as _ <-]).
  binv H w4 s E5. apply get_wqe_inv in E5 as [E5 ->]. cbv zeta in H.
  assert (S : same v v4) by (do 3 (etrans; [eassumption|]); done). clear E E2 E3 E4 S4.
  eapply step_ok_same_l; [exact S|]. apply (queued_same _ _ _ _ S) in Q. apply (is_send_same _ _ _ _ _ S) in Hs. clear S.
  assert (Hc : forall u, (forall w, ident (u w) = ident w) -> forall rc, (upd_wqe a u ;;; rc <- complete_send q a wr rc ;; ret (inl (rc, rem))) v4 = Ok r v' -> step_ok q a l v4 v').
  { intros u Hu rc0 H'. binv H' z v5 E6. apply upd_wqe_same in E6; [|done]. binv H' rc' v6 E7. injection H' as _ <-.
    eapply step_ok_same_l; [exact E6|]. eapply complete_send_keeps; [done|by eapply is_send_same|by eapply queued_same|done]. }
  assert (Hk : forall u rem', (forall w, ident (u w) = ident w) -> (upd_wqe a u ;;; ret (inl (rc, rem'))) v4 = Ok r v' -> step_ok q a l v4 v').
  { intros u rem' Hu H'. binv H' z v5 E6. apply upd_wqe_same in E6; [|done]. injection H' as _ <-. by apply step_ok_same. }
  destruct (_ =? - ECANCELED); [by eapply Hc in H|]. destruct (_ =? 0); [by eapply Hc in H|].
  destruct (_ =? - EINPROGRESS); [by eapply Hk in H|]. destruct (_ =? - EBUSY); [by eapply Hk in H|]. done.
Qed.

Lemma send_wqes_loop_keeps q l rc rem v r v' : send_wqes_loop q l rc rem v = Ok r v' -> vwf v -> queued q l v -> NoDup l -> keeps v v'.
Proof.
  revert rc rem v. induction l as [|a l IH]; intros rc rem v H W Q N; [by injection H as _ <-|].
  apply list.NoDup_cons in N as [Ha N]. cbn [send_wqes_loop] in H. binv H w s E. apply get_wqe_inv in E as [Ew ->].
  assert (Hsend : (o <- send_wqe q a rc rem ;; match o with inl (rc, remaining) => send_wqes_loop q l rc remaining | inr r => ret r end) v = Ok r v' -> keeps v v').
  { intros H'. binv H' o v1 E. apply (send_wqe_keeps _ _ _ _ _ _ _ l) in E as [K1 Q1]; [|done..]. etrans; [exact K1|].
    destruct o as [[rc1 rem1]|r1]; [|by injection H' as _ <-]. eapply IH; [done|by apply K1|by apply Q1|done]. }
  destruct (w_state w); [by apply Hsend|by apply Hsend|by injection H as _ <-| |done].
  binv H wr s E. apply deref_inv in E as [Hw ->]. binv H rc1 v1 E. apply (complete_send_keeps _ _ _ _ _ _ _ l) in E as [K1 Q1];
    [|by eapply queued_send|done|done]. etrans; [exact K1|]. eapply IH; [done|by apply K1|by apply Q1|done].
Qed.
Lemma process_send_keeps q : respects keeps (bgvrnic_process_send_wqes q).
Proof.
  intros v r v' H W. unfold bgvrnic_process_send_wqes in H. binv H qp s E. apply get_qp_inv in E as [E ->].
  apply (send_wqes_loop_keeps _ _ _ _ _ _ _ H W); [|by apply (W q qp E)|done]. by exists qp.
Qed.

(** ** Receive queue *)

(** What [bgvrnic_add_cqe] did for a receive. *)
Lemma add_cqe_entries cq q wr len st iv imm (v : V) rc v' : bgvrnic_add_cqe cq q None (Some wr) len st iv imm v = Ok rc v' ->
  v_calls v' = S (v_calls v) /\ exists wcs, (forall c, entries v' c = entries v c ++ (if decide (c = cq) then wcs else [])) /\
    (forall c, is_Some (v_cqs v !! c) -> is_Some (v_cqs v' !! c)) /\ v_qps v' = v_qps v /\ v_wqes v' = v_wqes v /\
    (cq_ids (recv_of q) wcs = [rw_wr_id wr] \/ wcs = [] /\ refused (v_calls v)) /\
    (forall q', cq_ids (send_of q') wcs = []) /\ (forall q', q' <> q -> cq_ids (recv_of q') wcs = []).
Proof.
  intros (Hc & [(-> & wc & [C1 C2 C3 C4 C5 [C6 C7]])|(-> & Hr & ->)])%add_cqe_inv; (split; [done|]).
  2: { exists []. split_and!; try done; [intros c; by destruct (decide _); rewrite app_nil_r|by right]. }
  exists [wc]. unfold cq_ids, recv_of, send_of. cbn. rewrite C5, C7, Z.eqb_refl. split_and!; try done.
  - intros c. unfold entries. rewrite C2. by apply cq_push_entries.
  - intros c Hs. rewrite C2. by apply lookup_alter_is_Some.
  - left. cbn. by rewrite C6.
  - intros q'. by rewrite andb_false_r.
  - intros q' Hn. by rewrite (proj2 (Z.eqb_neq q q')) by congruence.
Qed.
Lemma recv_wqes_loop_keeps q l rc v r v' : recv_wqes_loop q l rc v = Ok r v' -> vwf v ->
  (exists qp, v_qps v !! q = Some qp /\ qp_rq qp = l) -> keeps v v'.
Proof.
  revert rc v. induction l as [|a l IH]; intros rc v H W (qp & Eq & Hl); [by injection H as _ <-|].
  cbn [recv_wqes_loop] in H. binv H w s E. apply get_wqe_inv in E as [Ew ->].
  destruct (w_state w); [by injection H as _ <-|done|by injection H as _ <-| |done].
  binv H qp0 s E. apply get_qp_inv in E as [E ->]. rewrite Eq in E. injection E as <-. binv H rw s E. apply deref_inv in E as [Hw ->].
  binv H rc1 v1 E. apply add_cqe_entries in E as (Hcalls & wcs & C1 & C2 & C3 & C4 & C5). binv H x s E. apply upd_qp_inv in E as (qp1 & E & ->).
  rewrite C3, Eq in E. injection E as <-. binv H y s E. apply free_wqe_inv in E as (w1 & _ & ->).
  destruct (W q qp Eq) as [N1 _ _ _ S1 _]. rewrite Hl in N1, S1. apply list.NoDup_cons in N1 as [Ha N1].
  destruct (S1 a) as (w' & wr' & Ew' & I); [by left|]. rewrite Ew in Ew'. injection Ew' as <-.
  assert (wr' = rw) as ->. { unfold ib_recv in Hw. injection I as I1 _ _. rewrite I1 in Hw. by injection Hw. }
  match type of H with _ ?x = _ => set (v2 := x) in * end.
  assert (Kp : keeps v v2).
  { intros _. apply (retired_keeps v v2 a (qp_rcq qp) wcs); [|intros q' qp' E'|done].
    - split; [cbn; lia| |cbn; by rewrite C4|exact C1|exact C2]. intros q'. cbn. rewrite C3. destruct (decide (q' = q)) as [->|Hn].
      + rewrite lookup_alter_eq, Eq. cbn. rewrite (del_notin a (qp_sq qp)); [done|]. eapply (entry_queues v q a w _ _ W Ew I); [done|by left].
      + rewrite lookup_alter_ne by done. destruct (v_qps v !! q') as [qp'|] eqn:E'; [|done]. cbn.
        destruct (entry_queues v q a w _ _ W Ew I q' qp' E') as [Q1 Q2]. by rewrite !del_notin by auto.
    - destruct (entry_queues v q a w _ _ W Ew I q' qp' E') as [Q1 Q2]. destruct C5 as (C5 & C6 & C7). split.
      + destruct (decide (q' = q)) as [->|Hn].
        2: { apply left_of_eq; [apply _|]. rewrite (del_notin a (qp_rq qp')) by auto. destruct (decide _); by rewrite ?C7 by done. }
        rewrite Eq in E'. injection E' as <-. rewrite Hl, decide_True, del_head by done. cbn. rewrite (ident_recv_id _ _ _ _ _ _ Ew I).
        destruct C5 as [-> |[-> Hr]]; [by apply left_of_refl, _|]. apply left_of_lost; [by apply sublist_cons|exact Hr|cbn; lia].
      + apply left_of_eq; [apply _|]. rewrite (del_notin a (qp_sq qp')) by auto. destruct (decide _); by rewrite ?C6. }
  etrans; [exact Kp|]. eapply (IH _ v2); [done|by apply Kp|]. exists (qp <| qp_rq ::= del a |>). split.
  - cbn. by rewrite C3, lookup_alter_eq, Eq.
  - cbn. by rewrite Hl, del_head.
Qed.
Lemma process_recv_keeps q : respects keeps (bgvrnic_process_recv_wqes q).
Proof.
  intros v r v' H W. unfold bgvrnic_process_recv_wqes in H. binv H qp s E. apply get_qp_inv in E as [E ->].
  apply (recv_wqes_loop_keeps _ _ _ _ _ _ H W); [|done]. by exists qp.
Qed.

(** ** New entries *)

Definition unqueued (a : Z) (v : V) : Prop := forall q qp, v_qps v !! q = Some qp -> (a ∉ qp_rq qp) /\ (a ∉ qp_sq qp).
Lemma unqueued_same a v v' : same v v' -> unqueued a v -> unqueued a v'.
Proof. intros S H q qp' E. destruct (same_lookup _ _ _ _ S E) as (qp & Eq & Q). injection Q as _ _ _ -> ->. by apply (H q qp). Qed.

Lemma alloc_wqe_inv type o q v r v' : bgvrnic_alloc_wqe type o q v = Ok r v' -> same v v' /\
  forall a, r = Some a -> exists w, v_wqes v' !! a = Some w /\ ident w = (o, type, q) /\ (vwf v -> unqueued a v').
Proof.
  unfold bgvrnic_alloc_wqe. intros H. binv H x v1 E. apply valloc_inv in E as (-> & Ha). destruct x as [a|].
  2: { injection H as <- <-. split; [same_fields_tac|done]. }
  apply un_wqe in Ha. binv H y v2 E. assert (X : exists n, v2 = v <| v_calls := n |> /\ (v_calls v <= n)%nat).
  { destruct type; [apply valloc_inv in E as (-> & _)..|injection E as <- <-]; eexists; (split; [reflexivity|cbn; lia]). }
  destruct X as (n & -> & Hn). clear E. destruct y as [z|]; [|injection H as <- <-; by split; [apply same_more|]].
  binv H u s E. injection E as <- <-. injection H as <- <-. split.
  - split; [exact Hn|done|done|]. intros b w Hb. cbn. rewrite lookup_insert_ne; [by rewrite Hb|]. intros ->. by rewrite Ha in Hb.
  - intros ? [= <-]. eexists. split; [cbn; by rewrite lookup_insert_eq|]. split; [done|].
    intros W q' qp E. change (v_qps v !! q' = Some qp) in E. split; intros Hin.
    + destruct (wf_recv _ _ _ (W q' qp E) a Hin) as (? & ? & E' & _). by rewrite Ha in E'.
    + destruct (wf_send _ _ _ (W q' qp E) a Hin) as (? & ? & E' & _). by rewrite Ha in E'.
Qed.

(** The logs of [q] grow by [rids] and [sids], but for losses. *)
Definition grows (q : Z) (rids sids : list Z) (v v' : V) : Prop := vwf v -> vwf v' /\ (v_calls v <= v_calls v')%nat /\ forall q',
  fixed <$> v_qps v' !! q' = fixed <$> v_qps v !! q' /\
  left_of sublist v v' (rlog q' v ++ (if decide (q' = q) then rids else [])) (rlog q' v') /\
  left_of submseteq v v' (slog q' v ++ (if decide (q' = q) then sids else [])) (slog q' v').
Lemma keeps_grows q v v' : keeps v v' -> grows q [] [] v v'.
Proof.
  intros H W. destruct (H W) as (W' & N & L). split; [done|]. split; [done|]. intros q'. destruct (L q') as (A & B & C).
  by destruct (decide _); rewrite !app_nil_r.
Qed.
Lemma decide_app {A} (P : Prop) `{!Decision P} (l l' : list A) :
  (if decide P then l ++ l' else []) = (if decide P then l else []) ++ (if decide P then l' else []).
Proof. by destruct (decide P). Qed.
Lemma grows_app q r1 s1 r2 s2 v v1 v2 : grows q r1 s1 v v1 -> grows q r2 s2 v1 v2 -> grows q (r1 ++ r2) (s1 ++ s2) v v2.
Proof.
  intros H1 H2 W. destruct (H1 W) as (W1 & N1 & L1). destruct (H2 W1) as (W2 & N2 & L2). split; [done|]. split; [lia|]. intros q'.
  destruct (L1 q') as (A1 & B1 & C1). destruct (L2 q') as (A2 & B2 & C2). rewrite A2, A1, !decide_app, !app_assoc. split; [done|].
  split; (eapply (left_of_trans _ v v1 v2); [done|by apply left_of_app_r; [apply _|eassumption]|done]).
Qed.

(** An unqueued entry is appended to one of the queues of [q]. *)
Section append.
Context (q a : Z) (w : bgvrnic_wqe) (u : bgvrnic_qp -> bgvrnic_qp) (ra sa rids sids : list Z) (v : V) (qp : bgvrnic_qp).
Hypothesis Ew : v_wqes v !! a = Some w.
Hypothesis Hu : unqueued a v.
Hypothesis Hv : forall qp, qview (u qp) = (fixed qp, qp_rq qp ++ ra, qp_sq qp ++ sa).
Hypothesis Hc : (exists wr, ident w = (WrRecv wr, WQET_RECV, q) /\ ra = [a] /\ sa = [] /\ rids = [rw_wr_id wr] /\ sids = []) \/
  (exists wr, ident w = (WrSend wr, WQET_SEND, q) /\ ra = [] /\ sa = [a] /\ rids = [] /\ sids = if signaled qp wr then [sw_wr_id wr] else []).
Hypothesis Eq : v_qps v !! q = Some qp.

Lemma append_lookup q' qp' : alter u q (v_qps v) !! q' = Some qp' -> exists qp0, v_qps v !! q' = Some qp0 /\
  qview qp' = (fixed qp0, qp_rq qp0 ++ (if decide (q' = q) then ra else []), qp_sq qp0 ++ (if decide (q' = q) then sa else [])).
Proof.
  intros E. destruct (decide (q' = q)) as [->|Hn].
  - rewrite lookup_alter_eq, Eq in E. injection E as <-. exists qp. by rewrite Hv.
  - rewrite lookup_alter_ne in E by done. exists qp'. by rewrite !app_nil_r.
Qed.
Lemma append_in q' b l : b ∈ (if decide (q' = q) then l else []) -> (l = [] \/ l = [a]) -> b = a /\ q' = q /\ l = [a].
Proof.
  intros Hb [->| ->]; destruct (decide (q' = q)); try by apply not_elem_of_nil in Hb. by apply list_elem_of_singleton in Hb as ->.
Qed.
Lemma append_NoDup q' l l' : NoDup l -> a ∉ l -> (l' = [] \/ l' = [a]) -> NoDup (l ++ (if decide (q' = q) then l' else [])).
Proof.
  intros N U Hl. apply list.NoDup_app. split; [done|]. split; [intros b Hb Hb'; by apply append_in in Hb' as (-> & _)|].
  destruct (decide _); [|constructor]. destruct Hl as [->| ->]; [constructor|apply NoDup_singleton].
Qed.
Lemma append_wf : vwf v -> vwf (v <| v_qps ::= alter u q |>).
Proof.
  intros W q' qp' E. destruct (append_lookup q' qp' E) as (qp0 & E0 & Q). destruct (W q' qp0 E0) as [N1 N2 C1 C2 S1 S2], (Hu q' qp0 E0) as [U1 U2].
  injection Q as X1 X2 X3 X4 X5.
  assert (Hl1 : ra = [] \/ ra = [a]) by naive_solver. assert (Hl2 : sa = [] \/ sa = [a]) by naive_solver.
  split; rewrite ?X1, ?X2, ?X4, ?X5; [by apply append_NoDup|by apply append_NoDup|done|done| |].
  - intros b [Hb|Hb]%elem_of_app; [by apply S1|]. apply append_in in Hb as (-> & -> & ->); [|done]. naive_solver.
  - intros b [Hb|Hb]%elem_of_app; [by apply S2|]. apply append_in in Hb as (-> & -> & ->); [|done]. naive_solver.
Qed.
Lemma append_grows : grows q rids sids v (v <| v_qps ::= alter u q |>).
Proof.
  intros W. split; [by apply append_wf|]. split; [done|]. intros q'. unfold rlog, slog.
  change (v_qps (v <| v_qps ::= alter u q |>)) with (alter u q (v_qps v)). destruct (alter u q (v_qps v) !! q') as [qp'|] eqn:E'.
  2: { destruct (decide (q' = q)) as [->|Hn]; [by rewrite lookup_alter_eq, Eq in E'|]. rewrite lookup_alter_ne in E' by done. rewrite E'.
    split_and!; [done|apply left_of_eq; apply _ || done..]. }
  destruct (append_lookup q' qp' E') as (qp0 & E0 & Q). rewrite E0. injection Q as X1 X2 X3 X4 X5.
  rewrite X1, X2, X4, X5, !omap_app, !app_assoc. split; [by unfold fixed; cbn; congruence|].
  split; apply left_of_eq; try apply _; [f_equal|f_equal; [f_equal; apply omap_ext; intros b _; unfold send_id, signaled; by rewrite X3|]].
  - destruct (decide (q' = q)); [|done]. destruct Hc as [(wr & I & -> & _ & -> & _)|(wr & I & -> & _ & -> & _)]; [|done].
    cbn. change (recv_id _ a) with (recv_id v a). by rewrite (ident_recv_id _ _ _ _ _ _ Ew I).
  - destruct (decide (q' = q)) as [->|]; [|done]. rewrite Eq in E0. injection E0 as <-.
    destruct Hc as [(wr & I & _ & -> & _ & ->)|(wr & I & _ & -> & _ & ->)]; [done|].
    cbn. change (send_id _ qp' a) with (send_id v qp' a). rewrite (ident_send_id _ _ _ _ _ _ _ Ew I). unfold signaled. rewrite X3.
    by destruct (_ || _).
Qed.
End append.

(** ** Posting *)

(** The requests a call accepted: those before [*bad_wr], all of them on
    success. *)
Definition accepted {A} (r : Z * option nat) (wrs : list A) : list A :=
  match snd r with Some k => take k wrs | None => if fst r =? 0 then wrs else [] end.
Definition signaled_ids (qp : bgvrnic_qp) (wrs : list ib_send_wr) : list Z :=
  omap (fun wr => if signaled qp wr then Some (sw_wr_id wr) else None) wrs.

Lemma free_unqueued_keeps a v : unqueued a v -> keeps v (v <| v_wqes ::= delete a |>).
Proof.
  intros U. apply (retired_keeps _ _ a 0 []).
  - split; [done| |done|intros c; by destruct (decide _); rewrite app_nil_r|done]. intros q. cbn. destruct (v_qps v !! q) as [qp|] eqn:E; [|done].
    destruct (U q qp E). cbn. by rewrite !del_notin.
  - intros q qp E. destruct (U q qp E). rewrite !del_notin by done.
    split; (apply left_of_eq; [apply _|]); by destruct (decide _).
Qed.

Lemma post_recv_loop_grows q i wrs v r v' : post_recv_loop q i wrs v = Ok r v' ->
  exists k, grows q (map rw_wr_id (take k wrs)) [] v v' /\
    (snd r = Some (i + k)%nat /\ (k < length wrs)%nat \/ r = (0, None) /\ k = length wrs).
Proof.
  revert i v. induction wrs as [|wr wrs IH]; intros i v H.
  { injection H as <- <-. exists 0%nat. split; [by apply keeps_grows|]. by right. }
  cbn [post_recv_loop] in H. binv H qp s E. apply get_qp_inv in E as [Eq ->].
  assert (Hstop : forall v1, same v v1 -> exists k, grows q (map rw_wr_id (take k (wr :: wrs))) [] v v1 /\
    (Some i = Some (i + k)%nat /\ (k < length (wr :: wrs))%nat)).
  { intros v1 S. exists 0%nat. split; [by apply keeps_grows, same_keeps|]. split; [f_equal; lia|cbn; lia]. }
  destruct (_ >? _).
  { injection H as <- <-. destruct (Hstop v) as (k & G & Hk); [done|]. exists k. by split; [|left]. }
  binv H o v1 E. apply alloc_wqe_inv in E as [S A]. destruct o as [a|].
  2: { injection H as <- <-. destruct (Hstop v1 S) as (k & G & Hk). exists k. by split; [|left]. }
  destruct (A a eq_refl) as (w & Ew & I & U). binv H x v2 E. apply upd_qp_inv in E as (qp1 & E1 & ->).
  apply IH in H as (k & G & Hk). exists (Datatypes.S k). split.
  - cbn [take map]. apply (grows_app q [rw_wr_id wr] [] _ [] _ (v1 <| v_qps ::= alter (fun qp => qp <| qp_rq ::= (fun l => l ++ [a]) |>) q |>)); [|exact G].
    intros W. apply (grows_app q [] [] [rw_wr_id wr] [] v v1); [by apply keeps_grows, same_keeps| |done].
    eapply (append_grows q a w _ [a] []); [done|by apply U| |left; by exists wr|done]. intros qp'. unfold qview. cbn. by rewrite app_nil_r.
  - destruct Hk as [[Hk Hk']|[-> ->]]; [left|by right]. split; [rewrite Hk; f_equal; lia|cbn; lia].
Qed.

Definition enqueue (a : Z) (qp : bgvrnic_qp) : bgvrnic_qp := qp <| qp_sq ::= (fun l => l ++ [a]) |>.
(** [k] of the requests from position [i] on were taken. *)
Definition posts (q : Z) (qp : bgvrnic_qp) (i : nat) (wrs : list ib_send_wr) (v v' : V) (rc : Z) (bad : option nat) : Prop :=
  exists k, grows q [] (signaled_ids qp (take k wrs)) v v' /\
    (bad = Some (i + k)%nat /\ (k < length wrs)%nat \/ (rc = 0 /\ bad = None) /\ k = length wrs).
Lemma posts_stop q qp i wr wrs v v' rc : keeps v v' -> posts q qp i (wr :: wrs) v v' rc (Some i).
Proof. intros S. exists 0%nat. split; [by apply keeps_grows|]. left. split; [f_equal; lia|cbn; lia]. Qed.
Lemma posts_add q qp qp2 i wr wrs a w v v2 v' rc bad : same v v2 -> v_qps v !! q = Some qp -> v_qps v2 !! q = Some qp2 ->
  (vwf v -> unqueued a v2) -> v_wqes v2 !! a = Some w -> ident w = (WrSend wr, WQET_SEND, q) ->
  posts q (enqueue a qp2) (Datatypes.S i) wrs (v2 <| v_qps ::= alter (enqueue a) q |>) v' rc bad -> posts q qp i (wr :: wrs) v v' rc bad.
Proof.
  intros S Eq E2 U Ew I (k & G & Hk). exists (Datatypes.S k).
  assert (Q3 : ib_qp_init_attrs qp2 = ib_qp_init_attrs qp).
  { destruct (same_lookup _ _ _ _ S E2) as (qp' & E & Q). rewrite Eq in E. injection E as <-. by injection Q. }
  split.
  - set (ids := if signaled qp wr then [sw_wr_id wr] else []).
    replace (signaled_ids qp (take (Datatypes.S k) (wr :: wrs))) with (ids ++ signaled_ids (enqueue a qp2) (take k wrs)).
    2: { unfold ids, signaled_ids, signaled. cbn. rewrite Q3. by destruct (_ || _). }
    apply (grows_app q [] ids [] _ _ (v2 <| v_qps ::= alter (enqueue a) q |>)); [|exact G].
    intros W. apply (grows_app q [] [] [] ids v v2); [by apply keeps_grows, same_keeps| |done].
    eapply (append_grows q a w _ [] [a] _ _ _ qp2); [done|by apply U| |right; exists wr|done].
    + intros qp'. unfold qview. cbn. by rewrite app_nil_r.
    + unfold ids, signaled. by rewrite Q3.
  - destruct Hk as [[Hk Hk']|[[-> ->] ->]]; [left|by right]. split; [rewrite Hk; f_equal; lia|cbn; lia].
Qed.
Lemma post_send_loop_grows q i wrs v rc bad go v' qp : post_send_loop q i wrs v = Ok (rc, bad, go) v' -> v_qps v !! q = Some qp ->
  posts q qp i wrs v v' rc bad.
Proof.
  revert i v qp. induction wrs as [|wr wrs IH]; intros i v qp H Eq.
  { injection H as <- <- <- <-. exists 0%nat. split; [by apply keeps_grows|]. by right. }
  cbn [post_send_loop] in H. binv H qp0 s E. apply get_qp_inv in E as [E ->]. rewrite Eq in E. injection E as <-.
  destruct (_ >? _); [injection H as <- <- <- <-; by apply posts_stop|].
  binv H o v1 E. apply alloc_wqe_inv in E as [S A]. destruct o as [a|]; [|injection H as <- <- <- <-; by apply posts_stop, same_keeps].
  destruct (A a eq_refl) as (w & Ew & I & U). cbv zeta in H.
  change (fun qp => qp <| qp_sq ::= (fun l => l ++ [a]) |>) with (enqueue a) in H.
  assert (Hadd : forall v2, same v1 v2 -> (upd_qp q (enqueue a) ;;; post_send_loop q (Datatypes.S i) wrs) v2 = Ok (rc, bad, go) v' ->
    posts q qp i (wr :: wrs) v v' rc bad).
  { intros v2 S2 H'. binv H' x v3 E. apply upd_qp_inv in E as (qp2 & E2 & ->). destruct (same_ident _ _ _ _ S2 Ew) as (w' & Ew' & I').
    eapply (posts_add q qp qp2 i wr wrs a w' v v2); [by etrans|done|done| |done|by rewrite I'|].
    - intros W. by eapply unqueued_same, U.
    - apply (IH _ _ _ H'). cbn. by rewrite lookup_alter_eq, E2. }
  assert (Himm : forall u, (forall w, ident (u w) = ident w) -> (upd_wqe a u ;;; upd_qp q (enqueue a) ;;; post_send_loop q (Datatypes.S i) wrs) v1 = Ok (rc, bad, go) v' ->
    posts q qp i (wr :: wrs) v v' rc bad).
  { intros u Hi H'. binv H' x v2 E. apply upd_wqe_same in E; [|done]. by apply (Hadd v2). }
  assert (Hun : (modify (fun v => v <| v_wqes ::= delete a |>) ;;; ret (- EOPNOTSUPP, Some i, false)) v1 = Ok (rc, bad, go) v' ->
    posts q qp i (wr :: wrs) v v' rc bad).
  { intros H'. injection H' as <- <- <- <-. apply posts_stop. intros W.
    exact (transitivity (same_keeps _ _ S) (free_unqueued_keeps a v1 (U W)) W). }
  destruct (sw_opcode wr); [by apply (Hadd v1)|by eapply Himm, H|by apply (Hadd v1)|by eapply Himm, H| |by apply Hun..].
  destruct (_ <? _)%nat; [|by apply (Hadd v1)]. injection H as <- <- <- <-. by apply posts_stop, same_keeps.
Qed.

(** ** The operations *)

Lemma respects_keeps_bind {A B} (m : M V A) (k : A -> M V B) : respects keeps m -> (forall a, respects keeps (k a)) -> respects keeps (bind m k).
Proof. apply respects_bind, keeps_preorder. Qed.

Lemma post_recv_grows q wrs v r v' : bgvrnic_post_recv q wrs v = Ok r v' ->
  grows q (map rw_wr_id (accepted r wrs)) [] v v'.
Proof.
  unfold bgvrnic_post_recv. intros H. binv H qp s E. apply get_qp_inv in E as [Eq ->].
  assert (Hx : forall e, e <> 0 -> ret (e, None) v = Ok r v' -> grows q (map rw_wr_id (accepted r wrs)) [] v v').
  { intros e He [= <- <-]. unfold accepted. cbn [fst snd]. rewrite (proj2 (Z.eqb_neq e 0)) by done. by apply keeps_grows. }
  assert (Hl : (if ia_srq (ib_qp_init_attrs qp) then ret (- EOPNOTSUPP, None) else post_recv_loop q 0 wrs) v = Ok r v' ->
    grows q (map rw_wr_id (accepted r wrs)) [] v v').
  { destruct (ia_srq _); [by apply Hx|]. intros H'. apply post_recv_loop_grows in H' as (k & G & [[Hk _]|[-> ->]]); unfold accepted.
    - by rewrite Hk.
    - cbn [fst snd]. by rewrite firstn_all in G. }
  destruct (qp_state _); [by apply (Hx (- EINVAL))|by apply Hl..|by apply (Hx (- EINVAL))].
Qed.

Lemma post_send_grows q wrs v r v' qp : bgvrnic_post_send q wrs v = Ok r v' -> v_qps v !! q = Some qp ->
  grows q [] (signaled_ids qp (accepted r wrs)) v v'.
Proof.
  unfold bgvrnic_post_send. intros H Eq. binv H qp0 s E. apply get_qp_inv in E as [E ->]. rewrite Eq in E. injection E as <-.
  destruct (negb _). { injection H as <- <-. by apply keeps_grows. }
  binv H out v1 E. destruct out as [[rc bad] go]. apply (post_send_loop_grows _ _ _ _ _ _ _ _ qp) in E as (k & G & Hk); [|done].
  binv H x v2 E. injection H as <- <-. rewrite <- (app_nil_r (signaled_ids _ _)). change ([] : list Z) with ([] ++ [] : list Z) at 1.
  eapply grows_app.
  - destruct Hk as [[-> Hk]|[[-> ->] ->]]; unfold accepted; cbn [fst snd]; [exact G|]. by rewrite firstn_all in G.
  - apply keeps_grows. destruct go; [|by injection E as _ <-]. binv E y v3 E3. injection E as _ <-. by eapply process_send_keeps.
Qed.

Lemma free_rdma_keeps a v w o q : v_wqes v !! a = Some w -> ident w = (o, WQET_RDMA, q) -> keeps v (v <| v_wqes ::= delete a |>).
Proof.
  intros Ew I W. apply (free_unqueued_keeps a v); [|done]. intros q' qp E. by destruct (entry_queues v q a w _ _ W Ew I q' qp E) as [Q1 Q2]; split; [apply Q1; left|apply Q2; left].
Qed.
Lemma status_one_keeps a st : respects keeps (status_one a st).
Proof.
  intros v r v' H. unfold status_one in H. binv H w s E. apply get_wqe_inv in E as [Ew ->]. cbv zeta in H. destruct (w_type w) eqn:Et.
  1-2: binv H x v1 E; apply upd_wqe_same in E; [|by intros w'; destruct (_ <? 0)];
    binv H y v2 E2; injection H as _ <-; etrans; [by apply same_keeps|]; first [exact (process_send_keeps _ _ _ _ E2)|exact (process_recv_keeps _ _ _ _ E2)].
  apply free_wqe_inv in H as (w' & Ew' & ->). rewrite Ew in Ew'. injection Ew' as <-. eapply free_rdma_keeps; [done|]. unfold ident. by rewrite Et.
Qed.
Lemma mu_status_cb_keeps reqs : respects keeps (mu_status_cb reqs).
Proof.
  induction reqs as [|[a st] reqs IH]; cbn [mu_status_cb]; [apply (respects_ret keeps)|].
  apply respects_keeps_bind; [apply status_one_keeps|by intros _].
Qed.

Lemma recv_rdma_read_keeps q p : respects keeps (recv_rdma_read q p).
Proof.
  intros v r v' H. unfold recv_rdma_read in H. binv H o v1 E. apply alloc_wqe_inv in E as [S A].
  binv H n v2 E. apply vcall_same in E. binv H out v3 E3. apply xlate_sgl_same in E3. destruct out as [[len psge] num].
  binv H a s E4. apply deref_inv in E4 as [-> ->]. destruct (A a eq_refl) as (w & Ew & I & U). destruct (negb _); [done|].
  binv H qp s E4. apply get_qp_inv in E4 as [_ ->]. binv H c s E4. apply deref_inv in E4 as [_ ->]. binv H rc v4 E4.
  apply while_busy_same in E4; [|apply vlift_same]. assert (S4 : same v1 v4) by (do 2 (etrans; [eassumption|]); done).
  etrans; [apply same_keeps; etrans; [exact S|exact S4]|]. destruct (same_ident _ _ _ _ S4 Ew) as (w4 & Ew4 & I4). rewrite I in I4.
  destruct (_ || _).
  - binv H x v5 E5. apply free_wqe_inv in E5 as (w5 & _ & ->). injection H as _ <-. by eapply free_rdma_keeps.
  - destruct (rc =? - EINPROGRESS); [|by injection H as _ <-]. binv H x v5 E5. apply upd_wqe_same in E5; [|done]. injection H as _ <-. by apply same_keeps.
Qed.
Lemma mu_recv_cb_keeps h data : respects keeps (mu_recv_cb h data).
Proof.
  unfold mu_recv_cb. destruct (_ =? MUDM_IP_IMMED).
  { apply respects_keeps. destruct data; repeat same_step. }
  apply respects_keeps_bind; [apply respects_keeps; repeat same_step|intros o].
  apply respects_keeps_bind; [apply respects_keeps; repeat same_step|intros q].
  apply respects_keeps_bind; [apply respects_keeps; repeat same_step|intros qp].
  apply respects_keeps_bind; [apply respects_keeps, upd_qp_same; done|intros _].
  apply respects_keeps_bind; [|intros rc; apply (respects_ret keeps)]. destruct (_ || _).
  { unfold recv_data. apply respects_keeps_bind; [apply respects_keeps; repeat same_step|intros qp'].
    apply respects_keeps_bind; [apply respects_keeps, find_wqe_same|intros [a|]]; [|apply respects_keeps, recv_no_buffer_same].
    apply respects_keeps_bind.
    - apply respects_keeps. destruct (_ =? _), data; repeat same_step; [apply recv_immed_same|apply recv_remote_same].
    - intros rc. apply respects_keeps_bind; [apply process_recv_keeps|intros _; apply (respects_ret keeps)]. }
  destruct (_ =? _); [destruct data; try apply respects_fault; apply recv_rdma_read_keeps|].
  apply respects_keeps. destruct (_ =? _), data; repeat same_step; apply recv_rdma_write_same.
Qed.

Lemma req_notify_keeps cq flags : respects keeps (bgvrnic_req_notify_cq cq flags).
Proof.
  apply respects_keeps. unfold bgvrnic_req_notify_cq. destruct flags;
    first [refine (respects_ret _ _)|refine (respects_bind _ _ _ _ _); [by apply upd_cq_same|intros _; refine (respects_ret _ _)]].
Qed.

(** ** Polling *)

Lemma poll_cq_loop_inv c n v l v' : poll_cq_loop c n v = Ok l v' -> v_calls v' = v_calls v /\ v_qps v' = v_qps v /\ v_wqes v' = v_wqes v /\
  (forall c', entries v c' = (if decide (c' = c) then l else []) ++ entries v' c') /\
  (forall c', is_Some (v_cqs v !! c') -> is_Some (v_cqs v' !! c')) /\ l = take n (entries v c).
Proof.
  revert v l. induction n as [|n IH]; intros v l H.
  { injection H as <- <-. split_and!; try done. intros c'. by destruct (decide _). }
  cbn [poll_cq_loop] in H. binv H o v1 E. unfold bgvrnic_remove_cqe in E. binv E q s E1. apply get_cq_inv in E1 as [Eq ->].
  destruct (cq_entries q) as [|wc es] eqn:Ee.
  { injection E as <- <-. injection H as <- <-. split_and!; try done; [intros c'; by destruct (decide _)|]. unfold entries. by rewrite Eq; cbn; rewrite Ee. }
  binv E x v2 E1. apply upd_cq_inv in E1 as (q1 & E1 & ->). rewrite Eq in E1. injection E1 as <-. injection E as <- <-. binv H l' v3 E.
  injection H as <- <-. apply IH in E as (N & A & B & C & S & T). cbn in N, A, B. split_and!; [done|done|done| | |].
  - intros c'. specialize (C c'). unfold entries in C |- *. cbn in C. destruct (decide (c' = c)) as [->|Hn].
    + rewrite lookup_alter_eq, Eq in C. cbn in C. rewrite Eq. cbn. by rewrite Ee, C.
    + by rewrite lookup_alter_ne in C.
  - intros c' Hc. apply S. cbn. by apply lookup_alter_is_Some.
  - rewrite T. unfold entries. cbn. rewrite lookup_alter_eq, Eq. cbn. by rewrite Ee.
Qed.

(** What was polled from the queue [c], as the queue pair [q] sees it. *)
Definition polled (f : ib_wc -> bool) (c : Z) (l : list (Z * ib_wc)) : list Z :=
  cq_ids f (omap (fun x => if decide (fst x = c) then Some (snd x) else None) l).
Lemma polled_app f c l l' : polled f c (l ++ l') = polled f c l ++ polled f c l'.
Proof. unfold polled. by rewrite omap_app, cq_ids_app. Qed.
Lemma polled_one f c c0 l : polled f c (map (pair c0) l) = cq_ids f (if decide (c = c0) then l else []).
Proof.
  unfold polled. induction l as [|x l IH]; [by destruct (decide _)|]. cbn. destruct (decide (c0 = c)) as [->|Hn].
  - rewrite decide_True in IH |- * by done. change (x :: l) with ([x] ++ l). by rewrite cq_ids_app, <- IH, <- cq_ids_app.
  - rewrite decide_False in IH |- * by congruence. done.
Qed.

Lemma poll_logs c n v l v' : bgvrnic_poll_cq c n v = Ok l v' -> vwf v -> vwf v' /\ v_calls v' = v_calls v /\ forall q qp, v_qps v !! q = Some qp ->
  v_qps v' !! q = Some qp /\
  polled (recv_of q) (qp_rcq qp) (map (pair c) l) ++ rlog q v' = rlog q v /\
  polled (send_of q) (qp_scq qp) (map (pair c) l) ++ slog q v' = slog q v.
Proof.
  intros (N & A & B & C & S & _)%poll_cq_loop_inv W. split; [|split; [done|]].
  - intros q qp E. rewrite A in E. destruct (W q qp E) as [N1 N2 C1 C2 S1 S2]. split; [done|done|by apply S|by apply S| |]; by rewrite B.
  - intros q qp E. unfold rlog, slog. rewrite A, E, !C, !polled_one, !cq_ids_app, <- !app_assoc. split_and!; [done|f_equal|f_equal].
    + f_equal. apply omap_ext. intros a _. unfold recv_id. by rewrite B.
    + f_equal. apply omap_ext. intros a _. unfold send_id. by rewrite B.
Qed.

(** ** Connection management does not touch the queues *)

Lemma upd_cep_same a u : respects same (upd_cep a u).
Proof. unfold upd_cep, get_cep. respects_tac. apply respects_modify. intros v. same_fields_tac. Qed.
Ltac cm_step :=
  first [apply upd_cep_same | same_step | refine (respects_modify _ _ _); intros; same_fields_tac].
Ltac cm_tac :=
  unfold bgvrnic_rem_ref, bgvrnic_add_ref, event_handler, qp_event, new_connect, set_provider, upd_cm_id, add_cep, unlink_cep, kfree_cep, get_cep,
    valloc, bgvrnic_get_qp, private_data_of, read_field, read_bytes; repeat cm_step.
Lemma destroy_listen_same i l : respects same (destroy_listen_loop i l).
Proof. induction l as [|x l IH]; cbn [destroy_listen_loop]; cm_tac. apply IH. Qed.
Lemma find_listener_same address port l : respects same (find_listener address port l).
Proof. induction l as [|x l IH]; cbn [find_listener]; cm_tac. apply IH. Qed.
Lemma find_cep_same id l : respects same (find_cep id l).
Proof. induction l as [|x l IH]; cbn [find_cep]; cm_tac. apply IH. Qed.
Lemma mu_connect_cb_same ctx msg : respects same (mu_connect_cb ctx msg).
Proof.
  unfold mu_connect_cb, conn_request, conn_reply, conn_disconnected. cm_tac; [apply find_listener_same|apply find_cep_same].
Qed.
Lemma cm_call_same m : cm_call m -> respects same m.
Proof.
  destruct 1.
  - unfold bgvrnic_connect. cbv zeta. cm_tac.
  - unfold bgvrnic_accept. cbv zeta. cm_tac.
  - unfold bgvrnic_reject. cm_tac.
  - unfold bgvrnic_create_listen. cm_tac.
  - unfold bgvrnic_destroy_listen. cm_tac. apply destroy_listen_same.
  - apply mu_connect_cb_same.
  - cm_tac.
Qed.

Lemma modify_qp_keeps q state new mask : respects keeps (bgvrnic_modify_qp q state new mask).
Proof.
  assert (P : respects keeps (bgvrnic_process_send_wqes q)) by (intros v r v'; apply process_send_keeps).
  assert (Dr : respects keeps (drain q)).
  { unfold drain. refine (respects_bind _ _ _ _ _); [exact P|intros r]. apply respects_keeps. unfold end_events. cm_tac. }
  unfold bgvrnic_modify_qp. refine (respects_bind _ _ _ _ _); [|intros [o|o]].
  - destruct (mask IB_QP_STATE); [|apply respects_keeps; cm_tac]. destruct state as [s|]; [|apply respects_keeps; cm_tac].
    refine (respects_bind _ _ _ _ _); [apply respects_keeps; cm_tac|intros qp]. destruct (_ && _); [apply respects_keeps; cm_tac|].
    refine (respects_bind _ _ _ _ _); [|intros o; apply respects_keeps; cm_tac].
    destruct (bool_decide _); [refine (respects_bind _ _ _ _ _); [exact Dr|intros d; apply respects_keeps; cm_tac]|apply respects_keeps; cm_tac].
  - destruct o as [rc a]. apply respects_keeps. cm_tac.
  - apply respects_keeps. cm_tac.
Qed.

(** ** Runs

    Any sequence of calls into the driver, by users of any queue pair, by the
    connection manager and by the data mover.  [R] and [S] are the requests that [q] accepted, [Pl]
    the completions polled so far. *)
Inductive run (q : Z) (v0 : V) : list ib_recv_wr -> list ib_send_wr -> list (Z * ib_wc) -> V -> Prop :=
| run_start : run q v0 [] [] [] v0
| run_post_recv R S Pl v p wrs r v' : run q v0 R S Pl v -> bgvrnic_post_recv p wrs v = Ok r v' ->
    run q v0 (R ++ if decide (p = q) then accepted r wrs else []) S Pl v'
| run_post_send R S Pl v p wrs r v' : run q v0 R S Pl v -> bgvrnic_post_send p wrs v = Ok r v' ->
    run q v0 R (S ++ if decide (p = q) then accepted r wrs else []) Pl v'
| run_status R S Pl v reqs r v' : run q v0 R S Pl v -> mu_status_cb reqs v = Ok r v' -> run q v0 R S Pl v'
| run_recv R S Pl v h data r v' : run q v0 R S Pl v -> mu_recv_cb h data v = Ok r v' -> run q v0 R S Pl v'
| run_notify R S Pl v c flags r v' : run q v0 R S Pl v -> bgvrnic_req_notify_cq c flags v = Ok r v' -> run q v0 R S Pl v'
| run_poll R S Pl v c n l v' : run q v0 R S Pl v -> bgvrnic_poll_cq c n v = Ok l v' ->
    run q v0 R S (Pl ++ map (pair c) l) v'
| run_modify R S Pl v p state new mask r v' : run q v0 R S Pl v -> bgvrnic_modify_qp p state new mask v = Ok r v' -> run q v0 R S Pl v'
| run_cm R S Pl v m r v' : run q v0 R S Pl v -> cm_call m -> m v = Ok r v' -> run q v0 R S Pl v'.

Record log_inv (q : Z) (qp0 : bgvrnic_qp) (v0 : V) (R : list ib_recv_wr) (S : list ib_send_wr) (Pl : list (Z * ib_wc)) (v : V) : Prop := mkLinv {
  li_wf : vwf v; li_calls : (v_calls v0 <= v_calls v)%nat;
  li_qp : exists qp, v_qps v !! q = Some qp /\ fixed qp = fixed qp0;
  li_recv : left_of sublist v0 v (map rw_wr_id R) (polled (recv_of q) (qp_rcq qp0) Pl ++ rlog q v);
  li_send : left_of submseteq v0 v (signaled_ids qp0 S) (polled (send_of q) (qp_scq qp0) Pl ++ slog q v) }.

(** The log behind what was polled grows by [x], but for losses. *)
Lemma left_of_grow (R : relation (list Z)) `{!LogOrder R} v0 v v' A P L x L' : (v_calls v0 <= v_calls v <= v_calls v')%nat ->
  left_of R v0 v A (P ++ L) -> left_of R v v' (L ++ x) L' -> left_of R v0 v' (A ++ x) (P ++ L').
Proof.
  intros Hc H1 H2. eapply (left_of_trans R v0 v v'); [done|apply left_of_app_r, H1; done|].
  rewrite <- app_assoc. by apply left_of_app_l.
Qed.
Lemma grows_inv q qp0 v0 R S Pl v p rids sids R' S' v' : log_inv q qp0 v0 R S Pl v -> grows p rids sids v v' ->
  map rw_wr_id R' = map rw_wr_id R ++ (if decide (q = p) then rids else []) ->
  signaled_ids qp0 S' = signaled_ids qp0 S ++ (if decide (q = p) then sids else []) -> log_inv q qp0 v0 R' S' Pl v'.
Proof.
  intros [W N (qp & Eq & Fx) L1 L2] G E1 E2. destruct (G W) as (W' & N' & L). destruct (L q) as (A & B & C). split; [done|lia| | |].
  - rewrite Eq in A. destruct (v_qps v' !! q) as [qp'|]; [|done]. exists qp'. split; [done|].
    change (Some (fixed qp') = Some (fixed qp)) in A. congruence.
  - rewrite E1. eapply (left_of_grow _ v0 v v'); [lia|exact L1|done].
  - rewrite E2. eapply (left_of_grow _ v0 v v'); [lia|exact L2|done].
Qed.
Lemma keeps_inv q qp0 v0 R S Pl v v' : log_inv q qp0 v0 R S Pl v -> keeps v v' -> log_inv q qp0 v0 R S Pl v'.
Proof. intros L Kp. eapply (grows_inv q qp0 v0 R S Pl v q [] []); [done|by apply keeps_grows|..]; by destruct (decide _); rewrite app_nil_r. Qed.
Lemma signaled_ids_app qp l l' : signaled_ids qp (l ++ l') = signaled_ids qp l ++ signaled_ids qp l'.
Proof. apply omap_app. Qed.
Lemma signaled_ids_fixed qp qp' l : fixed qp' = fixed qp -> signaled_ids qp' l = signaled_ids qp l.
Proof. intros [= _ _ E]. unfold signaled_ids, signaled. by rewrite E. Qed.

Lemma run_inv q v0 R S Pl v qp0 : run q v0 R S Pl v -> vwf v0 -> v_qps v0 !! q = Some qp0 -> rlog q v0 = [] -> slog q v0 = [] ->
  log_inv q qp0 v0 R S Pl v.
Proof.
  intros H W Eq Er Es. induction H as [|R S Pl v p wrs r v' H IH E|R S Pl v p wrs r v' H IH E|R S Pl v reqs r v' H IH E
    |R S Pl v h data r v' H IH E|R S Pl v c flags r v' H IH E|R S Pl v c n l v' H IH E|R S Pl v p state new mask r v' H IH E|R S Pl v m r v' H IH Hm E].
  - split; [done|done|by exists qp0|rewrite Er|rewrite Es]; by apply left_of_refl, _.
  - eapply grows_inv; [exact IH|by eapply post_recv_grows| |by destruct (decide _); rewrite app_nil_r].
    rewrite map_app. f_equal. destruct (decide (p = q)), (decide (q = p)); done || congruence.
  - assert (exists qp, v_qps v !! p = Some qp) as [qp Ep].
    { unfold bgvrnic_post_send in E. binv E qp s E1. apply get_qp_inv in E1 as [E1 _]. by exists qp. }
    eapply grows_inv; [exact IH|by eapply post_send_grows|by destruct (decide _); rewrite app_nil_r|].
    rewrite signaled_ids_app. f_equal. destruct (decide (p = q)) as [Hp|Hp]; [|by rewrite decide_False by congruence]. rewrite decide_True by done. subst p.
    destruct (li_qp _ _ _ _ _ _ _ IH) as (qp' & Eq' & Fx). rewrite Ep in Eq'. injection Eq' as <-. symmetry. by apply signaled_ids_fixed.
  - eapply keeps_inv; [exact IH|by eapply mu_status_cb_keeps].
  - eapply keeps_inv; [exact IH|by eapply mu_recv_cb_keeps].
  - eapply keeps_inv; [exact IH|by eapply req_notify_keeps].
  - destruct IH as [W1 N (qp & Eq' & Fx) L1 L2]. destruct (poll_logs _ _ _ _ _ E W1) as (W2 & N2 & L). destruct (L q qp Eq') as (A & B & C).
    pose proof Fx as [= F1 F2 F3]. rewrite F1 in B. rewrite F2 in C. split; [done|lia|by exists qp| |]; rewrite polled_app, <- app_assoc;
      [rewrite B|rewrite C]; (apply (left_of_weaken _ v0 v v'); [lia|done]).
  - eapply keeps_inv; [exact IH|by eapply modify_qp_keeps].
  - eapply keeps_inv; [exact IH|]. apply same_keeps. by eapply cm_call_same.
Qed.

(** ** Theorems *)

Definition all_granted (v0 v : V) : Prop := forall n, (v_calls v0 <= n < v_calls v)%nat -> ~ refused n.

(** C1: receives of a queue pair complete in the order in which they were
    posted and none completes twice, whatever the data mover answers and
    whichever callbacks it makes.  After any sequence of calls into the
    driver the completions polled, those still in the completion queue and
    the requests still queued are, in this order, requests accepted; at most
    as many are missing as calls of [kmalloc] were refused meanwhile, one
    refused call for each, and none is missing when no call was. *)
Theorem receives_in_order q qp0 v0 R S Pl v : vwf v0 -> v_qps v0 !! q = Some qp0 -> rlog q v0 = [] -> slog q v0 = [] ->
  run q v0 R S Pl v -> left_of sublist v0 v (map rw_wr_id R) (polled (recv_of q) (qp_rcq qp0) Pl ++ rlog q v) /\
  (all_granted v0 v -> polled (recv_of q) (qp_rcq qp0) Pl ++ rlog q v = map rw_wr_id R).
Proof.
  intros W Eq Er Es H. pose proof (li_recv _ _ _ _ _ _ _ (run_inv _ _ _ _ _ _ _ H W Eq Er Es)) as L. split; [done|]. intros Hg.
  destruct L as [L (k & E & Hk)]. rewrite (losses_all_granted _ _ _ Hk Hg) in E. apply (sublist_full _ _ L). lia.
Qed.

(** C2: every signaled send that was accepted completes at most once, and
    exactly once or is still queued unless a call of [kmalloc] was refused
    for it; the completions may come in another order. *)
Theorem sends_complete_once q qp0 v0 R S Pl v : vwf v0 -> v_qps v0 !! q = Some qp0 -> rlog q v0 = [] -> slog q v0 = [] ->
  run q v0 R S Pl v -> left_of submseteq v0 v (signaled_ids qp0 S) (polled (send_of q) (qp_scq qp0) Pl ++ slog q v) /\
  (all_granted v0 v -> polled (send_of q) (qp_scq qp0) Pl ++ slog q v ≡ₚ signaled_ids qp0 S).
Proof.
  intros W Eq Er Es H. pose proof (li_send _ _ _ _ _ _ _ (run_inv _ _ _ _ _ _ _ H W Eq Er Es)) as L. split; [done|]. intros Hg.
  destruct L as [L (k & E & Hk)]. rewrite (losses_all_granted _ _ _ Hk Hg) in E. apply (submseteq_length_Permutation _ _ L). lia.
Qed.
End log.

(** ** Allocation that succeeds *)

Section roomy.
Context {D : Type} {K : Kernel} {KL : KernelLaws} {KR : KernelRoomy}.
Lemma valloc_fresh (v : vnic D) : exists a, unused v a /\ valloc v = Ok (Some a) (v <| v_calls := S (v_calls v) |>).
Proof.
  destruct (kmalloc_roomy (v_calls v) (in_use v)) as [a Ha]. exists a. split; [by apply in_use_unused, (kmalloc_fresh (v_calls v))|].
  unfold valloc, vcall, bind, gets, modify, ret. cbn. by f_equal.
Qed.
Lemma valloc_ok (v : vnic D) : exists a, valloc v = Ok (Some a) (v <| v_calls := S (v_calls v) |>).
Proof. destruct (valloc_fresh v) as (a & _ & E). by exists a. Qed.
End roomy.

(** ** Witnesses

    Two receives, one of them filled by a packet, and two sends of which the
    data mover takes the first one later; a poll takes what is done. *)

Definition run0 : vnic (list Z) := demo_vnic [- EINPROGRESS; 0].
Definition run1 : vnic (list Z) := after (bgvrnic_post_recv 1 [demo_recv 7 0x1000 10; demo_recv 8 0x1010 8]) run0.
Definition run2 : vnic (list Z) := after (mu_recv_cb (demo_packet 0 [11; 12; 13]) (DataBytes [11; 12; 13])) run1.
Definition run_sends := [demo_send 21 0x1000 4 IB_WR_SEND; demo_send 22 0x1008 4 IB_WR_RDMA_WRITE].
Definition run3 : vnic (list Z) := after (bgvrnic_post_send 1 run_sends) run2.
Definition run4 : vnic (list Z) := after (bgvrnic_poll_cq 2 1) run3.
Definition run_wc : ib_wc := mkWc 7 0 IB_WC_RECV 0 3 1 17 None.

Lemma run0_wf : vwf run0.
Proof.
  intros q qp E. unfold run0, demo_vnic in E. cbn in E. apply lookup_singleton_Some in E as [<- <-].
  split; [constructor|constructor|by eexists|by eexists|by intros a Ha%not_elem_of_nil|by intros a Ha%not_elem_of_nil].
Qed.
Lemma demo_run : run 1 run0 ([] ++ [demo_recv 7 0x1000 10; demo_recv 8 0x1010 8]) ([] ++ run_sends) ([] ++ map (pair 2) [run_wc]) run4.
Proof.
  apply (run_poll 1 run0 _ _ _ run3 2 1 [run_wc]); [|by vm_compute].
  apply (run_post_send 1 run0 _ _ _ run2 1 run_sends (0, None)); [|by vm_compute].
  apply (run_recv 1 run0 _ _ _ run1 (demo_packet 0 [11; 12; 13]) (DataBytes [11; 12; 13]) 0); [|by vm_compute].
  apply (run_post_recv 1 run0 [] [] [] run0 1 [demo_recv 7 0x1000 10; demo_recv 8 0x1010 8] (0, None)); [|by vm_compute].
  apply run_start.
Qed.

Lemma demo_granted (v v' : vnic (list Z)) : all_granted v v'.
Proof. by intros n _ [used [=]]. Qed.

(** The same receives when the kernel has no memory for the first
    completion: request 7 is lost. *)
Definition lost1 : vnic (list Z) := after (bgvrnic_post_recv (K := demo_kernel_without 4) 1 [demo_recv 7 0x1000 10; demo_recv 8 0x1010 8]) run0.
Definition lost2 : vnic (list Z) := after (mu_recv_cb (K := demo_kernel_without 4) (demo_packet 0 [11; 12; 13]) (DataBytes [11; 12; 13])) lost1.
Lemma lost_run : run (K := demo_kernel_without 4) 1 run0 ([] ++ [demo_recv 7 0x1000 10; demo_recv 8 0x1010 8]) [] [] lost2.
Proof.
  apply (run_recv (K := demo_kernel_without 4) 1 run0 _ _ _ lost1 (demo_packet 0 [11; 12; 13]) (DataBytes [11; 12; 13]) 0); [|by vm_compute].
  apply (run_post_recv (K := demo_kernel_without 4) 1 run0 [] [] [] run0 1 [demo_recv 7 0x1000 10; demo_recv 8 0x1010 8] (0, None)); [|by vm_compute].
  apply run_start.
Qed.
(** A receive whose completion gets no memory is neither completed nor
    queued any more. *)
Lemma receive_lost : run (K := demo_kernel_without 4) 1 run0 [demo_recv 7 0x1000 10; demo_recv 8 0x1010 8] [] [] lost2 /\ rlog 1 lost2 = [8].
Proof. split; [exact lost_run|by vm_compute]. Qed.

Lemma receives_in_order_witness : rlog 1 run4 = [8] /\ polled (recv_of 1) 2 (map (pair 2) [run_wc]) ++ rlog 1 run4 = [7; 8] /\
  left_of (K := demo_kernel_without 4) sublist run0 lost2 [7; 8] (rlog 1 lost2).
Proof.
  split; [by vm_compute|]. split.
  - exact (proj2 (receives_in_order 1 demo_qp run0 _ _ _ run4 run0_wf eq_refl eq_refl eq_refl demo_run) (demo_granted _ _)).
  - exact (proj1 (receives_in_order (K := demo_kernel_without 4) 1 demo_qp run0 _ _ _ lost2 run0_wf eq_refl eq_refl eq_refl lost_run)).
Defined.
Lemma sends_complete_once_witness : slog 1 run4 = [22; 21] /\
  polled (send_of 1) 2 (map (pair 2) [run_wc]) ++ slog 1 run4 ≡ₚ [21; 22].
Proof.
  split; [by vm_compute|].
  exact (proj2 (sends_complete_once 1 demo_qp run0 _ _ _ run4 run0_wf eq_refl eq_refl eq_refl demo_run) (demo_granted _ _)).
Defined.
