(* ===== verification/VerbsRecv.v ===== *)
(** * Arrival of data at a queue pair

    What [mu_recv_cb] (bgvrnic_main.c) does with a packet that carries its
    data: the memory the posted receive names, the completion, and the
    order among receives that are still waiting for a remote get. *)

From S2P Require Import Prelude Chain Bytes Descriptor State RdmaWrite Transfer Receive VerbsMem Verbs VerbsConcrete VerbsLog.

Lemma mem_store_app l l' m : mem_store (l ++ l') m = mem_store l' (mem_store l m).
Proof. apply foldl_app. Qed.
(** Addresses that differ from each other are read back. *)
Lemma mem_store_other l m x : x ∉ map fst l -> mem_store l m !! x = m !! x.
Proof.
  revert m. induction l as [|[a b] l IH]; intros m H; [done|]. apply not_elem_of_cons in H as [H1 H2]. change (mem_store l (<[a:=b]> m) !! x = m !! x). rewrite IH by done.
  by rewrite lookup_insert_ne.
Qed.
Lemma mem_store_lookup (as_ bs : list Z) m i a b : NoDup as_ -> as_ !! i = Some a -> bs !! i = Some b ->
  mem_store (zip as_ bs) m !! a = Some b.
Proof.
  revert bs m i. induction as_ as [|a0 l IH]; intros bs m i N Ha Hb; [done|]. destruct bs as [|b0 bs]; [done|].
  apply list.NoDup_cons in N as [N1 N2]. change (mem_store (zip l bs) (<[a0:=b0]> m) !! a = Some b). destruct i as [|i]; cbn in Ha, Hb.
  - injection Ha as ->. injection Hb as ->. rewrite mem_store_other; [by rewrite lookup_insert_eq|].
    intros Hin. apply N1. clear -Hin. revert bs Hin. induction l as [|x l IH]; intros [|y bs] Hin; try by apply not_elem_of_nil in Hin.
    cbn in Hin. apply elem_of_cons in Hin as [->|Hin]; [by left|right; by eapply IH].
  - by eapply IH.
Qed.

Section recv.
Context {D : Type} {DM : DataMover D} {K : Kernel} {KL : KernelLaws} {KR : KernelRoomy}.
Abbreviation V := (vnic D).

(** ** Execution of the primitive actions *)

Lemma get_qp_ok q qp (v : V) : v_qps v !! q = Some qp -> get_qp q v = Ok qp v.
Proof. intros E. unfold get_qp, bind, gets. by rewrite E. Qed.
Lemma get_wqe_ok a w (v : V) : v_wqes v !! a = Some w -> get_wqe a v = Ok w v.
Proof. intros E. unfold get_wqe, bind, gets. by rewrite E. Qed.
Lemma upd_qp_ok q u qp (v : V) : v_qps v !! q = Some qp -> upd_qp q u v = Ok tt (v <| v_qps ::= alter u q |>).
Proof. intros E. unfold upd_qp. erewrite bind_ok by by apply get_qp_ok. done. Qed.
Lemma upd_wqe_ok a u w (v : V) : v_wqes v !! a = Some w -> upd_wqe a u v = Ok tt (v <| v_wqes ::= alter u a |>).
Proof. intros E. unfold upd_wqe. erewrite bind_ok by by apply get_wqe_ok. done. Qed.
Lemma free_wqe_ok a w (v : V) : v_wqes v !! a = Some w -> bgvrnic_free_wqe a v = Ok tt (v <| v_wqes ::= delete a |>).
Proof. intros E. unfold bgvrnic_free_wqe. erewrite bind_ok by by apply get_wqe_ok. done. Qed.

(** ** Copying *)

Lemma zip_pieces s l (data : list Z) len (k := Z.min len (memlength s)) : 0 <= memlength s -> 0 <= len <= Z.of_nat (length data) ->
  zip (mem_bytes (s :: l)) (take (Z.to_nat len) data) =
  zip (seqZ (physicalAddr s) k) (take (Z.to_nat k) data) ++ zip (mem_bytes l) (take (Z.to_nat (len - k)) (drop (Z.to_nat k) data)).
Proof.
  intros Hs Hl. rewrite mem_bytes_cons. destruct (Z.min_spec len (memlength s)) as [[H1 H2]|[H1 H2]]; fold k in H2; rewrite H2.
  - rewrite Z.sub_diag. change (take (Z.to_nat 0) ?l) with (@nil Z). rewrite zip_with_nil_r, app_nil_r.
    rewrite <- (take_seqZ _ (memlength s) len) by lia. rewrite <- (take_drop (Z.to_nat len) (seqZ _ _)) at 1.
    rewrite <- app_assoc. rewrite <- (app_nil_r (take (Z.to_nat len) data)) at 1. rewrite zip_with_app; [|rewrite !length_take, length_seqZ; lia].
    by rewrite zip_with_nil_r, app_nil_r.
  - rewrite <- (take_drop (Z.to_nat (memlength s)) (take (Z.to_nat len) data)).
    rewrite zip_with_app by (rewrite !length_take, length_seqZ; lia). f_equal; [f_equal; rewrite take_take; f_equal; lia|].
    f_equal. rewrite skipn_firstn_comm. f_equal. lia.
Qed.
Lemma copy_loop_ok psge data len (v : V) : Forall (fun s => 0 <= memlength s) psge -> 0 <= len <= Z.of_nat (length (mem_bytes psge)) ->
  len <= Z.of_nat (length data) ->
  copy_loop psge data len v = Ok tt (v <| v_mem ::= mem_store (zip (mem_bytes psge) (take (Z.to_nat len) data)) |>).
Proof.
  revert data len v. induction psge as [|s l IH]; intros data len v Hok Hlen Hd.
  { cbn in Hlen. assert (len = 0) as -> by lia. by destruct v. }
  apply Forall_cons_1 in Hok as [Hs Hok]. cbn [copy_loop]. destruct (Z.eqb_spec len 0) as [->|Hz].
  { change (take (Z.to_nat 0) data) with (@nil Z). rewrite zip_with_nil_r. by destruct v. }
  cbv zeta. rewrite zip_pieces by lia. set (k := Z.min len (memlength s)). assert (Hk : 0 <= k <= len /\ k <= memlength s) by (subst k; lia).
  rewrite (proj2 (Nat.ltb_ge _ _)) by lia. erewrite bind_ok by reflexivity.
  rewrite mem_bytes_cons, length_app, length_seqZ in Hlen. rewrite IH; [|done|subst k; lia|rewrite length_drop; lia].
  assert (Hlt : length (take (Z.to_nat k) data) = Z.to_nat k) by (rewrite length_take; lia). rewrite Hlt, Z2Nat.id by lia.
  f_equal. destruct v. unfold upd_field. f_equal. by rewrite mem_store_app.
Qed.

(** ** Completion of the receives that are done *)

Definition recv_wc (q : Z) (qp : bgvrnic_qp) (w : bgvrnic_wqe) (wr : ib_recv_wr) : ib_wc :=
  mkWc (rw_wr_id wr) (fst (wc_status_of (w_status w))) IB_WC_RECV (snd (wc_status_of (w_status w))) (w_length w)
    q (qp_num qp) (if w_imm_data w =? 0 then None else Some (w_imm_data w)).

(** Only queues, entries and the trace changed. *)
Definition only_queues (v v' : V) : Prop :=
  v' = v <| v_qps := v_qps v' |> <| v_cqs := v_cqs v' |> <| v_wqes := v_wqes v' |> <| v_calls := v_calls v' |> <| v_trace := v_trace v' |>.
Lemma only_queues_trans v v1 v2 : only_queues v v1 -> only_queues v1 v2 -> only_queues v v2.
Proof. unfold only_queues. intros -> ->. by destruct v. Qed.

Lemma add_cqe_recv_ok cq q qp c w wr (v : V) : v_qps v !! q = Some qp -> v_cqs v !! cq = Some c ->
  bgvrnic_add_cqe cq q None (Some wr) (w_length w) (w_status w) (w_imm_data_valid w) (w_imm_data w) v =
  Ok 0 (v <| v_calls := S (v_calls v) |> <| v_cqs ::= alter (push_cqe (recv_wc q qp w wr)) cq |> <| v_trace ::= (fun t => t ++ [EvComp cq]) |>).
Proof.
  intros Eq Ec. unfold bgvrnic_add_cqe. destruct (valloc_ok v) as [a Ha]. erewrite bind_ok by exact Ha. cbv iota.
  erewrite bind_ok by by apply (get_qp_ok q qp). unfold recv_wc. destruct (wc_status_of (w_status w)) as [ws ve]. cbv zeta. cbn [fst snd].
  erewrite bind_ok by (unfold get_cq, bind, gets, deref; cbn; by rewrite Ec). erewrite bind_ok by reflexivity. cbv beta iota.
  erewrite bind_ok by (unfold upd_cq, get_cq, bind, gets, deref, modify, ret; cbn; by rewrite Ec). done.
Qed.

Definition delete_all (l : list Z) (m : gmap Z bgvrnic_wqe) : gmap Z bgvrnic_wqe := foldl (fun m a => delete a m) m l.
Lemma delete_all_other l m a : a ∉ l -> delete_all l m !! a = m !! a.
Proof.
  revert m. induction l as [|b l IH]; intros m H; [done|]. apply not_elem_of_cons in H as [H1 H2].
  change (delete_all l (delete b m) !! a = m !! a). rewrite IH by done. by rewrite lookup_delete_ne.
Qed.

Definition waiting (v : V) (rest : list Z) : Prop :=
  match rest with [] => True | a :: _ => exists w, v_wqes v !! a = Some w /\ (w_state w = WQES_INIT \/ w_state w = WQES_RUN) end.
Definition is_done (v : V) (d : Z * (bgvrnic_wqe * ib_recv_wr)) : Prop :=
  v_wqes v !! fst d = Some (fst (snd d)) /\ w_state (fst (snd d)) = WQES_DONE /\ w_wr (fst (snd d)) = WrRecv (snd (snd d)).

Lemma recv_loop_done q qp rest : forall done c v, v_qps v !! q = Some qp ->
  NoDup (map fst done ++ rest) -> Forall (is_done v) done -> waiting v rest -> v_cqs v !! qp_rcq qp = Some c -> qp_rq qp = map fst done ++ rest ->
  exists v', recv_wqes_loop q (map fst done ++ rest) 0 v = Ok 0 v' /\ only_queues v v' /\
    v_qps v' = <[q := qp <| qp_rq := rest |>]> (v_qps v) /\
    v_wqes v' = delete_all (map fst done) (v_wqes v) /\
    (exists c', v_cqs v' = <[qp_rcq qp := c']> (v_cqs v) /\ cq_entries c' = cq_entries c ++ map (fun d => recv_wc q qp (fst (snd d)) (snd (snd d))) done) /\
    v_trace v' = v_trace v ++ replicate (length done) (EvComp (qp_rcq qp)).
Proof.
  intros done. revert qp. induction done as [|[a [w wr]] done IH]; intros qp c v Eq N Hd Hw Ec Hrq.
  - exists v. split; [|split; [by destruct v|]].
    + destruct rest as [|a rest]; [done|]. destruct Hw as (w & Ew & Hs). cbn [map app recv_wqes_loop]. erewrite bind_ok by by apply (get_wqe_ok a w). by destruct Hs as [Hs|Hs]; rewrite Hs.
    + split; [|split; [done|split; [exists c|by rewrite app_nil_r]]].
      * cbn in Hrq. rewrite insert_id; [done|]. rewrite Eq. f_equal. rewrite <- Hrq. by destruct qp.
      * rewrite app_nil_r. by rewrite insert_id.
  - apply Forall_cons_1 in Hd as [(Ew & Es & Hwr) Hd]. cbn [fst snd] in *. cbn [map app fst] in N, Hrq |- *. apply list.NoDup_cons in N as [Na N].
    cbn [recv_wqes_loop]. erewrite bind_ok by by apply (get_wqe_ok a w). rewrite Es. erewrite bind_ok by by apply (get_qp_ok q qp).
    erewrite bind_ok by (unfold ib_recv; by rewrite Hwr). erewrite bind_ok by by eapply add_cqe_recv_ok.
    erewrite bind_ok by by apply (upd_qp_ok q _ qp). erewrite bind_ok by by apply (free_wqe_ok a w).
    match goal with |- context [recv_wqes_loop q _ 0 ?x] => set (v1 := x) end. set (qp1 := qp <| qp_rq ::= del a |>).
    destruct (IH qp1 (push_cqe (recv_wc q qp w wr) c) v1) as (v' & H1 & H2 & H3 & H4 & (c' & H5 & H6) & H7).
    + cbn. by rewrite lookup_alter_eq, Eq.
    + done.
    + apply Forall_forall. intros [b [wb wrb]] Hb. pose proof (proj1 (Forall_forall _ _) Hd _ Hb) as (E1 & E2 & E3). split; [|done].
      cbn. rewrite lookup_delete_ne; [done|]. intros ->. apply Na. apply elem_of_app. left. apply list_elem_of_In. exact (in_map fst _ (b, (wb, wrb)) Hb).
    + destruct rest as [|b rest]; [done|]. destruct Hw as (wb & Eb & Hs). exists wb. split; [|done]. cbn. rewrite lookup_delete_ne; [done|].
      intros ->. apply Na. apply elem_of_app. right. by left.
    + cbn. by rewrite lookup_alter_eq, Ec.
    + cbn. rewrite Hrq. by apply del_head.
    + exists v'. split; [exact H1|]. split; [eapply only_queues_trans; [|exact H2]; by destruct v|]. split; [|split; [done|split; [exists c'|]]].
      * rewrite H3. cbn. apply map_eq. intros i. destruct (decide (i = q)) as [->|Hi]; [by rewrite !lookup_insert_eq|by rewrite !lookup_insert_ne, lookup_alter_ne].
      * split; [|by rewrite H6; cbn; rewrite <- app_assoc]. rewrite H5. cbn. apply map_eq. intros i.
        destruct (decide (i = qp_rcq qp)) as [->|Hi]; [by rewrite !lookup_insert_eq|by rewrite !lookup_insert_ne, lookup_alter_ne].
      * rewrite H7. cbn. by rewrite <- app_assoc.
Qed.

(** The receives at the head of the queue that are done complete, in
    order, each with one completion and one event for the user; the first
    one that still waits for data or for its remote get stops the walk, and
    everything behind it stays. *)
Theorem process_recv_correct q qp c done rest v : v_qps v !! q = Some qp -> qp_rq qp = map fst done ++ rest -> NoDup (qp_rq qp) ->
  Forall (is_done v) done -> waiting v rest -> v_cqs v !! qp_rcq qp = Some c ->
  wp (bgvrnic_process_recv_wqes q) (fun rc v' => rc = 0 /\ only_queues v v' /\
    v_qps v' = <[q := qp <| qp_rq := rest |>]> (v_qps v) /\
    v_wqes v' = delete_all (map fst done) (v_wqes v) /\
    (exists c', v_cqs v' = <[qp_rcq qp := c']> (v_cqs v) /\
       cq_entries c' = cq_entries c ++ map (fun d => recv_wc q qp (fst (snd d)) (snd (snd d))) done) /\
    v_trace v' = v_trace v ++ replicate (length done) (EvComp (qp_rcq qp))) v.
Proof.
  intros Eq Hrq N Hd Hw Ec. rewrite Hrq in N. destruct (recv_loop_done q qp rest done c v Eq N Hd Hw Ec Hrq) as (v' & H & R).
  eapply wp_intro; [|split; [done|exact R]]. unfold bgvrnic_process_recv_wqes. erewrite bind_ok by by apply (get_qp_ok q qp). rewrite Hrq. exact H.
Qed.

(** ** A packet with its data *)

Section immed.
Context (wr : ib_recv_wr) (bs : list Z) (len : Z).
Definition wanted : Z := total (rw_sg_list wr).
Definition taken : Z := Z.min len wanted.
Definition immed_status : Z := if wanted <? len then IB_WC_LOC_LEN_ERR else IB_WC_SUCCESS.
Definition immed_rc : Z := if wanted <? len then - E2BIG else 0.
Definition receive (w : bgvrnic_wqe) : bgvrnic_wqe := w <| w_status := immed_status |> <| w_length := taken |> <| w_state := WQES_DONE |>.
Definition receive_mem (v : V) : gmap Z Z -> gmap Z Z :=
  mem_store (zip (parts (fun k => v_mrs v !! k) (rw_sg_list wr)) (take (Z.to_nat taken) bs)).

(** The memory the request names is registered, and described by less
    pieces than the array of the driver has. *)
Record postable (v : V) : Prop := mkPostable {
  po_reg : registered (fun k => v_mrs v !! k) (rw_sg_list wr);
  po_num : (num_pieces (fun k => v_mrs v !! k) (rw_sg_list wr) < MUDM_MAX_SGE)%nat;
  po_total : wanted < 2 ^ 31 }.

Lemma recv_immed_ok q a w v : v_wqes v !! a = Some w -> w_wr w = WrRecv wr -> postable v -> 0 <= len <= Z.of_nat (length bs) ->
  bgvrnic_recv_immed q a bs len v = Ok immed_rc (v <| v_wqes ::= alter receive a |> <| v_mem ::= receive_mem v |>).
Proof.
  intros Ew Hwr [Hr Hn Ht] Hl. unfold bgvrnic_recv_immed. erewrite bind_ok by by apply (get_wqe_ok a w).
  erewrite bind_ok by (unfold ib_recv; by rewrite Hwr). pose proof (total_nonneg _ _ Hr) as H0. fold wanted in H0.
  destruct (xlate_fits (fun k => v_mrs v !! k) (rw_sg_list wr) MUDM_MAX_SGE [] 0 v Hr Hn ltac:(lia) Ht) as (psge & E & M & Lp).
  rewrite Z.add_0_l in E. fold wanted in E. erewrite bind_ok by exact E. cbv beta iota. rewrite (proj2 (Z.ltb_ge wanted 0)) by lia.
  assert (Hlen : Z.of_nat (length (mem_bytes psge)) = wanted) by (rewrite M; by apply length_parts).
  unfold immed_rc. set (f1 := fun w => w <| w_status := immed_status |> <| w_length := taken |>).
  assert (Hc : (upd_wqe a f1 ;;; copy_loop psge bs taken ;;; upd_wqe a (fun w => w <| w_state := WQES_DONE |>) ;;; ret immed_rc) v =
    Ok immed_rc (v <| v_wqes ::= alter receive a |> <| v_mem ::= receive_mem v |>)).
  { erewrite bind_ok by by apply (upd_wqe_ok a _ w). unfold taken in *.
    erewrite bind_ok by (apply copy_loop_ok; [exact Lp|lia|lia]).
    erewrite bind_ok by (apply (upd_wqe_ok a _ (f1 w)); cbn; by rewrite lookup_alter_eq, Ew).
    unfold ret. f_equal. unfold receive_mem, taken. rewrite <- M. destruct v. unfold upd_field. cbn. f_equal. by rewrite alter_alter_eq. }
  unfold f1, immed_status, immed_rc, taken in Hc. destruct (Z.ltb_spec wanted len).
  - rewrite (Z.min_r len wanted) in Hc by lia. exact Hc.
  - rewrite (Z.min_l len wanted) in Hc by lia. exact Hc.
Qed.
End immed.

Lemma find_wqe_ok busy a idle w (v : V) : Forall (fun b => exists wb, v_wqes v !! b = Some wb /\ w_state wb <> WQES_INIT) busy ->
  v_wqes v !! a = Some w -> w_state w = WQES_INIT -> find_wqe (busy ++ a :: idle) v = Ok (Some a) v.
Proof.
  intros Hb Ew Es. induction Hb as [|b busy (wb & Eb & Hs) Hb IH]; cbn [app find_wqe].
  - erewrite bind_ok by by apply (get_wqe_ok a w). by rewrite decide_True.
  - erewrite bind_ok by by apply (get_wqe_ok b wb). by rewrite decide_False.
Qed.

Lemma immed_wc wr len w q qp : w_imm_data w = 0 -> recv_wc q qp (receive wr len w) wr =
  mkWc (rw_wr_id wr) (immed_status wr len) IB_WC_RECV 0 (taken wr len) q (qp_num qp) None.
Proof.
  intros Hi. unfold recv_wc. change (w_imm_data (receive wr len w)) with (w_imm_data w). rewrite Hi.
  change (w_status (receive wr len w)) with (immed_status wr len). destruct wc_codes as (C0 & C1 & _).
  assert (E : wc_status_of (immed_status wr len) = (immed_status wr len, 0)); [|by rewrite E].
  unfold wc_status_of, immed_status. destruct (_ <? _); [|by rewrite C0].
  by rewrite (proj2 (Z.eqb_neq _ _)), (proj2 (Z.ltb_ge _ _)) by lia.
Qed.

Definition next_psn (h : ionet_header) : Z := Z.land (u32 (ih_sequence_number h + 1)) 0xffff.
Definition expect (h : ionet_header) (qp : bgvrnic_qp) : bgvrnic_qp := qp <| ib_qp_attrs ::= fun a => a <| rq_psn := next_psn h |> |>.

(** The queue of receives: those under way, of which the first still runs,
    then the free ones. *)
Record rq_shape (v : V) (qp : bgvrnic_qp) (busy idle : list Z) (a : Z) (w : bgvrnic_wqe) : Prop := mkRqs {
  rs_rq : qp_rq qp = busy ++ a :: idle; rs_nodup : NoDup (qp_rq qp);
  rs_busy : Forall (fun b => exists wb, v_wqes v !! b = Some wb /\ w_state wb <> WQES_INIT) busy;
  rs_head : match busy with [] => True | b :: _ => exists wb, v_wqes v !! b = Some wb /\ w_state wb = WQES_RUN end;
  rs_first : v_wqes v !! a = Some w /\ w_state w = WQES_INIT /\ w_imm_data w = 0;
  rs_idle : Forall (fun b => exists wb, v_wqes v !! b = Some wb /\ w_state wb = WQES_INIT) idle }.

(** After the copy: the walk over the queue. *)
Lemma process_after_immed q qp c busy idle a w wr bs len v : v_qps v !! q = Some qp -> rq_shape v qp busy idle a w -> w_wr w = WrRecv wr ->
  v_cqs v !! qp_rcq qp = Some c ->
  let v1 := v <| v_wqes ::= alter (receive wr len) a |> <| v_mem ::= receive_mem wr bs len v |> in
  exists v', bgvrnic_process_recv_wqes q v1 = Ok 0 v' /\ only_queues v1 v' /\
    v_qps v' = <[q := qp <| qp_rq := match busy with [] => idle | _ => qp_rq qp end |>]> (v_qps v) /\
    match busy with
    | [] => v_wqes v' = delete a (v_wqes v) /\ v_trace v' = v_trace v ++ [EvComp (qp_rcq qp)] /\
        exists c', v_cqs v' = <[qp_rcq qp := c']> (v_cqs v) /\ cq_entries c' = cq_entries c ++
          [mkWc (rw_wr_id wr) (immed_status wr len) IB_WC_RECV 0 (taken wr len) q (qp_num qp) None]
    | _ => v_wqes v' = alter (receive wr len) a (v_wqes v) /\ v_trace v' = v_trace v /\ v_cqs v' = v_cqs v
    end.
Proof.
  intros Eq [Hrq N Hb Hh (Ew & Es & Hi) Hidle] Hwr Ec v1. unfold bgvrnic_process_recv_wqes. erewrite bind_ok by by apply (get_qp_ok q qp).
  assert (Ew1 : v_wqes v1 !! a = Some (receive wr len w)) by (cbn; by rewrite lookup_alter_eq, Ew). destruct busy as [|b busy].
  - cbn [app] in Hrq. assert (Ha : a ∉ idle) by (rewrite Hrq in N; by apply list.NoDup_cons in N as [? _]).
    destruct (recv_loop_done q qp idle [(a, (receive wr len w, wr))] c v1) as (v' & H1 & H2 & H3 & H4 & (c' & H5 & H6) & H7).
    + done.
    + change (NoDup (a :: idle)). by rewrite <- Hrq.
    + by apply Forall_singleton.
    + destruct idle as [|b idle]; [done|]. apply Forall_cons_1 in Hidle as [(wb & Eb & Hs) _]. exists wb. split; [|by left].
      cbn. rewrite lookup_alter_ne; [done|]. intros ->. apply Ha. by left.
    + done.
    + done.
    + exists v'. rewrite Hrq. split; [exact H1|]. split; [done|]. split; [done|]. split; [|split; [done|]].
      * rewrite H4. cbn. by rewrite delete_alter_eq.
      * exists c'. split; [done|]. rewrite H6. cbn [map fst snd]. by rewrite immed_wc.
  - destruct Hh as (wb & Eb & Hs). assert (Hba : b <> a) by (intros ->; congruence). rewrite Hrq. cbn [app recv_wqes_loop].
    erewrite bind_ok by (apply (get_wqe_ok b wb); cbn; by rewrite lookup_alter_ne). rewrite Hs. exists v1. split; [done|].
    split; [by destruct v|]. split; [|done]. rewrite insert_id; [done|]. rewrite Eq. f_equal.
    change (b :: busy ++ a :: idle) with ((b :: busy) ++ a :: idle). rewrite <- Hrq. by destruct qp.
Qed.

(** C13: a packet with its data goes to the first receive that is free.  Its
    memory gets the bytes, byte for byte in the order of its scatter-gather
    list, as many as fit; when not all fit the completion says so and the
    call fails with -E2BIG.  It completes at once unless an earlier receive
    still waits for a remote get; then it stays in the queue behind it.  The
    sequence number expected next is one more than that of the packet, and
    -EPROTO reports that it was not the one expected now. *)
Theorem mu_recv_cb_immed_correct h q qp c busy idle a w wr bs v (len := ih_payload_length h) :
  ih_type h = MUDM_PKT_DATA_IMM -> v_qp_pool v !! ih_dest_qpn h = Some q -> v_qps v !! q = Some qp -> v_cqs v !! qp_rcq qp = Some c ->
  rq_shape v qp busy idle a w -> w_wr w = WrRecv wr -> postable wr v -> 0 <= len <= Z.of_nat (length bs) ->
  wp (mu_recv_cb h (DataBytes bs)) (fun rc v' =>
    rc = (if negb (ih_sequence_number h =? rq_psn (ib_qp_attrs qp)) && (immed_rc wr len =? 0) then - EPROTO else immed_rc wr len) /\
    v_mem v' = receive_mem wr bs len v (v_mem v) /\
    v_qps v' = <[q := expect h qp <| qp_rq := match busy with [] => idle | _ => qp_rq qp end |>]> (v_qps v) /\
    match busy with
    | [] => v_wqes v' = delete a (v_wqes v) /\ v_trace v' = v_trace v ++ [EvComp (qp_rcq qp)] /\
        exists c', v_cqs v' = <[qp_rcq qp := c']> (v_cqs v) /\ cq_entries c' = cq_entries c ++
          [mkWc (rw_wr_id wr) (immed_status wr len) IB_WC_RECV 0 (taken wr len) q (qp_num qp) None]
    | _ => v_wqes v' = alter (receive wr len) a (v_wqes v) /\ v_trace v' = v_trace v /\ v_cqs v' = v_cqs v
    end) v.
Proof.
  intros Ht Hp Eq Ec Hs Hwr Hpo Hlen. pose proof Hs as [Hrq N Hb Hh (Ew & Es & Hi) Hidle]. set (v0 := v <| v_qps ::= alter (expect h) q |>).
  assert (Eq0 : v_qps v0 !! q = Some (expect h qp)) by (cbn; by rewrite lookup_alter_eq, Eq).
  assert (Hs0 : rq_shape v0 (expect h qp) busy idle a w) by (by split). assert (Hpo0 : postable wr v0) by (destruct Hpo; by split).
  destruct (process_after_immed q (expect h qp) c busy idle a w wr bs len v0 Eq0 Hs0 Hwr Ec) as (v' & H1 & H2 & H3 & H4).
  eapply wp_intro with (s' := v').
  - unfold mu_recv_cb. rewrite Ht. change (MUDM_PKT_DATA_IMM =? MUDM_IP_IMMED) with false. cbv iota. erewrite bind_ok by reflexivity. rewrite Hp. erewrite bind_ok by reflexivity.
    erewrite bind_ok by by apply (get_qp_ok q qp). cbv zeta. erewrite bind_ok by by apply (upd_qp_ok q _ qp).
    erewrite bind_ok; [reflexivity|]. change (MUDM_PKT_DATA_IMM =? MUDM_PKT_DATA_IMM) with true. cbv beta iota delta [orb]. unfold recv_data.
    erewrite bind_ok by by apply (get_qp_ok q (expect h qp)). change (qp_rq (expect h qp)) with (qp_rq qp). rewrite Hrq, Ht.
    erewrite bind_ok by by apply (find_wqe_ok busy a idle w). cbv beta iota.
    change (MUDM_PKT_DATA_IMM =? MUDM_PKT_DATA_IMM) with true. cbv iota. erewrite bind_ok by exact (recv_immed_ok wr bs len q a w v0 Ew Hwr Hpo0 Hlen).
    erewrite bind_ok by exact H1. reflexivity.
  - split; [done|]. rewrite H2. split; [done|]. split; [|exact H4]. rewrite <- H2, H3. cbn. apply map_eq. intros i.
    destruct (decide (i = q)) as [->|Hn]; [by rewrite !lookup_insert_eq|by rewrite !lookup_insert_ne, lookup_alter_ne].
Qed.
End recv.

(** ** Witnesses *)

Definition posted (state : bgvrnic_wqe_state) (id addr len : Z) : bgvrnic_wqe :=
  mkWqe 1 state (u32 (-1)) 0 WQET_RECV (WrRecv (demo_recv id addr len)) false 0.
Definition demo_rq (wqes : list (Z * bgvrnic_wqe)) : vnic (list Z) :=
  (demo_vnic []) <| v_wqes := list_to_map wqes |> <| v_qps := {[1 := demo_qp <| qp_rq := map fst wqes |>]} |>.
Definition demo_two : vnic (list Z) := demo_rq [(100, posted WQES_DONE 7 0x1000 10); (101, posted WQES_INIT 8 0x1010 8)].

Lemma process_recv_correct_witness : wp (bgvrnic_process_recv_wqes 1) (fun rc v' => rc = 0 /\
  v_trace v' = [EvComp 2] /\ v_wqes v' = delete 100 (v_wqes demo_two)) demo_two.
Proof.
  eapply wp_mono.
  - apply (process_recv_correct 1 (demo_qp <| qp_rq := [100; 101] |>) (mkCq 15 [] false false)
      [(100, (posted WQES_DONE 7 0x1000 10, demo_recv 7 0x1000 10))] [101] demo_two).
    + by vm_compute.
    + done.
    + by apply (bool_decide_unpack _).
    + apply Forall_singleton. split; [by vm_compute|done].
    + eexists. split; [by vm_compute|by left].
    + by vm_compute.
  - intros rc v' (-> & _ & _ & W & _ & T). split; [done|]. by rewrite T, W.
Defined.

(** Eight bytes for a receive of six, which lie in two pieces. *)
Definition demo_one : vnic (list Z) := demo_rq [(100, posted WQES_INIT 7 0x100c 6)].
Lemma demo_postable : postable (demo_recv 7 0x100c 6) demo_one.
Proof.
  split; [|apply Nat.ltb_lt; by vm_compute|by vm_compute]. apply Forall_singleton. exists demo_mr. split; [by vm_compute|].
  by apply demo_mr_inside.
Qed.
Lemma mu_recv_cb_immed_correct_witness : wp (mu_recv_cb (demo_packet 0 [1; 2; 3; 4; 5; 6; 7; 8]) (DataBytes [1; 2; 3; 4; 5; 6; 7; 8]))
  (fun rc v' => rc = - E2BIG /\ map (fun x => v_mem v' !! x) [0x900c; 0x900d; 0x900e; 0x900f; 0xa000; 0xa001; 0xa002] =
     [Some 1; Some 2; Some 3; Some 4; Some 5; Some 6; None]) demo_one.
Proof.
  eapply wp_mono.
  - apply (mu_recv_cb_immed_correct (demo_packet 0 [1; 2; 3; 4; 5; 6; 7; 8]) 1 (demo_qp <| qp_rq := [100] |>) (mkCq 15 [] false false)
      [] [] 100 (posted WQES_INIT 7 0x100c 6) (demo_recv 7 0x100c 6) [1; 2; 3; 4; 5; 6; 7; 8] demo_one).
    + done.
    + by vm_compute.
    + by vm_compute.
    + by vm_compute.
    + split; [done|by apply (bool_decide_unpack _)|constructor|done|split_and!; [by vm_compute|done|done]|constructor].
    + done.
    + apply demo_postable.
    + by split.
  - intros rc v' (-> & M & _). split; [by vm_compute|]. rewrite M. by vm_compute.
Defined.
