(* ===== verification/VerbsSend.v ===== *)
(** * One send request

    [bgvrnic_post_send] on an idle queue (bgvrnic_verbs.c): what the data
    mover is asked for, and what becomes of the request with each of its
    answers; then two requests the driver does not check. *)

From S2P Require Import Prelude Chain Bytes Descriptor State Concrete RdmaWrite Transfer Receive VerbsMem Verbs VerbsConcrete VerbsLog VerbsRecv.

Section send.
Context {D : Type} {DM : DataMover D} {K : Kernel} {KL : KernelLaws} {KR : KernelRoomy}.
Abbreviation V := (vnic D).

Lemma alloc_wqe_ok type o q (v : V) : exists a n, v_wqes v !! a = None /\ a <> 0 /\
  bgvrnic_alloc_wqe type o q v = Ok (Some a) (v <| v_calls := n |> <| v_wqes ::=
    <[a := mkWqe q WQES_INIT (match type with WQET_RECV => u32 (-1) | _ => 0 end) 0 type o false 0]> |>).
Proof.
  destruct (valloc_fresh v) as (a & U & Hv). set (v1 := v <| v_calls := S (v_calls v) |>) in Hv.
  assert (X : exists z n, (match type with WQET_RDMA => ret (Some 0) | _ => valloc end) v1 = Ok (Some z) (v <| v_calls := n |>)).
  { destruct type; [destruct (valloc_ok v1) as [z E]; exists z; eexists; exact E..|by eexists _, _]. }
  destruct X as (z & n & E). exists a, n. split; [apply U|]. split; [apply U|].
  unfold bgvrnic_alloc_wqe. erewrite bind_ok by exact Hv. cbv beta iota. erewrite bind_ok by exact E. done.
Qed.

Lemma alter_eq_insert {A} (f : A -> A) (m : gmap Z A) i x : m !! i = Some x -> alter f i m = <[i := f x]> m.
Proof.
  intros E. apply map_eq. intros j. destruct (decide (j = i)) as [->|Hj]; [by rewrite lookup_alter_eq, lookup_insert_eq, E|].
  by rewrite lookup_alter_ne, lookup_insert_ne.
Qed.

(** ** Reference: the request *)

(** The opcodes the driver takes, with the message each one becomes. *)
Definition message_of (op : ib_wr_opcode) : option Z :=
  match op with
  | IB_WR_SEND | IB_WR_SEND_WITH_IMM => Some MUDM_PKT_DATA_REMOTE
  | IB_WR_RDMA_READ => Some MUDM_RDMA_WRITE
  | IB_WR_RDMA_WRITE | IB_WR_RDMA_WRITE_WITH_IMM => Some MUDM_RDMA_READ
  | _ => None
  end.
Definition imm_of (wr : ib_send_wr) : option Z :=
  match sw_opcode wr with IB_WR_SEND_WITH_IMM | IB_WR_RDMA_WRITE_WITH_IMM => Some (sw_imm_data wr) | _ => None end.
Definition is_rdma (op : ib_wr_opcode) : bool :=
  match op with IB_WR_RDMA_READ | IB_WR_RDMA_WRITE | IB_WR_RDMA_WRITE_WITH_IMM => true | _ => false end.

(** The payload names, byte for byte, the memory of the request. *)
Record payload_ok (v : V) (wr : ib_send_wr) (a : Z) (p : ionet_send_remote_payload) : Prop := mkPayok {
  pl_id : rp_RequestID p = a;
  pl_sgl : 1 <= rp_sgl_num p < 58 /\
    mem_bytes (take (Z.to_nat (rp_sgl_num p)) (rp_SGE p)) = parts (fun k => v_mrs v !! k) (sw_sg_list wr);
  pl_len : rp_data_length p = total (sw_sg_list wr);
  pl_flags : rp_flags p = Z.lor (if imm_of wr is Some _ then MUDM_IMMEDIATE_DATA else 0) (if sw_solicited wr then MUDM_SOLICITED else 0);
  pl_imm : forall i, imm_of wr = Some i -> rp_immediate_data p = i;
  pl_rdma : is_rdma (sw_opcode wr) = true -> rp_remote_vaddr p = sw_remote_addr wr /\ rp_rkey p = sw_rkey wr }.

(** The one call of the data mover: the data of a send that lies in one
    piece and fits into a packet, everything else as a message. *)
Definition dm_request (c : nat) (a : Z) (wr : ib_send_wr) (p : ionet_send_remote_payload) : M D Z :=
  match sw_opcode wr with
  | IB_WR_SEND =>
    if (rp_sgl_num p =? 1) && (rp_data_length p <=? MUDM_MAX_PAYLOAD_SIZE)
    then s <- deref (head (rp_SGE p)) ;; dm_send_pkt c a MUDM_PKT_DATA_IMM (physicalAddr s) (memlength s)
    else dm_send_message_remote c MUDM_PKT_DATA_REMOTE p
  | op => match message_of op with Some t => dm_send_message_remote c t p | None => fault end
  end.
Definition dm_answer (r : Z) : Prop := r = 0 \/ r = - ECANCELED \/ r = - EINPROGRESS \/ r = - EBUSY.

Record sendable (v : V) (qp : bgvrnic_qp) (wr : ib_send_wr) : Prop := mkSendable {
  sn_op : is_Some (message_of (sw_opcode wr));
  sn_sge : (1 <= length (sw_sg_list wr))%nat /\ Z.of_nat (length (sw_sg_list wr)) <= max_recv_sge (ia_cap (ib_qp_init_attrs qp));
  sn_read : sw_opcode wr = IB_WR_RDMA_READ -> (length (sw_sg_list wr) <= 1)%nat;
  sn_reg : registered (fun k => v_mrs v !! k) (sw_sg_list wr);
  sn_num : (num_pieces (fun k => v_mrs v !! k) (sw_sg_list wr) < MUDM_MAX_SGE)%nat;
  sn_total : total (sw_sg_list wr) < 2 ^ 31 }.

Definition new_wqe (q : Z) (wr : ib_send_wr) : bgvrnic_wqe :=
  mkWqe q WQES_INIT 0 0 WQET_SEND (WrSend wr) (if imm_of wr is Some _ then true else false) (from_option id 0 (imm_of wr)).

(** ** Building the payload *)

Lemma take_array psge l : take (length psge) (sgl_array psge l) = psge.
Proof. unfold sgl_array. rewrite take_app_le by lia. by rewrite take_ge. Qed.

Lemma xlate_nonempty {S} get_mr usge num (s : S) rc psge n : bgvrnic_xlate_sgl get_mr usge num s = Ok (rc, psge, n) s -> 0 <= rc ->
  (1 <= length usge)%nat -> (1 <= length psge)%nat.
Proof.
  destruct usge as [|u l]; [cbn; lia|]. unfold bgvrnic_xlate_sgl. cbn [xlate_loop]. intros H Hrc _.
  destruct (get_mr (sge_lkey u)) as [mr|]; [|injection H as <- _ _; unfold ENOMEM in Hrc; lia]. binv H out s1 E. apply deref_inv in E as [E ->].
  assert (Ho : (1 <= length out)%nat).
  { unfold xlate_sge in E. destruct (find_sge _ _) as [o [|x y]]; [done|]. destruct (_ >? _); injection E as <-; cbn; lia. }
  cbv zeta in H. cbn [app] in H. destruct (_ <=? _)%nat; [injection H as <- _ _; unfold E2BIG in Hrc; lia|].
  assert (Hp : forall l psge0 acc, xlate_loop get_mr l num psge0 acc s = Ok (rc, psge, n) s -> 0 <= rc -> (length psge0 <= length psge)%nat).
  { clear. induction l as [|u l IH]; intros psge0 acc H Hrc; [by injection H as _ <- _|]. cbn [xlate_loop] in H.
    destruct (get_mr (sge_lkey u)); [|injection H as <- _ _; unfold ENOMEM in Hrc; lia]. binv H out s1 E. apply deref_inv in E as [_ ->].
    cbv zeta in H. destruct (_ <=? _)%nat; [injection H as <- _ _; unfold E2BIG in Hrc; lia|]. apply IH in H; [|done]. rewrite length_app in H. lia. }
  apply Hp in H; [|done]. lia.
Qed.

Lemma send_payload_ok q a wr (v : V) : registered (fun k => v_mrs v !! k) (sw_sg_list wr) ->
  (num_pieces (fun k => v_mrs v !! k) (sw_sg_list wr) < MUDM_MAX_SGE)%nat -> total (sw_sg_list wr) < 2 ^ 31 -> (1 <= length (sw_sg_list wr))%nat ->
  exists p, send_payload a (new_wqe q wr) wr v = Ok p (v <| v_calls := S (v_calls v) |>) /\
    rp_RequestID p = a /\ rp_data_length p = total (sw_sg_list wr) /\ 1 <= rp_sgl_num p < 58 /\
    mem_bytes (take (Z.to_nat (rp_sgl_num p)) (rp_SGE p)) = parts (fun k => v_mrs v !! k) (sw_sg_list wr) /\
    rp_flags p = Z.lor (if imm_of wr is Some _ then MUDM_IMMEDIATE_DATA else 0) (if sw_solicited wr then MUDM_SOLICITED else 0) /\
    forall i, imm_of wr = Some i -> rp_immediate_data p = i.
Proof.
  intros Hr Hn Ht Hs. unfold send_payload. erewrite bind_ok by reflexivity.
  destruct (xlate_fits (fun k => v_mrs v !! k) (sw_sg_list wr) MUDM_MAX_SGE [] 0 (v <| v_calls := S (v_calls v) |>) Hr Hn ltac:(lia) Ht) as (psge & E & M & Lp).
  pose proof (total_nonneg _ _ Hr) as H0. rewrite Z.add_0_l in E. cbn [app] in E.
  pose proof (xlate_nonempty _ _ _ _ _ _ _ E H0 Hs) as Hne.
  assert (Hlt : (length psge < MUDM_MAX_SGE)%nat).
  { pose proof (xlate_loop_spec (fun k => v_mrs v !! k) (sw_sg_list wr) MUDM_MAX_SGE [] 0 (v <| v_calls := S (v_calls v) |>) Hr ltac:(cbn; lia) ltac:(lia) Ht) as W.
    unfold wp in W. unfold bgvrnic_xlate_sgl in E. rewrite E in W. destruct W as (_ & _ & [(A & _)|(_ & _ & A & _)]); [unfold E2BIG in A; lia|done]. }
  erewrite bind_ok by exact E. eexists. split; [reflexivity|].
  assert (Hlen : u32 (total (sw_sg_list wr)) = total (sw_sg_list wr)) by (apply u32_small; lia).
  unfold MUDM_MAX_SGE in Hlt. unfold new_wqe. cbn [w_imm_data_valid w_imm_data].
  destruct (imm_of wr), (sw_solicited wr); cbn; rewrite Hlen, Nat2Z.id, take_array; split_and!; try done; try lia; try (by intros i [= <-]).
Qed.

(** ** The steps of one request *)

Definition with_rdma (wr : ib_send_wr) (p : ionet_send_remote_payload) : ionet_send_remote_payload :=
  if is_rdma (sw_opcode wr) then p <| rp_remote_vaddr := sw_remote_addr wr |> <| rp_rkey := sw_rkey wr |> else p.

Lemma send_request_ok qp c a wr p r d' (v : V) : qp_mu_context qp = Some c -> is_Some (message_of (sw_opcode wr)) ->
  dm_request c a wr (with_rdma wr p) (v_du v) = Ok r d' -> send_request qp a wr p v = Ok (Some r) (v <| v_du := d' |>).
Proof.
  intros Hc [t Ht]. unfold send_request, dm_request, with_rdma. rewrite Hc.
  assert (Hl : forall m : M D Z, m (v_du v) = Ok r d' -> (r <- vlift m ;; ret (Some r)) v = Ok (Some r) (v <| v_du := d' |>)).
  { intros m Hm. unfold bind, vlift, ret. by rewrite Hm. }
  destruct (sw_opcode wr) eqn:Eo; cbn [message_of is_rdma] in *; try done.
  1-2, 4-5: intros H; erewrite bind_ok by reflexivity; by apply Hl.
  destruct (_ && _); intros H; erewrite bind_ok by reflexivity; [|by apply Hl].
  destruct (head (rp_SGE p)) as [s|] eqn:Eh; [|done]. erewrite bind_ok by reflexivity. by apply Hl.
Qed.

Lemma enqueue_state q qp a n u (v : V) : v_qps v !! q = Some qp ->
  v <| v_calls := n |> <| v_wqes ::= u |> <| v_qps ::= alter (enqueue a) q |> =
  v <| v_calls := n |> <| v_wqes := u (v_wqes v) |> <| v_qps := <[q := enqueue a qp]> (v_qps v) |>.
Proof. intros E. rewrite <- (alter_eq_insert (enqueue a) _ _ _ E). by destruct v. Qed.
Lemma wqes_twice n u u' (v : V) : v <| v_calls := n |> <| v_wqes ::= u |> <| v_wqes ::= u' |> = v <| v_calls := n |> <| v_wqes ::= (fun m => u' (u m)) |>.
Proof. by destruct v. Qed.

Lemma enqueue_ok q qp wr (v : V) : v_qps v !! q = Some qp -> is_Some (message_of (sw_opcode wr)) ->
  Z.of_nat (length (sw_sg_list wr)) <= max_recv_sge (ia_cap (ib_qp_init_attrs qp)) ->
  (sw_opcode wr = IB_WR_RDMA_READ -> (length (sw_sg_list wr) <= 1)%nat) ->
  exists a n, v_wqes v !! a = None /\ post_send_loop q 0 [wr] v = Ok (0, None, true)
    (v <| v_calls := n |> <| v_wqes := <[a := new_wqe q wr]> (v_wqes v) |> <| v_qps := <[q := enqueue a qp]> (v_qps v) |>).
Proof.
  intros Eq [t Ht] S2 Sr. destruct (alloc_wqe_ok WQET_SEND (WrSend wr) q v) as (a & n & Hn & _ & Ha). exists a, n. split; [done|].
  cbn [post_send_loop]. erewrite bind_ok by by apply (get_qp_ok q qp). rewrite Z.gtb_ltb, (proj2 (Z.ltb_ge _ _)) by lia.
  erewrite bind_ok by exact Ha. cbv beta iota zeta. change (fun qp => qp <| qp_sq ::= (fun l => l ++ [a]) |>) with (enqueue a).
  assert (Hq : forall u, (upd_qp q (enqueue a) ;;; ret (0, None, true)) (v <| v_calls := n |> <| v_wqes ::= u |>) = Ok (0, @None nat, true)
    (v <| v_calls := n |> <| v_wqes := u (v_wqes v) |> <| v_qps := <[q := enqueue a qp]> (v_qps v) |>)).
  { intros u. erewrite bind_ok by by apply (upd_qp_ok q _ qp). by rewrite (enqueue_state q qp). }
  unfold new_wqe, imm_of. destruct (sw_opcode wr); try first [done|apply Hq|rewrite (proj2 (Nat.ltb_ge _ _) (Sr eq_refl)); apply Hq].
  all: erewrite bind_ok by (eapply upd_wqe_ok; cbn; by rewrite lookup_insert_eq); rewrite wqes_twice, Hq, alter_insert_eq; done.
Qed.

(** [complete_send] with the entry that is done. *)
Definition send_wc (q : Z) (wr : ib_send_wr) (len status : Z) (wc : ib_wc) : Prop :=
  wc_wr_id wc = sw_wr_id wr /\ wc_status wc = status /\ Some (wc_opcode wc) = wc_opcode_of (sw_opcode wr) /\
  wc_byte_len wc = len /\ wc_qp wc = q.
Lemma complete_send_ok q a w wr rc qp c (v : V) : v_wqes v !! a = Some w -> v_qps v !! q = Some qp -> v_cqs v !! qp_scq qp = Some c ->
  is_Some (wc_opcode_of (sw_opcode wr)) -> 0 <= w_status w ->
  exists v', complete_send q a wr rc v = Ok (if signaled qp wr then 0 else rc) v' /\
    v_qps v' = <[q := qp <| qp_sq ::= del a |>]> (v_qps v) /\ v_wqes v' = delete a (v_wqes v) /\ v_du v' = v_du v /\
    if signaled qp wr then exists wc, send_wc q wr (w_length w) (w_status w) wc /\ v_cqs v' = <[qp_scq qp := push_cqe wc c]> (v_cqs v)
    else v_cqs v' = v_cqs v.
Proof.
  intros Ew Eq Ec [op Hop] Hst. unfold complete_send. erewrite bind_ok by by apply (get_qp_ok q qp). erewrite bind_ok by by apply (get_wqe_ok a w).
  assert (Hend : forall (rc : Z) (v1 : V), v_qps v1 = v_qps v -> v_wqes v1 = v_wqes v ->
    (upd_qp q (fun qp => qp <| qp_sq ::= del a |>) ;;; bgvrnic_free_wqe a ;;; ret rc) v1 =
    Ok rc (v1 <| v_qps ::= alter (fun qp => qp <| qp_sq ::= del a |>) q |> <| v_wqes ::= delete a |>)).
  { intros rc1 v1 E1 E2. erewrite bind_ok by (apply (upd_qp_ok q _ qp); by rewrite E1). by erewrite bind_ok by (apply (free_wqe_ok a w); cbn; by rewrite E2). }
  destruct (signaled qp wr).
  - destruct (valloc_ok v) as [x Hx]. destruct wc_codes as (C0 & _).
    assert (exists gen wc, send_wc q wr (w_length w) (w_status w) wc /\ bgvrnic_add_cqe (qp_scq qp) q (Some wr) None (w_length w) (w_status w) (w_imm_data_valid w) (w_imm_data w) v =
      Ok 0 ((if gen : bool then fun v : V => v <| v_trace ::= (fun t => t ++ [EvComp (qp_scq qp)]) |> else fun v => v) (v <| v_calls := S (v_calls v) |> <| v_cqs ::= alter (push_cqe wc) (qp_scq qp) |>)))
      as (gen & wc & Hwc & E).
    { exists (negb (fst (wc_status_of (w_status w)) =? IB_WC_SUCCESS) || cq_next_comp c).
      eexists (mkWc (sw_wr_id wr) (w_status w) op 0 (w_length w) q (qp_num qp) _). split; [by split_and!|].
      unfold bgvrnic_add_cqe. erewrite bind_ok by exact Hx. cbv iota. erewrite bind_ok by by apply (get_qp_ok q qp).
      assert (Es : wc_status_of (w_status w) = (w_status w, 0)).
      { unfold wc_status_of. rewrite C0. destruct (Z.eqb_spec (w_status w) 0) as [->|]; [done|]. by rewrite (proj2 (Z.ltb_ge _ _)). }
      rewrite Es. cbv zeta. cbn [fst]. erewrite bind_ok by (unfold get_cq, bind, gets, deref; cbn; by rewrite Ec). rewrite Hop.
      erewrite bind_ok by reflexivity. cbv beta iota. erewrite bind_ok by (unfold upd_cq, get_cq, bind, gets, deref, modify, ret; cbn; by rewrite Ec).
      by destruct (_ || _). }
    erewrite bind_ok by exact E. eexists. split; [apply Hend; by destruct gen|]. rewrite <- !(alter_eq_insert _ _ _ _ Eq).
    split; [by destruct gen|]. split; [by destruct gen|]. split; [by destruct gen|]. exists wc. split; [done|].
    rewrite <- (alter_eq_insert (push_cqe wc) _ _ _ Ec). by destruct gen.
  - erewrite bind_ok by reflexivity. eexists. split; [by apply Hend|]. by rewrite <- (alter_eq_insert _ _ _ _ Eq).
Qed.

(** ** The request and its answer *)

Definition pending (r : Z) : bool := (r =? - EINPROGRESS) || (r =? - EBUSY).
Definition sent (len r : Z) (w : bgvrnic_wqe) : bgvrnic_wqe :=
  w <| w_length := len |> <| w_status := r |> <| w_state := if r =? - EBUSY then WQES_WAIT else WQES_RUN |>.

Definition mid (v : V) (n : nat) (a : Z) (u : bgvrnic_wqe -> bgvrnic_wqe) (d : D) : V :=
  v <| v_calls := n |> <| v_wqes ::= alter u a |> <| v_du := d |>.
Lemma mid_upd v n a u d w u' : v_wqes v !! a = Some w -> upd_wqe a u' (mid v n a u d) = Ok tt (mid v n a (u' ∘ u) d).
Proof.
  intros E. erewrite upd_wqe_ok; [|cbn; by rewrite lookup_alter_eq, E]. f_equal. unfold mid. destruct v. unfold upd_field. cbn. f_equal.
  by rewrite alter_alter_eq.
Qed.
Lemma mid_get v n a u d w : v_wqes v !! a = Some w -> get_wqe a (mid v n a u d) = Ok (u w) (mid v n a u d).
Proof. intros E. apply get_wqe_ok. cbn. by rewrite lookup_alter_eq, E. Qed.
Lemma mid_du v n a u d d' : (mid v n a u d) <| v_du := d' |> = mid v n a u d'.
Proof. by destruct v. Qed.

(** What one request leaves behind. *)
Definition outcome_ok (q : Z) (qp : bgvrnic_qp) (c : bgvrnic_cq) (wr : ib_send_wr) (len a r : Z) (w : bgvrnic_wqe) (v v' : V) : Prop :=
  if pending r then v_qps v' = v_qps v /\ v_cqs v' = v_cqs v /\ v_wqes v' = <[a := sent len r w]> (v_wqes v)
  else v_qps v' = <[q := qp <| qp_sq ::= del a |>]> (v_qps v) /\ v_wqes v' = delete a (v_wqes v) /\
    if signaled qp wr then exists wc, send_wc q wr len (if r =? 0 then 0 else IB_WC_REM_ABORT_ERR) wc /\ v_cqs v' = <[qp_scq qp := push_cqe wc c]> (v_cqs v)
    else v_cqs v' = v_cqs v.

Section one.
Context (q : Z) (qp : bgvrnic_qp) (c : bgvrnic_cq) (cx : nat) (wr : ib_send_wr).

Lemma send_finish a w n r d (v v2 : V) len rem :
  v_wqes v !! a = Some w -> v_qps v !! q = Some qp -> v_cqs v !! qp_scq qp = Some c -> is_Some (message_of (sw_opcode wr)) ->
  v2 = mid v n a (fun w => w <| w_length := len |> <| w_status := r |>) d -> dm_answer r ->
  exists o v', (wqe <- get_wqe a ;;
    if w_status wqe =? - ECANCELED then
      upd_wqe a (fun w => w <| w_status := IB_WC_REM_ABORT_ERR |> <| w_state := WQES_DONE |>) ;;;
      rc <- complete_send q a wr 0 ;; ret (inl (rc, rem))
    else if w_status wqe =? 0 then
      upd_wqe a (fun w => w <| w_state := WQES_DONE |>) ;;;
      rc <- complete_send q a wr 0 ;; ret (inl (rc, rem))
    else if w_status wqe =? - EINPROGRESS then
      upd_wqe a (fun w => w <| w_state := WQES_RUN |>) ;;; ret (inl (0, u32 (rem + 1)))
    else if w_status wqe =? - EBUSY then
      upd_wqe a (fun w => w <| w_state := WQES_WAIT |>) ;;; ret (inl (0, u32 (rem + 1)))
    else fault) v2 = Ok (A := Z * Z + Z) (inl o) v' /\ v_du v' = d /\ outcome_ok q qp c wr len a r w v v'.
Proof.
  intros Ew Eq Ec [t Ht] -> Hr. destruct wc_codes as (_ & _ & C2 & _). set (u := fun w => w <| w_length := len |> <| w_status := r |>).
  erewrite bind_ok by by apply (mid_get v n a u d w). change (w_status (u w)) with r.
  assert (Hop : is_Some (wc_opcode_of (sw_opcode wr))) by (destruct (sw_opcode wr); done || by eexists).
  assert (Hdone : forall u', 0 <= w_status (u' (u w)) ->
    exists o v', (upd_wqe a u' ;;; rc <- complete_send q a wr 0 ;; ret (inl (rc, rem))) (mid v n a u d) = Ok (A := Z * Z + Z) (inl o) v' /\ v_du v' = d /\
      v_qps v' = <[q := qp <| qp_sq ::= del a |>]> (v_qps v) /\ v_wqes v' = delete a (v_wqes v) /\
      if signaled qp wr then exists wc, send_wc q wr (w_length (u' (u w))) (w_status (u' (u w))) wc /\ v_cqs v' = <[qp_scq qp := push_cqe wc c]> (v_cqs v)
      else v_cqs v' = v_cqs v).
  { intros u' Hs. erewrite bind_ok by by apply (mid_upd v n a u d w).
    destruct (complete_send_ok q a (u' (u w)) wr 0 qp c (mid v n a (u' ∘ u) d)) as (v' & E & E1 & E2 & E3 & E4); [|done..|].
    { cbn. by rewrite lookup_alter_eq, Ew. }
    erewrite bind_ok by exact E. eexists _, v'. split; [reflexivity|]. split; [done|]. split; [done|]. split; [|done].
    rewrite E2. cbn. by rewrite delete_alter_eq. }
  assert (Hkeep : forall u', exists v', (upd_wqe a u' ;;; ret (inl (0, u32 (rem + 1)))) (mid v n a u d) = Ok (A := Z * Z + Z) (inl (0, u32 (rem + 1))) v' /\
    v_du v' = d /\ v_qps v' = v_qps v /\ v_cqs v' = v_cqs v /\ v_wqes v' = <[a := u' (u w)]> (v_wqes v)).
  { intros u'. erewrite bind_ok by by apply (mid_upd v n a u d w). eexists. split; [reflexivity|]. split_and!; try done. cbn.
    by rewrite (alter_eq_insert _ _ _ _ Ew). }
  unfold outcome_ok. destruct Hr as [->|[->|[->| ->]]].
  - destruct (Hdone (fun w => w <| w_state := WQES_DONE |>)) as (o & v' & E & Hv); [cbn; lia|].
    exists o, v'. split; [exact E|exact Hv].
  - destruct (Hdone (fun w => w <| w_status := IB_WC_REM_ABORT_ERR |> <| w_state := WQES_DONE |>)) as (o & v' & E & Hv); [cbn; lia|].
    exists o, v'. split; [exact E|exact Hv].
  - destruct (Hkeep (fun w => w <| w_state := WQES_RUN |>)) as (v' & E & Hv). by eexists _, v'.
  - destruct (Hkeep (fun w => w <| w_state := WQES_WAIT |>)) as (v' & E & Hv). by eexists _, v'.
Qed.

Lemma payload_final a p (v : V) : rp_RequestID p = a -> rp_data_length p = total (sw_sg_list wr) -> 1 <= rp_sgl_num p < 58 ->
  mem_bytes (take (Z.to_nat (rp_sgl_num p)) (rp_SGE p)) = parts (fun k => v_mrs v !! k) (sw_sg_list wr) ->
  rp_flags p = Z.lor (if imm_of wr is Some _ then MUDM_IMMEDIATE_DATA else 0) (if sw_solicited wr then MUDM_SOLICITED else 0) ->
  (forall i, imm_of wr = Some i -> rp_immediate_data p = i) -> payload_ok v wr a (with_rdma wr p).
Proof. intros A B C E F G. unfold with_rdma. destruct (is_rdma (sw_opcode wr)) eqn:Ei; split; try done; by rewrite Ei. Qed.

Lemma send_wqe_with a p r d (v : V) : v_qps v !! q = Some qp -> v_cqs v !! qp_scq qp = Some c -> v_wqes v !! a = Some (new_wqe q wr) ->
  qp_mu_context qp = Some cx -> is_Some (message_of (sw_opcode wr)) ->
  send_payload a (new_wqe q wr) wr v = Ok p (v <| v_calls := S (v_calls v) |>) -> 0 <= rp_data_length p ->
  dm_request cx a wr (with_rdma wr p) (v_du v) = Ok r d -> dm_answer r ->
  exists o v', send_wqe q a 0 0 v = Ok (inl o) v' /\ v_du v' = d /\ outcome_ok q qp c wr (rp_data_length p) a r (new_wqe q wr) v v'.
Proof.
  intros Eq Ec Ew Hcx Hop E Hlen Hd Hr. set (w := new_wqe q wr) in *. set (n := S (v_calls v)) in *.
  destruct (send_finish a w n r d v (mid v n a (fun w => w <| w_length := rp_data_length p |> <| w_status := r |>) d) (rp_data_length p) 0 Ew Eq Ec Hop eq_refl Hr)
    as (o & v' & Ef & Hv & Ho).
  exists o, v'. split; [|done].
  unfold send_wqe. erewrite bind_ok by by apply (get_qp_ok q qp). erewrite bind_ok by by apply (get_wqe_ok a w).
  erewrite bind_ok by reflexivity. erewrite bind_ok by exact E. rewrite (proj2 (Z.ltb_ge _ _)) by lia.
  erewrite bind_ok by (apply (upd_wqe_ok a _ w); exact Ew).
  change (v <| v_calls := n |> <| v_wqes ::= alter (fun w => w <| w_length := rp_data_length p |>) a |>) with
    (mid v n a (fun w => w <| w_length := rp_data_length p |>) (v_du v)).
  erewrite bind_ok by (apply (send_request_ok qp cx); [done|done|exact Hd]). rewrite mid_du. cbv beta iota.
  erewrite bind_ok by by apply (mid_upd v n a _ d w). cbv zeta. exact Ef.
Qed.
End one.

(** One request on an idle queue: it is enqueued and sent. *)
Lemma post_send_idle q qp wr a n (v v1 : V) : v_qps v !! q = Some qp -> qp_state (ib_qp_attrs qp) = IB_QPS_RTS -> qp_sq qp = [] ->
  post_send_loop q 0 [wr] v = Ok (0, None, true) v1 ->
  v1 = v <| v_calls := n |> <| v_wqes := <[a := new_wqe q wr]> (v_wqes v) |> <| v_qps := <[q := enqueue a qp]> (v_qps v) |> ->
  bgvrnic_post_send q [wr] v = match send_wqe q a 0 0 v1 with Ok _ v2 => Ok (0, None) v2 | Fault => Fault | Hang => Hang end.
Proof.
  intros Eq Hst Hsq E ->. assert (Hsq1 : qp_sq (enqueue a qp) = [a]) by (unfold enqueue; cbn; by rewrite Hsq).
  unfold bgvrnic_post_send. erewrite bind_ok by by apply (get_qp_ok q qp). rewrite bool_decide_true by done. cbn [negb].
  erewrite bind_ok by exact E. cbv beta iota. unfold bgvrnic_process_send_wqes, bind at 1 2.
  erewrite bind_ok by (apply (get_qp_ok q (enqueue a qp)); apply lookup_insert_eq). rewrite Hsq1. cbn [send_wqes_loop].
  erewrite bind_ok by (apply (get_wqe_ok a (new_wqe q wr)); apply lookup_insert_eq). cbn [new_wqe w_state].
  unfold bind. by destruct (send_wqe _ _ _ _ _) as [[[rc rem]|r] v2| |].
Qed.

(** C14: a request on an idle, connected queue pair is accepted and handed to
    the data mover once, with a payload that names, byte for byte, the
    registered memory of its scatter-gather list, and with its immediate
    data, flags and remote address.  When the data mover is done with it (0),
    or has given it up (-ECANCELED), it leaves the queue with at most one
    completion, success or an aborted request; when it is under way or has to
    be tried again it stays, as running or as waiting. *)
Theorem post_send_correct q qp c cx wr (v : V) : v_qps v !! q = Some qp -> v_cqs v !! qp_scq qp = Some c -> qp_state (ib_qp_attrs qp) = IB_QPS_RTS ->
  qp_mu_context qp = Some cx -> qp_sq qp = [] -> sendable v qp wr ->
  (forall a p, payload_ok v wr a p -> exists r d, dm_request cx a wr p (v_du v) = Ok r d /\ dm_answer r) ->
  wp (bgvrnic_post_send q [wr]) (fun res v' => res = (0, None) /\ exists a p r d,
    v_wqes v !! a = None /\ payload_ok v wr a p /\ dm_request cx a wr p (v_du v) = Ok r d /\ v_du v' = d /\
    if pending r then v_qps v' = <[q := qp <| qp_sq := [a] |>]> (v_qps v) /\ v_cqs v' = v_cqs v /\
      v_wqes v' = <[a := sent (total (sw_sg_list wr)) r (new_wqe q wr)]> (v_wqes v)
    else v_qps v' = v_qps v /\ v_wqes v' = v_wqes v /\
      if signaled qp wr then exists wc, send_wc q wr (total (sw_sg_list wr)) (if r =? 0 then 0 else IB_WC_REM_ABORT_ERR) wc /\ v_cqs v' = <[qp_scq qp := push_cqe wc c]> (v_cqs v)
      else v_cqs v' = v_cqs v) v.
Proof.
  intros Eq Ec Hst Hcx Hsq Hs Hdm. destruct (enqueue_ok q qp wr v Eq) as (a & n & Hn & E); [apply Hs|apply Hs|apply Hs|].
  match type of E with _ = Ok _ ?x => set (v1 := x) in * end. assert (Hsq1 : qp_sq (enqueue a qp) = [a]) by (unfold enqueue; cbn; by rewrite Hsq).
  assert (Eq1 : v_qps v1 !! q = Some (enqueue a qp)) by apply lookup_insert_eq.
  assert (Ew1 : v_wqes v1 !! a = Some (new_wqe q wr)) by apply lookup_insert_eq.
  assert (Hs1 : sendable v1 (enqueue a qp) wr) by (destruct Hs; by split).
  assert (Hpl : forall p, payload_ok v1 wr a p -> payload_ok v wr a p) by (intros p []; by split).
  destruct (send_payload_ok q a wr v1 (sn_reg _ _ _ Hs) (sn_num _ _ _ Hs) (sn_total _ _ _ Hs) (proj1 (sn_sge _ _ _ Hs))) as (p & Ep & P1 & P2 & P3 & P4 & P5 & P6).
  pose proof (Hpl _ (payload_final wr a p v1 P1 P2 P3 P4 P5 P6)) as Hp. destruct (Hdm _ _ Hp) as (r & d & Hd & Hr).
  pose proof (total_nonneg _ _ (sn_reg _ _ _ Hs)).
  destruct (send_wqe_with q (enqueue a qp) c cx wr a p r d v1 Eq1 Ec Ew1 Hcx (sn_op _ _ _ Hs) Ep ltac:(lia) Hd Hr) as ([rc rem] & v' & Eo & Hv & Ho).
  rewrite P2 in Ho.
  eapply wp_intro with (s' := v').
  - by rewrite (post_send_idle q qp wr a n v v1 Eq Hst Hsq E eq_refl), Eo.
  - split; [done|]. exists a, (with_rdma wr p), r, d. split; [done|]. split; [done|]. split; [done|]. split; [done|].
    unfold outcome_ok in Ho. destruct (pending r).
    + destruct Ho as (-> & -> & ->). unfold v1. cbn. rewrite insert_insert_eq. split_and!; [|done|done]. f_equal. destruct qp. cbn in Hsq. by subst.
    + destruct Ho as (-> & -> & Ho). unfold v1. cbn. rewrite insert_insert_eq, delete_insert_id by done. split_and!; [|done|exact Ho].
      assert (Hdel : del a [a] = []) by (apply del_head; set_solver).
      rewrite insert_id; [done|]. rewrite Eq. apply (f_equal Some). destruct qp. cbn in Hsq. subst. exact (f_equal (fun l => mkQp _ _ _ _ _ _ _ _ l _) (eq_sym Hdel)).
Qed.

(** ** Two requests the driver does not check *)

(** C33: a request whose memory key is not registered is not refused: the
    error code becomes the length, 2^32 - 12 bytes in 58 pieces that are what
    the stack holds, this is handed to the data mover, and the user is told
    that the request was accepted. *)
Theorem post_send_unregistered q qp c cx wr u t (v : V) : v_qps v !! q = Some qp -> v_cqs v !! qp_scq qp = Some c ->
  qp_state (ib_qp_attrs qp) = IB_QPS_RTS -> qp_mu_context qp = Some cx -> qp_sq qp = [] -> sw_sg_list wr = [u] ->
  v_mrs v !! sge_lkey u = None -> message_of (sw_opcode wr) = Some t -> 1 <= max_recv_sge (ia_cap (ib_qp_init_attrs qp)) ->
  (forall p, exists r d, dm_send_message_remote cx t p (v_du v) = Ok r d /\ dm_answer r) ->
  wp (bgvrnic_post_send q [wr]) (fun res v' => res = (0, None) /\ exists p n r,
    rp_data_length p = 2 ^ 32 - ENOMEM /\ rp_sgl_num p = 58 /\ rp_SGE p = rp_SGE (stack_payload n) /\
    dm_send_message_remote cx t p (v_du v) = Ok r (v_du v')) v.
Proof.
  intros Eq Ec Hst Hcx Hsq Hu Hm Ht Hmax Hdm.
  destruct (enqueue_ok q qp wr v Eq) as (a & n & Hn & E); [by eexists|by rewrite Hu|by rewrite Hu; cbn; lia|].
  match type of E with _ = Ok _ ?x => set (v1 := x) in * end.
  assert (Ep : exists p, send_payload a (new_wqe q wr) wr v1 = Ok p (v1 <| v_calls := S (v_calls v1) |>) /\
    rp_data_length p = 2 ^ 32 - ENOMEM /\ rp_sgl_num p = 58 /\ rp_SGE p = rp_SGE (stack_payload n)).
  { unfold send_payload, xlate_sgl, bgvrnic_xlate_sgl. rewrite Hu. cbn [xlate_loop].
    unfold bind, vcall, gets, modify, ret. cbn. unfold bind, gets, ret. cbn. rewrite Hm. eexists. split; [reflexivity|].
    by destruct (imm_of wr), (sw_solicited wr). }
  destruct Ep as (p & Ep & P1 & P2 & P3).
  assert (Q : rp_data_length (with_rdma wr p) = 2 ^ 32 - ENOMEM /\ rp_sgl_num (with_rdma wr p) = 58 /\ rp_SGE (with_rdma wr p) = rp_SGE (stack_payload n)).
  { unfold with_rdma. by destruct (is_rdma _). }
  destruct (Hdm (with_rdma wr p)) as (r & d & Hd & Hr).
  assert (Hreq : dm_request cx a wr (with_rdma wr p) (v_du v1) = Ok r d).
  { unfold dm_request. destruct Q as (_ & -> & _). cbn [Z.eqb andb]. destruct (sw_opcode wr); cbn in Ht |- *; try done; by injection Ht as ->. }
  destruct (send_wqe_with q (enqueue a qp) c cx wr a p r d v1) as ([rc rem] & v' & Eo & Hv & _);
    [apply lookup_insert_eq|done|apply lookup_insert_eq|done|by eexists|exact Ep|by rewrite P1|exact Hreq|done|].
  eapply wp_intro with (s' := v'); [by rewrite (post_send_idle q qp wr a n v v1 Eq Hst Hsq E eq_refl), Eo|].
  split; [done|]. exists (with_rdma wr p), n, r. destruct Q as (Q1 & Q2 & Q3). by rewrite Hv.
Qed.
End send.

(** Over bgmudm, a request with an empty scatter-gather list brings the
    node down: the data mover refuses it with -EFAULT, an answer for which
    the driver has no case but [BUG]. *)
Theorem post_send_empty_fault P {K : Kernel} {KL : KernelLaws} {KR : KernelRoomy} q qp cx wr (v : vnic world) :
  v_qps v !! q = Some qp -> qp_state (ib_qp_attrs qp) = IB_QPS_RTS -> qp_mu_context qp = Some cx -> qp_sq qp = [] ->
  sw_sg_list wr = [] -> is_Some (message_of (sw_opcode wr)) -> 0 <= max_recv_sge (ia_cap (ib_qp_init_attrs qp)) ->
  bgvrnic_post_send (DM := mudm_mover P) q [wr] v = Fault.
Proof.
  intros Eq Hst Hcx Hsq Hu Hop Hmax.
  destruct (enqueue_ok q qp wr v Eq Hop) as (a & n & Hn & E); [by rewrite Hu|by rewrite Hu; cbn; lia|].
  match type of E with _ = Ok _ ?x => set (v1 := x) in * end. rewrite (post_send_idle q qp wr a n v v1 Eq Hst Hsq E eq_refl).
  assert (Eq1 : v_qps v1 !! q = Some (enqueue a qp)) by apply lookup_insert_eq.
  assert (Ew1 : v_wqes v1 !! a = Some (new_wqe q wr)) by apply lookup_insert_eq.
  assert (Ep : exists p, send_payload a (new_wqe q wr) wr v1 = Ok p (v1 <| v_calls := S (v_calls v1) |>) /\ rp_data_length p = 0 /\ rp_sgl_num p = 0).
  { unfold send_payload, xlate_sgl, bgvrnic_xlate_sgl. rewrite Hu. eexists. split; [reflexivity|]. by destruct (w_imm_data_valid _), (sw_solicited wr). }
  destruct Ep as (p & Ep & P1 & P2).
  assert (Q : rp_sgl_num (with_rdma wr p) = 0) by (unfold with_rdma; by destruct (is_rdma _)).
  assert (Hreq : dm_request (DM := mudm_mover P) cx a wr (with_rdma wr p) (v_du v1) = Ok (- EFAULT) (v_du v1)).
  { unfold dm_request. rewrite Q. cbn [Z.eqb andb]. destruct Hop as [t Ht]. destruct (sw_opcode wr); cbn in Ht |- *; try done;
      unfold mudm_send_message_remote; by rewrite Q. }
  unfold send_wqe. erewrite bind_ok by by apply (get_qp_ok q _). erewrite bind_ok by by apply (get_wqe_ok a _).
  erewrite bind_ok by reflexivity. erewrite bind_ok by exact Ep. rewrite P1. cbn [Z.ltb Z.compare].
  erewrite bind_ok by (apply (upd_wqe_ok a _ (new_wqe q wr)); exact Ew1).
  change (v1 <| v_calls := S (v_calls v1) |> <| v_wqes ::= alter (fun w => w <| w_length := 0 |>) a |>) with
    (mid v1 (S (v_calls v1)) a (fun w => w <| w_length := 0 |>) (v_du v1)).
  erewrite bind_ok by (apply (send_request_ok (enqueue a qp) cx); [done|done|exact Hreq]). rewrite mid_du. cbv beta iota.
  erewrite bind_ok by by apply (mid_upd v1 _ a _ _ (new_wqe q wr)). cbv zeta.
  by erewrite bind_ok by by apply (mid_get v1 _ a _ _ (new_wqe q wr)).
Qed.

(** ** Examples *)

Lemma demo_registered addr len (v : vnic (list Z)) : v_mrs v = {[5 := demo_mr]} -> 0x1000 <= addr < 0x1018 -> 0 <= len <= 0x1018 - addr ->
  registered (fun k => v_mrs v !! k) [mkSge addr len 5].
Proof. intros -> A B. apply Forall_singleton. exists demo_mr. split; [by vm_compute|apply demo_mr_inside; lia]. Qed.
Lemma demo_parts_nonempty addr len p (v : vnic (list Z)) a wr : v_mrs v = {[5 := demo_mr]} -> 0x1000 <= addr < 0x1018 -> 0 < len <= 0x1018 - addr ->
  sw_sg_list wr = [mkSge addr len 5] -> payload_ok v wr a p -> is_Some (head (rp_SGE p)).
Proof.
  intros Hm A B Es [_ [_ P] _ _ _ _]. destruct (rp_SGE p) as [|s l]; [|by eexists]. rewrite take_nil, Es in P.
  pose proof (length_parts (fun k => v_mrs v !! k) [mkSge addr len 5] (demo_registered addr len v Hm A ltac:(lia))) as L.
  rewrite <- P in L. cbn in L. lia.
Qed.

(** A send of four bytes that stays under way, and one that fails. *)
Definition demo_wr : ib_send_wr := demo_send 21 0x1000 4 IB_WR_SEND.
Lemma demo_sendable r : sendable (demo_vnic [r] : vnic (list Z)) demo_qp demo_wr.
Proof.
  split; [by eexists|split; [done|by vm_compute]|done| |apply Nat.ltb_lt; by vm_compute|by vm_compute].
  apply (demo_registered 0x1000 4 (demo_vnic [r])); [done|lia..].
Qed.
Lemma demo_request r a p : payload_ok (demo_vnic [r] : vnic (list Z)) demo_wr a p -> dm_request 0%nat a demo_wr p [r] = Ok r [].
Proof.
  intros H. destruct (demo_parts_nonempty 0x1000 4 p (demo_vnic [r]) a demo_wr eq_refl ltac:(lia) ltac:(lia) eq_refl H) as [s Hs].
  unfold dm_request. cbn [sw_opcode demo_wr demo_send]. rewrite Hs. by destruct (_ && _).
Qed.
Lemma post_send_correct_witness :
  wp (bgvrnic_post_send 1 [demo_wr]) (fun res v' => res = (0, None) /\ (exists a, v_wqes v' = {[a := sent 4 (- EINPROGRESS) (new_wqe 1 demo_wr)]}) /\ v_cqs v' = v_cqs (demo_vnic [- EINPROGRESS])) (demo_vnic [- EINPROGRESS]) /\
  wp (bgvrnic_post_send 1 [demo_wr]) (fun res v' => res = (0, None) /\ v_wqes v' = ∅ /\
    exists wc, send_wc 1 demo_wr 4 IB_WC_REM_ABORT_ERR wc /\ v_cqs v' = {[2 := push_cqe wc (mkCq 15 [] false false)]}) (demo_vnic [- ECANCELED]).
Proof.
  split; (eapply wp_mono;
    [apply (post_send_correct 1 demo_qp (mkCq 15 [] false false) 0 demo_wr); try (by vm_compute); [apply demo_sendable|];
     intros a p H; eexists _, _; (split; [exact (demo_request _ a p H)|]); unfold dm_answer; tauto|]);
  intros res v' (-> & a & p & r & d & _ & H & E & _ & C); pose proof (eq_trans (eq_sym E) (demo_request _ a p H)) as E'; injection E' as -> ->; (split; [done|]);
  cbn in C; destruct C as (_ & C1 & C2).
  - split; [exists a; exact C2|exact C1].
  - split; [exact C1|]. destruct C2 as (wc & H1 & H2). exists wc. split; [exact H1|]. by rewrite H2, insert_singleton_eq.
Defined.

(** Key 6 is not registered. *)
Definition demo_bad : ib_send_wr := mkSendWr 22 [mkSge 0x1000 4 6] IB_WR_SEND true false 0 0 0.
Lemma post_send_unregistered_witness : wp (bgvrnic_post_send 1 [demo_bad]) (fun res v' => res = (0, None) /\ exists p n r,
    rp_data_length p = 2 ^ 32 - ENOMEM /\ rp_sgl_num p = 58 /\ rp_SGE p = rp_SGE (stack_payload n) /\
    dm_send_message_remote 0%nat MUDM_PKT_DATA_REMOTE p [- EINPROGRESS] = Ok r (v_du v')) (demo_vnic [- EINPROGRESS]).
Proof.
  apply (post_send_unregistered 1 demo_qp (mkCq 15 [] false false) 0 demo_bad (mkSge 0x1000 4 6) MUDM_PKT_DATA_REMOTE (demo_vnic [- EINPROGRESS]));
    try (by vm_compute).
  intros p. exists (- EINPROGRESS), []. split; [reflexivity|unfold dm_answer; tauto].
Defined.

Definition demo_empty : ib_send_wr := mkSendWr 23 [] IB_WR_SEND true false 0 0 0.
Lemma post_send_empty_fault_witness (P := demo_platform) :
  bgvrnic_post_send (DM := mudm_mover P) 1 [demo_empty] (demo_vnic demo_world) = Fault.
Proof.
  apply (post_send_empty_fault P 1 demo_qp 0 demo_empty (demo_vnic demo_world)); [reflexivity..|by eexists|by vm_compute].
Defined.
