(* ===== verification/VerbsCm.v ===== *)
(** * Connections of queue pairs

    What the operations of bgvrnic_cm.c do (the model is in VerbsConn), one
    by one, and the handshake of two queue pairs on two nodes. *)

From S2P Require Import Prelude Chain Bytes Descriptor State Connect VerbsMem Verbs VerbsConn VerbsConcrete VerbsLog VerbsRecv VerbsSend.

(** ** Messages *)

(** What both sides use of a message. *)
Record connect_view := mkCview {
  cv_source_qpn : Z; cv_dest_qpn : Z; cv_source : sockaddr_in; cv_dest : sockaddr_in; cv_request_id : Z; cv_status : Z }.
Definition view_connect (msg : list Z) : connect_view :=
  mkCview (rd sb_source_qpn msg) (rd sb_dest_qpn msg) (mkAddr (rd ic_source_IP4 msg) (rd ic_source_port msg))
    (mkAddr (rd ic_dest_IP4 msg) (rd ic_dest_port msg)) (rd ic_source_request_id msg) (rd ic_status msg).
Definition port32 (a : sockaddr_in) : sockaddr_in := mkAddr (u32 (sin_addr a)) (u32 (sin_port a)).

Lemma length_fill_connect sq dq s d i st msg : length msg = SIZEOF_ionet_connect ->
  length (fill_connect sq dq s d i st msg) = SIZEOF_ionet_connect.
Proof. unfold SIZEOF_ionet_connect. intros H. unfold fill_connect. wr_len. Qed.
Lemma view_fill_connect sq dq s d i st msg : length msg = SIZEOF_ionet_connect ->
  view_connect (fill_connect sq dq s d i st msg) = mkCview (u16 sq) (u16 dq) (port32 s) (port32 d) (u64 i) (u32 st).
Proof.
  unfold SIZEOF_ionet_connect. intros H. unfold view_connect, fill_connect, port32. cbv zeta.
  assert (E : forall x n, (x mod n) mod n = x mod n) by (intros; apply Zmod_mod).
  f_equal; [| |f_equal|f_equal|..]; repeat rd_step; first [apply E|reflexivity].
Qed.

Section cm.
Context {D : Type} {CM : ConnMover D} {K : Kernel} {KL : KernelLaws} {C : CmKernel} {CL : CmKernelLaws}.
Abbreviation V := (vnic D).

(** ** Primitive actions *)

Lemma get_cep_ok a c (v : V) : v_cep v !! a = Some c -> get_cep a v = Ok c v.
Proof. intros E. unfold get_cep, bind, gets. by rewrite E. Qed.
Lemma upd_cep_ok a u c (v : V) : v_cep v !! a = Some c -> upd_cep a u v = Ok tt (v <| v_cep ::= alter u a |>).
Proof. intros E. unfold upd_cep. by erewrite bind_ok by by apply (get_cep_ok a c). Qed.
Lemma unlink_cep_ok a c (v : V) : v_cep v !! a = Some c -> unlink_cep a v = Ok tt (v <| v_ceps ::= del a |>).
Proof. intros E. unfold unlink_cep. by erewrite bind_ok by by apply (get_cep_ok a c). Qed.
Lemma kfree_cep_ok a c (v : V) : v_cep v !! a = Some c -> kfree_cep a v = Ok tt (v <| v_cep ::= delete a |>).
Proof. intros E. unfold kfree_cep. by erewrite bind_ok by by apply (get_cep_ok a c). Qed.
Lemma get_cm_id_ok i id (v : V) : v_cm_ids v !! i = Some id -> get_cm_id i v = Ok id v.
Proof. intros E. unfold get_cm_id, bind, gets. by rewrite E. Qed.
Lemma set_provider_ok i p id (v : V) : v_cm_ids v !! i = Some id ->
  set_provider i p v = Ok tt (v <| v_cm_ids ::= alter (fun id => id <| provider_data := p |>) i |>).
Proof. intros E. unfold set_provider, upd_cm_id. by erewrite bind_ok by by apply (get_cm_id_ok i id). Qed.
Lemma new_connect_ok sq dq s d i st n : exists msg, length msg = SIZEOF_ionet_connect /\
  view_connect msg = mkCview (u16 sq) (u16 dq) (port32 s) (port32 d) (u64 i) (u32 st) /\
  forall v : V, v_calls v = n -> new_connect sq dq s d i st v = Ok msg (v <| v_calls := S n |>).
Proof.
  exists (fill_connect sq dq s d i st (stack_connect n)). split; [by apply length_fill_connect, stack_connect_length|].
  split; [by apply view_fill_connect, stack_connect_length|]. by intros v <-.
Qed.
Lemma event_handler_ok i e id (v : V) : v_cm_ids v !! i = Some id ->
  event_handler i e v = Ok (cm_event_handler (v_calls v)) (v <| v_trace ::= (fun t => t ++ [EvCm i e]) |> <| v_calls := S (v_calls v) |>).
Proof. intros E. unfold event_handler. by erewrite bind_ok by by apply (get_cm_id_ok i id). Qed.
Definition wakes (q r : Z) : list vevent := if r =? 0 then [EvWakeUp q] else [].
Lemma rem_ref_ok q qp (v : V) : v_qps v !! q = Some qp -> bgvrnic_rem_ref q v =
  Ok tt (v <| v_qps ::= alter (fun qp => qp <| qp_references ::= (fun r => r - 1) |>) q |> <| v_trace ::= (fun t => t ++ wakes q (qp_references qp - 1)) |>).
Proof.
  intros E. unfold bgvrnic_rem_ref. erewrite bind_ok by by apply (upd_qp_ok q _ qp).
  erewrite bind_ok by (apply get_qp_ok; cbn; by rewrite lookup_alter_eq, E). cbn. unfold wakes.
  destruct (_ =? 0); [done|]. unfold when, ret. f_equal. destruct v. unfold upd_field. cbn. by rewrite app_nil_r.
Qed.

(** ** Connecting *)

(** The list of CEPs holds exactly those that are allocated. *)
Record cep_wf (v : V) : Prop := mkCepWf { cw_NoDup : NoDup (v_ceps v); cw_list : forall a, a ∈ v_ceps v <-> is_Some (v_cep v !! a) }.
Lemma cep_wf_fresh v a : cep_wf v -> v_cep v !! a = None -> a ∉ v_ceps v.
Proof. intros [_ H] E [x Hx]%H. congruence. Qed.

Definition set_context (ctx : option nat) (qp : bgvrnic_qp) : bgvrnic_qp := match ctx with Some c => qp <| qp_mu_context := Some c |> | None => qp end.
Definition request_view (id : iw_cm_id) (p : iw_cm_conn_param) (q : Z) : connect_view :=
  mkCview (u16 (cp_qpn p)) (u16 MUDM_UNKNOWN_QPN) (port32 (local_addr id)) (port32 (remote_addr id)) (u64 q) 0.

(** What a connection attempt leaves behind. *)
Record connecting_state (cm_id : Z) (p : iw_cm_conn_param) (id : iw_cm_id) (q : Z) (qp : bgvrnic_qp) (v : V) (a : Z) (ctx : option nat) (v' : V) : Prop := mkConnecting {
  cs_qps : v_qps v' = <[q := set_context ctx qp <| qp_cm_id := Some cm_id |> <| qp_references := qp_references qp + 1 |>]> (v_qps v);
  cs_cep : v_cep v' = <[a := connecting q (cp_qpn p) (dest_of_IP (sin_addr (remote_addr id)))]> (v_cep v);
  cs_ceps : v_ceps v' = v_ceps v ++ [a];
  cs_ids : v_cm_ids v' = <[cm_id := id <| provider_data := Some a |>]> (v_cm_ids v);
  cs_trace : v_trace v' = v_trace v ++ [EvAddRef cm_id];
  cs_pool : v_qp_pool v' = v_qp_pool v }.
(** Everything is as before but the pointers to the CM ID and the endpoint,
    which are unset, and the context of the data mover. *)
Record undone_state (cm_id : Z) (id : iw_cm_id) (q : Z) (qp : bgvrnic_qp) (v : V) (ctx : option nat) (v' : V) : Prop := mkUndone {
  us_qps : v_qps v' = <[q := set_context ctx qp <| qp_cm_id := None |>]> (v_qps v);
  us_cep : v_cep v' = v_cep v; us_ceps : v_ceps v' = v_ceps v;
  us_ids : v_cm_ids v' = <[cm_id := id <| provider_data := None |>]> (v_cm_ids v);
  us_trace : v_trace v' = v_trace v ++ [EvAddRef cm_id; EvRemRef cm_id] ++ wakes q (qp_references qp);
  us_pool : v_qp_pool v' = v_qp_pool v }.

Lemma del_last a l : a ∉ l -> del a (l ++ [a]) = l.
Proof. intros H. unfold del. rewrite list.filter_app. cbn. rewrite decide_False by tauto. rewrite app_nil_r. by apply del_notin. Qed.

Lemma undo_ok cm_id p id q qp v a ctx v1 (rc : Z) : v_qps v !! q = Some qp -> v_cm_ids v !! cm_id = Some id -> v_cep v !! a = None -> a ∉ v_ceps v ->
  connecting_state cm_id p id q qp v a ctx v1 -> exists v',
  (set_provider cm_id None ;;; vemit (EvRemRef cm_id) ;;; upd_qp q (fun qp => qp <| qp_cm_id := None |>) ;;; bgvrnic_rem_ref q ;;;
   unlink_cep a ;;; kfree_cep a ;;; ret rc) v1 = Ok rc v' /\ v_du v' = v_du v1 /\ undone_state cm_id id q qp v ctx v'.
Proof.
  intros Eq Ei Ha Hc [Q1 Q2 Q3 Q4 Q5 Q6]. eexists. split.
  - erewrite bind_ok by (eapply set_provider_ok; by rewrite Q4, lookup_insert_eq). erewrite bind_ok by reflexivity.
    erewrite bind_ok by (eapply (upd_qp_ok q); cbn; by rewrite Q1, lookup_insert_eq).
    erewrite bind_ok by (eapply rem_ref_ok; cbn; by rewrite Q1, lookup_alter_eq, lookup_insert_eq).
    erewrite bind_ok by (eapply unlink_cep_ok; cbn; by rewrite Q2, lookup_insert_eq).
    erewrite bind_ok by (eapply kfree_cep_ok; cbn; by rewrite Q2, lookup_insert_eq). reflexivity.
  - split; [done|]. split; cbn.
    + rewrite Q1, !alter_insert_eq. f_equal. destruct ctx, qp; unfold set_context, upd_field; cbn; f_equal; lia.
    + by rewrite Q2, delete_insert_id.
    + rewrite Q3. by apply del_last.
    + by rewrite Q4, alter_insert_eq.
    + rewrite Q5, <- !app_assoc. do 4 f_equal. f_equal. destruct ctx; cbn; lia.
    + done.
Qed.

Lemma connect_ok cm_id p id q qp v a : kmalloc (v_calls v) (in_use v) = Some a -> cep_wf v -> v_cm_ids v !! cm_id = Some id -> v_qp_pool v !! cp_qpn p = Some q ->
  v_qps v !! q = Some qp -> cp_private_data_len p <= MUDM_MAX_PRIVATE_DATA ->
  exists req, v_cep v !! a = None /\ length req = SIZEOF_ionet_connect /\ view_connect req = request_view id p q /\
    forall rc ctx d, dm_connect (dest_of_IP (sin_addr (remote_addr id))) req (cp_private_data p) (cp_private_data_len p) (v_du v) = Ok (rc, ctx) d ->
    exists v', bgvrnic_connect cm_id p v = Ok rc v' /\ v_du v' = d /\
      if rc =? 0 then connecting_state cm_id p id q qp v a ctx v' else undone_state cm_id id q qp v ctx v'.
Proof.
  intros Ea W Ei Ep Eq Hl. pose proof (un_cep _ _ (kmalloc_unused v a Ea)) as Ha.
  destruct (new_connect_ok (cp_qpn p) MUDM_UNKNOWN_QPN (local_addr id) (remote_addr id) q 0 (S (v_calls v))) as (req & Lr & Vr & Er).
  exists req. split; [done|]. split; [done|]. split; [exact Vr|]. intros rc ctx d Hd.
  unfold bgvrnic_connect. erewrite bind_ok by apply valloc_eq. rewrite Ea. cbv beta iota. erewrite bind_ok by reflexivity. cbv zeta.
  rewrite Z.gtb_ltb, (proj2 (Z.ltb_ge _ _)) by done.
  erewrite bind_ok by (unfold bgvrnic_get_qp, gets; cbn; by rewrite Ep). cbv iota.
  erewrite bind_ok by by apply (get_cm_id_ok cm_id id). erewrite bind_ok by reflexivity.
  erewrite bind_ok by (by apply (upd_qp_ok q _ qp)).
  erewrite bind_ok by (apply (upd_qp_ok q _ (qp <| qp_cm_id := Some cm_id |>)); cbn; by rewrite lookup_alter_eq, Eq).
  erewrite bind_ok by (apply (upd_cep_ok a _ zero_cep); cbn; by rewrite lookup_insert_eq).
  erewrite bind_ok by reflexivity.
  erewrite bind_ok by (by apply (set_provider_ok cm_id _ id)).
  erewrite bind_ok by by apply Er.
  erewrite bind_ok by (unfold vlift; cbn; rewrite Hd; reflexivity). cbv beta iota.
  match goal with |- exists v', bind _ _ ?x = _ /\ _ => set (v1 := x) end.
  assert (X : exists v2, (match ctx with Some c => upd_qp q (fun qp0 => qp0 <| qp_mu_context := Some c |>) | None => ret tt end) v1 = Ok tt v2 /\
    v_du v2 = d /\ connecting_state cm_id p id q qp v a ctx v2).
  { destruct ctx as [c|]; eexists; (split; [first [reflexivity|apply (upd_qp_ok q _ (qp <| qp_cm_id := Some cm_id |> <| qp_references := qp_references qp + 1 |>));
      subst v1; cbn; by rewrite !lookup_alter_eq, Eq]|]); (split; [done|]); split; subst v1; cbn; try done.
    all: try (by rewrite alter_insert_eq). all: try (by rewrite (alter_eq_insert _ _ _ _ Ei)).
    all: by rewrite (alter_eq_insert _ _ _ _ Eq), !alter_insert_eq. }
  destruct X as (v2 & E2 & Hd2 & S2). erewrite bind_ok by exact E2. destruct (Z.eqb_spec rc 0) as [->|Hrc]; cbn [negb].
  - exists v2. by split.
  - destruct (undo_ok cm_id p id q qp v a ctx v2 rc) as (v' & E' & D' & U'); [done..|by apply cep_wf_fresh|done|].
    exists v'. split; [exact E'|]. by rewrite D'.
Qed.

(** ** Messages that arrive *)

(** The message [sent], with the private data [pd], as the data mover of the
    receiving node hands it on. *)
Record arrives (type node : Z) (sent : connect_view) (pd msg : list Z) : Prop := mkArrives {
  ar_length : length msg = (SIZEOF_ionet_connect + length pd)%nat;
  ar_type : rd sb_type msg = type;
  ar_node : rd sb_torus_source_node msg = node;
  ar_view : view_connect msg = sent;
  ar_pd : rd ic_private_data_length msg = Z.of_nat (length pd) /\ drop SIZEOF_ionet_connect msg = pd }.

Definition private (pd : list Z) : option (list Z) := match pd with [] => None | _ => Some pd end.

Lemma read_field_ok f msg (v : V) : (f_end f <= length msg)%nat -> read_field f msg v = Ok (rd f msg) v.
Proof. intros H. unfold read_field. by rewrite decide_True. Qed.
Lemma private_data_ok type node sent pd msg (v : V) : arrives type node sent pd msg -> private_data_of msg v = Ok (private pd) v.
Proof.
  intros [L _ _ _ [P1 P2]]. unfold private_data_of. erewrite bind_ok by (apply read_field_ok; rewrite L; cbn; lia).
  rewrite P1. destruct pd as [|x pd]; [done|]. rewrite (proj2 (Z.eqb_neq _ _)) by (cbn; lia).
  erewrite bind_ok by (unfold read_bytes; rewrite decide_True by (rewrite L, Nat2Z.id; lia); reflexivity).
  unfold slice. rewrite P2, Nat2Z.id, take_ge by lia. done.
Qed.

(** The first listener in the list that takes a request. *)
Definition takes (v : V) (address dest_port : Z) (b : bool) (l i : Z) : Prop :=
  v_listener v !! l = Some i /\ exists id, v_cm_ids v !! i = Some id /\ listens address dest_port id = b.
Definition picks (v : V) (address dest_port : Z) (o : option Z) : Prop :=
  match o with
  | Some i => exists pre l post, v_listeners v = pre ++ l :: post /\ takes v address dest_port true l i /\
      Forall (fun l => exists i, takes v address dest_port false l i) pre
  | None => Forall (fun l => exists i, takes v address dest_port false l i) (v_listeners v)
  end.
Lemma find_listener_skip v address dest_port l rest i : takes v address dest_port false l i ->
  find_listener address dest_port (l :: rest) v = find_listener address dest_port rest v.
Proof.
  intros (A & id & B & E). cbn [find_listener]. erewrite bind_ok by reflexivity. rewrite A. erewrite bind_ok by reflexivity.
  erewrite bind_ok by by apply (get_cm_id_ok i id). by rewrite E.
Qed.
Lemma find_listener_ok v address dest_port o : picks v address dest_port o -> find_listener address dest_port (v_listeners v) v = Ok o v.
Proof.
  assert (S : forall pre rest, Forall (fun l => exists i, takes v address dest_port false l i) pre ->
    find_listener address dest_port (pre ++ rest) v = find_listener address dest_port rest v).
  { induction 1 as [|l pre [i Hi] _ IH]; [done|]. cbn [app]. by rewrite (find_listener_skip _ _ _ _ _ i). }
  destruct o as [i|]; cbn [picks].
  - intros (pre & l & post & -> & (A & id & B & E) & F). rewrite S by done. cbn [find_listener]. erewrite bind_ok by reflexivity.
    rewrite A. erewrite bind_ok by reflexivity. erewrite bind_ok by by apply (get_cm_id_ok i id). by rewrite E.
  - intros F. rewrite <- (app_nil_r (v_listeners v)). by rewrite S.
Qed.

(** The address of the listener an event names. *)
Definition local_of (id : iw_cm_id) (dest_port n : Z) : sockaddr_in :=
  if sin_addr (local_addr id) =? INADDR_ANY then mkAddr n (u16 dest_port) else local_addr id.
(** A request that found the CM ID [i]. *)
Record requested (ctx : nat) (node : Z) (sent : connect_view) (pd : list Z) (i : Z) (id : iw_cm_id) (v : V) (a : Z) (e : iw_cm_event) (v' : V) : Prop := mkRequested {
  rq_event : exists n, e = mkCmEvent IW_CM_EVENT_CONNECT_REQUEST 0 (local_of id (sin_port (cv_dest sent)) n)
    (mkAddr (sin_addr (cv_source sent)) (u16 (sin_port (cv_source sent)))) (private pd) (Some a);
  rq_cep : v_cep v' = <[a := mkCep None (Some ctx) (cv_dest_qpn sent) node (cv_request_id sent) (cv_source_qpn sent) CEP_CONNECTING]> (v_cep v);
  rq_ceps : v_ceps v' = v_ceps v ++ [a];
  rq_trace : v_trace v' = v_trace v ++ [EvCm i e];
  rq_rest : v_qps v' = v_qps v /\ v_cm_ids v' = v_cm_ids v /\ v_du v' = v_du v /\ v_qp_pool v' = v_qp_pool v }.

Lemma request_ok {KR : KernelRoomy} ctx node sent pd msg o v : arrives MUDM_CONN_REQUEST node sent pd msg ->
  picks v (sin_addr (cv_dest sent)) (sin_port (cv_dest sent)) o ->
  match o with
  | Some i => forall id, v_cm_ids v !! i = Some id -> exists a e n v', v_cep v !! a = None /\
      mu_connect_cb ctx msg v = Ok (cm_event_handler n) v' /\ requested ctx node sent pd i id v a e v'
  | None => exists rsp, length rsp = SIZEOF_ionet_connect /\
      view_connect rsp = mkCview (u16 (cv_dest_qpn sent)) (u16 (cv_source_qpn sent)) (port32 (cv_dest sent)) (port32 (cv_source sent)) (u64 (cv_request_id sent)) (u32 (- ECONNREFUSED)) /\
      forall r d, dm_conn_reply ctx rsp None 0 (v_du v) = Ok r d -> mu_connect_cb ctx msg v = Ok 0 (v <| v_calls := S (v_calls v) |> <| v_du := d |>)
  end.
Proof.
  intros A Hp. pose proof A as [L T N Vw _]. unfold mu_connect_cb.
  assert (R : forall f (v : V), (f_end f <= 72)%nat -> read_field f msg v = Ok (rd f msg) v).
  { intros f v0 Hf. apply read_field_ok. rewrite L. unfold SIZEOF_ionet_connect. lia. }
  erewrite bind_ok by (apply R; cbn; lia). rewrite T. cbn [Z.eqb MUDM_CONN_REQUEST Pos.eqb]. unfold conn_request.
  subst sent node. cbn [view_connect cv_dest cv_source sin_addr sin_port cv_dest_qpn cv_source_qpn cv_request_id] in *.
  do 2 erewrite bind_ok by (apply R; cbn; lia). erewrite bind_ok by reflexivity. erewrite bind_ok by by apply find_listener_ok.
  do 6 erewrite bind_ok by (apply R; cbn; lia). destruct o as [i|].
  - intros id Ei. destruct (valloc_fresh v) as (a & U & Ea). erewrite bind_ok by exact Ea. cbv beta iota.
    do 2 erewrite bind_ok by reflexivity. erewrite bind_ok by by apply (get_cm_id_ok i id).
    match goal with |- context [bind _ _ ?x] => set (v1 := x) end.
    assert (X : exists n v2, (if sin_addr (local_addr id) =? INADDR_ANY then n <- vcall ;; ret (mkAddr (inet_select_addr n) (u16 (rd ic_dest_port msg)))
       else ret (local_addr id)) v1 = Ok (local_of id (rd ic_dest_port msg) n) v2 /\ exists c, v2 = v1 <| v_calls := c |>).
    { unfold local_of. destruct (_ =? _); eexists (inet_select_addr (S (v_calls v))), _; (split; [reflexivity|]).
      - by eexists.
      - exists (v_calls v1). by destruct v. }
    destruct X as (n & v2 & E2 & c & ->). erewrite bind_ok by exact E2. erewrite bind_ok by (by eapply private_data_ok).
    rewrite (event_handler_ok i _ id) by done. exists a. do 3 eexists. split; [apply U|]. split; [reflexivity|].
    split; cbn; [by exists n|done..].
  - destruct (new_connect_ok (rd sb_dest_qpn msg) (rd sb_source_qpn msg) (mkAddr (rd ic_dest_IP4 msg) (rd ic_dest_port msg))
      (mkAddr (rd ic_source_IP4 msg) (rd ic_source_port msg)) (rd ic_source_request_id msg) (- ECONNREFUSED) (v_calls v)) as (rsp & Lr & Vr & Er).
    exists rsp. split; [done|]. split; [exact Vr|]. intros r d Hd. erewrite bind_ok by by apply Er.
    erewrite bind_ok by (unfold vlift; cbn; rewrite Hd; reflexivity). done.
Qed.

(** ** Accepting *)

Definition accepted_qp (cm_id : Z) (c : bgvrnic_cep) (qp : bgvrnic_qp) : bgvrnic_qp :=
  set_qp_state IB_QPS_RTS (qp <| qp_cm_id := Some cm_id |>)
    <| ib_qp_attrs ::= (fun a => a <| dest_qp_num := cep_remote_qpn c |>) |> <| qp_mu_context := cep_mu_context c |>.
Definition established (id : iw_cm_id) (p : iw_cm_conn_param) : iw_cm_event :=
  mkCmEvent IW_CM_EVENT_ESTABLISHED 0 (local_addr id) (remote_addr id) (cp_private_data p) None.
Definition reply_view (id : iw_cm_id) (p : iw_cm_conn_param) (c : bgvrnic_cep) : connect_view :=
  mkCview (u16 (cp_qpn p)) (u16 (cep_source_qpn c)) (port32 (local_addr id)) (port32 (remote_addr id)) (u64 (cep_remote_request_id c)) 0.

Record accepted_state (cm_id : Z) (p : iw_cm_conn_param) (id : iw_cm_id) (q : Z) (qp : bgvrnic_qp) (b : Z) (c : bgvrnic_cep) (v v' : V) : Prop := mkAccepted {
  as_qps : v_qps v' = <[q := accepted_qp cm_id c qp]> (v_qps v);
  as_cep : v_cep v' = <[b := c <| cep_vrnic_qp := Some q |> <| cep_state := CEP_CONNECTED |>]> (v_cep v);
  as_rest : v_ceps v' = v_ceps v /\ v_cm_ids v' = v_cm_ids v /\ v_qp_pool v' = v_qp_pool v;
  as_trace : v_trace v' = v_trace v ++ [EvAddRef cm_id; EvCm cm_id (established id p)] }.
(** The endpoint is gone; the queue pair has lost its CM ID but not its
    state. *)
Record accept_failed (cm_id : Z) (id : iw_cm_id) (q : Z) (qp : bgvrnic_qp) (b : Z) (c : bgvrnic_cep) (evs : list vevent) (v v' : V) : Prop := mkFailed {
  af_qps : v_qps v' = <[q := (accepted_qp cm_id c qp) <| qp_cm_id := None |>]> (v_qps v);
  af_cep : v_cep v' = delete b (v_cep v); af_ceps : v_ceps v' = del b (v_ceps v);
  af_ids : v_cm_ids v' = <[cm_id := id <| provider_data := None |>]> (v_cm_ids v);
  af_trace : v_trace v' = v_trace v ++ [EvAddRef cm_id] ++ evs ++ [EvRemRef cm_id] }.

(** The state in which the reply is sent, and the way out when it fails. *)
Record accepting (cm_id q : Z) (qp : bgvrnic_qp) (b : Z) (c : bgvrnic_cep) (evs : list vevent) (v v1 : V) : Prop := mkAccepting {
  ac_qps : v_qps v1 = <[q := accepted_qp cm_id c qp]> (v_qps v);
  ac_cep : v_cep v1 = <[b := c <| cep_vrnic_qp := Some q |> <| cep_state := CEP_CONNECTED |>]> (v_cep v);
  ac_rest : v_ceps v1 = v_ceps v /\ v_cm_ids v1 = v_cm_ids v /\ v_qp_pool v1 = v_qp_pool v;
  ac_trace : v_trace v1 = v_trace v ++ [EvAddRef cm_id] ++ evs }.
Lemma accept_out_ok cm_id id q qp b c evs (rc : Z) v v1 : v_cm_ids v !! cm_id = Some id -> v_cep v !! b = Some c ->
  accepting cm_id q qp b c evs v v1 -> exists v',
  (upd_qp q (fun qp => qp <| qp_cm_id := None |>) ;;; vemit (EvRemRef cm_id) ;;; (unlink_cep b ;;; set_provider cm_id None ;;; kfree_cep b) ;;; ret rc) v1 =
    Ok rc v' /\ v_du v' = v_du v1 /\ accept_failed cm_id id q qp b c evs v v'.
Proof.
  intros Ei Ec [Q1 Q2 (Q3 & Q4 & Q5) Q6]. eexists. split.
  - erewrite bind_ok by (eapply (upd_qp_ok q); by rewrite Q1, lookup_insert_eq). erewrite bind_ok by reflexivity.
    erewrite bind_ok; [reflexivity|]. erewrite bind_ok by (eapply unlink_cep_ok; cbn; by rewrite Q2, lookup_insert_eq).
    erewrite bind_ok by (eapply set_provider_ok; cbn; by rewrite Q4). eapply kfree_cep_ok. cbn. by rewrite Q2, lookup_insert_eq.
  - split; [done|]. split; cbn.
    + by rewrite Q1, alter_insert_eq.
    + by rewrite Q2, delete_insert_eq.
    + by rewrite Q3.
    + by rewrite Q4, (alter_eq_insert _ _ _ _ Ei).
    + by rewrite Q6, <- !app_assoc.
Qed.

Lemma accept_ok cm_id p id q qp b c ctx v : v_cm_ids v !! cm_id = Some id -> v_qp_pool v !! cp_qpn p = Some q -> v_qps v !! q = Some qp ->
  cp_private_data_len p <= MUDM_MAX_PRIVATE_DATA -> provider_data id = Some b -> v_cep v !! b = Some c -> cep_mu_context c = Some ctx ->
  exists rsp, length rsp = SIZEOF_ionet_connect /\ view_connect rsp = reply_view id p c /\
    forall r d, dm_conn_reply ctx rsp (cp_private_data p) (u16 (cp_private_data_len p)) (v_du v) = Ok r d -> exists n v',
      let h := cm_event_handler n in
      bgvrnic_accept cm_id p v = Ok (if r =? 0 then h else r) v' /\ v_du v' = d /\
      if (r =? 0) && (h =? 0) then accepted_state cm_id p id q qp b c v v'
      else accept_failed cm_id id q qp b c (if r =? 0 then [EvCm cm_id (established id p)] else []) v v'.
Proof.
  intros Ei Ep Eq Hl Hb Ec Hctx.
  destruct (new_connect_ok (cp_qpn p) (cep_source_qpn c) (local_addr id) (remote_addr id) (cep_remote_request_id c) 0 (v_calls v)) as (rsp & Lr & Vr & Er).
  exists rsp. split; [done|]. split; [exact Vr|]. intros r d Hd. exists (S (v_calls v)). cbv zeta.
  unfold bgvrnic_accept. erewrite bind_ok by reflexivity. rewrite Ep. erewrite bind_ok by by apply (get_cm_id_ok cm_id id). cbv zeta.
  rewrite Z.gtb_ltb, (proj2 (Z.ltb_ge _ _)) by done. rewrite Hb. erewrite bind_ok by reflexivity.
  erewrite bind_ok by by apply (get_cep_ok b c). erewrite bind_ok by by apply (upd_cep_ok b _ c).
  erewrite bind_ok by by apply (upd_qp_ok q _ qp). erewrite bind_ok by reflexivity.
  erewrite bind_ok by (eapply (upd_qp_ok q); cbn; by rewrite lookup_alter_eq, Eq).
  erewrite bind_ok by (eapply (upd_cep_ok b); cbn; by rewrite lookup_alter_eq, Ec).
  erewrite bind_ok by by apply Er. rewrite Hctx. erewrite bind_ok by reflexivity.
  erewrite bind_ok by (unfold vlift; cbn; rewrite Hd; reflexivity).
  match goal with |- exists v', (if _ then _ else _) ?x = _ /\ _ => set (v1 := x) end.
  assert (S1 : accepting cm_id q qp b c [] v v1).
  { split; subst v1; cbn; rewrite ?(alter_eq_insert _ _ _ _ Eq), ?(alter_eq_insert _ _ _ _ Ec), ?alter_insert_eq; try done. by rewrite <- Hctx. }
  assert (Hn : v_calls v1 = S (v_calls v)) by done. assert (Hd1 : v_du v1 = d) by done. assert (Ei1 : v_cm_ids v1 !! cm_id = Some id) by done. clearbody v1. subst d.
  destruct (Z.eqb_spec r 0) as [->|Hr]; cbn [negb andb].
  - erewrite bind_ok by (apply (event_handler_ok cm_id _ id); exact Ei1). rewrite Hn.
    match goal with |- context [(if _ then _ else _) ?x = _] => set (v2 := x) end.
    assert (S2 : accepting cm_id q qp b c [EvCm cm_id (established id p)] v v2).
    { destruct S1 as [Q1 Q2 Q3 Q4]. split; try done. cbn. by rewrite Q4, <- app_assoc. }
    destruct (_ =? 0) eqn:Eh; cbn [negb].
    + exists v2. split; [done|]. split; [done|]. by destruct S2.
    + change (v_du v1) with (v_du v2). by apply (accept_out_ok cm_id id).
  - by apply (accept_out_ok cm_id id).
Qed.

(** ** Replies *)

(** The endpoint a reply is given to: the first with its request. *)
Record finds (v : V) (id a : Z) (c : bgvrnic_cep) : Prop := mkFinds {
  fd_split : exists pre post, v_ceps v = pre ++ a :: post /\
    Forall (fun x => exists cx, v_cep v !! x = Some cx /\ cep_remote_request_id cx <> id) pre;
  fd_cep : v_cep v !! a = Some c; fd_id : cep_remote_request_id c = id }.
Lemma find_cep_ok v id a c : finds v id a c -> find_cep id (v_ceps v) v = Ok (Some a) v.
Proof.
  intros [(pre & post & -> & F) Ea <-]. induction F as [|x pre (cx & Ex & Hx) _ IH]; cbn [app find_cep].
  - erewrite bind_ok by by apply (get_cep_ok a c). by rewrite Z.eqb_refl.
  - erewrite bind_ok by by apply (get_cep_ok x cx). by rewrite (proj2 (Z.eqb_neq _ _)).
Qed.

Definition reply_event (sent : connect_view) (pd : list Z) (a : Z) : iw_cm_event :=
  mkCmEvent IW_CM_EVENT_CONNECT_REPLY (s32 (cv_status sent)) (mkAddr (sin_addr (cv_dest sent)) (u16 (sin_port (cv_dest sent))))
    (mkAddr (sin_addr (cv_source sent)) (u16 (sin_port (cv_source sent)))) (private pd) (Some a).
(** The queue pair after the event, whose handler answered [h]. *)
Definition replied (sent : connect_view) (h : Z) (qp : bgvrnic_qp) : bgvrnic_qp :=
  let qp := qp <| ib_qp_attrs ::= (fun a => a <| dest_qp_num := cv_dest_qpn sent |>) |> in
  (if h =? 0 then set_qp_state IB_QPS_RTS qp else qp) <| qp_references ::= (fun r => r - 1) |>.
Record replied_state (sent : connect_view) (pd : list Z) (a q : Z) (qp : bgvrnic_qp) (i : Z) (id : iw_cm_id) (h : Z) (v v' : V) : Prop := mkReplied {
  rs_qps : v_qps v' = <[q := replied sent h qp]> (v_qps v);
  rs_cep : v_cep v' = delete a (v_cep v); rs_ceps : v_ceps v' = del a (v_ceps v);
  rs_ids : v_cm_ids v' = <[i := id <| provider_data := None |>]> (v_cm_ids v);
  rs_trace : v_trace v' = v_trace v ++ [EvCm i (reply_event sent pd a)] ++ wakes q (qp_references qp - 1);
  rs_rest : v_du v' = v_du v /\ v_qp_pool v' = v_qp_pool v }.

(** The endpoint of a reply is released. *)
Lemma release_ok a c q qp i id (h : Z) (v : V) : v_cm_ids v !! i = Some id -> v_qps v !! q = Some qp -> v_cep v !! a = Some c ->
  (set_provider i None ;;; bgvrnic_rem_ref q ;;; upd_cep a (fun c => c <| cep_vrnic_qp := None |>) ;;; unlink_cep a ;;; kfree_cep a ;;; ret h) v =
  Ok h (v <| v_cm_ids := <[i := id <| provider_data := None |>]> (v_cm_ids v) |> <| v_qps := <[q := qp <| qp_references ::= (fun r => r - 1) |>]> (v_qps v) |>
    <| v_trace ::= (fun t => t ++ wakes q (qp_references qp - 1)) |> <| v_cep ::= delete a |> <| v_ceps ::= del a |>).
Proof.
  intros Ei Eq Ec. erewrite bind_ok by by apply (set_provider_ok i None id). erewrite bind_ok by by apply (rem_ref_ok q qp).
  erewrite bind_ok by by apply (upd_cep_ok a _ c). erewrite bind_ok by (eapply unlink_cep_ok; cbn; by rewrite lookup_alter_eq, Ec).
  erewrite bind_ok by (eapply kfree_cep_ok; cbn; by rewrite lookup_alter_eq, Ec).
  rewrite <- (alter_eq_insert (fun id => id <| provider_data := None |>) _ _ _ Ei), <- (alter_eq_insert (fun qp => qp <| qp_references ::= (fun r => r - 1) |>) _ _ _ Eq).
  unfold ret. f_equal. destruct v. unfold upd_field. cbn. f_equal. by rewrite delete_alter_eq.
Qed.

Lemma reply_ok ctx node sent pd msg v a c q qp i id : arrives MUDM_CONN_REPLY node sent pd msg -> finds v (cv_request_id sent) a c ->
  cep_vrnic_qp c = Some q -> v_qps v !! q = Some qp -> qp_cm_id qp = Some i -> v_cm_ids v !! i = Some id ->
  exists v', mu_connect_cb ctx msg v = Ok (cm_event_handler (v_calls v)) v' /\
    replied_state sent pd a q qp i id (cm_event_handler (v_calls v)) v v'.
Proof.
  intros A Hf Hq Eq Hi Ei. pose proof A as [L T N Vw _]. pose proof (fd_cep _ _ _ _ Hf) as Ec. unfold mu_connect_cb.
  assert (R : forall f (v : V), (f_end f <= 72)%nat -> read_field f msg v = Ok (rd f msg) v).
  { intros f v0 Hf'. apply read_field_ok. rewrite L. unfold SIZEOF_ionet_connect. lia. }
  erewrite bind_ok by (apply R; cbn; lia). rewrite T. cbn [Z.eqb MUDM_CONN_REQUEST MUDM_CONN_REPLY Pos.eqb]. unfold conn_reply.
  subst sent node. cbn [view_connect cv_dest cv_source sin_addr sin_port cv_dest_qpn cv_source_qpn cv_request_id] in *.
  erewrite bind_ok by (apply R; cbn; lia). erewrite bind_ok by reflexivity. erewrite bind_ok by by apply (find_cep_ok v _ a c). cbv iota.
  do 5 erewrite bind_ok by (apply R; cbn; lia). erewrite bind_ok by (by eapply private_data_ok).
  erewrite bind_ok by by apply (get_cep_ok a c). rewrite Hq. erewrite bind_ok by reflexivity. erewrite bind_ok by by apply (get_qp_ok q qp).
  rewrite Hi. erewrite bind_ok by reflexivity. erewrite bind_ok by (apply R; cbn; lia). erewrite bind_ok by by apply (upd_qp_ok q _ qp).
  erewrite bind_ok by (apply (event_handler_ok i _ id); exact Ei).
  match goal with |- context [cm_event_handler ?x] => change x with (v_calls v) end. set (h := cm_event_handler (v_calls v)).
  match goal with |- exists v', bind _ _ ?x = _ /\ _ => set (v1 := x) end.
  assert (X : exists v2 c2, when (h =? 0) (upd_cep a (fun c => c <| cep_state := CEP_CONNECTED |>) ;;; upd_qp q (set_qp_state IB_QPS_RTS)) v1 = Ok tt v2 /\
    v_cep v2 !! a = Some c2 /\ delete a (v_cep v2) = delete a (v_cep v) /\
    v_qps v2 = <[q := let qp := qp <| ib_qp_attrs ::= (fun a => a <| dest_qp_num := rd sb_dest_qpn msg |>) |> in
      if h =? 0 then set_qp_state IB_QPS_RTS qp else qp]> (v_qps v) /\ v_ceps v2 = v_ceps v /\ v_cm_ids v2 = v_cm_ids v /\
    v_trace v2 = v_trace v1 /\ v_du v2 = v_du v /\ v_qp_pool v2 = v_qp_pool v).
  { destruct (h =? 0); cbn [when].
    - do 2 eexists. split; [|split; [|split]].
      + erewrite bind_ok by by apply (upd_cep_ok a _ c). eapply (upd_qp_ok q). cbn. by rewrite lookup_alter_eq, Eq.
      + cbn. by rewrite lookup_alter_eq, Ec.
      + cbn. by rewrite delete_alter_eq.
      + split; [|done]. cbn. by rewrite (alter_eq_insert _ _ _ _ Eq), alter_insert_eq.
    - exists v1, c. split; [done|]. split; [done|]. split; [done|]. split; [|done]. cbn. by rewrite (alter_eq_insert _ _ _ _ Eq). }
  destruct X as (v2 & c2 & E2 & B1 & B2 & B3 & B4 & B5 & B6 & B7 & B8). erewrite bind_ok by exact E2. cbv zeta in B3.
  erewrite release_ok; [|by rewrite B5|by rewrite B3, lookup_insert_eq|exact B1].
  eexists. split; [reflexivity|]. split; cbn.
  - rewrite B3, insert_insert_eq. unfold replied. cbn. by destruct (h =? 0).
  - exact B2.
  - by rewrite B4.
  - by rewrite B5.
  - rewrite B6. subst v1. cbn. rewrite <- app_assoc. by destruct (h =? 0).
  - done.
Qed.

(** ** Theorems *)

(** The connection attempt of a queue pair the node has. *)
Definition attempted (cm_id : Z) (p : iw_cm_conn_param) (id : iw_cm_id) (q a : Z) (v : V) (rc : Z) (v' : V) : Prop := exists qp req ctx,
  v_qps v !! q = Some qp /\ v_cep v !! a = None /\ view_connect req = request_view id p q /\
  dm_connect (dest_of_IP (sin_addr (remote_addr id))) req (cp_private_data p) (cp_private_data_len p) (v_du v) = Ok (rc, ctx) (v_du v') /\
  if rc =? 0 then connecting_state cm_id p id q qp v a ctx v' else undone_state cm_id id q qp v ctx v'.

Lemma connect_refused cm_id p v a : kmalloc (v_calls v) (in_use v) = Some a ->
  MUDM_MAX_PRIVATE_DATA < cp_private_data_len p \/ v_qp_pool v !! cp_qpn p = None ->
  bgvrnic_connect cm_id p v = Ok (- EINVAL) (v <| v_calls := S (v_calls v) |>).
Proof.
  intros Ea H. pose proof (un_cep _ _ (kmalloc_unused v a Ea)) as Ha. unfold bgvrnic_connect.
  erewrite bind_ok by apply valloc_eq. rewrite Ea. cbv beta iota. erewrite bind_ok by reflexivity. cbv zeta. rewrite Z.gtb_ltb.
  assert (F : (kfree_cep a ;;; ret (- EINVAL)) (v <| v_calls := S (v_calls v) |> <| v_cep ::= <[a := zero_cep]> |>) = Ok (- EINVAL) (v <| v_calls := S (v_calls v) |>)).
  { erewrite bind_ok by (apply (kfree_cep_ok a zero_cep); cbn; apply lookup_insert_eq). unfold ret. f_equal. destruct v. unfold upd_field. cbn. f_equal.
    by apply delete_insert_id. }
  destruct (Z.ltb_spec MUDM_MAX_PRIVATE_DATA (cp_private_data_len p)) as [Hl|Hl]; [exact F|]. destruct H as [H|H]; [lia|].
  erewrite bind_ok by (unfold bgvrnic_get_qp, gets; cbn; by rewrite H). exact F.
Qed.

(** C29: [bgvrnic_connect] either starts one connection, with an endpoint on
    the list that names the queue pair, a reference to the queue pair and the
    CM ID pointing at the endpoint, and a request that carries its addresses
    and the address of the queue pair; or, when the data mover refuses, frees
    the endpoint, drops the two references and unsets the pointers to the CM
    ID and to the endpoint, while the queue pair keeps the context
    [mudm_connect] stored in it.  With an unknown queue pair or too much
    private data, or without memory for the endpoint, it changes nothing and
    says so. *)
Theorem connect_correct cm_id p id v : cep_wf v -> v_cm_ids v !! cm_id = Some id ->
  (forall q, v_qp_pool v !! cp_qpn p = Some q -> is_Some (v_qps v !! q)) ->
  (forall req, exists r d, dm_connect (dest_of_IP (sin_addr (remote_addr id))) req (cp_private_data p) (cp_private_data_len p) (v_du v) = Ok r d) ->
  wp (bgvrnic_connect cm_id p) (fun rc v' =>
    match kmalloc (v_calls v) (in_use v), v_qp_pool v !! cp_qpn p with
    | None, _ => rc = - ENOMEM /\ v' = v <| v_calls := S (v_calls v) |>
    | Some a, Some q =>
      if cp_private_data_len p <=? MUDM_MAX_PRIVATE_DATA then attempted cm_id p id q a v rc v'
      else rc = - EINVAL /\ v' = v <| v_calls := S (v_calls v) |>
    | Some _, None => rc = - EINVAL /\ v' = v <| v_calls := S (v_calls v) |>
    end) v.
Proof.
  intros W Ei Hq Hdm. destruct (kmalloc (v_calls v) (in_use v)) as [a|] eqn:Ea.
  2: { eapply wp_intro; [unfold bgvrnic_connect; erewrite bind_ok by apply valloc_eq; rewrite Ea; reflexivity|done]. }
  destruct (v_qp_pool v !! cp_qpn p) as [q|] eqn:Ep; [|eapply wp_intro; [by eapply connect_refused; [|right]|done]].
  destruct (Z.leb_spec (cp_private_data_len p) MUDM_MAX_PRIVATE_DATA) as [Hl|Hl]; [|eapply wp_intro; [by eapply connect_refused; [|left]|done]].
  destruct (Hq q eq_refl) as [qp Eq]. destruct (connect_ok cm_id p id q qp v a Ea W Ei Ep Eq Hl) as (req & Ha & _ & Vr & H).
  destruct (Hdm req) as ([rc ctx] & d & Hd). destruct (H rc ctx d Hd) as (v' & E & Hd' & S). eapply wp_intro; [exact E|].
  exists qp, req, ctx. by rewrite Hd'.
Qed.

(** The CM ID that the CM core makes of a connection request. *)
Definition core_cm_id (e : iw_cm_event) : iw_cm_id := mkCmId (ev_local e) (ev_remote e) (ev_provider_data e).
Definition new_cm_id (i : Z) (e : iw_cm_event) (v : V) : V := v <| v_cm_ids ::= <[i := core_cm_id e]> |>.

(** A queue pair that can send. *)
Definition connected (cm_id : Z) (ctx : nat) (qp : bgvrnic_qp) : Prop :=
  qp_state (ib_qp_attrs qp) = IB_QPS_RTS /\ qp_mu_context qp = Some ctx /\ qp_cm_id qp = Some cm_id.

(** The two ends of a connection: the node that asks for it, and the node
    that is asked.  [il] is the listener there and [cm2] the CM ID of the new
    connection. *)
Record client := mkClient { cl_v : V; cl_cm : Z; cl_id : iw_cm_id; cl_param : iw_cm_conn_param; cl_q : Z; cl_qp : bgvrnic_qp; cl_ctx : nat }.
Record server := mkServer { sv_v : V; sv_il : Z; sv_idl : iw_cm_id; sv_cm2 : Z; sv_param : iw_cm_conn_param; sv_q : Z; sv_qp : bgvrnic_qp; sv_ctx : nat }.
Record client_ok (c : client) : Prop := mkClientOk {
  co_wf : cep_wf (cl_v c); co_id : v_cm_ids (cl_v c) !! cl_cm c = Some (cl_id c);
  co_pool : v_qp_pool (cl_v c) !! cp_qpn (cl_param c) = Some (cl_q c); co_qp : v_qps (cl_v c) !! cl_q c = Some (cl_qp c);
  co_pd : cp_private_data_len (cl_param c) <= MUDM_MAX_PRIVATE_DATA; co_range : 0 <= cl_q c < 2 ^ 64;
  co_alone : forall x e, v_cep (cl_v c) !! x = Some e -> cep_remote_request_id e <> cl_q c;
  co_refs : 0 < qp_references (cl_qp c);
  co_mover : forall req, view_connect req = request_view (cl_id c) (cl_param c) (cl_q c) ->
    exists d, dm_connect (dest_of_IP (sin_addr (remote_addr (cl_id c)))) req (cp_private_data (cl_param c)) (cp_private_data_len (cl_param c)) (v_du (cl_v c)) = Ok (0, Some (cl_ctx c)) d }.
Record server_ok (s : server) (request : connect_view) : Prop := mkServerOk {
  so_picks : picks (sv_v s) (sin_addr (cv_dest request)) (sin_port (cv_dest request)) (Some (sv_il s));
  so_id : v_cm_ids (sv_v s) !! sv_il s = Some (sv_idl s);
  so_pool : v_qp_pool (sv_v s) !! cp_qpn (sv_param s) = Some (sv_q s); so_qp : v_qps (sv_v s) !! sv_q s = Some (sv_qp s);
  so_pd : cp_private_data_len (sv_param s) <= MUDM_MAX_PRIVATE_DATA;
  so_mover : forall rsp, length rsp = SIZEOF_ionet_connect ->
    exists d, dm_conn_reply (sv_ctx s) rsp (cp_private_data (sv_param s)) (u16 (cp_private_data_len (sv_param s))) (v_du (sv_v s)) = Ok 0 d }.

(** What the two ends have after the handshake. *)
Record served (s : server) (request : connect_view) (b : Z) (e : iw_cm_event) (w2 : V) : Prop := mkServed {
  sd_qp : exists qp, v_qps w2 = <[sv_q s := qp]> (v_qps (sv_v s)) /\ connected (sv_cm2 s) (sv_ctx s) qp /\
    dest_qp_num (ib_qp_attrs qp) = cv_dest_qpn request;
  sd_trace : v_trace w2 = v_trace (sv_v s) ++ [EvCm (sv_il s) e; EvAddRef (sv_cm2 s); EvCm (sv_cm2 s) (established (core_cm_id e) (sv_param s))];
  sd_ceps : v_ceps w2 = v_ceps (sv_v s) ++ [b] }.
Record joined (c : client) (reply : connect_view) (pd : list Z) (v2 : V) : Prop := mkJoined {
  jd_qp : exists qp, v_qps v2 = <[cl_q c := qp]> (v_qps (cl_v c)) /\ connected (cl_cm c) (cl_ctx c) qp /\
    qp_references qp = qp_references (cl_qp c) /\ dest_qp_num (ib_qp_attrs qp) = cv_dest_qpn reply;
  jd_cep : v_cep v2 = v_cep (cl_v c) /\ v_ceps v2 = v_ceps (cl_v c);
  jd_ids : v_cm_ids v2 = <[cl_cm c := (cl_id c) <| provider_data := None |>]> (v_cm_ids (cl_v c));
  jd_trace : exists a, v_trace v2 = v_trace (cl_v c) ++ [EvAddRef (cl_cm c); EvCm (cl_cm c) (reply_event reply pd a)] }.

Lemma client_joins c pd2 node2 msg2 ctx2 reply a v1 : client_ok c -> (forall n, cm_event_handler n = 0) -> v_cep (cl_v c) !! a = None ->
  connecting_state (cl_cm c) (cl_param c) (cl_id c) (cl_q c) (cl_qp c) (cl_v c) a (Some (cl_ctx c)) v1 ->
  arrives MUDM_CONN_REPLY node2 reply pd2 msg2 -> cv_request_id reply = cl_q c ->
  exists v2, mu_connect_cb ctx2 msg2 v1 = Ok 0 v2 /\ joined c reply pd2 v2.
Proof.
  intros [W Ei Ep Eq Hl Hr Ha Hrf Hm] Hh Fa [Q1 Q2 Q3 Q4 Q5 Q6] Ar Hid. pose proof (cep_wf_fresh _ _ W Fa) as Na.
  destruct (reply_ok ctx2 node2 reply pd2 msg2 v1 a (connecting (cl_q c) (cp_qpn (cl_param c)) (dest_of_IP (sin_addr (remote_addr (cl_id c))))) (cl_q c)
    ((set_context (Some (cl_ctx c)) (cl_qp c)) <| qp_cm_id := Some (cl_cm c) |> <| qp_references := qp_references (cl_qp c) + 1 |>)
    (cl_cm c) ((cl_id c) <| provider_data := Some a |>) Ar) as (v2 & E & [R1 R2 R3 R4 R5 _]).
  - split; [|by rewrite Q2, lookup_insert_eq|by rewrite Hid]. exists (v_ceps (cl_v c)), []. split; [exact Q3|]. apply Forall_forall. intros x Hx%list_elem_of_In.
    rewrite Q2, lookup_insert_ne by congruence. apply (cw_list _ W) in Hx as [cx Ex]. exists cx. split; [done|]. rewrite Hid. by eapply Ha.
  - done.
  - by rewrite Q1, lookup_insert_eq.
  - done.
  - by rewrite Q4, lookup_insert_eq.
  - rewrite Hh in E, R1. exists v2. split; [exact E|]. split.
    + eexists. split; [by rewrite R1, Q1, insert_insert_eq|]. split; [done|]. split; [cbn; lia|done].
    + split; [by rewrite R2, Q2, delete_insert_id|by rewrite R3, Q3, del_last].
    + by rewrite R4, Q4, insert_insert_eq.
    + exists a. rewrite R5, Q5, <- app_assoc. cbn [app]. do 4 f_equal. unfold wakes. cbn. rewrite (proj2 (Z.eqb_neq _ _)) by lia. done.
Qed.

Lemma server_serves {KR : KernelRoomy} s request node pd msg : server_ok s request -> (forall n, cm_event_handler n = 0) -> arrives MUDM_CONN_REQUEST node request pd msg ->
  exists w1 b e rsp w2,
    mu_connect_cb (sv_ctx s) msg (sv_v s) = Ok 0 w1 /\ requested (sv_ctx s) node request pd (sv_il s) (sv_idl s) (sv_v s) b e w1 /\
    bgvrnic_accept (sv_cm2 s) (sv_param s) (new_cm_id (sv_cm2 s) e w1) = Ok 0 w2 /\ served s request b e w2 /\
    view_connect rsp = mkCview (u16 (cp_qpn (sv_param s))) (u16 (cv_source_qpn request)) (port32 (ev_local e)) (port32 (ev_remote e)) (u64 (cv_request_id request)) 0 /\
    dm_conn_reply (sv_ctx s) rsp (cp_private_data (sv_param s)) (u16 (cp_private_data_len (sv_param s))) (v_du (sv_v s)) = Ok 0 (v_du w2).
Proof.
  intros [Sp Si Spool Sq Spd Sm] Hh Ar.
  destruct (request_ok (sv_ctx s) _ _ _ _ _ _ Ar Sp _ Si) as (b & e & n & w1 & Fb & E2 & S2). rewrite Hh in E2. exists w1, b, e.
  pose proof S2 as [(ln & He) R2 R3 R4 (R5 & R6 & R7 & R8)].
  destruct (accept_ok (sv_cm2 s) (sv_param s) (core_cm_id e) (sv_q s) (sv_qp s) b
    (mkCep None (Some (sv_ctx s)) (cv_dest_qpn request) node (cv_request_id request) (cv_source_qpn request) CEP_CONNECTING) (sv_ctx s) (new_cm_id (sv_cm2 s) e w1))
    as (rsp & Lr & Vr & H).
  { apply lookup_insert_eq. } { cbn. by rewrite R8. } { cbn. by rewrite R5. } { done. } { by rewrite He. } { cbn. by rewrite R2, lookup_insert_eq. } { done. }
  destruct (Sm rsp Lr) as [d Hd]. destruct (H 0 d) as (n2 & w2 & E3 & D3 & S3); [cbn; by rewrite R7|].
  rewrite Hh in E3, S3. cbn [Z.eqb andb] in E3, S3. destruct S3 as [A1 A2 (A3 & A4 & A5) A6].
  exists rsp, w2. split; [exact E2|]. split; [exact S2|]. split; [exact E3|]. split.
  - split.
    + eexists. split; [rewrite A1; cbn; by rewrite R5|]. split; [done|].
      done.
    + rewrite A6. cbn. by rewrite R4, <- app_assoc.
    + rewrite A3. exact R3.
  - split; [exact Vr|]. by rewrite D3.
Qed.

(** C3: a connection is set up in three steps, if the data movers and the CM
    cores take part: the client connects; the request reaches the first
    listener for its address, whose CM core is told and accepts; the reply
    reaches the client.  Then both queue pairs can send over the context of
    the data mover, the CM cores have heard of the request and the reply, and
    the client holds no endpoint and no reference more than before.  Each
    side takes the number of the other queue pair from the wrong member: the
    server stores the unknown number of the request, the client its own. *)
Theorem handshake_connects {KR : KernelRoomy} c s node pd msg ctx2 : client_ok c -> (forall n, cm_event_handler n = 0) ->
  let request := request_view (cl_id c) (cl_param c) (cl_q c) in
  server_ok s request -> arrives MUDM_CONN_REQUEST node request pd msg ->
  exists v1 w1 b e w2 reply,
    bgvrnic_connect (cl_cm c) (cl_param c) (cl_v c) = Ok 0 v1 /\
    mu_connect_cb (sv_ctx s) msg (sv_v s) = Ok 0 w1 /\ requested (sv_ctx s) node request pd (sv_il s) (sv_idl s) (sv_v s) b e w1 /\
    bgvrnic_accept (sv_cm2 s) (sv_param s) (new_cm_id (sv_cm2 s) e w1) = Ok 0 w2 /\ served s request b e w2 /\
    view_connect reply = mkCview (u16 (cp_qpn (sv_param s))) (u16 (cp_qpn (cl_param c))) (port32 (ev_local e)) (port32 (ev_remote e)) (cl_q c) 0 /\
    dm_conn_reply (sv_ctx s) reply (cp_private_data (sv_param s)) (u16 (cp_private_data_len (sv_param s))) (v_du (sv_v s)) = Ok 0 (v_du w2) /\
    forall node2 pd2 msg2, arrives MUDM_CONN_REPLY node2 (view_connect reply) pd2 msg2 ->
      exists v2, mu_connect_cb ctx2 msg2 v1 = Ok 0 v2 /\ joined c (view_connect reply) pd2 v2.
Proof.
  intros Hc Hh request Hs Ar. pose proof Hc as [W Ei Ep Eq Hl Hr _ _ Hm].
  destruct (kmalloc_roomy (v_calls (cl_v c)) (in_use (cl_v c))) as [a Ea].
  destruct (connect_ok _ _ _ _ _ _ a Ea W Ei Ep Eq Hl) as (req & Fa & _ & Vr & H1). destruct (Hm req Vr) as [d Hd].
  destruct (H1 0 _ d Hd) as (v1 & E1 & _ & S1). cbn [Z.eqb] in S1.
  destruct (server_serves s request node pd msg Hs Hh Ar) as (w1 & b & e & rsp & w2 & E2 & S2 & E3 & S3 & Vs & Hd2).
  assert (U : forall x, u16 (u16 x) = u16 x) by (intros x; apply Zmod_mod).
  assert (U2 : u64 (u64 (cl_q c)) = cl_q c) by (by rewrite !u64_small by (rewrite ?u64_small; lia)).
  unfold request in Vs. cbn [request_view cv_source_qpn cv_request_id] in Vs. rewrite U, U2 in Vs.
  exists v1, w1, b, e, w2, rsp. split_and!; [done..|].
  intros node2 pd2 msg2 Ar2. eapply client_joins; [done..|]. by rewrite Vs.
Qed.

(** C32: a reply is matched by the request number alone, which is an address
    on the node that asked.  An accepted connection keeps its endpoint, with
    the address its client had, so that a reply for a queue pair of this node
    at the same address goes to the accepted connection: its queue pair loses
    a reference it does not have, its CM ID is told, and the queue pair that
    waits for the reply hears nothing. *)
Theorem reply_misdirected ctx node sent pd msg v a c q qp i id a' c' q' : arrives MUDM_CONN_REPLY node sent pd msg ->
  finds v (cv_request_id sent) a c -> cep_vrnic_qp c = Some q -> v_qps v !! q = Some qp -> qp_cm_id qp = Some i -> v_cm_ids v !! i = Some id ->
  a' <> a -> v_cep v !! a' = Some c' -> a' ∈ v_ceps v -> cep_remote_request_id c' = cv_request_id sent -> cep_vrnic_qp c' = Some q' -> q' <> q ->
  wp (mu_connect_cb ctx msg) (fun rc v' => v_qps v' !! q' = v_qps v !! q' /\ v_cep v' !! a' = Some c' /\ a' ∈ v_ceps v' /\
    v_trace v' = v_trace v ++ [EvCm i (reply_event sent pd a)] ++ wakes q (qp_references qp - 1) /\
    exists qp', v_qps v' !! q = Some qp' /\ qp_references qp' = qp_references qp - 1) v.
Proof.
  intros Ar Hf Hq Eq Hi Ei Ha Ea' Hin _ _ Hq'. destruct (reply_ok ctx node sent pd msg v a c q qp i id Ar Hf Hq Eq Hi Ei) as (v' & E & [R1 R2 R3 R4 R5 _]).
  eapply wp_intro; [exact E|]. split; [by rewrite R1, lookup_insert_ne|]. split; [by rewrite R2, lookup_delete_ne|].
  split; [rewrite R3; by apply elem_of_del|]. split; [done|]. eexists. split; [by rewrite R1, lookup_insert_eq|]. unfold replied. by destruct (_ =? 0).
Qed.
End cm.

(** ** Examples *)

(** A client that connects queue pair 17 to port 100 of 10.65.0.2, where
    queue pair 17 of another node is to accept. *)
Definition demo_id : iw_cm_id := mkCmId (mkAddr 0x0a410001 99) (mkAddr 0x0a410002 100) None.
Definition demo_listener : iw_cm_id := mkCmId (mkAddr 0x0a410002 100) (mkAddr 0 0) None.
Definition demo_param : iw_cm_conn_param := mkParam 17 None 0.
Definition demo_client_v (r : Z) : vnic (list Z) := (demo_vnic [r]) <| v_cm_ids := {[50 := demo_id]} |>.
Definition demo_client : client := mkClient (demo_client_v 0) 50 demo_id demo_param 1 demo_qp 7.
Definition demo_server_v : vnic (list Z) :=
  (demo_vnic [0; 0; 0]) <| v_cm_ids := {[70 := demo_listener]} |> <| v_listeners := [60] |> <| v_listener := {[60 := 70]} |>.
Definition demo_server : server := mkServer demo_server_v 70 demo_listener 71 demo_param 1 demo_qp 3.
Definition demo_message (type : Z) (sent : connect_view) : list Z :=
  wr sb_type type (wr sb_torus_source_node 5 (wr ic_private_data_length 0
    (fill_connect (cv_source_qpn sent) (cv_dest_qpn sent) (cv_source sent) (cv_dest sent) (cv_request_id sent) (cv_status sent) (replicate 72 0)))).
Definition demo_request : connect_view := request_view demo_id demo_param 1.

Lemma demo_cep_wf d (v : vnic (list Z)) : v_ceps v = [] -> v_cep v = ∅ -> v_du v = d -> cep_wf v.
Proof. intros E1 E2 _. split; rewrite E1, ?E2; [constructor|]. intros a. rewrite lookup_empty. split; [by intros ?%elem_of_nil|by intros []]. Qed.
Lemma demo_client_ok : client_ok demo_client.
Proof.
  split; [by apply (demo_cep_wf [0])|by vm_compute..|by split| |by vm_compute|intros req _; by eexists].
  intros x e H. exact (False_ind _ (lookup_empty_Some _ _ H)).
Qed.
Lemma demo_server_ok : server_ok demo_server demo_request.
Proof.
  split; try by vm_compute.
  - exists [], 60, []. split; [done|]. split; [|constructor]. split; [by vm_compute|]. exists demo_listener. split; by vm_compute.
  - intros rsp _. by eexists.
Qed.

Lemma connect_correct_witness : wp (bgvrnic_connect 50 demo_param) (fun rc v' => rc = - EBUSY /\ v_cep v' = ∅ /\ v_trace v' = [EvAddRef 50; EvRemRef 50])
  (demo_client_v (- EBUSY)).
Proof.
  eapply wp_mono.
  - apply (connect_correct 50 demo_param demo_id (demo_client_v (- EBUSY))); [by apply (demo_cep_wf [- EBUSY])|by vm_compute| |].
    + intros q H. vm_compute in H. injection H as <-. eexists. by vm_compute.
    + intros req. do 2 eexists. reflexivity.
  - intros rc v' (qp & req & ctx & Eq & _ & _ & Hd & S). vm_compute in Eq. injection Eq as <-. injection Hd as <- _ _.
    destruct S as [_ S2 _ _ S5 _]. split; [done|]. split; [exact S2|exact S5].
Defined.

Lemma handshake_connects_witness : exists v1 w1 b e w2, bgvrnic_connect 50 demo_param (demo_client_v 0) = Ok 0 v1 /\
  mu_connect_cb 3 (demo_message MUDM_CONN_REQUEST demo_request) demo_server_v = Ok 0 w1 /\
  bgvrnic_accept 71 demo_param (new_cm_id 71 e w1) = Ok 0 w2 /\ served demo_server demo_request b e w2.
Proof.
  destruct (handshake_connects (K := demo_kernel) demo_client demo_server 5 [] (demo_message MUDM_CONN_REQUEST demo_request) 7 demo_client_ok (fun _ => eq_refl) demo_server_ok)
    as (v1 & w1 & b & e & w2 & reply & H1 & H2 & _ & H3 & H4 & _); [split; by vm_compute|].
  exists v1, w1, b, e, w2. split; [exact H1|]. split; [exact H2|]. split; [exact H3|exact H4].
Defined.

(** The server after it has accepted the client at address 1 of the other
    node; queue pair 18 at address 1 of the server connects then. *)
Definition demo_qp18 : bgvrnic_qp := demo_qp <| qp_cm_id := Some 50 |>.
Definition demo_crossed : vnic (list Z) := (demo_vnic []) <| v_qps := {[1 := demo_qp18; 2 := demo_qp <| qp_cm_id := Some 71 |>]} |>
  <| v_cm_ids := {[50 := demo_id; 71 := demo_listener]} |> <| v_ceps := [80; 81] |>
  <| v_cep := {[80 := mkCep (Some 2) (Some 3%nat) 0xffff 5 1 17 CEP_CONNECTED; 81 := connecting 1 18 5]} |>.
Definition demo_reply : connect_view := mkCview 17 18 (mkAddr 0x0a410002 100) (mkAddr 0x0a410001 99) 1 0.
Lemma reply_misdirected_witness : wp (mu_connect_cb 7 (demo_message MUDM_CONN_REPLY demo_reply)) (fun rc v' =>
  v_qps v' !! 1 = Some demo_qp18 /\ v_trace v' = [EvCm 71 (reply_event demo_reply [] 80); EvWakeUp 2]) demo_crossed.
Proof.
  eapply wp_mono.
  - apply (reply_misdirected 7 5 demo_reply [] (demo_message MUDM_CONN_REPLY demo_reply) demo_crossed 80 (mkCep (Some 2) (Some 3%nat) 0xffff 5 1 17 CEP_CONNECTED)
      2 (demo_qp <| qp_cm_id := Some 71 |>) 71 demo_listener 81 (connecting 1 18 5) 1); try done.
    + split; [exists [], [81]; by split; [|constructor]|by vm_compute|done].
    + by right; left.
  - intros rc v' (Q & _ & _ & T & _). split; [by rewrite Q|by rewrite T].
Defined.
