(* ===== verification/VerbsCep.v ===== *)
(** * The endpoints of a node

    The list of connection endpoints (CEPs) of bgvrnic_cm.c through any
    sequence of calls: users connect, accept, reject and listen, other nodes
    send messages, and the CM core makes CM IDs. *)

From S2P Require Import Prelude Chain Bytes Descriptor State VerbsMem Verbs VerbsConn VerbsConcrete VerbsLog VerbsRecv VerbsSend VerbsCm.

Section endpoints.
Context {D : Type} {CM : ConnMover D} {K : Kernel} {KL : KernelLaws} {C : CmKernel}.
Abbreviation V := (vnic D).

(** ** The list of endpoints *)

(** [x] is allocated and not on the list. *)
Record list_but (x : option Z) (v : V) : Prop := mkBut {
  lb_NoDup : NoDup (v_ceps v); lb_list : forall b, b ∈ v_ceps v <-> is_Some (v_cep v !! b) /\ Some b <> x;
  lb_some : forall a, x = Some a -> is_Some (v_cep v !! a) }.
Lemma cep_wf_but v : cep_wf v <-> list_but None v.
Proof.
  split; [intros [A B]; split; [done| |done]|intros [A B _]; split; [done|]]; intros b; rewrite B; naive_solver.
Qed.
Definition turns {A} (x : option Z) (m : M V A) (y : option Z) : Prop := forall v r v', m v = Ok r v' -> list_but x v -> list_but y v'.
Lemma turns_bind {A B} x y z (m : M V A) (k : A -> M V B) : turns x m y -> (forall a, turns y (k a) z) -> turns x (bind m k) z.
Proof. intros Hm Hk v r v' H W. binv H a s E. eapply Hk; [exact H|]. by eapply Hm. Qed.

(** Computations that leave the endpoints alone. *)
Record quiet (v v' : V) : Prop := mkQuiet {
  qu_list : v_ceps v' = v_ceps v; qu_some : forall a, is_Some (v_cep v' !! a) <-> is_Some (v_cep v !! a) }.
#[export] Instance quiet_preorder : PreOrder quiet.
Proof. split; [done|]. intros v1 v2 v3 [A1 B1] [A2 B2]. split; [congruence|]. intros a. by rewrite B2. Qed.
Lemma quiet_turns {A} x (m : M V A) : respects quiet m -> turns x m x.
Proof.
  intros H v r v' E [W1 W2 W3]. destruct (H _ _ _ E) as [A1 A2]. split; [by rewrite A1|intros b; by rewrite A1, A2|].
  intros a Ha. apply A2. by apply W3.
Qed.
Lemma quiet_fields (v v' : V) : v_ceps v' = v_ceps v -> v_cep v' = v_cep v -> quiet v v'.
Proof. intros E1 E2. split; [done|]. intros a. by rewrite E2. Qed.
Lemma quiet_modify f : (forall v : V, v_ceps (f v) = v_ceps v /\ v_cep (f v) = v_cep v) -> respects quiet (modify f).
Proof. intros H. apply respects_modify. intros v. apply quiet_fields; apply H. Qed.
Lemma quiet_vlift {A} (m : M D A) : respects quiet (vlift m).
Proof. intros v a v'. unfold vlift. destruct (m (v_du v)); [|done..]. intros [= _ <-]. by apply quiet_fields. Qed.
Lemma quiet_upd_cep a u : respects quiet (upd_cep a u).
Proof.
  unfold upd_cep, get_cep. refine (respects_bind _ _ _ _ _); [respects_tac|intros _]. apply respects_modify. intros v. split; [done|].
  intros b. apply lookup_alter_is_Some.
Qed.
Lemma quiet_find_listener address port l : respects quiet (find_listener address port l).
Proof. induction l as [|x l IH]; cbn [find_listener]; [apply respects_ret, _|]. unfold get_cm_id. respects_tac. exact IH. Qed.

Ltac quiet_step :=
  first [respects_step | apply quiet_vlift | apply quiet_upd_cep | apply quiet_find_listener
        | apply quiet_modify; intros; done].
Ltac quiet_tac := unfold event_handler, qp_event, new_connect, set_provider, upd_cm_id, get_cm_id, bgvrnic_add_ref, bgvrnic_rem_ref, upd_qp, get_qp, get_cep,
  vcall, vemit, bgvrnic_get_qp, private_data_of, read_field, read_bytes; repeat quiet_step.

Lemma turns_insert {B} x c (k : M V B) v r v' : list_but None v -> v_cep v !! x = None ->
  turns (Some x) k None -> (modify (fun v => v <| v_cep ::= <[x := c]> |>) ;;; k) v = Ok r v' -> list_but None v'.
Proof.
  intros [W1 W2 W3] Hx Hk H. binv H u s E. injection E as _ <-. eapply Hk; [exact H|]. split; cbn; [done| |].
  - intros b. destruct (decide (b = x)) as [->|Hb].
    + rewrite W2, lookup_insert_eq, Hx. split; [intros [[? ?] _]; done|by intros [_ ?]].
    + rewrite W2, lookup_insert_ne by done. naive_solver.
  - intros a [= <-]. rewrite lookup_insert_eq. by eexists.
Qed.
Lemma turns_add a : turns (Some a) (add_cep a) None.
Proof.
  intros v r v' [= _ <-] [W1 W2 W3]. split; cbn; [|intros b|done].
  - apply list.NoDup_app. split; [done|]. split; [|apply NoDup_singleton]. intros b Hb ->%list_elem_of_singleton. by apply W2 in Hb as [_ ?].
  - rewrite elem_of_app, list_elem_of_singleton, W2. pose proof (W3 a eq_refl). destruct (decide (b = a)) as [->|]; naive_solver.
Qed.
Lemma turns_unlink a : turns None (unlink_cep a) (Some a).
Proof.
  intros v r v' H [W1 W2 W3]. unfold unlink_cep, get_cep in H. binv H c s E. binv E o s1 E1. injection E1 as <- <-. apply deref_inv in E as [E ->].
  injection H as _ <-. split; cbn; [by apply NoDup_del|intros b|intros b [= <-]; by eexists].
  change (b ∈ del a (v_ceps v) <-> is_Some (v_cep v !! b) /\ Some b <> Some a). rewrite elem_of_del, W2. naive_solver.
Qed.
Lemma turns_kfree a : turns (Some a) (kfree_cep a) None.
Proof.
  intros v r v' H [W1 W2 W3]. unfold kfree_cep, get_cep in H. binv H c s E. binv E o s1 E1. injection E1 as <- <-. apply deref_inv in E as [E ->].
  injection H as _ <-. split; cbn; [done|intros b|done]. rewrite W2. destruct (decide (b = a)) as [->|Hb].
  - rewrite lookup_delete_eq. split; [by intros [_ ?]|by intros [[? ?] _]].
  - rewrite lookup_delete_ne by done. naive_solver.
Qed.

Ltac turns_step :=
  lazymatch goal with
  | |- turns _ (bind (add_cep _) _) _ => eapply turns_bind; [apply turns_add|intros ?]
  | |- turns _ (bind (unlink_cep _) _) _ => eapply turns_bind; [apply turns_unlink|intros ?]
  | |- turns _ (bind (kfree_cep _) _) _ => eapply turns_bind; [apply turns_kfree|intros ?]
  | |- turns _ (kfree_cep _) _ => apply turns_kfree
  | |- turns ?x (bind _ _) _ => apply (turns_bind x x); [first [solve [apply quiet_turns; quiet_tac] | turns_tac]|intros ?]
  | |- turns _ (if ?b then _ else _) _ => destruct b
  | |- turns _ (match ?x with _ => _ end) _ => destruct x
  | |- turns _ (let '_ := ?x in _) _ => destruct x
  | |- _ => solve [apply quiet_turns; quiet_tac]
  end
with turns_tac := repeat turns_step.

Lemma connect_turns cm_id p : turns None (bgvrnic_connect cm_id p) None.
Proof.
  intros v r v' H W. unfold bgvrnic_connect in H. binv H o s E. apply valloc_inv in E as [-> U].
  destruct o as [a|]; [|injection H as _ <-; by destruct W; split].
  revert H. apply turns_insert; [by destruct W; split|apply U|]. cbv zeta. turns_tac.
Qed.
Lemma accept_turns cm_id p : turns None (bgvrnic_accept cm_id p) None.
Proof. unfold bgvrnic_accept. cbv zeta. turns_tac. Qed.
Lemma reject_turns cm_id pd len : turns None (bgvrnic_reject cm_id pd len) None.
Proof. unfold bgvrnic_reject. turns_tac. Qed.
Lemma listen_quiet cm_id backlog : respects quiet (bgvrnic_create_listen cm_id backlog).
Proof. unfold bgvrnic_create_listen, valloc. quiet_tac. Qed.
Lemma unlisten_quiet cm_id : respects quiet (bgvrnic_destroy_listen cm_id).
Proof.
  unfold bgvrnic_destroy_listen. repeat quiet_step. match goal with |- respects _ (destroy_listen_loop _ ?l) => induction l as [|x l IH] end; cbn [destroy_listen_loop]; quiet_tac.
  apply IH.
Qed.
Lemma find_cep_quiet id l : respects quiet (find_cep id l).
Proof. induction l as [|x l IH]; cbn [find_cep]; quiet_tac. apply IH. Qed.
Lemma message_turns ctx msg : turns None (mu_connect_cb ctx msg) None.
Proof.
  unfold mu_connect_cb. apply (turns_bind None None); [solve [apply quiet_turns; quiet_tac]|intros type].
  destruct (type =? _); [|destruct (type =? _); [|destruct (type =? _)]].
  - unfold conn_request. do 10 (apply (turns_bind None None); [solve [apply quiet_turns; quiet_tac]|intros ?]).
    match goal with |- turns _ (match ?x with _ => _ end) _ => destruct x as [i|] end; [|solve [apply quiet_turns; quiet_tac]].
    intros v r v' H W. binv H o s E. apply valloc_inv in E as [-> U].
    destruct o as [cep|]; [|injection H as _ <-; by destruct W; split]. revert H. apply turns_insert; [by destruct W; split|apply U|]. turns_tac.
  - unfold conn_reply. apply (turns_bind None None); [solve [apply quiet_turns; quiet_tac]|intros id].
    apply (turns_bind None None); [solve [apply quiet_turns; quiet_tac]|intros l]. apply (turns_bind None None); [apply quiet_turns, find_cep_quiet|intros ?]. turns_tac.
  - unfold conn_disconnected. turns_tac.
  - turns_tac.
Qed.

Inductive cm_run (v0 : V) : V -> Prop :=
| cm_start : cm_run v0 v0
| cm_next v m r v' : cm_run v0 v -> cm_call m -> m v = Ok r v' -> cm_run v0 v'.

(** C4: whatever the users, the CM core and the other nodes do, and whichever
    calls of [kmalloc] are refused, the list of endpoints holds exactly the
    endpoints that are allocated, each once: none is leaked off the list,
    freed while on it or listed twice. *)
Theorem endpoints_listed v0 v : cep_wf v0 -> cm_run v0 v -> cep_wf v.
Proof.
  intros W. induction 1 as [|v m r v' _ IH Hm E]; [done|]. apply cep_wf_but in IH. apply cep_wf_but.
  refine ((_ : turns None m None) _ _ _ E IH). destruct Hm.
  - apply connect_turns.
  - apply accept_turns.
  - apply reject_turns.
  - apply quiet_turns, listen_quiet.
  - apply quiet_turns, unlisten_quiet.
  - apply message_turns.
  - apply quiet_turns. quiet_tac.
Qed.
End endpoints.

(** ** Example *)

(** A client connects; the reply is lost and it connects again. *)
Definition demo_twice : vnic (list Z) := after (bgvrnic_connect 50 demo_param) (after (bgvrnic_connect 50 demo_param) ((demo_client_v 0) <| v_du := [0; 0] |>)).
Lemma endpoints_listed_witness : cep_wf demo_twice /\ length (v_ceps demo_twice) = 2%nat.
Proof.
  split; [|by vm_compute]. apply (endpoints_listed ((demo_client_v 0) <| v_du := [0; 0] |>)); [by apply (demo_cep_wf [0; 0])|].
  eapply (cm_next _ (after (bgvrnic_connect 50 demo_param) ((demo_client_v 0) <| v_du := [0; 0] |>)) _ 0); [|apply (cm_connect 50 demo_param)|by vm_compute].
  eapply (cm_next _ _ _ 0); [apply cm_start|apply (cm_connect 50 demo_param)|by vm_compute].
Defined.
