(* ===== verification/VerbsAttr.v ===== *)
(** * Attributes and end of a queue pair: theorems

    What [bgvrnic_query_qp] reads is what [bgvrnic_modify_qp] stored, and
    what is left of a queue pair that is destroyed while it sends
    (bgvrnic_verbs.c; the model is in VerbsQp). *)

From S2P Require Import Prelude Chain Bytes Descriptor State Connect VerbsMem Verbs VerbsConn VerbsQp VerbsConcrete VerbsLog VerbsRecv VerbsSend VerbsCm.

(** ** One attribute at a time *)

Lemma on_proj {B} (f : ib_qp_attr -> B) b u a : f (on b u a) = if b then f (u a) else f a.
Proof. by destruct b. Qed.
Lemma if_same {B} (b : bool) (x : B) : (if b then x else x) = x.
Proof. by destruct b. Qed.
Lemma attr_eta a : a = mkAttr (qp_state a) (cur_qp_state a) (path_mtu a) (path_mig_state a) (qkey a) (rq_psn a) (sq_psn a)
    (dest_qp_num a) (qp_access_flags a) (cap a) (pkey_index a) (en_sqd_async_notify a) (sq_draining a)
    (max_rd_atomic a) (max_dest_rd_atomic a) (min_rnr_timer a) (port_num a) (timeout a) (retry_cnt a) (rnr_retry a).
Proof. by destruct a. Qed.
Ltac attr_field f := repeat (rewrite (on_proj f); cbn; rewrite ?if_same).
Ltac attr_fields :=
  attr_field qp_state; attr_field cur_qp_state; attr_field path_mtu; attr_field path_mig_state; attr_field qkey; attr_field rq_psn;
  attr_field sq_psn; attr_field dest_qp_num; attr_field qp_access_flags; attr_field cap; attr_field pkey_index; attr_field en_sqd_async_notify;
  attr_field sq_draining; attr_field max_rd_atomic; attr_field max_dest_rd_atomic; attr_field min_rnr_timer; attr_field port_num;
  attr_field timeout; attr_field retry_cnt; attr_field rnr_retry.

Definition pick {B} (m : attr_mask) (n a : ib_qp_attr) (b : ib_qp_attr_bit) (f : ib_qp_attr -> B) : B := if m b then f n else f a.
Lemma set_attrs_spec m n a :
  set_attrs m n a = mkAttr (qp_state a) (cur_qp_state a) (pick m n a IB_QP_PATH_MTU path_mtu) (pick m n a IB_QP_PATH_MIG_STATE path_mig_state) (pick m n a IB_QP_QKEY qkey)
    (pick m n a IB_QP_RQ_PSN rq_psn) (pick m n a IB_QP_SQ_PSN sq_psn) (pick m n a IB_QP_DEST_QPN dest_qp_num) (pick m n a IB_QP_ACCESS_FLAGS qp_access_flags) (pick m n a IB_QP_CAP cap)
    (pick m n a IB_QP_PKEY_INDEX pkey_index) (pick m n a IB_QP_EN_SQD_ASYNC_NOTIFY en_sqd_async_notify) (sq_draining a) (pick m n a IB_QP_MAX_QP_RD_ATOMIC max_rd_atomic)
    (pick m n a IB_QP_MAX_DEST_RD_ATOMIC max_dest_rd_atomic) (pick m n a IB_QP_MIN_RNR_TIMER min_rnr_timer) (pick m n a IB_QP_PORT port_num) (pick m n a IB_QP_TIMEOUT timeout)
    (pick m n a IB_QP_RETRY_CNT retry_cnt) (pick m n a IB_QP_RNR_RETRY rnr_retry).
Proof. rewrite (attr_eta (set_attrs m n a)). unfold set_attrs, pick. cbv zeta. attr_fields. done. Qed.
Lemma get_attrs_spec m a u :
  get_attrs m a u = mkAttr (pick m a u IB_QP_STATE qp_state) (pick m a u IB_QP_CUR_STATE cur_qp_state) (pick m a u IB_QP_PATH_MTU path_mtu) (pick m a u IB_QP_PATH_MIG_STATE path_mig_state)
    (pick m a u IB_QP_QKEY qkey) (pick m a u IB_QP_RQ_PSN rq_psn) (pick m a u IB_QP_SQ_PSN sq_psn) (pick m a u IB_QP_DEST_QPN dest_qp_num) (pick m a u IB_QP_ACCESS_FLAGS qp_access_flags)
    (pick m a u IB_QP_CAP cap) (pick m a u IB_QP_PKEY_INDEX pkey_index) (pick m a u IB_QP_EN_SQD_ASYNC_NOTIFY en_sqd_async_notify) (sq_draining u)
    (pick m a u IB_QP_MAX_QP_RD_ATOMIC max_rd_atomic) (pick m a u IB_QP_MAX_DEST_RD_ATOMIC max_dest_rd_atomic) (pick m a u IB_QP_MIN_RNR_TIMER min_rnr_timer)
    (pick m a u IB_QP_PORT port_num) (pick m a u IB_QP_TIMEOUT timeout) (pick m a u IB_QP_RETRY_CNT retry_cnt) (pick m a u IB_QP_RNR_RETRY rnr_retry).
Proof. rewrite (attr_eta (get_attrs m a u)). unfold get_attrs, pick. cbv zeta. attr_fields. done. Qed.

Section qp.
Context {D : Type} {DM : DataMover D} {CM : ConnMover D} {K : Kernel} {KL : KernelLaws} {C : CmKernel} {CL : CmKernelLaws}.
Abbreviation V := (vnic D).

(** The attributes after a modification that goes through, the draining of
    the send queue aside. *)
Definition modified (mask : attr_mask) (new a : ib_qp_attr) : ib_qp_attr :=
  get_attrs (fun b => mask b && match b with IB_QP_AV => false | _ => true end) new a.
Definition allowed (qp : bgvrnic_qp) (mask : attr_mask) (state : option ib_qp_state) (new : ib_qp_attr) : Prop :=
  (mask IB_QP_STATE = true -> state = Some (qp_state new) /\ qp_state new <> IB_QPS_SQD /\ (qp_state new = IB_QPS_RTS -> is_Some (qp_mu_context qp))) /\
  (mask IB_QP_CUR_STATE = true -> cur_state_ok (cur_qp_state new) = true).

Lemma modify_qp_ok q qp state new mask v : v_qps v !! q = Some qp -> allowed qp mask state new ->
  exists v', bgvrnic_modify_qp q state new mask v = Ok (0, new) v' /\ v_qps v' = <[q := qp <| ib_qp_attrs ::= modified mask new |>]> (v_qps v).
Proof.
  intros Eq [Hs Hc]. unfold bgvrnic_modify_qp.
  assert (X : exists v1, (if mask IB_QP_STATE then
      match state with
      | None => ret (inr (- EINVAL))
      | Some s =>
        qp <- get_qp q ;;
        if bool_decide (s = IB_QPS_RTS) && match qp_mu_context qp with None => true | Some _ => false end then ret (inr (- EINVAL)) else
        o <- (if bool_decide (s = IB_QPS_SQD) then d <- drain q ;; ret (fst d, new <| sq_draining := snd d |>) else ret (0, new)) ;;
        upd_qp q (set_qp_state s) ;;;
        ret (inl o)
      end
    else ret (inl (0, new))) v = Ok (inl (0, new)) v1 /\
    v_qps v1 = <[q := if mask IB_QP_STATE then set_qp_state (qp_state new) qp else qp]> (v_qps v)).
  { destruct (mask IB_QP_STATE).
    - destruct (Hs eq_refl) as (-> & Hd & Hr). erewrite bind_ok by by apply (get_qp_ok q qp).
      assert (E : bool_decide (qp_state new = IB_QPS_RTS) && match qp_mu_context qp with None => true | Some _ => false end = false).
      { case_bool_decide as H; [|done]. destruct (Hr H) as [c ->]. done. }
      rewrite E, (bool_decide_false (qp_state new = IB_QPS_SQD)) by done. erewrite bind_ok by reflexivity. erewrite bind_ok by by apply (upd_qp_ok q _ qp).
      eexists. split; [reflexivity|]. cbn. by rewrite (alter_eq_insert _ _ _ _ Eq).
    - exists v. split; [done|]. by rewrite insert_id. }
  destruct X as (v1 & E1 & Q1). erewrite bind_ok by exact E1. cbv beta iota.
  assert (E : mask IB_QP_CUR_STATE && negb (cur_state_ok (cur_qp_state new)) = false) by (destruct (mask IB_QP_CUR_STATE); [by rewrite Hc|done]).
  rewrite E. set (qp1 := if mask IB_QP_STATE then set_qp_state (qp_state new) qp else qp) in *.
  assert (Eq1 : v_qps v1 !! q = Some qp1) by (by rewrite Q1, lookup_insert_eq).
  assert (X : exists v2, when (mask IB_QP_CUR_STATE) (upd_qp q (fun qp => qp <| ib_qp_attrs ::= (fun a => a <| cur_qp_state := cur_qp_state new |>) |>)) v1 = Ok tt v2 /\
    v_qps v2 = <[q := if mask IB_QP_CUR_STATE then qp1 <| ib_qp_attrs ::= (fun a => a <| cur_qp_state := cur_qp_state new |>) |> else qp1]> (v_qps v)).
  { destruct (mask IB_QP_CUR_STATE); cbn [when].
    - eexists. split; [by apply (upd_qp_ok q _ qp1)|]. cbn. by rewrite Q1, alter_insert_eq.
    - exists v1. by split. }
  destruct X as (v2 & E2 & Q2). erewrite bind_ok by exact E2. erewrite bind_ok by (eapply upd_qp_ok; by rewrite Q2, lookup_insert_eq).
  eexists. split; [reflexivity|]. cbn. rewrite Q2, alter_insert_eq. f_equal. unfold modified. subst qp1. destruct qp as [x1 a x2 x3 x4 x5 x6 x7 x8 x9].
  unfold upd_field, set_qp_state. rewrite get_attrs_spec.
  destruct (mask IB_QP_STATE) eqn:M1, (mask IB_QP_CUR_STATE) eqn:M2; unfold upd_field; cbn; f_equal;
    rewrite set_attrs_spec; unfold pick; cbn; by rewrite ?andb_true_r, ?M1, ?M2.
Qed.

(** C30: what [bgvrnic_modify_qp] stores is what [bgvrnic_query_qp] reads: a
    query gives, for each attribute asked for, the new value if the
    attribute was modified and the old one if not, and leaves the rest of
    the user's structure alone. *)
Theorem modify_query_roundtrip q qp state new mask u mask' v : v_qps v !! q = Some qp -> allowed qp mask state new -> mask' IB_QP_AV = false ->
  wp (bgvrnic_modify_qp q state new mask) (fun r v' => r = (0, new) /\
    wp (bgvrnic_query_qp q u mask') (fun r' v'' => v'' = v' /\
      r' = (0, get_attrs (fun b => mask b && mask' b) new (get_attrs mask' (ib_qp_attrs qp) u), ib_qp_init_attrs qp)) v') v.
Proof.
  intros Eq Ha Hav. destruct (modify_qp_ok q qp state new mask v Eq Ha) as (v' & E & Q). eapply wp_intro; [exact E|]. split; [done|].
  eapply wp_intro; [unfold bgvrnic_query_qp; erewrite bind_ok by (apply get_qp_ok; by rewrite Q, lookup_insert_eq); reflexivity|].
  split; [done|]. f_equal. f_equal. cbn. unfold modified. rewrite !get_attrs_spec. unfold pick. cbn. rewrite !andb_true_r.
  f_equal; repeat match goal with |- context [mask ?b] => destruct (mask b) end; by repeat match goal with |- context [mask' ?b] => destruct (mask' b) end.
Qed.

(** A queue pair is destroyed without regard to its work requests: when
    a send is still under way, the status that the data mover reports for it
    later is that of an entry whose queue pair is freed memory. *)
Theorem destroy_outstanding_fault q qp a w status v : v_qps v !! q = Some qp -> qp_cm_id qp = None -> qp_references qp = 1 ->
  v_wqes v !! a = Some w -> w_vrnic_qp w = q -> w_type w = WQET_SEND ->
  wp (bgvrnic_destroy_qp q) (fun rc v' => rc = 0 /\ v_wqes v' !! a = Some w /\ mu_status_cb [(a, status)] v' = Fault) v.
Proof.
  intros Eq Hc Hr Ew Hq Ht. eapply wp_intro.
  - unfold bgvrnic_destroy_qp. erewrite bind_ok by by apply (get_qp_ok q qp). erewrite bind_ok by reflexivity.
    erewrite bind_ok by by apply (upd_qp_ok q _ qp). rewrite Hr, Hc.
    change (negb (1 - 1 <=? 1)) with false. cbv iota. erewrite bind_ok by reflexivity. erewrite bind_ok by reflexivity. reflexivity.
  - split; [done|]. split; [exact Ew|]. cbn [mu_status_cb]. unfold status_one, bind at 1.
    erewrite bind_ok by by apply (get_wqe_ok a w). rewrite Ht. cbv zeta. erewrite bind_ok by by apply (upd_wqe_ok a _ w).
    unfold bgvrnic_process_send_wqes, get_qp, bind, gets, deref. cbn. by rewrite Hq, lookup_delete_eq.
Qed.

(** A reply for an endpoint whose queue pair is freed memory. *)
Lemma stale_reply_fault ctx node sent pd msg v a c q : arrives MUDM_CONN_REPLY node sent pd msg -> finds v (cv_request_id sent) a c ->
  cep_vrnic_qp c = Some q -> v_qps v !! q = None -> mu_connect_cb ctx msg v = Fault.
Proof.
  intros A Hf Hq Eq. pose proof A as [L T _ Vw _]. pose proof (fd_cep _ _ _ _ Hf) as Ec. unfold mu_connect_cb.
  assert (R : forall f (v : V), (f_end f <= 72)%nat -> read_field f msg v = Ok (rd f msg) v).
  { intros f v0 Hf'. apply read_field_ok. rewrite L. unfold SIZEOF_ionet_connect. lia. }
  erewrite bind_ok by (apply R; cbn; lia). rewrite T. cbn [Z.eqb MUDM_CONN_REQUEST MUDM_CONN_REPLY Pos.eqb]. unfold conn_reply.
  subst sent. erewrite bind_ok by (apply R; cbn; lia). erewrite bind_ok by reflexivity. erewrite bind_ok by by apply (find_cep_ok v _ a c). cbv iota.
  do 5 erewrite bind_ok by (apply R; cbn; lia). erewrite bind_ok by (by eapply private_data_ok).
  erewrite bind_ok by by apply (get_cep_ok a c). rewrite Hq. erewrite bind_ok by reflexivity.
  unfold get_qp, bind, gets, deref. by rewrite Eq.
Qed.

(** C31: a queue pair that is destroyed while it waits for the reply to its
    connection request is freed although the endpoint of the request still
    refers to it: the two references are one too few to wait for, the
    endpoint stays on the list with a pointer to the freed queue pair, and a
    reply that is matched to it is a use of freed memory. *)
Theorem destroy_connecting_fault q qp a c i id ctx req (v : V) : v_qps v !! q = Some qp -> qp_references qp = 2 ->
  finds v req a c -> cep_vrnic_qp c = Some q -> qp_cm_id qp = Some i -> v_cm_ids v !! i = Some id ->
  qp_mu_context qp = Some ctx -> qp_state (ib_qp_attrs qp) <> IB_QPS_RTS -> (exists r d, dm_disconnect ctx (v_du v) = Ok r d) ->
  wp (bgvrnic_destroy_qp q) (fun rc v' => rc = 0 /\ v_qps v' !! q = None /\ finds v' req a c /\
    forall ctx2 node sent pd msg, arrives MUDM_CONN_REPLY node sent pd msg -> cv_request_id sent = req -> mu_connect_cb ctx2 msg v' = Fault) v.
Proof.
  intros Eq Hr Hf Hq Hi Ei Hc Hs (r & d & Hd).
  assert (X : exists v', bgvrnic_destroy_qp q v = Ok 0 v' /\ v_qps v' !! q = None /\ finds v' req a c).
  { eexists. split; [|split].
    - unfold bgvrnic_destroy_qp. erewrite bind_ok by by apply (get_qp_ok q qp). erewrite bind_ok by reflexivity.
      erewrite bind_ok by by apply (upd_qp_ok q _ qp). rewrite Hr, Hi, Hc. change (negb (2 - 1 <=? 1)) with false. cbv iota.
      erewrite bind_ok; [|erewrite bind_ok by reflexivity; erewrite bind_ok by (unfold vlift; cbn; rewrite Hd; reflexivity);
        rewrite bool_decide_false by done; erewrite bind_ok by reflexivity; erewrite bind_ok by reflexivity;
        erewrite bind_ok by (eapply (upd_qp_ok q); cbn; by rewrite lookup_alter_eq, Eq); reflexivity].
      erewrite bind_ok by reflexivity. reflexivity.
    - cbn. apply lookup_delete_eq.
    - by destruct Hf; split. }
  destruct X as (v' & E & Q & F). eapply wp_intro; [exact E|]. split; [done|]. split; [done|]. split; [done|].
  intros ctx2 node sent pd msg A <-. by eapply stale_reply_fault.
Qed.
End qp.

(** ** Examples *)

Definition demo_mask (b : ib_qp_attr_bit) : bool := match b with IB_QP_STATE | IB_QP_QKEY | IB_QP_PORT => true | _ => false end.
Definition demo_new : ib_qp_attr := demo_attr <| qp_state := IB_QPS_ERR |> <| qkey := 77 |> <| port_num := 2 |> <| timeout := 9 |>.
Definition demo_ask (b : ib_qp_attr_bit) : bool := match b with IB_QP_STATE | IB_QP_QKEY | IB_QP_TIMEOUT => true | _ => false end.
Lemma modify_query_roundtrip_witness : wp (bgvrnic_modify_qp (DM := scripted) 1 (Some IB_QPS_ERR) demo_new demo_mask) (fun r v' => r = (0, demo_new) /\
  wp (bgvrnic_query_qp 1 demo_attr demo_ask) (fun r' v'' => r' = (0, demo_attr <| qp_state := IB_QPS_ERR |> <| qkey := 77 |>, ib_qp_init_attrs demo_qp)) v') (demo_vnic []).
Proof.
  eapply wp_mono.
  - apply (modify_query_roundtrip 1 demo_qp (Some IB_QPS_ERR) demo_new demo_mask demo_attr demo_ask (demo_vnic [])); [by vm_compute| |done].
    split; [by intros _; split_and!|done].
  - intros r v' [-> H]. split; [done|]. eapply wp_mono; [exact H|]. intros r' v'' [_ ->]. done.
Defined.

Lemma destroy_outstanding_fault_witness : wp (bgvrnic_destroy_qp 1) (fun rc v' => rc = 0 /\ mu_status_cb [(100, 0)] v' = Fault)
  ((demo_vnic []) <| v_wqes := {[100 := new_wqe 1 (demo_send 21 0x1000 4 IB_WR_SEND)]} |> <| v_qps := {[1 := demo_qp <| qp_sq := [100] |>]} |> : vnic (list Z)).
Proof.
  eapply wp_mono; [apply (destroy_outstanding_fault 1 (demo_qp <| qp_sq := [100] |>) 100 (new_wqe 1 (demo_send 21 0x1000 4 IB_WR_SEND)) 0); by vm_compute|].
  intros rc v' (-> & _ & H). by split.
Defined.


(** Queue pair 17 has just asked for a connection. *)
Definition demo_waiting : vnic (list Z) := after (bgvrnic_connect 50 demo_param) (demo_client_v 0).
Definition demo_cep : Z := hd 0 (v_ceps demo_waiting).
Definition demo_waiting_qp : bgvrnic_qp := demo_qp <| qp_cm_id := Some 50 |> <| qp_references := 2 |> <| qp_mu_context := Some 7%nat |>
  <| ib_qp_attrs ::= fun a => a <| qp_state := IB_QPS_INIT |> |>.
Lemma destroy_connecting_fault_witness : wp (bgvrnic_destroy_qp 1) (fun rc v' => rc = 0 /\ mu_connect_cb 7 (demo_message MUDM_CONN_REPLY demo_reply) v' = Fault)
  (demo_waiting <| v_qps := {[1 := demo_waiting_qp]} |>).
Proof.
  eapply wp_mono.
  - apply (destroy_connecting_fault 1 demo_waiting_qp demo_cep (connecting 1 17 (dest_of_IP 0x0a410002)) 50 (demo_id <| provider_data := Some demo_cep |>) 7 1);
      [by vm_compute|done| |done..| | |done|].
    + split; [exists [], []; by split; [vm_compute|constructor]|by vm_compute|done].
    + by vm_compute.
    + done.
    + do 2 eexists. reflexivity.
  - intros rc v' (-> & _ & _ & H). split; [done|]. apply (H 7%nat 5 demo_reply []); [split; by vm_compute|done].
Defined.
